(* ===== verification/_CoqProject ===== *)
-Q . S2P
Common.v
Unit.v
Record.v
RecordId.v
Hash.v
Stack.v
Timeline.v
Graph.v
Sample.v
Config.v
StateApi.v
Trace.v
TraceWf.v
GraphHook.v
Report.v
TraceJson.v
TraceReport.v
Lifecycle.v
Session.v
