(* ===== verification/Common.v ===== *)
(** * A verification development for lmprof, an in-process Lua profiler

    This library models, as executable Rocq definitions, the C sources of
    lmprof (src/src/...) and proves the properties that make its core
    components correct.  Records, profile stacks and trace events are
    memory objects referenced by pointers in C; the development keeps that
    aliasing explicit: records live in a shared heap ([gmap nat]) that the
    hashtable buckets, the stack frames and the trace events all point into,
    and trace events are addressed by their [(page, slot)] position.

    ** The program and how its parts interact

    lmprof attaches to a Lua state through its debug hook and allocator
    slot.  Every hook callback (lmprof_lib.c: graph_instrument,
    traceevent_instrument) samples the clock, looks up or creates the
    activation record of the called function in a hashtable
    (collections/lmprof_collections.c: lmprof_hash_get, lmprof_hash_insert,
    reached through lmprof.c: lmprof_fetch_record), pushes or pops a frame
    on the thread's profile stack (lmprof_stack_measured_push / _pop), and
    in trace mode appends events to a paged timeline (timeline_allocpage and
    the traceevent_* emitters).  At the end of a session the timeline is
    adjusted (timeline_adjust) and compressed (timeline_compress) before the
    report is emitted.

    ** Files (in dependency order, as listed in _CoqProject)

    - [Common]   (this file) 64-bit wrap-around arithmetic on [Z] (lu_time,
                 lu_size and lu_addr are 64-bit unsigned in lmprof_conf.h),
                 the [lmprof] hint database, shared tactics (by_eval,
                 zcases, range_facts) and lemmas on lists and maps.
    - [Unit]     lmprof_EventUnit / lmprof_EventMeasurement with unit_clear,
                 unit_add_to, unit_sub, unit_allocated (lmprof_record.h),
                 lmprof_clock_diff (lmprof_conf.h) and the allocator
                 trampoline alloc_hook (lmprof_lib.c).
    - [Record]   lmprof_Record and its function-info flags, the record heap,
                 lmprof_record_clear_graph_statistics, the line hit of
                 graph_instrument, lmprof_record_sanitize, and the
                 [RecordTable] class: the interface the hooks use to intern
                 records, stated against an abstract finite map.
    - [RecordId] function identifiers (collections/lmprof_record.c): the
                 string hashes lmprof_jenkins and lmprof_Shash on 64-bit
                 words, and lmprof_record_id, whose interpreter inputs
                 (lua_tocfunction, lua_topointer, the lua_Debug fields) are
                 a record [IdInput].
    - [Hash]     the record hashtable: to_identifier, to_bucket,
                 lmprof_hash_create/get/insert/clear_statistics; its
                 [RecordTable] instance discharges the interface, and
                 [run_hash] / [run_map] run operation sequences on the table
                 and on the map it represents.
    - [Stack]    the profile stack: lmprof_stack_next/peek/parent/pop and
                 the measured push/pop of graph mode, with the timing
                 invariant that makes self time never exceed total time.
    - [Timeline] the paged trace-event log: timeline_new,
                 timeline_allocpage, the emitters, timeline_canbuffer,
                 timeline_adjust and timeline_compress, and the step
                 relation [tl_step] of emitter calls.
    - [Graph]    the graph profiler on one call stack (lmprof_lib.c):
                 lmprof_fetch_record, the entry of graph_prehook after its
                 state checks ([hook_entry]) and the call/return/line/count
                 cases of graph_instrument ([graph_dispatch]) on a state
                 record [GState] (table, heap, allocator, stack, clock unit,
                 flags); generic over any [RecordTable].
    - [Sample]   lmprof_sample_stack, the stack walk of the sampling hook;
                 the walk of lua_getstack is an input list of levels.
    - [Config]   mode parsing (lmprof_parsemode) and the library options
                 (lmprof_set_option / lmprof_get_option) over the registry.
    - [StateApi] the profiler object (lmprof_State as [PState]): its creation
                 by lmprof_initialize_state from the registry defaults and
                 the methods getstate, getmode, setmode, getoption and
                 setoption.
    - [Trace]    the trace-event hooks in a state-and-error monad [hook]
                 (Done / Raised for lua_error / Fault for a NULL
                 dereference): traceevent_prehook, traceevent_instrument,
                 the stack save/append/clear, pause and resume,
                 traceevent_frame, lmprof_thread_stacktable_get.
    - [TraceWf]  the invariant of the trace state, a weakest-precondition
                 style predicate [okR] over hook outcomes, and the
                 reachability of the invariant under the step relation of
                 hook calls, pauses, resumes and frames.
    - [GraphHook] the whole graph hooks in the monad of Trace.v:
                 graph_prehook (the mode, error, running, single-thread and
                 ignored-call tests, the change of thread that sets the
                 call stack to NULL and, with instrumentation, fetches the
                 thread's stack from the registry), graph_instrument and
                 graph_sample, with the step relation of graph hook calls.
    - [Report]   the graph report (lmprof_report.c): the per-record callback
                 graph_hash_callback in its table and file branches,
                 profiler_header, graph_report, lmprof_push_report and the
                 table case of lmprof_report, the bucket walk
                 lmprof_hash_report and lmprof_hash_debug.  A Lua table is
                 a list of (key, value) writes; the records array is a
                 [gmap Z Row] filled by lua_rawseti; a file is the list of
                 strings written to it.
    - [TraceJson] the trace-event formatters of lmprof_report.c
                 (__metaProcess, __metaAbout, __metaTracingStarted, the
                 frame, scope, line, sample and counter events) in their
                 table and file branches.  A JSON value is [JVal]; a table
                 report stores the values pushed in a [gmap Z JVal] at the
                 array counter (REPORT_TABLE_APPEND), a file report is a list
                 of tokens (text and values) with the delimiter flag of
                 REPORT_ENSURE_DELIM.
    - [TraceReport] the trace-event report: tracevent_table_header, the
                 event walk of traceevent_table_events (after
                 timeline_adjust and, with the compress option,
                 timeline_compress; it links each SAMPLE_EVENT to the next
                 and counts scope events for UpdateCounters),
                 traceevent_report_header with timeline_usage in IEEE
                 binary64 (the C doubles, as Stdlib's primitive floats),
                 and traceevent_report.  A walk that
                 reads an unwritten slot or a NULL record pointer (undefined
                 behaviour in C) returns [None].
    - [Lifecycle] stopping a graph profile: pop_remaining_stacks, which
                 unwinds every thread stack with lmprof_stack_measured_pop,
                 and report_type.
    - [Session]  starting and stopping a profile: lmprof_initialize_profiler
                 and lmprof_finalize_profiler on the profiler's fields
                 ([StateApi.PState] and the hook it installs) and on the
                 part of the Lua state they change ([LuaEnv]: collector,
                 allocator, singleton slot, the hooks of the main thread
                 and of the threads the profiler knows), with
                 lmprof_initialize_thread and lmprof_clear_thread.

    ** What the theorems show (by group)

    - invariants: every state reachable by graph hook calls (on any
      threads, with instrumentation), by trace hook calls, pauses, resumes
      and frames, and every timeline built by the emitters, satisfies its
      invariant (rule induction on the step relations), and no hook call
      from it dereferences NULL; single operations (measured push/pop,
      pause/resume) preserve theirs, and a measured pop does the exact
      accounting of a return (the parent absorbs the child's total).
    - refinement: lmprof_hash_get and lmprof_hash_insert implement lookup
      and insertion of the finite map the table represents, and so does any
      sequence of them.
    - functional behaviour: a call on the current thread pushes the frame
      of the record interned under (function, caller), and a return never
      raises the stack-mismatch error and keeps the bottom frame; the sampler counts every level walked; the
      table report is the Lua sequence 1..n of the table's records; the
      file report is a Lua chunk whose fields are the literals of the table
      report; lmprof_hash_debug's integer statistics are right; the
      trace file report is one JSON array of the formatted events, with
      exactly one delimiter between two events; in memory mode every
      freq-th scope event emits UpdateCounters.
    - termination and liveness: the return loop of graph_instrument and the
      unwinding loop of pop_remaining_stacks finish within the stack height;
      pop_remaining_stacks empties every stack of a graph profile.
    - round trips: hash insert/get, setoption/getoption, set_option/
      get_option, the hexadecimal identifiers of the report, and a whole
      session (start then stop restores the collector and the allocator
      and clears the session flags, but drops the host's coroutine
      hooks).
    - bounds: every 64-bit quantity stays in range; bucket indices are
      below the bucket count; identifiers fit the snprintf buffer; counts
      above 2^63 reach the table report negative; the pageusage statistic
      of an exhausted budget is within one rounding unit of 1 (checked
      exhaustively for budgets up to 2^20 pages and pages up to 2^16
      events), and is 1 + 2^-52, not 1.0, for a budget of 93 pages.
    - safety: every timeline whose slots are written and whose scope and
      line events point to records is reported without undefined
      behaviour.
    - findings: the inverted comparison in timeline_canbuffer, the
      profiling overhead that measured_pop never subtracts, the
      non-idempotent adjust pass, the uninitialised slot left by
      traceevent_sample, the NULL call stack of trace modes and of the
      memory-only graph mode without instrumentation, the threshold option read from the wrong argument,
      the hash_size option read from the wrong key, the narrowing of
      instruction counts, and the booleans the file report writes as
      integers, the empty traceEvents table of a table report with the
      about-tracing option, and the last instruction sample that the trace
      report never emits, and the name hash that lmprof_record_id
      overwrites (so same-line functions of a loaded chunk share one
      identifier) are each stated as theorems about the code as written.

    ** Bounds and fuel

    Loops over linked structures are written with fuel: the line chain
    walked by timeline_compress (fuel: the number of events), the return
    loop of graph_instrument and the unwinding loop of
    pop_remaining_stacks (fuel: the stack height plus one), the digits of
    a PRIxPTR identifier (fuel 15: a 64-bit value has at most 16 hex
    digits).  A theorem shows each fuel suffices and that more fuel changes
    nothing.  Page capacity (TRACE_EVENT_SIZE_ARRAY, a layout-dependent
    constant) is a Section variable of the timeline, with witnesses at a
    small capacity; whether LMPROF_FILE_API is compiled in is a Section
    variable of the report, and sizeof(TraceEvent) one of the trace
    report.  The pageusage bound is checked by evaluation over every page
    budget up to 2^20 pages (32 GiB of 32 KiB pages) and every page
    capacity up to 2^16 events (the capacity is below the page size in
    bytes, at most 64 KiB on the usual systems).  The event walk of the trace report is structural over the
    list of event positions, so it needs no fuel.

    ** Not modelled

    The Lua host (lua_getinfo, lua_getstack, the registry tables, the
    garbage collector) is outside the model: the values the code reads
    from it (function identifiers, debug records, current lines) are
    inputs, and so are clock readings and allocation outcomes; so is
    lmprof_thread_name, the thread-name lookup of the trace report (a
    Section variable of TraceReport).  The JSON text is modelled as
    tokens, not characters (the escaping of strings is left to the
    printf formats the code uses; the file formatters print source names
    with an unescaped %s, recorded as a finding).  The string-buffer report format, file opening and
    closing, the floating-point statistics of lmprof_hash_debug, the
    clock back-ends, the calibration loop, lmprof_shutdown_profiler and
    the memory release of lmprof_clear_state, and the registry tables
    written at start (thread names), and the removal of the debug hook when
    a prehook gives up (lua_sethook with NULL) are not modelled:
    they are I/O or host-interpreter plumbing with no state of their own
    that the model could check.
*)

From stdpp Require Export base list gmap fin_maps.
From Stdlib Require Export ZArith Lia.

Declare Scope lmprof_scope.
Delimit Scope lmprof_scope with lm.
Open Scope Z_scope.

Create HintDb lmprof discriminated.
Create Rewrite HintDb lmprof_rw.

(** ** Machine width

    lu_time is uint64_t, lu_size is size_t and lu_addr is uintptr_t on the
    64-bit build (lmprof_conf.h, !LUA_32BITS). *)
Definition WIDTH : Z := 64.
Definition MODULUS : Z := 2 ^ WIDTH.

(** Reduction into [0, 2^64): the value a uint64_t holds. *)
Definition wrap (z : Z) : Z := z mod MODULUS.

(** Unsigned 64-bit addition and subtraction, as C computes them. *)
Definition add64 (a b : Z) : Z := wrap (a + b).
Definition sub64 (a b : Z) : Z := wrap (a - b).

(** A value that fits in a 64-bit unsigned word. *)
Definition in_range (z : Z) : Prop := 0 <= z < MODULUS.

#[export] Instance in_range_dec z : Decision (in_range z).
Proof. unfold in_range. apply _. Defined.

Notation "a +w b" := (add64 a b) (at level 50, left associativity) : lmprof_scope.
Notation "a -w b" := (sub64 a b) (at level 50, left associativity) : lmprof_scope.
Open Scope lmprof_scope.

Lemma modulus_pos : 0 < MODULUS.
Proof. unfold MODULUS, WIDTH. lia. Qed.

Lemma wrap_range z : in_range (wrap z).
Proof. unfold in_range, wrap. apply Z.mod_pos_bound, modulus_pos. Qed.

Lemma wrap_small z : in_range z -> wrap z = z.
Proof. unfold in_range, wrap. intros. apply Z.mod_small. lia. Qed.

Lemma add64_range a b : in_range (a +w b).
Proof. apply wrap_range. Qed.

Lemma sub64_range a b : in_range (a -w b).
Proof. apply wrap_range. Qed.

Lemma add64_exact a b : 0 <= a -> 0 <= b -> a + b < MODULUS -> a +w b = a + b.
Proof. intros. apply wrap_small. unfold in_range. lia. Qed.

Lemma sub64_exact a b : b <= a -> a < MODULUS -> 0 <= b -> a -w b = a - b.
Proof. intros. apply wrap_small. unfold in_range. lia. Qed.

Lemma wrap_idem z : wrap (wrap z) = wrap z.
Proof. apply wrap_small, wrap_range. Qed.

(** Subtracting after adding gives back the operand, modulo 2^64. *)
Lemma add64_sub64 a b : in_range a -> (a +w b) -w b = a.
Proof.
  intros Ha. unfold add64, sub64, wrap.
  rewrite Zminus_mod_idemp_l. replace (a + b - b) with a by lia.
  apply Z.mod_small. exact Ha.
Qed.

Lemma sub64_add64 a b : in_range a -> (a -w b) +w b = a.
Proof.
  intros Ha. unfold add64, sub64, wrap.
  rewrite Zplus_mod_idemp_l. replace (a - b + b) with a by lia.
  apply Z.mod_small. exact Ha.
Qed.

Lemma sub64_sub64 x a b : (x -w a) -w b = wrap (x - (a + b)).
Proof.
  unfold sub64, wrap. rewrite Zminus_mod_idemp_l. f_equal. lia.
Qed.

(** Subtracting [k] modulo 2^64 leaves a word unchanged only when [k] is
    a multiple of 2^64. *)
Lemma wrap_sub_fixed t k : in_range t -> wrap (t - k) = t -> wrap k = 0.
Proof.
  unfold wrap, in_range. intros Ht Hf. pose proof modulus_pos.
  pose proof (Z.div_mod (t - k) MODULUS ltac:(lia)) as Hd. rewrite Hf in Hd.
  assert (Hk : k = - ((t - k) / MODULUS) * MODULUS) by lia.
  rewrite Hk, Z_mod_mult. done.
Qed.

#[export] Hint Resolve wrap_range add64_range sub64_range : lmprof.
#[export] Hint Rewrite wrap_idem : lmprof_rw.

(** [in_range] unfolded for [lia]. *)
Ltac range_facts :=
  repeat match goal with
  | H : in_range _ |- _ => unfold in_range in H
  | |- in_range _ => unfold in_range
  end;
  unfold MODULUS, WIDTH in *.

(** Close an arithmetic goal about exact (non-wrapping) 64-bit operations. *)
Ltac solve_exact :=
  repeat first [ rewrite add64_exact by (range_facts; lia)
               | rewrite sub64_exact by (range_facts; lia) ];
  range_facts; lia.


(** Sum of a list of integers (the counters of a frequency vector). *)
Definition zsum (l : list Z) : Z := foldr Z.add 0 l.

(** ** Bit operations stay within 64 bits *)

Lemma log2_lt_width a : in_range a -> Z.log2 a < WIDTH.
Proof.
  unfold in_range, MODULUS. intros [H0 H1].
  destruct (Z.eq_dec a 0) as [->|Hn]; [reflexivity|].
  apply Z.log2_lt_pow2; [lia|exact H1].
Qed.

(** Decide a closed proposition by evaluation. *)
Ltac by_eval := apply (bool_decide_unpack _); vm_compute; reflexivity.

(** Case analysis on the integer comparisons of the goal, closed by lia
    where the cases are arithmetic. *)
Ltac zcases :=
  repeat (match goal with
          | |- context [Z.eqb ?a ?b] => destruct (Z.eqb_spec a b)
          | |- context [Z.ltb ?a ?b] => destruct (Z.ltb_spec a b)
          | |- context [Z.leb ?a ?b] => destruct (Z.leb_spec a b)
          | H : context [Z.eqb ?a ?b] |- _ => destruct (Z.eqb_spec a b)
          | H : context [Z.ltb ?a ?b] |- _ => destruct (Z.ltb_spec a b)
          end; cbn [orb andb negb] in *); try lia.

(** Bitwise or stays below a power of two. *)
Lemma lor_lt_pow2 a b n :
  0 <= n -> 0 <= a < 2 ^ n -> 0 <= b < 2 ^ n -> 0 <= Z.lor a b < 2 ^ n.
Proof.
  intros Hn Ha Hb. split; [apply Z.lor_nonneg; lia|].
  destruct (Z.eq_dec (Z.lor a b) 0) as [->|Hz]; [lia|].
  assert (Hn' : 0 < n).
  { destruct (Z.eq_dec n 0) as [->|]; [|lia]. rewrite Z.pow_0_r in *.
    assert (a = 0) as -> by lia. assert (b = 0) as -> by lia. done. }
  apply Z.log2_lt_pow2; [pose proof (Z.lor_nonneg a b); lia|].
  rewrite Z.log2_lor by lia. apply Z.max_lub_lt.
  - destruct (Z.eq_dec a 0) as [->|]; [done|]. apply Z.log2_lt_pow2; lia.
  - destruct (Z.eq_dec b 0) as [->|]; [done|]. apply Z.log2_lt_pow2; lia.
Qed.

Lemma in_range_log2 a : 0 <= a -> Z.log2 a < WIDTH -> in_range a.
Proof.
  unfold in_range, MODULUS. intros H0 Hl. split; [exact H0|].
  destruct (Z.eq_dec a 0) as [->|Hn]; [unfold WIDTH; lia|].
  apply Z.log2_lt_pow2; [lia|exact Hl].
Qed.

Lemma lxor_range a b : in_range a -> in_range b -> in_range (Z.lxor a b).
Proof.
  intros Ha Hb. pose proof (log2_lt_width a Ha). pose proof (log2_lt_width b Hb).
  range_facts. apply in_range_log2; [apply Z.lxor_nonneg; lia|].
  eapply Z.le_lt_trans; [apply Z.log2_lxor; lia|]. unfold WIDTH in *. lia.
Qed.

Lemma land_range a b : in_range a -> 0 <= b -> in_range (Z.land a b).
Proof.
  intros Ha Hb. pose proof (log2_lt_width a Ha). range_facts.
  apply in_range_log2; [apply Z.land_nonneg; lia|].
  eapply Z.le_lt_trans; [apply Z.log2_land; lia|]. unfold WIDTH in *. lia.
Qed.

Lemma shiftr_range a n : in_range a -> 0 <= n -> in_range (Z.shiftr a n).
Proof.
  intros Ha Hn. rewrite Z.shiftr_div_pow2 by exact Hn. range_facts. split.
  - apply Z.div_pos; [lia|]. apply Z.pow_pos_nonneg; lia.
  - eapply Z.le_lt_trans; [apply Z.div_le_upper_bound|]; [apply Z.pow_pos_nonneg; lia| |exact (proj2 Ha)].
    pose proof (Z.pow_pos_nonneg 2 n ltac:(lia) Hn). nia.
Qed.

#[export] Hint Resolve lxor_range land_range shiftr_range : lmprof.

(** ** Generic list and map lemmas *)

Lemma omap_ext_elem {A B} (f g : A -> option B) (l : list A) :
  (forall x, x ∈ l -> f x = g x) -> omap f l = omap g l.
Proof.
  induction l as [|x l IH]; intros Hfg; [done|]. cbn.
  assert (Hx : f x = g x) by apply Hfg, list_elem_of_here.
  assert (Hl : omap f l = omap g l)
    by (apply IH; intros y Hy; apply Hfg, list_elem_of_further, Hy).
  cbn in Hl. rewrite Hx, Hl. done.
Qed.

(** A C loop applying an idempotent in-place update to every node of a
    list of pointers touches exactly the pointers of the list. *)
Lemma foldl_alter_lookup {A} (f : A -> A) (m : gmap nat A) (l : list nat) q :
  (forall x, f (f x) = f x) ->
  foldl (fun m p => alter f p m) m l !! q =
    if decide (q ∈ l) then f <$> m !! q else m !! q.
Proof.
  intros Hidem. revert m. induction l as [|p l IH]; intros m; cbn [foldl].
  - case_decide as Hq; [by apply elem_of_nil in Hq|done].
  - rewrite IH. destruct (decide (q = p)) as [->|Hne].
    + rewrite lookup_alter_eq.
      case_decide as Hq; case_decide as Hq'; try (exfalso; apply Hq'; apply list_elem_of_here).
      * destruct (m !! p); simpl; [by rewrite Hidem|done].
      * done.
    + rewrite lookup_alter_ne by congruence.
      case_decide as Hq; case_decide as Hq'; try done.
      * exfalso. apply Hq'. by apply list_elem_of_further.
      * exfalso. apply elem_of_cons in Hq' as [?|?]; [congruence|done].
Qed.
