(* ===== verification/Unit.v ===== *)
(** * Measurement units, the clock difference and the allocator trampoline

    lmprof_EventUnit (lmprof_conf.h) is a triple of 64-bit counters; the
    helpers unit_clear, unit_add_to, unit_sub and unit_allocated are the
    static inline functions of collections/lmprof_record.h.  alloc_hook
    (lmprof_lib.c) is the allocator installed in memory mode: it adds the
    size change of every allocation to the running unit unless the
    IGNORE_ALLOC state bit is set, and forwards the request. *)

From S2P Require Import Common.

Module Unit.

(** lmprof_EventUnit: time, bytes allocated, bytes deallocated. *)
Record EventUnit := mkUnit {
  time : Z;
  allocated : Z;
  deallocated : Z;
}.

(** lmprof_EventProcess: process and thread identifiers (lua_Integer). *)
Record EventProcess := mkProcess {
  pid : Z;
  tid : Z;
}.

(** lmprof_EventMeasurement: the unit captured together with the running
    overhead counter and the lane it belongs to. *)
Record EventMeasurement := mkMeasurement {
  proc : EventProcess;
  s : EventUnit;
  overhead : Z;
}.

#[export] Instance EventUnit_eq_dec : EqDecision EventUnit.
Proof. solve_decision. Defined.
#[export] Instance EventProcess_eq_dec : EqDecision EventProcess.
Proof. solve_decision. Defined.
#[export] Instance EventMeasurement_eq_dec : EqDecision EventMeasurement.
Proof. solve_decision. Defined.

(** Every counter of a unit holds a 64-bit value. *)
Definition unit_ok (u : EventUnit) : Prop :=
  in_range (time u) /\ in_range (allocated u) /\ in_range (deallocated u).

(** unit_clear *)
Definition unit_clear : EventUnit := mkUnit 0 0 0.

(** unit_add_to(dest, source): componentwise [dest += source]. *)
Definition unit_add_to (dest source : EventUnit) : EventUnit :=
  mkUnit (time dest +w time source)
         (allocated dest +w allocated source)
         (deallocated dest +w deallocated source).

(** unit_sub(dest, a, b): [dest = a - b] componentwise. *)
Definition unit_sub (a b : EventUnit) : EventUnit :=
  mkUnit (time a -w time b)
         (allocated a -w allocated b)
         (deallocated a -w deallocated b).

(** unit_allocated: live bytes, clamped at zero. *)
Definition unit_allocated (u : EventUnit) : Z :=
  if decide (deallocated u > allocated u) then 0
  else allocated u - deallocated u.

(** lmprof_clock_diff(start, end) *)
Definition lmprof_clock_diff (start end_ : Z) : Z :=
  if decide (start <= end_) then end_ - start else start - end_.

(** The accounting part of alloc_hook: [ptr_null] says whether [ptr] is
    NULL, [ignore] whether LMPROF_STATE_IGNORE_ALLOC is set.  The call to
    the cached allocator that follows is the host's business. *)
Definition alloc_hook (ignore ptr_null : bool) (osize nsize : Z)
    (r : EventUnit) : EventUnit :=
  let sz := if ptr_null then 0 else osize in
  let r1 := if bool_decide (nsize > sz) && negb ignore
            then mkUnit (time r) (allocated r +w (nsize - sz)) (deallocated r)
            else r in
  if bool_decide (nsize < sz) && negb ignore
  then mkUnit (time r1) (allocated r1) (deallocated r1 +w (sz - nsize))
  else r1.

(** * Lemmas *)

Lemma unit_add_to_ok a b : unit_ok (unit_add_to a b).
Proof. repeat split; apply wrap_range. Qed.

Lemma unit_sub_ok a b : unit_ok (unit_sub a b).
Proof. repeat split; apply wrap_range. Qed.

Lemma unit_clear_ok : unit_ok unit_clear.
Proof. repeat split; unfold unit_clear; simpl; range_facts; lia. Qed.

#[export] Hint Resolve unit_add_to_ok unit_sub_ok unit_clear_ok : lmprof.

(** Exact componentwise addition when nothing overflows. *)
Lemma unit_add_to_exact a b :
  unit_ok a -> unit_ok b ->
  time a + time b < MODULUS ->
  allocated a + allocated b < MODULUS ->
  deallocated a + deallocated b < MODULUS ->
  unit_add_to a b =
    mkUnit (time a + time b) (allocated a + allocated b)
           (deallocated a + deallocated b).
Proof.
  intros (?&?&?) (?&?&?) ???. unfold unit_add_to. f_equal; solve_exact.
Qed.

(** adding back what was subtracted restores the unit: the
    [(a - b) + b = a] round trip that lets measured pop split a total into
    self and children without losing bytes or time. *)
Theorem unit_sub_add_roundtrip a b :
  unit_ok a -> unit_add_to (unit_sub a b) b = a.
Proof.
  intros (Ht & Ha & Hd). destruct a as [t al de]. simpl in *.
  unfold unit_add_to, unit_sub. simpl.
  rewrite !sub64_add64 by assumption. reflexivity.
Qed.

Lemma unit_add_sub_roundtrip a b :
  unit_ok a -> unit_sub (unit_add_to a b) b = a.
Proof.
  intros (Ht & Ha & Hd). destruct a as [t al de]. simpl in *.
  unfold unit_add_to, unit_sub. simpl.
  rewrite !add64_sub64 by assumption. reflexivity.
Qed.

(** unit_allocated is [max 0 (allocated - deallocated)]. *)
Theorem unit_allocated_spec u :
  unit_allocated u = Z.max 0 (allocated u - deallocated u).
Proof. unfold unit_allocated. case_decide; lia. Qed.

Lemma unit_allocated_bounds u :
  unit_ok u -> 0 <= unit_allocated u <= allocated u.
Proof. intros (?&?&?). rewrite unit_allocated_spec. range_facts. lia. Qed.

(** lmprof_clock_diff is the absolute difference, whatever the order of its
    arguments. *)
Theorem lmprof_clock_diff_abs a b : lmprof_clock_diff a b = Z.abs (b - a).
Proof. unfold lmprof_clock_diff. case_decide; lia. Qed.

(** The allocator trampoline: with IGNORE_ALLOC set nothing is counted;
    otherwise the net number of live bytes it records moves by exactly the
    size change [nsize - sz] (when the counters do not overflow). *)
Theorem alloc_hook_ignored ptr_null osize nsize r :
  alloc_hook true ptr_null osize nsize r = r.
Proof.
  unfold alloc_hook. simpl.
  rewrite !andb_false_r. reflexivity.
Qed.

Theorem alloc_hook_net ptr_null osize nsize r :
  unit_ok r -> 0 <= osize -> 0 <= nsize ->
  allocated r + nsize < MODULUS -> deallocated r + osize < MODULUS ->
  let r' := alloc_hook false ptr_null osize nsize r in
  (allocated r' - deallocated r') - (allocated r - deallocated r)
    = nsize - (if ptr_null then 0 else osize)
  /\ time r' = time r.
Proof.
  intros (?&?&?) ? ? ? ?. unfold alloc_hook. simpl.
  destruct ptr_null; repeat case_bool_decide; simpl; split; solve_exact.
Qed.

(** * Witnesses *)

Lemma unit_sub_add_roundtrip_witness :
  unit_add_to (unit_sub (mkUnit 7 100 40) (mkUnit 9 30 50)) (mkUnit 9 30 50) = mkUnit 7 100 40.
Proof. apply unit_sub_add_roundtrip. split_and!; by_eval. Defined.

Lemma unit_add_sub_roundtrip_witness :
  unit_sub (unit_add_to (mkUnit 7 100 40) (mkUnit 9 30 50)) (mkUnit 9 30 50) = mkUnit 7 100 40.
Proof. apply unit_add_sub_roundtrip. split_and!; by_eval. Defined.

Lemma unit_allocated_bounds_witness :
  0 <= unit_allocated (mkUnit 0 100 40) <= allocated (mkUnit 0 100 40).
Proof. apply unit_allocated_bounds. split_and!; by_eval. Defined.

Lemma alloc_hook_net_witness :
  let r' := alloc_hook false false 16 48 (mkUnit 3 100 40) in
  (allocated r' - deallocated r') - (allocated (mkUnit 3 100 40) - deallocated (mkUnit 3 100 40))
    = 48 - (if false then 0 else 16)
  /\ time r' = time (mkUnit 3 100 40).
Proof.
  apply alloc_hook_net; try split_and!; by_eval.
Defined.

End Unit.
