(* ===== verification/Record.v ===== *)
(** * Activation records and the record heap

    lmprof_Record (collections/lmprof_record.h) holds the identifiers of a
    call site, its function information and its graph statistics.  Records
    are heap objects: the hashtable, the stack frames and the trace events
    hold pointers to them.  This file models the heap as a finite map from
    addresses to records, the statistics reset
    (lmprof_record_clear_graph_statistics), the line-frequency update of the
    LUA_HOOKLINE case of graph_instrument, and the string sanitizer
    lmprof_record_sanitize (collections/lmprof_record.c). *)

From Stdlib Require Import Ascii String.
From S2P Require Import Common Unit.
Import Unit.

Module Record.

(** Bits of the lmprof_FunctionInfo [event] field. *)
Definition LMPROF_RECORD_USERDATA : Z := 1.
Definition LMPROF_RECORD_CCLOSURE : Z := 2.
Definition LMPROF_RECORD_IGNORED : Z := 4.

(** BITFIELD_TEST(x, m) != 0 *)
Definition bitfield_test (x m : Z) : bool := negb (Z.land x m =? 0).

(** The part of lmprof_FunctionInfo (a lua_Debug) the profiler reads back. *)
Record FunctionInfo := mkInfo {
  name : option (list ascii);
  source : option (list ascii);
  event : Z;
  linedefined : Z;
  lastlinedefined : Z;
}.

(** lmprof_Record, with its [graph] statistics. *)
Record lmprof_Record := mkRecord {
  r_id : Z;
  f_id : Z;
  p_id : Z;
  p_currentline : Z;
  info : FunctionInfo;
  count : Z;
  node : EventUnit;
  path : EventUnit;
  line_freq : option (list Z);
}.

(** The record heap: pointers are natural numbers. *)
Abbreviation heap := (gmap nat lmprof_Record).

(** The key a pointer's record carries: its (function, parent) pair. *)
Definition key_of (hp : heap) (p : nat) : option (Z * Z) :=
  (fun r => (f_id r, p_id r)) <$> hp !! p.

(** The interface the profiler uses to intern records by (function,
    parent) pair: lmprof_hash_get and lmprof_hash_insert
    (collections/lmprof_hash.h).  [table_abs] is the finite map the table
    represents under [table_wf]; the laws say that lookup and insertion
    act on it as a map does, and that the table only depends on the keys
    of the records it holds. *)
Class RecordTable (T : Type) := {
  table_get : heap -> T -> Z -> Z -> option nat * T;
  table_insert : bool -> T -> nat -> lmprof_Record -> bool * T;
  table_wf : heap -> T -> Prop;
  table_abs : heap -> T -> gmap (Z * Z) nat;
  table_get_spec hp t fid pid :
    table_wf hp t ->
    (table_get hp t fid pid).1 = table_abs hp t !! (fid, pid) /\
    table_abs hp (table_get hp t fid pid).2 = table_abs hp t /\
    table_wf hp (table_get hp t fid pid).2;
  table_insert_spec hp t p r :
    table_wf hp t -> hp !! p = Some r -> table_abs hp t !! (f_id r, p_id r) = None ->
    (table_insert true t p r).1 = true /\
    table_wf hp (table_insert true t p r).2 /\
    table_abs hp (table_insert true t p r).2 = <[(f_id r, p_id r) := p]> (table_abs hp t);
  table_insert_fail t p r : table_insert false t p r = (false, t);
  table_keys hp hp' t :
    table_wf hp t ->
    (forall k p, table_abs hp t !! k = Some p -> key_of hp' p = key_of hp p) ->
    table_wf hp' t /\ table_abs hp' t = table_abs hp t;
  table_abs_key hp t k p :
    table_wf hp t -> table_abs hp t !! k = Some p -> key_of hp p = Some k;
}.

(** A record as allocated and memset to zero in lmprof_fetch_record, with
    its identifiers filled in. *)
Definition record_blank (fid pid rid : Z) : lmprof_Record :=
  mkRecord rid fid pid 0 (mkInfo None None 0 0 0) 0 unit_clear unit_clear None.

Definition set_stats (r : lmprof_Record) (c : Z) (n p : EventUnit) : lmprof_Record :=
  mkRecord (r_id r) (f_id r) (p_id r) (p_currentline r) (info r) c n p (line_freq r).

Definition set_line_freq (r : lmprof_Record) (lf : option (list Z)) : lmprof_Record :=
  mkRecord (r_id r) (f_id r) (p_id r) (p_currentline r) (info r)
           (count r) (node r) (path r) lf.

Definition set_event (r : lmprof_Record) (ev : Z) : lmprof_Record :=
  let i := info r in
  mkRecord (r_id r) (f_id r) (p_id r) (p_currentline r)
           (mkInfo (name i) (source i) ev (linedefined i) (lastlinedefined i))
           (count r) (node r) (path r) (line_freq r).

Definition set_info (r : lmprof_Record) (i : FunctionInfo) : lmprof_Record :=
  mkRecord (r_id r) (f_id r) (p_id r) (p_currentline r) i
           (count r) (node r) (path r) (line_freq r).

(** LMPROF_RECORD_HAS_NAME *)
Definition has_name (i : FunctionInfo) : bool :=
  bool_decide (is_Some (name i)) || bitfield_test (event i) LMPROF_RECORD_IGNORED.

(** lmprof_record_clear_graph_statistics *)
Definition lmprof_record_clear_graph_statistics (r : lmprof_Record) : lmprof_Record :=
  set_stats r 0 unit_clear unit_clear.

(** Whether a record's function is in the ignore set. *)
Definition record_ignored (r : lmprof_Record) : bool :=
  bitfield_test (event (info r)) LMPROF_RECORD_IGNORED.

(** The LUA_HOOKLINE update of graph_instrument (lmprof_lib.c):
    [line_freq[currentline - linedefined]++] when the frequency vector
    exists, the function has a definition line and the index is in
    bounds. *)
Definition record_line_hit (currentline : Z) (r : lmprof_Record) : lmprof_Record :=
  match line_freq r with
  | Some lf =>
      if decide (linedefined (info r) > 0) then
        let diff := currentline - linedefined (info r) in
        if decide (0 <= diff < Z.of_nat (length lf)) then
          set_line_freq r (Some (alter (fun c => c +w 1) (Z.to_nat diff) lf))
        else r
      else r
  | None => r
  end.

(** The double-quote character. *)
Definition DQUOTE : ascii := Ascii.ascii_of_nat 34.

(** lmprof_record_sanitize: each character is rewritten by looking at it
    and at the character after it; past the end the C string holds its
    NUL terminator. *)
Definition sanitize_char (c : ascii) (next : option ascii) : ascii :=
  if decide (c = "-"%char /\ next = Some "-"%char) then " "%char
  else if decide (c = DQUOTE) then "'"%char
  else if decide (c = "\"%char) then "/"%char
  else c.

Fixpoint lmprof_record_sanitize (src : list ascii) : list ascii :=
  match src with
  | [] => []
  | c :: rest => sanitize_char c (head rest) :: lmprof_record_sanitize rest
  end.

(** The property the sanitizer is there to establish: no double quote,
    no backslash and no comment leader [--] in the string, so that it can
    be re-emitted inside a quoted Lua or JSON literal. *)
Fixpoint quote_safe (l : list ascii) : bool :=
  match l with
  | [] => true
  | c :: rest =>
      bool_decide (c <> DQUOTE) && bool_decide (c <> "\"%char) &&
      negb (bool_decide (c = "-"%char /\ head rest = Some "-"%char)) &&
      quote_safe rest
  end.

(** * Lemmas *)

Lemma record_line_hit_other cl r :
  r_id (record_line_hit cl r) = r_id r /\ f_id (record_line_hit cl r) = f_id r /\
  p_id (record_line_hit cl r) = p_id r /\ count (record_line_hit cl r) = count r /\
  node (record_line_hit cl r) = node r /\ path (record_line_hit cl r) = path r /\
  info (record_line_hit cl r) = info r.
Proof.
  unfold record_line_hit. destruct (line_freq r); repeat case_decide; done.
Qed.

Lemma zsum_alter_wsucc (lf : list Z) i :
  (i < length lf)%nat -> Forall (fun c => 0 <= c < MODULUS - 1) lf ->
  zsum (alter (fun c => c +w 1) i lf) = zsum lf + 1.
Proof.
  revert i. induction lf as [|x lf IH]; intros [|i] Hi Hb; simpl in *; try lia;
    apply Forall_cons in Hb as [Hx Hb]; unfold zsum in *; simpl.
  - rewrite add64_exact by lia. lia.
  - specialize (IH i ltac:(lia) Hb). unfold alter in IH. lia.
Qed.

(** The line-frequency vector keeps its length, and a hit inside the
    function's line range adds exactly one to its total (counters below
    2^64 - 1), while a hit outside the range changes nothing. *)
Theorem record_line_hit_count cl r lf :
  line_freq r = Some lf -> linedefined (info r) > 0 ->
  Forall (fun c => 0 <= c < MODULUS - 1) lf ->
  exists lf', line_freq (record_line_hit cl r) = Some lf' /\
    length lf' = length lf /\
    zsum lf' = zsum lf +
      (if decide (linedefined (info r) <= cl < linedefined (info r) + Z.of_nat (length lf))
       then 1 else 0).
Proof.
  intros Hlf Hdef Hb. unfold record_line_hit. rewrite Hlf.
  case_decide; [|lia].
  case_decide; case_decide; try lia.
  - eexists; split; [reflexivity|]. split; [apply length_alter|].
    rewrite zsum_alter_wsucc by (auto; lia). lia.
  - exists lf. repeat split; [done|]. lia.
Qed.

Lemma head_sanitize l :
  head (lmprof_record_sanitize l) =
    (fun c => sanitize_char c (head (tail l))) <$> head l.
Proof. destruct l as [|c [|c' l]]; reflexivity. Qed.

Theorem lmprof_record_sanitize_length l :
  length (lmprof_record_sanitize l) = length l.
Proof. induction l; simpl; auto. Qed.

(** The sanitizer leaves no double quote, no backslash and no [--] pair,
    whatever its input. *)
Lemma sanitize_char_quote c n : sanitize_char c n <> DQUOTE.
Proof. unfold sanitize_char. repeat case_decide; naive_solver. Qed.

Lemma sanitize_char_backslash c n : sanitize_char c n <> "\"%char.
Proof. unfold sanitize_char. repeat case_decide; naive_solver. Qed.

Lemma sanitize_char_dash c n :
  sanitize_char c n = "-"%char -> c = "-"%char /\ n <> Some "-"%char.
Proof. unfold sanitize_char. repeat case_decide; naive_solver. Qed.

(** The sanitizer leaves no double quote, no backslash and no [--] pair,
    whatever its input. *)
Theorem lmprof_record_sanitize_safe l :
  quote_safe (lmprof_record_sanitize l) = true.
Proof.
  induction l as [|c rest IH]; [done|]. simpl. rewrite IH, head_sanitize, andb_true_r.
  rewrite !andb_true_iff, negb_true_iff, !bool_decide_eq_true, bool_decide_eq_false.
  split; [split; [apply sanitize_char_quote | apply sanitize_char_backslash]|].
  intros [Hc Hh]. apply sanitize_char_dash in Hc as [-> Hn].
  destruct rest as [|c' rest']; simpl in *; [discriminate|].
  injection Hh as Hh. apply sanitize_char_dash in Hh as [-> _]. done.
Qed.

(** * Witnesses *)

(** A function defined at line 10 spanning lines 10-13, hit at line 12. *)
Definition ex_record : lmprof_Record :=
  set_line_freq (set_info (record_blank 1 0 0) (mkInfo None None 0 10 13)) (Some [0; 2; 0; 1]).

Lemma record_line_hit_count_witness :
  exists lf', line_freq (record_line_hit 12 ex_record) = Some lf' /\
    length lf' = length [0; 2; 0; 1] /\
    zsum lf' = zsum [0; 2; 0; 1] +
      (if decide (linedefined (info ex_record) <= 12 <
                  linedefined (info ex_record) + Z.of_nat (length [0; 2; 0; 1]))
       then 1 else 0).
Proof. apply record_line_hit_count; [reflexivity | by_eval | by_eval]. Defined.

End Record.
