(* ===== verification/RecordId.v ===== *)
(** * Function identifiers (collections/lmprof_record.c)

    The identifier of an activation record's function is computed by
    lmprof_record_id: the address of a C function, a reserved identifier
    for the main chunk, or a hash of the function's source name
    (LMPROF_NAME_HASH: lmprof_jenkins by default, lmprof_Shash with
    LMPROF_USE_STRHASH) plus its first line.  The two hashes are written
    on 64-bit words; C strings are the contents of the Lua string read up
    to the first NUL character (Lua strings always carry a terminator). *)

From Stdlib Require Import Ascii.
From S2P Require Import Common Record.
Import Record.

Module RecordId.

(** [l_cast(unsigned char, c)] *)
Definition uchar (c : ascii) : Z := Z.of_N (N_of_ascii c).

(** ** lmprof_jenkins (jenkins one-at-a-time) *)

(** The body of [for (; *str; ++str)]. *)
Definition jenkins_step (hash : Z) (c : ascii) : Z :=
  let h1 := hash +w uchar c in
  let h2 := h1 +w wrap (Z.shiftl h1 10) in
  Z.lxor h2 (Z.shiftr h2 6).

(** The loop: it stops at the first NUL character. *)
Fixpoint jenkins_loop (hash : Z) (str : list ascii) : Z :=
  match str with
  | [] => hash
  | c :: rest => if (N_of_ascii c =? 0)%N then hash else jenkins_loop (jenkins_step hash c) rest
  end.

(** The final avalanche. *)
Definition jenkins_final (hash : Z) : Z :=
  let h1 := hash +w wrap (Z.shiftl hash 3) in
  let h2 := Z.lxor h1 (Z.shiftr h1 11) in
  h2 +w wrap (Z.shiftl h2 15).

Definition lmprof_jenkins (str : list ascii) (seed : Z) : Z :=
  jenkins_final (jenkins_loop seed str).

(** ** lmprof_Shash (luaS_hash), with LMPROF_USE_STRHASH *)

(** [h ^= ((h << 5) + (h >> 2) + (unsigned char) str[l - 1])] for
    [l] from the length down to 1; reading past the buffer is undefined
    ([None]). *)
Definition shash_step (h : Z) (c : ascii) : Z :=
  Z.lxor h (wrap (Z.shiftl h 5) +w Z.shiftr h 2 +w uchar c).

Fixpoint shash_loop (str : list ascii) (l : nat) (h : Z) : option Z :=
  match l with
  | O => Some h
  | S l' => c ← str !! l'; shash_loop str l' (shash_step h c)
  end.

Definition lmprof_Shash (str : list ascii) (l : nat) (seed : Z) : option Z :=
  shash_loop str l (Z.lxor seed (Z.of_nat l)).

(** LMPROF_NAME_HASH(S) in the default build. *)
Definition LMPROF_NAME_HASH (s : list ascii) : Z := lmprof_jenkins s 0.

(** ** lmprof_record_id (the lua_getinfo version) *)

Definition LMPROF_RECORD_ID_MAIN : Z := 1.
Definition LMPROF_RECORD_ID_UNKNOWN : Z := 2.

(** What lmprof_record_id reads from the interpreter: whether the
    activation has a CallInfo, the C function lua_tocfunction returns, the
    function's address (lua_topointer), and the lua_Debug fields filled by
    lua_getinfo. *)
Record IdInput := mkIdInput {
  i_ci_null : bool;
  cfunction : option Z;
  topointer : Z;
  what : option (list ascii);
  src : option (list ascii);
  linedefined : Z;
  ar_name : option (list ascii);
  short_src : list ascii;
}.

Definition first_char (s : list ascii) : ascii :=
  match s with c :: _ => c | [] => zero end.

(** LMPROF_RECORD_NAME_UNKNOWN (collections/lmprof_record.h) *)
Definition LMPROF_RECORD_NAME_UNKNOWN : list ascii := ["?"%char].

(** [if (ar->linedefined > 0) hash += ar->linedefined;] *)
Definition with_line (ar : IdInput) (h : Z) : Z :=
  if 0 <? linedefined ar then h +w linedefined ar else h.

(** The last branch: the hash of the function's name is computed and then
    overwritten by the hash of short_src. *)
Definition short_src_hash (ar : IdInput) (w : list ascii) : Z :=
  let name := if negb (Ascii.eqb (first_char w) zero)
              then from_option id w (ar_name ar)
              else LMPROF_RECORD_NAME_UNKNOWN in
  let hash := LMPROF_NAME_HASH name in
  let hash := LMPROF_NAME_HASH (short_src ar) in
  with_line ar hash.

(** Whether [ar->source] is a literal ([=]) or a file name ([@]). *)
Definition named_source (s : option (list ascii)) : option (list ascii) :=
  match s with
  | Some s => if Ascii.eqb (first_char s) "="%char || Ascii.eqb (first_char s) "@"%char
              then Some s else None
  | None => None
  end.

(** The identifier of the function, and the C function stored through
    [result] when it is one. *)
Definition lmprof_record_id (ar : IdInput) (gc_disabled : bool) : Z * option Z :=
  if i_ci_null ar then (0, None)
  else
    let '(function, result) :=
      match cfunction ar with
      | Some f => (f, Some f)
      | None => (if gc_disabled then topointer ar else 57005 (* 0xDEAD *), None)
      end in
    let hash :=
      match what ar with
      | None => function
      | Some w =>
          if Ascii.eqb (first_char w) "C"%char then function
          else if Ascii.eqb (first_char w) "m"%char then LMPROF_RECORD_ID_MAIN
          else match named_source (src ar) with
               | Some s => with_line ar (Z.lxor 0 (LMPROF_NAME_HASH s))
               | None => short_src_hash ar w
               end
      end in
    (hash, result).

(** A Lua function that is neither a C function nor a main chunk
    ([ar->what] is "Lua"). *)
Definition lua_what (w : option (list ascii)) : bool :=
  match w with
  | Some w => negb (Ascii.eqb (first_char w) "C"%char) && negb (Ascii.eqb (first_char w) "m"%char)
  | None => false
  end.

(** ** Theorems *)

Lemma jenkins_loop_nul s t h : jenkins_loop h (s ++ zero :: t) = jenkins_loop h s.
Proof. revert h. induction s as [|c s IH]; intros h; cbn; [done|]. case_match; [done|apply IH]. Qed.

(** The identifier hash only reads its string up to the first NUL. *)
Lemma lmprof_jenkins_nul s t seed : lmprof_jenkins (s ++ zero :: t) seed = lmprof_jenkins s seed.
Proof. unfold lmprof_jenkins. rewrite jenkins_loop_nul. done. Qed.

Lemma lmprof_jenkins_range s seed : in_range (lmprof_jenkins s seed).
Proof. apply add64_range. Qed.

(** C32: Two Lua functions of a chunk loaded from a string (their source
    starts with neither [=] nor [@]) that share short_src and linedefined
    get the same identifier, whatever their names: lmprof_record_id hashes
    the name and then overwrites that hash with the hash of short_src. *)
Theorem lmprof_record_id_name_ignored ar ar' gc :
  i_ci_null ar = false -> i_ci_null ar' = false ->
  cfunction ar = None -> cfunction ar' = None ->
  lua_what (what ar) = true -> lua_what (what ar') = true ->
  named_source (src ar) = None -> named_source (src ar') = None ->
  short_src ar = short_src ar' -> linedefined ar = linedefined ar' ->
  lmprof_record_id ar gc = lmprof_record_id ar' gc.
Proof.
  intros H1 H1' H2 H2' H3 H3' H4 H4' H5 H6. unfold lmprof_record_id.
  rewrite H1, H1', H2, H2', H4, H4'.
  destruct (what ar) as [w|], (what ar') as [w'|]; cbn in H3, H3'; try discriminate.
  apply andb_prop in H3 as [Hc Hm], H3' as [Hc' Hm']. apply negb_true_iff in Hc, Hm, Hc', Hm'.
  rewrite Hc, Hm, Hc', Hm'. unfold short_src_hash, with_line. rewrite H5, H6. done.
Qed.

(** ** Examples *)

Definition ex_lua_fn (name : list ascii) : IdInput :=
  mkIdInput false None 4096 (Some ["L"; "u"; "a"]%char) (Some ["r"; "e"; "t"]%char) 1 (Some name)
            ["[";"s";"]"]%char.

Lemma lmprof_record_id_name_ignored_witness :
  lmprof_record_id (ex_lua_fn ["f"%char]) true = lmprof_record_id (ex_lua_fn ["g"%char]) true.
Proof. apply lmprof_record_id_name_ignored; reflexivity. Defined.

End RecordId.
