(* ===== verification/Hash.v ===== *)
(** * The record hashtable

    lmprof_Hash (collections/lmprof_hash.h) is an array of [bucket_count]
    separately chained buckets; each chain node points to a record of the
    heap.  This file models to_identifier and to_bucket (the bucket index
    of a [(fid, pid)] pair), lmprof_hash_create, lmprof_hash_get (with its
    move-to-front of the node found), lmprof_hash_insert (front insertion)
    and lmprof_hash_clear_statistics (collections/lmprof_collections.c).

    The table is specified by [hash_abs], the finite map from keys
    [(f_id, p_id)] to record pointers that it represents; under the
    well-formedness invariant [hash_wf] the operations refine the map
    operations lookup and insert. *)

From S2P Require Import Common Unit Record.
Import Unit Record.

Module Hash.

(** lmprof_Hash: the bucket array; a bucket is its chain of record
    pointers, head first. *)
Record lmprof_Hash := mkHash {
  bucket_count : Z;
  buckets : list (list nat);
}.

(** LMPROF_HASH_MAXSIZE and the default LMPROF_HASH_SIZE. *)
Definition LMPROF_HASH_MAXSIZE : Z := 1031.
Definition LMPROF_HASH_SIZE : Z := 257.

(** to_identifier: the XOR of the two identifiers, folded by shifts. *)
Definition to_identifier (fid pid : Z) : Z :=
  let p := Z.lxor fid pid in
  Z.lxor (Z.lxor (Z.shiftr p 3) (Z.shiftr p 19)) (Z.land p 7).

(** to_bucket *)
Definition to_bucket (fid pid bucketCount : Z) : Z :=
  to_identifier fid pid mod bucketCount.

(** lmprof_hash_create (the allocation is assumed to succeed). *)
Definition lmprof_hash_create (bc : Z) : lmprof_Hash :=
  mkHash bc (replicate (Z.to_nat bc) []).

(** The chain walk of lmprof_hash_get: the first node whose record has
    the key, and the chain without that node. *)
Fixpoint chain_find (hp : heap) (k : Z * Z) (c : list nat) : option (nat * list nat) :=
  match c with
  | [] => None
  | p :: c' =>
      if decide (key_of hp p = Some k) then Some (p, c')
      else match chain_find hp k c' with
           | Some (r, rest) => Some (r, p :: rest)
           | None => None
           end
  end.

Definition bucket_of (h : lmprof_Hash) (fid pid : Z) : nat :=
  Z.to_nat (to_bucket fid pid (bucket_count h)).

Definition set_buckets (h : lmprof_Hash) (bs : list (list nat)) : lmprof_Hash :=
  mkHash (bucket_count h) bs.

(** lmprof_hash_get: on a hit the node is unlinked and put at the head of
    its chain (a node already at the head stays where it is). *)
Definition lmprof_hash_get (hp : heap) (h : lmprof_Hash) (fid pid : Z)
    : option nat * lmprof_Hash :=
  let b := bucket_of h fid pid in
  match buckets h !! b with
  | Some c =>
      match chain_find hp (fid, pid) c with
      | Some (r, rest) => (Some r, set_buckets h (<[b := r :: rest]> (buckets h)))
      | None => (None, h)
      end
  | None => (None, h)
  end.

(** lmprof_hash_insert: [alloc_ok] is the outcome of the node allocation;
    the record [r] at pointer [p] goes in front of its chain, without
    checking for an existing key. *)
Definition lmprof_hash_insert (alloc_ok : bool) (h : lmprof_Hash) (p : nat)
    (r : lmprof_Record) : bool * lmprof_Hash :=
  if alloc_ok then
    (true, set_buckets h (alter (cons p) (bucket_of h (f_id r) (p_id r)) (buckets h)))
  else (false, h).

(** lmprof_hash_clear_statistics: every record of every chain. *)
Definition lmprof_hash_clear_statistics (hp : heap) (h : lmprof_Hash) : heap :=
  foldl (fun m p => alter lmprof_record_clear_graph_statistics p m) hp
        (concat (buckets h)).

(** * Specification *)

(** The (key, pointer) entries of the table, bucket by bucket. *)
Definition entries (hp : heap) (h : lmprof_Hash) : list ((Z * Z) * nat) :=
  omap (fun p => (fun k => (k, p)) <$> key_of hp p) (concat (buckets h)).

(** The finite map the table represents. *)
Definition hash_abs (hp : heap) (h : lmprof_Hash) : gmap (Z * Z) nat :=
  list_to_map (entries hp h).

(** Well-formedness: the array has [bucket_count > 0] buckets, every chain
    node points to a live record filed under the bucket of its key, and no
    key occurs twice (I5 of the specification). *)
Record hash_wf (hp : heap) (h : lmprof_Hash) : Prop := {
  wf_count : length (buckets h) = Z.to_nat (bucket_count h);
  wf_pos : 0 < bucket_count h;
  wf_filed : forall i c p, buckets h !! i = Some c -> p ∈ c ->
    exists r, hp !! p = Some r /\ i = bucket_of h (f_id r) (p_id r);
  wf_nodup : NoDup (entries hp h).*1;
}.

(** * Bounds *)

(** The bucket index is within the array whenever the bucket count is
    positive. *)
Theorem to_bucket_bound fid pid bc :
  0 < bc -> 0 <= to_bucket fid pid bc < bc.
Proof. intros. unfold to_bucket. apply Z.mod_pos_bound. lia. Qed.

Lemma bucket_of_lt h fid pid :
  0 < bucket_count h -> (bucket_of h fid pid < Z.to_nat (bucket_count h))%nat.
Proof.
  intros Hpos. unfold bucket_of.
  pose proof (to_bucket_bound fid pid (bucket_count h) Hpos). lia.
Qed.

(** to_identifier keeps 64-bit identifiers within 64 bits. *)
Theorem to_identifier_range fid pid :
  in_range fid -> in_range pid -> in_range (to_identifier fid pid).
Proof.
  intros. unfold to_identifier.
  apply lxor_range; [apply lxor_range|apply land_range]; try apply shiftr_range;
    try apply lxor_range; auto; lia.
Qed.

(** * Chains and entries *)

Lemma elem_of_concat_lookup (L : list (list nat)) p :
  p ∈ concat L <-> exists i c, L !! i = Some c /\ p ∈ c.
Proof.
  rewrite list_elem_of_In, in_concat. split.
  - intros (c & Hc & Hp). apply list_elem_of_In, list_elem_of_lookup in Hc as [i Hi].
    exists i, c. split; [done|]. by apply list_elem_of_In.
  - intros (i & c & Hi & Hp). exists c. split; [|by apply list_elem_of_In].
    apply list_elem_of_In, list_elem_of_lookup. eauto.
Qed.

Lemma chain_find_Some hp k c r rest :
  chain_find hp k c = Some (r, rest) -> c ≡ₚ r :: rest /\ key_of hp r = Some k.
Proof.
  revert rest. induction c as [|p c IH]; intros rest; simpl; [done|].
  case_decide; [intros [= -> ->]; done|].
  destruct (chain_find hp k c) as [[r' rest']|] eqn:E; [|done].
  intros [= -> <-]. destruct (IH rest' eq_refl) as [Hp Hk]. split; [|done].
  rewrite Hp. apply Permutation_swap.
Qed.

Lemma chain_find_None hp k c :
  chain_find hp k c = None -> forall p, p ∈ c -> key_of hp p <> Some k.
Proof.
  induction c as [|q c IH]; simpl; intros Hf p Hp; [by apply elem_of_nil in Hp|].
  case_decide; [done|].
  destruct (chain_find hp k c) as [[??]|]; [done|].
  apply elem_of_cons in Hp as [->|Hp]; auto.
Qed.

Lemma list_alter_Some {A} (f : A -> A) (l : list A) i x :
  l !! i = Some x -> alter f i l = <[i := f x]> l.
Proof.
  revert i. induction l as [|y l IH]; intros [|i] Hi; simpl in *; simplify_eq; try done.
  f_equal. by apply IH.
Qed.

Lemma concat_insert (L : list (list nat)) i c c' :
  L !! i = Some c -> concat (<[i := c']> L) ++ c ≡ₚ c' ++ concat L.
Proof.
  intros Hi. pose proof (lookup_lt_Some _ _ _ Hi).
  pose proof (take_drop_middle L i c Hi) as HL.
  rewrite insert_take_drop by done.
  set (T := take i L) in *. set (D := drop (S i) L) in *.
  rewrite <- HL, !concat_app, !concat_cons. solve_Permutation.
Qed.

Lemma concat_insert_perm (L : list (list nat)) i c c' :
  L !! i = Some c -> c ≡ₚ c' -> concat (<[i := c']> L) ≡ₚ concat L.
Proof.
  intros Hi Hp. apply (Permutation_app_inv_r c).
  rewrite concat_insert by done. rewrite Hp. solve_Permutation.
Qed.

Lemma concat_alter_cons_perm (L : list (list nat)) i p :
  (i < length L)%nat -> concat (alter (cons p) i L) ≡ₚ p :: concat L.
Proof.
  intros Hi. destruct (lookup_lt_is_Some_2 L i Hi) as [c Hc].
  rewrite (list_alter_Some _ _ _ c Hc). apply (Permutation_app_inv_r c).
  rewrite concat_insert by done. solve_Permutation.
Qed.

Lemma elem_of_entries hp h k p :
  (k, p) ∈ entries hp h <-> p ∈ concat (buckets h) /\ key_of hp p = Some k.
Proof.
  unfold entries. rewrite list_elem_of_omap. split.
  - intros (q & Hq & Hk). destruct (key_of hp q) eqn:E; simplify_eq/=. done.
  - intros [Hp Hk]. exists p. rewrite Hk. done.
Qed.

Lemma entries_perm hp h bs :
  concat bs ≡ₚ concat (buckets h) -> entries hp (set_buckets h bs) ≡ₚ entries hp h.
Proof. intros Hp. unfold entries. simpl. by rewrite Hp. Qed.

Lemma key_of_Some hp p k :
  key_of hp p = Some k -> exists r, hp !! p = Some r /\ k = (f_id r, p_id r).
Proof. unfold key_of. intros (r & Hr & ->)%fmap_Some. eauto. Qed.

Lemma hash_bucket_lookup hp h fid pid :
  hash_wf hp h -> exists c, buckets h !! bucket_of h fid pid = Some c.
Proof.
  intros Hwf. apply lookup_lt_is_Some_2. rewrite (wf_count _ _ Hwf).
  apply bucket_of_lt, (wf_pos _ _ Hwf).
Qed.

(** A key that no node of its own bucket carries is absent from the map. *)
Lemma hash_abs_None hp h fid pid c :
  hash_wf hp h -> buckets h !! bucket_of h fid pid = Some c ->
  (forall p, p ∈ c -> key_of hp p <> Some (fid, pid)) ->
  hash_abs hp h !! (fid, pid) = None.
Proof.
  intros Hwf Hc Hno. apply not_elem_of_list_to_map_1.
  intros ((k, p) & Hk & Hin)%list_elem_of_fmap. simpl in Hk. subst k.
  apply elem_of_entries in Hin as [Hp Hkey].
  apply elem_of_concat_lookup in Hp as (i & c' & Hi & Hpc).
  destruct (wf_filed _ _ Hwf i c' p Hi Hpc) as (r & Hr & ->).
  unfold key_of in Hkey. rewrite Hr in Hkey. simpl in Hkey. injection Hkey as E1 E2. subst fid pid.
  rewrite Hc in Hi. injection Hi as <-. exact (Hno p Hpc ltac:(unfold key_of; by rewrite Hr)).
Qed.

Lemma hash_abs_Some hp h k p :
  hash_wf hp h -> p ∈ concat (buckets h) -> key_of hp p = Some k ->
  hash_abs hp h !! k = Some p.
Proof.
  intros Hwf Hp Hk. apply elem_of_list_to_map_1; [apply (wf_nodup _ _ Hwf)|].
  by apply elem_of_entries.
Qed.

(** Rewriting one chain with a permutation of itself keeps the table well
    formed and represents the same map. *)
Lemma hash_permute_bucket hp h b c c' :
  hash_wf hp h -> buckets h !! b = Some c -> c ≡ₚ c' ->
  hash_wf hp (set_buckets h (<[b := c']> (buckets h))) /\
  hash_abs hp (set_buckets h (<[b := c']> (buckets h))) = hash_abs hp h.
Proof.
  intros Hwf Hb Hp.
  assert (He : entries hp (set_buckets h (<[b := c']> (buckets h))) ≡ₚ entries hp h)
    by (apply entries_perm; eapply concat_insert_perm; eauto).
  split.
  - constructor; simpl.
    + rewrite length_insert. apply (wf_count _ _ Hwf).
    + apply (wf_pos _ _ Hwf).
    + intros i c0 q Hi Hq. unfold bucket_of. simpl.
      destruct (decide (i = b)) as [->|Hne].
      * rewrite list_lookup_insert_eq in Hi by (eapply lookup_lt_Some; eauto).
        injection Hi as <-. rewrite <- Hp in Hq. exact (wf_filed _ _ Hwf b c q Hb Hq).
      * rewrite list_lookup_insert_ne in Hi by congruence.
        exact (wf_filed _ _ Hwf i c0 q Hi Hq).
    + rewrite He. apply (wf_nodup _ _ Hwf).
  - unfold hash_abs. symmetry. apply list_to_map_proper; [apply (wf_nodup _ _ Hwf)|].
    by symmetry.
Qed.

(** lmprof_hash_get implements lookup in the represented map: it returns
    the record filed under [(fid, pid)] if there is one and nothing
    otherwise, and its move-to-front leaves the table well formed and
    representing the same map. *)
Theorem lmprof_hash_get_refines hp h fid pid :
  hash_wf hp h ->
  fst (lmprof_hash_get hp h fid pid) = hash_abs hp h !! (fid, pid) /\
  hash_abs hp (snd (lmprof_hash_get hp h fid pid)) = hash_abs hp h /\
  hash_wf hp (snd (lmprof_hash_get hp h fid pid)).
Proof.
  intros Hwf. destruct (hash_bucket_lookup hp h fid pid Hwf) as [c Hc].
  unfold lmprof_hash_get. rewrite Hc.
  destruct (chain_find hp (fid, pid) c) as [[r rest]|] eqn:Hf.
  - apply chain_find_Some in Hf as [Hp Hk]. simpl.
    destruct (hash_permute_bucket hp h _ c (r :: rest) Hwf Hc Hp) as [Hwf' Habs].
    split; [|done]. symmetry. apply hash_abs_Some; [done| |done].
    apply elem_of_concat_lookup. exists (bucket_of h fid pid), c.
    split; [done|]. rewrite Hp. apply list_elem_of_here.
  - simpl. split; [|done]. symmetry. eapply hash_abs_None; eauto.
    by apply chain_find_None.
Qed.

(** lmprof_hash_insert of a record whose key is absent implements map
    insertion and keeps the table well formed. *)
Theorem lmprof_hash_insert_refines hp h p r :
  hash_wf hp h -> hp !! p = Some r -> hash_abs hp h !! (f_id r, p_id r) = None ->
  let h' := snd (lmprof_hash_insert true h p r) in
  hash_wf hp h' /\ hash_abs hp h' = <[(f_id r, p_id r) := p]> (hash_abs hp h).
Proof.
  intros Hwf Hr Hnone. simpl.
  set (b := bucket_of h (f_id r) (p_id r)).
  assert (Hb : (b < length (buckets h))%nat)
    by (rewrite (wf_count _ _ Hwf); apply bucket_of_lt, (wf_pos _ _ Hwf)).
  assert (Hkey : key_of hp p = Some (f_id r, p_id r)) by (unfold key_of; by rewrite Hr).
  assert (He : entries hp (set_buckets h (alter (cons p) b (buckets h)))
                 ≡ₚ ((f_id r, p_id r), p) :: entries hp h).
  { unfold entries. simpl. rewrite concat_alter_cons_perm by done. simpl.
    by rewrite Hkey. }
  assert (Hfresh : (f_id r, p_id r) ∉ (entries hp h).*1)
    by (apply not_elem_of_list_to_map; exact Hnone).
  assert (Hnd : NoDup (entries hp (set_buckets h (alter (cons p) b (buckets h)))).*1).
  { rewrite He. simpl. constructor; [done|apply (wf_nodup _ _ Hwf)]. }
  split.
  - constructor; [| | |exact Hnd].
    + simpl. rewrite length_alter. apply (wf_count _ _ Hwf).
    + apply (wf_pos _ _ Hwf).
    + intros i c q Hi Hq. unfold bucket_of. simpl in *.
      destruct (decide (i = b)) as [->|Hne].
      * destruct (buckets h !! b) as [c0|] eqn:Hc0;
          [|apply lookup_ge_None in Hc0; lia].
        rewrite (list_alter_Some _ _ _ c0 Hc0), list_lookup_insert_eq in Hi by done.
        injection Hi as <-. apply elem_of_cons in Hq as [->|Hq]; [eauto|].
        exact (wf_filed _ _ Hwf b c0 q Hc0 Hq).
      * rewrite list_lookup_alter_ne in Hi by congruence.
        exact (wf_filed _ _ Hwf i c q Hi Hq).
  - unfold hash_abs. erewrite list_to_map_proper; [|exact Hnd|exact He]. reflexivity.
Qed.

(** The table only depends on the keys of the records it points to:
    updating statistics in the heap, or allocating new records, keeps it
    well formed and representing the same map. *)
Lemma hash_keys_agree hp hp' h :
  (forall p, p ∈ concat (buckets h) -> key_of hp' p = key_of hp p) ->
  hash_wf hp h -> hash_wf hp' h /\ hash_abs hp' h = hash_abs hp h.
Proof.
  intros Hk Hwf.
  assert (He : entries hp' h = entries hp h).
  { unfold entries. apply omap_ext_elem. intros p Hp. by rewrite Hk. }
  split; [|unfold hash_abs; by rewrite He].
  constructor; [apply (wf_count _ _ Hwf)|apply (wf_pos _ _ Hwf)| |rewrite He; apply (wf_nodup _ _ Hwf)].
  intros i c p Hi Hp.
  destruct (wf_filed _ _ Hwf i c p Hi Hp) as (r & Hr & ->).
  assert (Hin : p ∈ concat (buckets h)) by (apply elem_of_concat_lookup; eauto).
  pose proof (Hk p Hin) as Hkp. unfold key_of in Hkp. rewrite Hr in Hkp.
  destruct (hp' !! p) as [r'|] eqn:Hr'; simpl in Hkp; [|discriminate].
  injection Hkp as E1 E2. exists r'. split; [done|]. by rewrite E1, E2.
Qed.

Lemma clear_stats_idem r :
  lmprof_record_clear_graph_statistics (lmprof_record_clear_graph_statistics r) =
  lmprof_record_clear_graph_statistics r.
Proof. reflexivity. Qed.

(** lmprof_hash_clear_statistics zeroes the count and the measurements of
    every record of the table, touches no other record, and keeps every
    record and its key: the table represents the same map afterwards (R3
    of the specification). *)
Theorem lmprof_hash_clear_statistics_spec hp h :
  hash_wf hp h ->
  let hp' := lmprof_hash_clear_statistics hp h in
  (forall p r, p ∈ concat (buckets h) -> hp' !! p = Some r ->
     count r = 0 /\ node r = unit_clear /\ path r = unit_clear) /\
  (forall p, p ∉ concat (buckets h) -> hp' !! p = hp !! p) /\
  hash_wf hp' h /\ hash_abs hp' h = hash_abs hp h.
Proof.
  intros Hwf hp'.
  assert (Hl : forall q, hp' !! q = if decide (q ∈ concat (buckets h))
                         then lmprof_record_clear_graph_statistics <$> hp !! q else hp !! q)
    by (intros q; apply foldl_alter_lookup, clear_stats_idem).
  split; [|split; [|apply hash_keys_agree; [|done]]].
  - intros p r Hp Hr. rewrite Hl, decide_True in Hr by done.
    apply fmap_Some in Hr as (r0 & _ & ->). done.
  - intros p Hp. by rewrite Hl, decide_False.
  - intros p Hp. unfold key_of. rewrite Hl, decide_True by done.
    by destruct (hp !! p).
Qed.

(** lmprof_hash_create establishes the invariant, and the new table
    represents the empty map. *)
Lemma lmprof_hash_create_wf hp bc :
  0 < bc -> hash_wf hp (lmprof_hash_create bc) /\ hash_abs hp (lmprof_hash_create bc) = ∅.
Proof.
  intros Hbc. assert (He : entries hp (lmprof_hash_create bc) = []).
  { unfold entries, lmprof_hash_create. cbn [buckets].
    induction (Z.to_nat bc); [done|]. cbn. done. }
  split; [|unfold hash_abs; rewrite He; done].
  constructor; cbn [buckets bucket_count lmprof_hash_create]; [apply length_replicate|done| |].
  - intros i c p Hi Hp. apply lookup_replicate in Hi as [-> _]. by apply elem_of_nil in Hp.
  - rewrite He. constructor.
Qed.

Lemma wf_filed_concat hp h p :
  hash_wf hp h -> p ∈ concat (buckets h) -> exists r, hp !! p = Some r.
Proof.
  intros Hwf Hp. apply elem_of_concat_lookup in Hp as (i & c & Hi & Hc).
  destruct (wf_filed _ _ Hwf i c p Hi Hc) as (r & Hr & _). eauto.
Qed.

Lemma hash_abs_elem hp h k p :
  hash_abs hp h !! k = Some p -> p ∈ concat (buckets h) /\ key_of hp p = Some k.
Proof. intros Hk. apply elem_of_entries, elem_of_list_to_map_2, Hk. Qed.

(** The hashtable implements the record-table interface. *)
#[export] Instance lmprof_Hash_table : RecordTable lmprof_Hash.
Proof.
  refine {|
    table_get := lmprof_hash_get;
    table_insert := lmprof_hash_insert;
    table_wf := hash_wf;
    table_abs := hash_abs;
  |}.
  - intros hp t fid pid Hwf. apply lmprof_hash_get_refines, Hwf.
  - intros hp t p r Hwf Hp Hk. split; [done|]. apply lmprof_hash_insert_refines; done.
  - done.
  - intros hp hp' t Hwf Hk. apply hash_keys_agree; [|done].
    intros p Hp. destruct (wf_filed_concat hp t p Hwf Hp) as (r & Hr).
    apply (Hk (f_id r, p_id r)). apply hash_abs_Some; [done..|].
    unfold key_of. rewrite Hr. done.
  - intros hp t k p _ Hk. apply (hash_abs_elem _ _ _ _ Hk).
Defined.

(** C4: Insert then lookup: after inserting a record under an absent key,
    lmprof_hash_get finds it, and lookups of every other key answer as
    before the insertion. *)
Theorem lmprof_hash_insert_get hp h p r :
  hash_wf hp h -> hp !! p = Some r -> hash_abs hp h !! (f_id r, p_id r) = None ->
  let h' := snd (lmprof_hash_insert true h p r) in
  fst (lmprof_hash_get hp h' (f_id r) (p_id r)) = Some p /\
  (forall fid pid, (fid, pid) <> (f_id r, p_id r) ->
     fst (lmprof_hash_get hp h' fid pid) = fst (lmprof_hash_get hp h fid pid)).
Proof.
  intros Hwf Hp Hk h'. destruct (lmprof_hash_insert_refines hp h p r Hwf Hp Hk) as [Hwf' Habs].
  split.
  - rewrite (proj1 (lmprof_hash_get_refines _ _ _ _ Hwf')), Habs, lookup_insert_eq. done.
  - intros fid pid Hne. rewrite (proj1 (lmprof_hash_get_refines _ _ _ _ Hwf')),
      (proj1 (lmprof_hash_get_refines _ _ _ _ Hwf)), Habs, lookup_insert_ne by congruence.
    done.
Qed.

(** * Refinement over operation sequences *)

(** A client's sequence of table operations: a lookup, or the insertion of
    the record at a pointer (as lmprof_fetch_record does after a miss). *)
Inductive HashOp :=
  | HGet (fid pid : Z)
  | HInsert (p : nat).

(** The operations run on the hashtable: the answers of the lookups and
    the final table. *)
Fixpoint run_hash (hp : heap) (h : lmprof_Hash) (ops : list HashOp)
    : list (option nat) * lmprof_Hash :=
  match ops with
  | [] => ([], h)
  | HGet fid pid :: ops' =>
      let '(res, h1) := lmprof_hash_get hp h fid pid in
      let '(rs, h2) := run_hash hp h1 ops' in (res :: rs, h2)
  | HInsert p :: ops' =>
      match hp !! p with
      | Some r => run_hash hp (snd (lmprof_hash_insert true h p r)) ops'
      | None => run_hash hp h ops'
      end
  end.

(** The same operations on a finite map; [None] when an insertion breaks
    the table's contract (a key already present, or a pointer that does
    not hold the record). *)
Fixpoint run_map (hp : heap) (m : gmap (Z * Z) nat) (ops : list HashOp)
    : option (list (option nat) * gmap (Z * Z) nat) :=
  match ops with
  | [] => Some ([], m)
  | HGet fid pid :: ops' =>
      '(rs, m') ← run_map hp m ops'; Some (m !! (fid, pid) :: rs, m')
  | HInsert p :: ops' =>
      match hp !! p with
      | Some r =>
          if decide (m !! (f_id r, p_id r) = None)
          then run_map hp (<[(f_id r, p_id r) := p]> m) ops' else None
      | None => None
      end
  end.

(** C5: Refinement: any sequence of lookups and fresh insertions gives the
    same answers on the hashtable as on the map it represents, and leaves a
    well-formed table representing the final map. *)
Theorem run_hash_refines hp h ops rs m' :
  hash_wf hp h -> run_map hp (hash_abs hp h) ops = Some (rs, m') ->
  (run_hash hp h ops).1 = rs /\
  hash_wf hp (run_hash hp h ops).2 /\ hash_abs hp (run_hash hp h ops).2 = m'.
Proof.
  revert h rs. induction ops as [|[fid pid|p] ops IH]; intros h rs Hwf Hrun; cbn in Hrun |- *.
  - by simplify_eq.
  - destruct (run_map hp (hash_abs hp h) ops) as [[rs' m'']|] eqn:E; simplify_eq/=.
    destruct (lmprof_hash_get_refines hp h fid pid Hwf) as (Hres & Habs & Hwf1).
    destruct (lmprof_hash_get hp h fid pid) as [res h1]. cbn in *. rewrite <-Habs in E.
    destruct (IH h1 rs' Hwf1 E) as (Hrs & Hwf2 & Habs2).
    destruct (run_hash hp h1 ops). cbn in *. subst. done.
  - destruct (hp !! p) as [r|] eqn:Hp; [|done]. case_decide as Hk; [|done].
    destruct (lmprof_hash_insert_refines hp h p r Hwf Hp Hk) as [Hwf1 Habs1].
    rewrite <-Habs1 in Hrun. exact (IH _ _ Hwf1 Hrun).
Qed.

(** * Witnesses *)

Definition ex_hash_heap : heap := {[0%nat := record_blank 10 0 0]}.
Definition ex_hash : lmprof_Hash :=
  snd (lmprof_hash_insert true (lmprof_hash_create LMPROF_HASH_SIZE) 0 (record_blank 10 0 0)).

Lemma ex_hash_create_wf :
  hash_wf ex_hash_heap (lmprof_hash_create LMPROF_HASH_SIZE) /\
  hash_abs ex_hash_heap (lmprof_hash_create LMPROF_HASH_SIZE) = ∅.
Proof. apply lmprof_hash_create_wf. unfold LMPROF_HASH_SIZE. lia. Qed.

Lemma ex_hash_wf : hash_wf ex_hash_heap ex_hash.
Proof.
  destruct ex_hash_create_wf as [Hwf Habs].
  apply (lmprof_hash_insert_refines _ _ _ _ Hwf); [reflexivity | rewrite Habs; done].
Qed.

Lemma lmprof_hash_insert_get_witness :
  fst (lmprof_hash_get ex_hash_heap ex_hash 10 0) = Some 0%nat /\
  (forall fid pid, (fid, pid) <> (10, 0) ->
     fst (lmprof_hash_get ex_hash_heap ex_hash fid pid) =
     fst (lmprof_hash_get ex_hash_heap (lmprof_hash_create LMPROF_HASH_SIZE) fid pid)).
Proof.
  destruct ex_hash_create_wf as [Hwf Habs].
  apply (lmprof_hash_insert_get _ _ 0 (record_blank 10 0 0) Hwf); [reflexivity | rewrite Habs; done].
Defined.

Lemma lmprof_hash_clear_statistics_spec_witness :
  let hp' := lmprof_hash_clear_statistics ex_hash_heap ex_hash in
  (forall p r, p ∈ concat (buckets ex_hash) -> hp' !! p = Some r ->
     count r = 0 /\ node r = unit_clear /\ path r = unit_clear) /\
  (forall p, p ∉ concat (buckets ex_hash) -> hp' !! p = ex_hash_heap !! p) /\
  hash_wf hp' ex_hash /\ hash_abs hp' ex_hash = hash_abs ex_hash_heap ex_hash.
Proof. apply lmprof_hash_clear_statistics_spec, ex_hash_wf. Defined.

Lemma to_identifier_range_witness : in_range (to_identifier 4096 8192).
Proof. apply to_identifier_range; by_eval. Defined.

Lemma run_hash_refines_witness :
  hash_wf ex_hash_heap (lmprof_hash_create LMPROF_HASH_SIZE) /\
  run_map ex_hash_heap (hash_abs ex_hash_heap (lmprof_hash_create LMPROF_HASH_SIZE))
    [HGet 10 0; HInsert 0; HGet 10 0; HGet 1 1] =
    Some ([None; Some 0%nat; None], {[(10, 0) := 0%nat]}) /\
  (run_hash ex_hash_heap (lmprof_hash_create LMPROF_HASH_SIZE)
     [HGet 10 0; HInsert 0; HGet 10 0; HGet 1 1]).1 =
    [None; Some 0%nat; None] /\
  hash_wf ex_hash_heap (run_hash ex_hash_heap (lmprof_hash_create LMPROF_HASH_SIZE)
     [HGet 10 0; HInsert 0; HGet 10 0; HGet 1 1]).2 /\
  hash_abs ex_hash_heap (run_hash ex_hash_heap (lmprof_hash_create LMPROF_HASH_SIZE)
     [HGet 10 0; HInsert 0; HGet 10 0; HGet 1 1]).2 =
    {[(10, 0) := 0%nat]}.
Proof.
  destruct ex_hash_create_wf as [Hwf Habs].
  assert (run_map ex_hash_heap (hash_abs ex_hash_heap (lmprof_hash_create LMPROF_HASH_SIZE))
    [HGet 10 0; HInsert 0; HGet 10 0; HGet 1 1] =
    Some ([None; Some 0%nat; None], {[(10, 0) := 0%nat]})) as Hrun
    by (rewrite Habs; vm_compute; reflexivity).
  split; [exact Hwf|]. split; [exact Hrun|].
  apply run_hash_refines; [exact Hwf | exact Hrun].
Defined.

End Hash.
