(* ===== verification/Stack.v ===== *)
(** * The profile stack

    lmprof_Stack (collections/lmprof_stack.h) is a fixed array of
    LMPROF_MAXSTACK frames with a [head] index.  Frames above [head] keep
    their old contents: lmprof_stack_pop returns a pointer to the frame it
    just removed, which the hook code keeps reading.  The model therefore
    keeps the whole array, frames being addressed by their index.

    Frames of the graph mode carry a pointer to their record, the overhead
    accumulated while they were on top, the measurement at push time
    ([node]) and the total of their children ([path]); measured pop
    (lmprof_stack_measured_pop, collections/lmprof_collections.c) folds a
    frame into its record and its parent.  Trace-mode frames carry the
    begin event of their scope and the measurement of the call. *)

From S2P Require Import Common Unit Record.
Import Unit Record.

Module Stack.

(** A trace event is addressed by its page and its slot in the page. *)
Abbreviation EventRef := (nat * nat)%type.

(** lmprof_StackInst.  [record] is the first field of both members of the
    C union, so the graph and trace views share it. *)
Record StackInst := mkInst {
  tail_call : bool;
  last_line : Z;
  last_line_instructions : Z;
  record : option nat;
  g_overhead : Z;
  g_node : EventUnit;
  g_path : EventUnit;
  t_begin_event : option EventRef;
  t_call : EventMeasurement;
}.

(** lmprof_Stack *)
Record lmprof_Stack := mkStack {
  callback_api : bool;
  thread_identifier : Z;
  instr_count : Z;
  instr_last : Z;
  head : nat;
  size : nat;
  stack : list StackInst;
}.

(** LMPROF_MAXSTACK *)
Definition LMPROF_MAXSTACK : nat := 1024.

(** LMPROF_PROCESS_MAIN and LMPROF_THREAD_BROWSER (lmprof_traceevent.h). *)
Definition LMPROF_PROCESS_MAIN : Z := 1.
Definition LMPROF_THREAD_BROWSER : Z := 1.

Definition measurement_clear : EventMeasurement :=
  mkMeasurement (mkProcess LMPROF_PROCESS_MAIN LMPROF_THREAD_BROWSER) unit_clear 0.

Definition set_stack (s : lmprof_Stack) (h : nat) (st : list StackInst) : lmprof_Stack :=
  mkStack (callback_api s) (thread_identifier s) (instr_count s) (instr_last s) h (size s) st.

(** stack_clear_instance: the fields of the active union member are
    reset. *)
Definition stack_clear_instance (api : bool) (i : StackInst) : StackInst :=
  if api then
    mkInst false 0 0 None (g_overhead i) (g_node i) (g_path i) None measurement_clear
  else
    mkInst false 0 0 None 0 unit_clear unit_clear (t_begin_event i) (t_call i).

(** lmprof_stack_clear / lmprof_stack_new: an empty stack of capacity
    LMPROF_MAXSTACK whose frames are all cleared. *)
Definition blank_inst : StackInst :=
  mkInst false 0 0 None 0 unit_clear unit_clear None measurement_clear.

Definition lmprof_stack_new (id : Z) (api : bool) : lmprof_Stack :=
  mkStack api id 0 0 0 LMPROF_MAXSTACK
          (replicate LMPROF_MAXSTACK (stack_clear_instance api blank_inst)).

(** lmprof_stack_size, lmprof_stack_peek, lmprof_stack_parent *)
Definition lmprof_stack_size (s : lmprof_Stack) : nat := head s.

Definition lmprof_stack_peek (s : lmprof_Stack) : option nat :=
  if decide (0 < head s)%nat then Some (head s - 1)%nat else None.

Definition lmprof_stack_parent (s : lmprof_Stack) : option nat :=
  if decide (1 < head s)%nat then Some (head s - 2)%nat else None.

Definition set_tail (t : bool) (i : StackInst) : StackInst :=
  mkInst t (last_line i) (last_line_instructions i) (record i) (g_overhead i)
         (g_node i) (g_path i) (t_begin_event i) (t_call i).

(** lmprof_stack_next: reserve the slot at [head] and set its tail flag. *)
Definition lmprof_stack_next (s : lmprof_Stack) (tail : bool)
    : option nat * lmprof_Stack :=
  if decide (head s < size s)%nat then
    (Some (head s), set_stack s (S (head s)) (alter (set_tail tail) (head s) (stack s)))
  else (None, s).

(** lmprof_stack_pop *)
Definition lmprof_stack_pop (s : lmprof_Stack) : option nat * lmprof_Stack :=
  if decide (0 < head s)%nat then
    (Some (head s - 1)%nat, set_stack s (head s - 1) (stack s))
  else (None, s).

(** lmprof_stack_measured_push: only for graph stacks. *)
Definition graph_init (r : nat) (u : EventUnit) (i : StackInst) : StackInst :=
  mkInst (tail_call i) (last_line i) (last_line_instructions i) (Some r) 0 u unit_clear
         (t_begin_event i) (t_call i).

Definition lmprof_stack_measured_push (s : lmprof_Stack) (r : nat) (u : EventUnit)
    (tail : bool) : option nat * lmprof_Stack :=
  if callback_api s then (None, s)
  else match lmprof_stack_next s tail with
       | (Some i, s') => (Some i, set_stack s' (head s') (alter (graph_init r u) i (stack s')))
       | (None, s') => (None, s')
       end.

(** lmprof_stack_event_push: only the call measurement and the record. *)
Definition trace_init (r : nat) (m : EventMeasurement) (i : StackInst) : StackInst :=
  mkInst (tail_call i) (last_line i) (last_line_instructions i) (Some r) (g_overhead i)
         (g_node i) (g_path i) (t_begin_event i) m.

Definition lmprof_stack_event_push (s : lmprof_Stack) (r : nat) (m : EventMeasurement)
    (tail : bool) : option nat * lmprof_Stack :=
  match lmprof_stack_next s tail with
  | (Some i, s') => (Some i, set_stack s' (head s') (alter (trace_init r m) i (stack s')))
  | (None, s') => (None, s')
  end.

(** lmprof_stack_measured_pop.  The C function decrements [head] without
    checking it (it "should not be called with an empty stack") and
    dereferences the frame's record; both preconditions are the [Some]
    cases here.  Note the statement
    [inst->graph.node.time -= inst->graph.overhead], which runs after the
    total has been computed and only changes the stored snapshot. *)
Definition lmprof_stack_measured_pop (s : lmprof_Stack) (hp : heap) (u : EventUnit)
    : option (nat * lmprof_Stack * heap) :=
  match head s with
  | O => None
  | S h =>
      inst ← stack s !! h;
      p ← record inst;
      r ← hp !! p;
      let total := unit_sub u (g_node inst) in
      let inst' := mkInst (tail_call inst) (last_line inst) (last_line_instructions inst)
                     (record inst) (g_overhead inst)
                     (mkUnit (time (g_node inst) -w g_overhead inst)
                             (allocated (g_node inst)) (deallocated (g_node inst)))
                     (g_path inst) (t_begin_event inst) (t_call inst) in
      let st1 := <[h := inst']> (stack s) in
      let st2 := match h with
                 | O => st1
                 | S h' => alter (fun par =>
                             mkInst (tail_call par) (last_line par) (last_line_instructions par)
                               (record par) (g_overhead par +w g_overhead inst)
                               (g_node par) (unit_add_to (g_path par) total)
                               (t_begin_event par) (t_call par)) h' st1
                 end in
      let self := unit_sub total (g_path inst) in
      let r' := set_stats r (count r +w 1) (unit_add_to (node r) self)
                            (unit_add_to (path r) total) in
      Some (h, set_stack s h st2, <[p := r']> hp)
  end.

(** Stack well-formedness: the array has [size] frames and [head] is
    within it. *)
Definition stack_wf (s : lmprof_Stack) : Prop :=
  length (stack s) = size s /\ (head s <= size s)%nat.

(** * Basic operations *)

(** Reduce record projections of [set_stack] without unfolding the list
    operations ([simpl] would expand [alter] and [insert]). *)
Ltac stack_simpl :=
  unfold set_stack in *;
  cbn [head stack size callback_api thread_identifier instr_count instr_last
       tail_call last_line last_line_instructions record g_overhead g_node g_path
       t_begin_event t_call] in *.

Lemma lmprof_stack_new_wf id api : stack_wf (lmprof_stack_new id api).
Proof. split; cbn [stack size head lmprof_stack_new]; [apply length_replicate|unfold LMPROF_MAXSTACK; lia]. Qed.

(** lmprof_stack_next keeps the stack well formed, reserves the slot at
    the old head, and fails without changing anything exactly when the
    stack is full. *)
Theorem lmprof_stack_next_spec s tail :
  stack_wf s ->
  match lmprof_stack_next s tail with
  | (Some i, s') => (head s < size s)%nat /\ i = head s /\ head s' = S (head s) /\
                    stack_wf s' /\ option_map tail_call (stack s' !! i) = Some tail
  | (None, s') => head s = size s /\ s' = s
  end.
Proof.
  intros [Hl Hh]. unfold lmprof_stack_next. case_decide as Hlt.
  - unfold stack_wf. stack_simpl. repeat split; try lia.
    + rewrite length_alter. done.
    + rewrite list_lookup_alter.
      destruct (lookup_lt_is_Some_2 (stack s) (head s)) as [x ->]; [lia|].
      rewrite decide_True by done. reflexivity.
  - split; [lia|done].
Qed.

Lemma lmprof_stack_measured_push_wf s r u tail :
  stack_wf s -> stack_wf (snd (lmprof_stack_measured_push s r u tail)).
Proof.
  intros Hwf. unfold lmprof_stack_measured_push.
  destruct (callback_api s); [done|].
  pose proof (lmprof_stack_next_spec s tail Hwf) as Hn.
  destruct (lmprof_stack_next s tail) as [[i|] s']; [|by destruct Hn as [_ ->]].
  destruct Hn as (_ & _ & _ & [Hl Hh] & _).
  unfold stack_wf in *. cbn [snd]. stack_simpl. rewrite length_alter. split; done.
Qed.

(** * Measured pop *)

(** The parent frame after a child's total has been folded into it. *)
Definition parent_fold (child : StackInst) (total : EventUnit) (par : StackInst) : StackInst :=
  mkInst (tail_call par) (last_line par) (last_line_instructions par)
    (record par) (g_overhead par +w g_overhead child)
    (g_node par) (unit_add_to (g_path par) total) (t_begin_event par) (t_call par).

(** What lmprof_stack_measured_pop does, frame by frame: the head drops by
    one; the frame below the popped one (if any) receives the child's total
    in its [path] and the child's overhead; every other live frame is
    unchanged; the popped frame's record gets one more call, the total in
    its [path] and the total minus the children in its [node]. *)
Lemma lmprof_stack_measured_pop_Some s hp u h inst p r :
  head s = S h -> stack s !! h = Some inst -> record inst = Some p -> hp !! p = Some r ->
  exists s',
    lmprof_stack_measured_pop s hp u =
      Some (h, s', <[p := set_stats r (count r +w 1)
                      (unit_add_to (node r) (unit_sub (unit_sub u (g_node inst)) (g_path inst)))
                      (unit_add_to (path r) (unit_sub u (g_node inst)))]> hp) /\
    head s' = h /\ size s' = size s /\ length (stack s') = length (stack s) /\
    (forall k, (k < h)%nat ->
       stack s' !! k =
         if decide (S k = h) then parent_fold inst (unit_sub u (g_node inst)) <$> stack s !! k
         else stack s !! k).
Proof.
  intros Hh Hi Hp Hr. unfold lmprof_stack_measured_pop. rewrite Hh, Hi. simpl.
  rewrite Hp. simpl. rewrite Hr. simpl.
  eexists. split; [reflexivity|]. stack_simpl.
  pose proof (lookup_lt_Some _ _ _ Hi) as Hlt.
  destruct h as [|h'].
  - repeat split; [by rewrite length_insert|lia].
  - repeat split; [by rewrite length_alter, length_insert|].
    intros k Hk. rewrite list_lookup_alter.
    case_decide as E1; case_decide as E2; subst; try lia;
      rewrite list_lookup_insert_ne by lia; reflexivity.
Qed.

(** A frame with its overhead replaced. *)
Definition set_overhead (ov : Z) (i : StackInst) : StackInst :=
  mkInst (tail_call i) (last_line i) (last_line_instructions i) (record i) ov
         (g_node i) (g_path i) (t_begin_event i) (t_call i).

(** C40: The overhead a frame accumulated while it was on top is never
    taken out of the statistics.  Two stacks that differ only in the
    overhead of the popped frame produce the same records (and the same
    parent [path]): the statement
    [inst->graph.node.time -= inst->graph.overhead] of
    lmprof_stack_measured_pop runs after the total has been computed. *)
Theorem lmprof_stack_measured_pop_ignores_overhead s hp u ov h :
  head s = S h ->
  let s2 := set_stack s (head s) (alter (set_overhead ov) h (stack s)) in
  (snd <$> lmprof_stack_measured_pop s hp u) = (snd <$> lmprof_stack_measured_pop s2 hp u).
Proof.
  intros Hh s2. unfold s2, lmprof_stack_measured_pop. stack_simpl. rewrite Hh.
  rewrite list_lookup_alter, decide_True by done.
  destruct (stack s !! h) as [inst|]; [|reflexivity]. simpl.
  destruct (record inst) as [p|]; [|reflexivity]. simpl.
  destruct (hp !! p); reflexivity.
Qed.

(** * The timing invariant

    The argument holds for any of the three counters of a unit (time,
    bytes allocated, bytes deallocated): each only grows over a session.
    The section is parameterised by the counter. *)
Section Counter.

Variable fld : EventUnit -> Z.
Hypothesis fld_add : forall a b, fld (unit_add_to a b) = fld a +w fld b.
Hypothesis fld_sub : forall a b, fld (unit_sub a b) = fld a -w fld b.
Hypothesis fld_clear : fld unit_clear = 0.

(** Where the frame at index [k] stops accumulating children: the start of
    the frame above it, or the current sample for the top frame. *)
Definition next_start (s : lmprof_Stack) (now : Z) (k : nat) : Z :=
  match (if decide (S k < head s)%nat then stack s !! S k else None) with
  | Some j => fld (g_node j)
  | None => now
  end.

(** Frames: what a frame's children account for fits between its start
    and the start of the frame above it. *)
Definition frames_inv (s : lmprof_Stack) (now : Z) : Prop :=
  0 <= now < MODULUS /\ (head s <= length (stack s))%nat /\
  forall k i, (k < head s)%nat -> stack s !! k = Some i ->
    0 <= fld (g_node i) /\ 0 <= fld (g_path i) /\
    fld (g_node i) + fld (g_path i) <= next_start s now k.

(** Records: self never exceeds self plus children (node ⊑ path). *)
Definition records_inv (hp : heap) : Prop :=
  forall p r, hp !! p = Some r -> 0 <= fld (node r) <= fld (path r) /\ fld (path r) < MODULUS.

Lemma next_start_top s now k :
  S k = head s -> next_start s now k = now.
Proof. intros Hk. unfold next_start. rewrite decide_False by lia. done. Qed.

Lemma next_start_below s now k j :
  (S k < head s)%nat -> stack s !! S k = Some j -> next_start s now k = fld (g_node j).
Proof. intros Hk Hj. unfold next_start. rewrite decide_True by done. by rewrite Hj. Qed.

(** Every live frame started, and has accounted for its children, no later
    than the current sample. *)
Lemma frames_inv_le_now s now :
  frames_inv s now ->
  forall k i, (k < head s)%nat -> stack s !! k = Some i ->
    fld (g_node i) + fld (g_path i) <= now.
Proof.
  intros Hinv. destruct Hinv as (Hnow & Hlen & Hf) eqn:Hinv'.
  intros k. remember (head s - S k)%nat as d eqn:Hd. revert k Hd.
  induction d as [|d IH]; intros k Hd i Hk Hi.
  - destruct (Hf k i Hk Hi) as (_ & _ & Hb). by rewrite next_start_top in Hb by lia.
  - destruct (lookup_lt_is_Some_2 (stack s) (S k)) as [j Hj]; [lia|].
    destruct (Hf k i Hk Hi) as (_ & _ & Hb).
    rewrite (next_start_below s now k j) in Hb by (done || lia).
    destruct (Hf (S k) j ltac:(lia) Hj) as (_ & Hpj & _).
    specialize (IH (S k) ltac:(lia) j ltac:(lia) Hj). lia.
Qed.

Lemma lmprof_stack_measured_pop_inv s hp u h s' hp' :
  lmprof_stack_measured_pop s hp u = Some (h, s', hp') ->
  exists inst p r, head s = S h /\ stack s !! h = Some inst /\
    record inst = Some p /\ hp !! p = Some r.
Proof.
  unfold lmprof_stack_measured_pop. destruct (head s) as [|h0] eqn:Hh; [done|].
  destruct (stack s !! h0) as [inst|] eqn:Hi; simpl; [|done].
  destruct (record inst) as [p|] eqn:Hp; simpl; [|done].
  destruct (hp !! p) as [r|] eqn:Hr; simpl; [|done].
  intros [= <- _ _]. eauto 10.
Qed.

(** Measured pop at a sample no earlier than the current one keeps both
    invariants, provided the popped record's [path] counter does not
    overflow. *)
Lemma measured_pop_keeps_inv s hp u now h s' hp' :
  frames_inv s now -> records_inv hp -> now <= fld u < MODULUS ->
  (forall inst p r, stack s !! h = Some inst -> record inst = Some p -> hp !! p = Some r ->
     fld (path r) + (fld u - fld (g_node inst)) < MODULUS) ->
  lmprof_stack_measured_pop s hp u = Some (h, s', hp') ->
  frames_inv s' (fld u) /\ records_inv hp'.
Proof.
  intros Hinv Hrec Hu Hover Hpop.
  destruct (lmprof_stack_measured_pop_inv _ _ _ _ _ _ Hpop) as (inst & p & r & Hh & Hi & Hp & Hr).
  destruct (lmprof_stack_measured_pop_Some s hp u h inst p r Hh Hi Hp Hr)
    as (s2 & Hpop2 & Hh2 & _ & Hl2 & Hk2).
  rewrite Hpop in Hpop2. injection Hpop2 as E1 E2. subst s2 hp'.
  pose proof Hinv as (Hnow & Hlen & Hf).
  destruct (Hf h inst ltac:(lia) Hi) as (Hn0 & Hp0 & Hb0).
  rewrite next_start_top in Hb0 by lia.
  specialize (Hover inst p r Hi Hp Hr).
  assert (Htot : fld (unit_sub u (g_node inst)) = fld u - fld (g_node inst))
    by (rewrite fld_sub; solve_exact).
  split.
  - split; [lia|]. split; [rewrite Hh2, Hl2; lia|].
    intros k i Hk Hki. rewrite Hh2 in Hk. rewrite (Hk2 k Hk) in Hki.
    destruct (stack s !! k) as [par|] eqn:Hpar; [|by destruct (decide _)].
    destruct (Hf k par ltac:(lia) Hpar) as (Hn1 & Hp1 & Hb1).
    case_decide as Hsk.
    + injection Hki as <-. assert (Hi' : stack s !! S k = Some inst) by (rewrite Hsk; done).
      rewrite (next_start_below s now k inst) in Hb1 by (try exact Hi'; lia).
      cbn [parent_fold g_node g_path]. rewrite next_start_top by (rewrite Hh2; done).
      rewrite fld_add, Htot. solve_exact.
    + injection Hki as ->.
      destruct (stack s !! S k) as [j|] eqn:Hj; [|apply lookup_ge_None in Hj; lia].
      rewrite (next_start_below s now k j) in Hb1 by (done || lia).
      repeat split; [lia|lia|].
      assert (Hns : next_start s' (fld u) k = fld (g_node j)).
      { unfold next_start. rewrite decide_True by lia. rewrite (Hk2 (S k)) by lia.
        rewrite Hj. by case_decide. }
      rewrite Hns. lia.
  - intros q rq Hq. destruct (decide (q = p)) as [->|Hne].
    + rewrite lookup_insert_eq in Hq. injection Hq as <-.
      destruct (Hrec p r Hr) as [[Hn Hnp] Hpm].
      cbn [node path set_stats]. rewrite !fld_add, !fld_sub. rewrite fld_sub in Htot.
      rewrite Htot. solve_exact.
    + rewrite lookup_insert_ne in Hq by congruence. by apply (Hrec q).
Qed.

(** What a measured pop adds, in exact arithmetic under the invariants:
    the parent's [path] grows by the child's total, and the record's
    [path] by the total and its [node] by the total minus the children. *)
Lemma measured_pop_effects s hp u now h s' hp' inst :
  frames_inv s now -> records_inv hp -> now <= fld u < MODULUS ->
  stack s !! h = Some inst ->
  (forall p r, record inst = Some p -> hp !! p = Some r ->
     fld (path r) + (fld u - fld (g_node inst)) < MODULUS) ->
  lmprof_stack_measured_pop s hp u = Some (h, s', hp') ->
  (forall k par, S k = h -> stack s !! k = Some par ->
     exists par', stack s' !! k = Some par' /\
       fld (g_path par') = fld (g_path par) + (fld u - fld (g_node inst))) /\
  (exists p r r', record inst = Some p /\ hp !! p = Some r /\ hp' !! p = Some r' /\
     count r' = count r +w 1 /\
     fld (path r') = fld (path r) + (fld u - fld (g_node inst)) /\
     fld (node r') = fld (node r) + (fld u - fld (g_node inst) - fld (g_path inst))).
Proof.
  intros Hinv Hrec Hu Hi Hover Hpop.
  destruct (lmprof_stack_measured_pop_inv _ _ _ _ _ _ Hpop) as (inst0 & p & r & Hh & Hi0 & Hp & Hr).
  rewrite Hi in Hi0. injection Hi0 as <-.
  destruct (lmprof_stack_measured_pop_Some s hp u h inst p r Hh Hi Hp Hr)
    as (s2 & Hpop2 & _ & _ & _ & Hk2).
  rewrite Hpop in Hpop2. injection Hpop2 as E1 E2. subst s2 hp'.
  pose proof Hinv as (Hnow & Hlen & Hf).
  destruct (Hf h inst ltac:(lia) Hi) as (Hn0 & Hp0 & Hb0).
  rewrite next_start_top in Hb0 by lia.
  specialize (Hover p r Hp Hr). destruct (Hrec p r Hr) as [[Hn Hnp] Hpm].
  assert (Htot : fld (unit_sub u (g_node inst)) = fld u - fld (g_node inst))
    by (rewrite fld_sub; solve_exact).
  assert (Hself : fld (unit_sub (unit_sub u (g_node inst)) (g_path inst)) =
                  fld u - fld (g_node inst) - fld (g_path inst))
    by (rewrite fld_sub, Htot; solve_exact).
  split.
  - intros k par Hk Hpar. rewrite (Hk2 k ltac:(lia)), Hpar, decide_True by done.
    eexists; split; [reflexivity|]. cbn [parent_fold g_path].
    destruct (Hf k par ltac:(lia) Hpar) as (Hn1 & Hp1 & Hb1).
    rewrite (next_start_below s now k inst) in Hb1 by (rewrite ?Hk; (done || lia)).
    rewrite fld_add, Htot. solve_exact.
  - exists p, r. eexists. split_and!; [done|done|apply lookup_insert_eq|done| |];
      cbn [node path count set_stats]; rewrite fld_add; [rewrite Htot|rewrite Hself]; solve_exact.
Qed.

(** C9: Measured pop at a sample no earlier than the current one keeps both
    invariants, provided the popped record's [path] counter does not
    overflow, and does the accounting of a return: the frame below absorbs
    the child's total (the time since its push) into its [path], and the
    popped record gets one more call, the total in its [path] and the total
    minus the children in its [node]. *)
Theorem lmprof_stack_measured_pop_inv_preserved s hp u now h s' hp' inst :
  frames_inv s now -> records_inv hp -> now <= fld u < MODULUS ->
  stack s !! h = Some inst ->
  (forall p r, record inst = Some p -> hp !! p = Some r ->
     fld (path r) + (fld u - fld (g_node inst)) < MODULUS) ->
  lmprof_stack_measured_pop s hp u = Some (h, s', hp') ->
  frames_inv s' (fld u) /\ records_inv hp' /\
  (forall k par, S k = h -> stack s !! k = Some par ->
     exists par', stack s' !! k = Some par' /\
       fld (g_path par') = fld (g_path par) + (fld u - fld (g_node inst))) /\
  (exists p r r', record inst = Some p /\ hp !! p = Some r /\ hp' !! p = Some r' /\
     count r' = count r +w 1 /\
     fld (path r') = fld (path r) + (fld u - fld (g_node inst)) /\
     fld (node r') = fld (node r) + (fld u - fld (g_node inst) - fld (g_path inst))).
Proof.
  intros Hinv Hrec Hu Hi Hover Hpop.
  destruct (measured_pop_keeps_inv s hp u now h s' hp' Hinv Hrec Hu) as [H1 H2]; [|done|].
  { intros inst' p r Hi' Hp Hr. rewrite Hi in Hi'. injection Hi' as <-. eauto. }
  split_and!; [done|done|..];
    apply (measured_pop_effects s hp u now h s' hp' inst Hinv Hrec Hu Hi Hover Hpop).
Qed.

Lemma next_start_mono s now now' k :
  now <= now' -> next_start s now k <= next_start s now' k.
Proof. intros. unfold next_start. destruct (if decide _ then _ else _); lia. Qed.

(** Moving the clock forward keeps the frame invariant. *)
Lemma frames_inv_advance s now now' :
  frames_inv s now -> now <= now' < MODULUS -> frames_inv s now'.
Proof.
  intros (Hnow & Hlen & Hf) Hle. split; [lia|]. split; [done|].
  intros k i Hk Hi. destruct (Hf k i Hk Hi) as (? & ? & Hb).
  pose proof (next_start_mono s now now' k ltac:(lia)). lia.
Qed.

(** C10: Measured push at a sample no earlier than the current one keeps the
    frame invariant: the new frame starts at the sample with no children,
    and closes the window of the frame below it. *)
Theorem lmprof_stack_measured_push_inv_preserved s r u tail now i s' :
  frames_inv s now -> stack_wf s -> now <= fld u < MODULUS ->
  lmprof_stack_measured_push s r u tail = (Some i, s') ->
  frames_inv s' (fld u).
Proof.
  intros Hinv Hwf Hu Hpush. pose proof Hinv as (Hnow & Hlen & Hf).
  unfold lmprof_stack_measured_push in Hpush.
  destruct (callback_api s); [discriminate|].
  unfold lmprof_stack_next in Hpush. case_decide as Hlt; [|discriminate].
  injection Hpush as <- <-.
  set (s' := set_stack _ _ _).
  assert (Hh' : head s' = S (head s)) by reflexivity.
  assert (Hlk : forall k, stack s' !! k =
      if decide (k = head s) then graph_init r u <$> (set_tail tail <$> stack s !! k)
      else stack s !! k).
  { intros k. unfold s'. stack_simpl. rewrite !list_lookup_alter.
    repeat case_decide; subst; try congruence; done. }
  assert (Hns : forall k, (k < head s)%nat -> next_start s' (fld u) k =
            if decide (S k = head s) then fld u else next_start s now k).
  { intros k Hk. unfold next_start. rewrite Hh'. rewrite decide_True by lia.
    rewrite Hlk. destruct (decide (S k = head s)) as [E|E].
    - destruct (lookup_lt_is_Some_2 (stack s) (S k)) as [x ->]; [destruct Hwf; lia|]. reflexivity.
    - rewrite decide_True by lia.
      destruct (lookup_lt_is_Some_2 (stack s) (S k)) as [x ->]; [lia|reflexivity]. }
  split; [lia|]. split; [unfold s'; stack_simpl; rewrite !length_alter; destruct Hwf; lia|].
  intros k i Hk Hi. rewrite Hh' in Hk. rewrite Hlk in Hi.
  case_decide as Ek.
  - subst k. destruct (stack s !! head s) as [x|]; [|discriminate].
    injection Hi as <-. cbn [graph_init set_tail g_node g_path]. rewrite fld_clear.
    unfold next_start. rewrite Hh', decide_False by lia. lia.
  - destruct (Hf k i ltac:(lia) Hi) as (? & ? & Hb). rewrite Hns by lia.
    case_decide as E2.
    + rewrite next_start_top in Hb by done. lia.
    + lia.
Qed.

End Counter.

(** * A concrete stack: one frame pushed at time 5, popped at time 9 *)

Definition ex_u (t : Z) : EventUnit := mkUnit t 0 0.
Definition ex_stack0 : lmprof_Stack := lmprof_stack_new 1 false.
Definition ex_stack1 : lmprof_Stack := snd (lmprof_stack_measured_push ex_stack0 0 (ex_u 5) false).
Definition ex_stack_heap : heap := {[0%nat := record_blank 10 0 0]}.
Definition ex_popped : nat * lmprof_Stack * heap :=
  from_option id (0%nat, ex_stack1, ex_stack_heap)
              (lmprof_stack_measured_pop ex_stack1 ex_stack_heap (ex_u 9)).

Lemma ex_stack1_frames : frames_inv time ex_stack1 5.
Proof.
  split; [unfold MODULUS, WIDTH; lia|]. split; [vm_compute; lia|].
  intros k i Hk Hi. vm_compute in Hk. assert (k = 0%nat) as -> by lia.
  vm_compute in Hi. injection Hi as <-. vm_compute. split_and!; congruence.
Qed.

Lemma ex_stack_heap_records : records_inv time ex_stack_heap.
Proof.
  intros p r Hp. unfold ex_stack_heap in Hp. apply lookup_singleton_Some in Hp as [_ <-]. vm_compute.
  split_and!; congruence.
Qed.

(** Two frames: record 0 pushed at time 5, record 1 at time 7, popped at
    time 9. *)
Definition ex_stack2 : lmprof_Stack := snd (lmprof_stack_measured_push ex_stack1 1 (ex_u 7) false).
Definition ex_heap2 : heap := {[0%nat := record_blank 10 0 0; 1%nat := record_blank 11 10 1]}.
Definition ex_popped2 : nat * lmprof_Stack * heap :=
  from_option id (1%nat, ex_stack2, ex_heap2) (lmprof_stack_measured_pop ex_stack2 ex_heap2 (ex_u 9)).
Definition ex_inst2 : StackInst := default blank_inst (stack ex_stack2 !! 1%nat).

Lemma ex_stack2_frames : frames_inv time ex_stack2 7.
Proof.
  split; [unfold MODULUS, WIDTH; lia|]. split; [vm_compute; lia|].
  intros k i Hk Hi. vm_compute in Hk. destruct k as [|[|k]]; [| |lia];
    vm_compute in Hi; injection Hi as <-; vm_compute; split_and!; congruence.
Qed.

Lemma ex_heap2_records : records_inv time ex_heap2.
Proof.
  intros p r Hp. unfold ex_heap2 in Hp.
  destruct (decide (p = 0%nat)) as [->|]; [vm_compute in Hp; injection Hp as <-; vm_compute; split_and!; congruence|].
  destruct (decide (p = 1%nat)) as [->|]; [vm_compute in Hp; injection Hp as <-; vm_compute; split_and!; congruence|].
  rewrite lookup_insert_ne, lookup_singleton_ne in Hp by congruence. done.
Qed.

Lemma lmprof_stack_measured_pop_inv_preserved_witness :
  frames_inv time ex_popped2.1.2 (time (ex_u 9)) /\ records_inv time ex_popped2.2 /\
  (forall k par, S k = 1%nat -> stack ex_stack2 !! k = Some par ->
     exists par', stack ex_popped2.1.2 !! k = Some par' /\
       time (g_path par') = time (g_path par) + (time (ex_u 9) - time (g_node ex_inst2))) /\
  (exists p r r', record ex_inst2 = Some p /\ ex_heap2 !! p = Some r /\ ex_popped2.2 !! p = Some r' /\
     count r' = count r +w 1 /\
     time (path r') = time (path r) + (time (ex_u 9) - time (g_node ex_inst2)) /\
     time (node r') = time (node r) + (time (ex_u 9) - time (g_node ex_inst2) - time (g_path ex_inst2))).
Proof.
  assert (E : lmprof_stack_measured_pop ex_stack2 ex_heap2 (ex_u 9) =
              Some (1%nat, ex_popped2.1.2, ex_popped2.2)) by (vm_compute; reflexivity).
  refine (lmprof_stack_measured_pop_inv_preserved time (fun _ _ => eq_refl) (fun _ _ => eq_refl)
           ex_stack2 ex_heap2 (ex_u 9) 7 1%nat ex_popped2.1.2 ex_popped2.2 ex_inst2
           ex_stack2_frames ex_heap2_records _ _ _ E).
  - unfold MODULUS, WIDTH; cbn; lia.
  - reflexivity.
  - intros p r Hp Hr. vm_compute in Hp. injection Hp as <-. vm_compute in Hr. injection Hr as <-.
    vm_compute. done.
Defined.

Lemma lmprof_stack_measured_push_inv_preserved_witness :
  frames_inv time ex_stack1 (time (ex_u 5)).
Proof.
  apply (lmprof_stack_measured_push_inv_preserved time
           eq_refl ex_stack0 0 (ex_u 5) false 0 0%nat);
    [split; [unfold MODULUS, WIDTH; lia | split; [vm_compute; lia | intros k i Hk; vm_compute in Hk; lia]]
    | apply lmprof_stack_new_wf | unfold MODULUS, WIDTH; cbn; lia | reflexivity].
Defined.

Lemma lmprof_stack_measured_pop_ignores_overhead_witness :
  (snd <$> lmprof_stack_measured_pop ex_stack1 ex_stack_heap (ex_u 9)) =
  (snd <$> lmprof_stack_measured_pop
             (set_stack ex_stack1 (head ex_stack1) (alter (set_overhead 3) 0%nat (stack ex_stack1)))
             ex_stack_heap (ex_u 9)).
Proof. apply lmprof_stack_measured_pop_ignores_overhead. reflexivity. Defined.

Lemma lmprof_stack_measured_push_wf_witness :
  stack_wf (snd (lmprof_stack_measured_push ex_stack0 0 (ex_u 5) false)).
Proof. apply lmprof_stack_measured_push_wf, lmprof_stack_new_wf. Defined.

End Stack.
