(* ===== verification/Timeline.v ===== *)
(** * The paged trace-event timeline

    TraceEventTimeline (collections/lmprof_traceevent.h) is a linked list
    of fixed-size pages of TraceEvent slots; [curr] is the page receiving
    writes.  Events point to each other (enter/exit siblings, the chain of
    line events of a scope); following the design note of the
    specification they are addressed by [(page, slot)] ([Stack.EventRef]).

    Modelled from collections/lmprof_collections.c: timeline_new,
    timeline_allocpage, timeline_canbuffer, the emitters
    traceevent_metadata_process/thread, traceevent_begin/endframe,
    traceevent_begin/endroutine, traceevent_enter/exitscope,
    traceevent_sample, and the post passes timeline_adjust and
    timeline_compress.  A slot that has been reserved but not written is
    [None]: the C slot holds whatever the page memory held.  Page
    allocation (traceevent_new) is assumed to succeed.

    The number of slots of a page, TRACE_EVENT_SIZE_ARRAY, depends on the
    structure layout of the build; it is the section variable [cap]. *)

From Stdlib Require Import Ascii.
From S2P Require Import Common Unit Record Stack.
Import Unit Record Stack.

Module Timeline.

(** TraceEventType *)
Inductive TraceEventType :=
  | BEGIN_FRAME | END_FRAME | BEGIN_ROUTINE | END_ROUTINE | ENTER_SCOPE | EXIT_SCOPE
  | LINE_SCOPE | SAMPLE_EVENT | PROCESS | THREAD | IGNORE_SCOPE.

#[export] Instance TraceEventType_eq_dec : EqDecision TraceEventType.
Proof. solve_decision. Defined.

(** The union [data] of a TraceEvent, one constructor per member. *)
Inductive TraceEventData :=
  | DEvent (info : option nat) (sibling lines : option EventRef) (flags : Z)
  | DLine (info : option nat) (previous next : option EventRef) (line : Z)
  | DSample (next : option EventRef)
  | DFrame (frame : Z)
  | DProcess (name : list ascii).

Record TraceEvent := mkEvent {
  op : TraceEventType;
  call : EventMeasurement;
  data : TraceEventData;
}.

(** Error codes. *)
Definition TRACE_EVENT_OK : Z := 0.
Definition TRACE_EVENT_ERRPAGEFULL : Z := 2.

(** TRACE_EVENT_PAGE_SIZE *)
Definition TRACE_EVENT_PAGE_SIZE : Z := 32768.

(** op_frame, op_routine, op_event, op_adjust *)
Definition op_event (o : TraceEventType) : bool :=
  match o with ENTER_SCOPE | EXIT_SCOPE | IGNORE_SCOPE => true | _ => false end.
Definition op_adjust (o : TraceEventType) : bool :=
  match o with PROCESS | THREAD => false | _ => true end.

(** A page: its slots [0, count). *)
Abbreviation page := (list (option TraceEvent)).

Record TraceEventTimeline := mkTimeline {
  pageCount : Z;
  pageLimit : Z;
  frameCount : Z;
  baseTime : Z;
  pages : list page;
  curr : nat;
}.

Definition set_pages (tl : TraceEventTimeline) (ps : list page) : TraceEventTimeline :=
  mkTimeline (pageCount tl) (pageLimit tl) (frameCount tl) (baseTime tl) ps (curr tl).

Definition event_at (tl : TraceEventTimeline) (r : EventRef) : option TraceEvent :=
  pages tl !! r.1 ≫= fun pg => pg !! r.2 ≫= id.

(** Overwrite the slot [r] (which must exist). *)
Definition write_slot (tl : TraceEventTimeline) (r : EventRef) (e : option TraceEvent)
    : TraceEventTimeline :=
  set_pages tl (alter (fun pg => <[r.2 := e]> pg) r.1 (pages tl)).

Definition modify_event (tl : TraceEventTimeline) (r : EventRef)
    (f : TraceEvent -> TraceEvent) : TraceEventTimeline :=
  match event_at tl r with
  | Some e => write_slot tl r (Some (f e))
  | None => tl
  end.

(** timeline_new: the page budget is given in bytes. *)
Definition timeline_new (pageLimitBytes : Z) : TraceEventTimeline :=
  mkTimeline 0 (pageLimitBytes / TRACE_EVENT_PAGE_SIZE) 1 0 [[]] 0.

Section WithCapacity.

(** TRACE_EVENT_SIZE_ARRAY *)
Variable cap : nat.

(** timeline_allocpage: a slot of the current page, else the next
    (recycled) page, else a new page if the budget allows it. *)
Definition timeline_allocpage (tl : TraceEventTimeline)
    : option (EventRef * TraceEventTimeline) :=
  let c := curr tl in
  match pages tl !! c with
  | None => None
  | Some pg =>
      if decide (length pg = cap) then
        if decide (S c < length (pages tl))%nat then
          Some ((S c, 0%nat),
                mkTimeline (pageCount tl) (pageLimit tl) (frameCount tl) (baseTime tl)
                           (<[S c := [None]]> (pages tl)) (S c))
        else if decide (pageLimit tl = 0 \/ pageCount tl < pageLimit tl) then
          Some ((S c, 0%nat),
                mkTimeline (pageCount tl + 1) (pageLimit tl) (frameCount tl) (baseTime tl)
                           (pages tl ++ [[None]]) (S c))
        else None
      else Some ((c, length pg), set_pages tl (<[c := pg ++ [None]]> (pages tl)))
  end.

(** FETCHPAGE followed by writing the event. *)
Definition emit (tl : TraceEventTimeline) (e : TraceEvent)
    : Z * TraceEventTimeline * option EventRef :=
  match timeline_allocpage tl with
  | Some (r, tl') => (TRACE_EVENT_OK, write_slot tl' r (Some e), Some r)
  | None => (TRACE_EVENT_ERRPAGEFULL, tl, None)
  end.

Definition set_frameCount (tl : TraceEventTimeline) (n : Z) : TraceEventTimeline :=
  mkTimeline (pageCount tl) (pageLimit tl) n (baseTime tl) (pages tl) (curr tl).

(** traceevent_metadata_process.  The C code writes only the lane and the
    name; the measurement of a PROCESS or THREAD event is never read, and
    is cleared here. *)
Definition traceevent_metadata_process (tl : TraceEventTimeline) (process : Z)
    (name : list ascii) : Z * TraceEventTimeline :=
  let '(c, tl', _) := emit tl (mkEvent PROCESS
      (mkMeasurement (mkProcess process LMPROF_THREAD_BROWSER) unit_clear 0) (DProcess name)) in
  (c, tl').

(** traceevent_metadata_thread *)
Definition traceevent_metadata_thread (tl : TraceEventTimeline) (process : EventProcess)
    (name : list ascii) : Z * TraceEventTimeline :=
  let '(c, tl', _) := emit tl (mkEvent THREAD (mkMeasurement process unit_clear 0)
                                        (DProcess name)) in
  (c, tl').

(** traceevent_beginframe: the frame counter is incremented first (only
    when a slot was obtained). *)
Definition traceevent_beginframe (tl : TraceEventTimeline) (unit : EventMeasurement)
    : Z * TraceEventTimeline :=
  match timeline_allocpage tl with
  | Some (r, tl') =>
      let n := frameCount tl' +w 1 in
      (TRACE_EVENT_OK, write_slot (set_frameCount tl' n) r
                          (Some (mkEvent BEGIN_FRAME unit (DFrame n))))
  | None => (TRACE_EVENT_ERRPAGEFULL, tl)
  end.

Definition traceevent_endframe (tl : TraceEventTimeline) (unit : EventMeasurement)
    : Z * TraceEventTimeline :=
  let '(c, tl', _) := emit tl (mkEvent END_FRAME unit (DFrame (frameCount tl))) in (c, tl').

Definition traceevent_beginroutine (tl : TraceEventTimeline) (unit : EventMeasurement)
    : Z * TraceEventTimeline :=
  let '(c, tl', _) := emit tl (mkEvent BEGIN_ROUTINE unit (DEvent None None None 0)) in (c, tl').

Definition traceevent_endroutine (tl : TraceEventTimeline) (unit : EventMeasurement)
    : Z * TraceEventTimeline :=
  let '(c, tl', _) := emit tl (mkEvent END_ROUTINE unit (DEvent None None None 0)) in (c, tl').

(** traceevent_enterscope: the new event is remembered in the frame. *)
Definition set_begin_event (b : option EventRef) (i : StackInst) : StackInst :=
  mkInst (tail_call i) (last_line i) (last_line_instructions i) (record i) (g_overhead i)
         (g_node i) (g_path i) b (t_call i).

Definition traceevent_enterscope (tl : TraceEventTimeline) (inst : StackInst)
    : Z * TraceEventTimeline * StackInst :=
  match emit tl (mkEvent ENTER_SCOPE (t_call inst) (DEvent (record inst) None None 0)) with
  | (c, tl', Some r) => (c, tl', set_begin_event (Some r) inst)
  | (c, tl', None) => (c, tl', inst)
  end.

Definition set_sibling (sib : option EventRef) (e : TraceEvent) : TraceEvent :=
  match data e with
  | DEvent i _ l f => mkEvent (op e) (call e) (DEvent i sib l f)
  | _ => e
  end.

Definition set_lines (ln : option EventRef) (e : TraceEvent) : TraceEvent :=
  match data e with
  | DEvent i s _ f => mkEvent (op e) (call e) (DEvent i s ln f)
  | _ => e
  end.

Definition set_line_next (nx : option EventRef) (e : TraceEvent) : TraceEvent :=
  match data e with
  | DLine i p _ l => mkEvent (op e) (call e) (DLine i p nx l)
  | _ => e
  end.

(** traceevent_exitscope: cross-link with the begin event when there is
    one. *)
Definition traceevent_exitscope (tl : TraceEventTimeline) (inst : StackInst)
    : Z * TraceEventTimeline :=
  match emit tl (mkEvent EXIT_SCOPE (t_call inst) (DEvent (record inst) None None 0)) with
  | (c, tl', Some r) =>
      match t_begin_event inst with
      | Some b => (c, modify_event (modify_event tl' b (set_sibling (Some r))) r
                                   (set_sibling (Some b)))
      | None => (c, tl')
      end
  | (c, tl', None) => (c, tl')
  end.

(** The [lines] field of a begin event. *)
Definition event_lines (e : TraceEvent) : option EventRef :=
  match data e with DEvent _ _ l _ => l | _ => None end.

(** traceevent_sample: the slot is reserved before the begin event is
    checked; without a begin event the function returns TRACE_EVENT_OK
    and leaves the reserved slot unwritten. *)
Definition traceevent_sample (tl : TraceEventTimeline) (inst : StackInst)
    (unit : EventMeasurement) (line : Z) : Z * TraceEventTimeline :=
  match timeline_allocpage tl with
  | None => (TRACE_EVENT_ERRPAGEFULL, tl)
  | Some (r, tl1) =>
      match t_begin_event inst with
      | None => (TRACE_EVENT_OK, tl1)
      | Some b =>
          if decide (line = -1) then
            (TRACE_EVENT_OK, write_slot tl1 r (Some (mkEvent SAMPLE_EVENT unit (DSample None))))
          else
            let lines := event_at tl1 b ≫= event_lines in
            let tl2 := write_slot tl1 r
                         (Some (mkEvent LINE_SCOPE unit (DLine (record inst) lines None line))) in
            let tl3 := match lines with
                       | Some l => modify_event tl2 l (set_line_next (Some r))
                       | None => tl2
                       end in
            (TRACE_EVENT_OK, modify_event tl3 b (set_lines (Some r)))
      end
  end.

(** timeline_canbuffer, with its size_t arithmetic.  (The comparison is
    the one of the source: available [<=] requested.) *)
Definition timeline_canbuffer (tl : TraceEventTimeline) (n : Z) : bool :=
  if decide (pageLimit tl <> 0) then
    let count := from_option (fun pg => Z.of_nat (length pg)) 0 (pages tl !! curr tl) in
    let p_avail := Z.of_nat cap -w count in
    let s_avail := wrap (Z.of_nat cap * (pageLimit tl -w pageCount tl -w 1)) in
    bool_decide ((p_avail +w s_avail) <= n)
  else true.

(** The events of the timeline in iteration order (timeline_foreach). *)
Definition all_refs (tl : TraceEventTimeline) : list EventRef :=
  concat (imap (fun pg p => imap (fun sl _ => (pg, sl)) p) (pages tl)).

(** timeline_adjust: every event taking part in time ordering loses the
    base time and its own captured overhead. *)
Definition adjust_event (base : Z) (e : TraceEvent) : TraceEvent :=
  if op_adjust (op e) then
    let c := call e in
    mkEvent (op e)
      (mkMeasurement (proc c)
         (mkUnit ((time (s c) -w base) -w overhead c) (allocated (s c)) (deallocated (s c)))
         (overhead c))
      (data e)
  else e.

(** [list->baseTime = ...] (lmprof_lib.c, at the start of tracing). *)
Definition set_baseTime (tl : TraceEventTimeline) (b : Z) : TraceEventTimeline :=
  mkTimeline (pageCount tl) (pageLimit tl) (frameCount tl) b (pages tl) (curr tl).

Definition timeline_adjust (tl : TraceEventTimeline) : TraceEventTimeline :=
  set_pages tl (map (map (fmap (adjust_event (baseTime tl)))) (pages tl)).

(** TraceEventCompressOpts *)
Record TraceEventCompressOpts := mkOpts {
  opt_pid : Z;
  opt_tid : Z;
  threshold : Z;
}.

(** INCLUDE_THREAD *)
Definition include_thread (o : TraceEventCompressOpts) (e : TraceEvent) : bool :=
  bool_decide ((opt_pid o = 0 \/ pid (proc (call e)) = opt_pid o) /\
               (opt_tid o = 0 \/ tid (proc (call e)) = opt_tid o)).

Definition event_time (e : TraceEvent) : Z := time (s (call e)).

Definition set_op (o : TraceEventType) (e : TraceEvent) : TraceEvent :=
  mkEvent o (call e) (data e).

Definition line_previous (e : TraceEvent) : option EventRef :=
  match data e with DLine _ p _ _ => p | _ => None end.

(** The walk [for (tail = event->lines; tail; tail = tail->previous)]. *)
Fixpoint ignore_lines (fuel : nat) (tl : TraceEventTimeline) (r : option EventRef)
    : TraceEventTimeline :=
  match fuel, r with
  | S f, Some x =>
      ignore_lines f (modify_event tl x (set_op IGNORE_SCOPE))
                   (event_at tl x ≫= line_previous)
  | _, _ => tl
  end.

(** Whether the record an event points to is in the ignore set. *)
Definition info_ignored (hp : heap) (info : option nat) : bool :=
  match info ≫= fun p => hp !! p with
  | Some r => record_ignored r
  | None => false
  end.

(** [ignore] of timeline_compress: the record is in the ignore set or
    the scope is shorter than the threshold (INCLUDE_DURATION fails). *)
Definition scope_ignored (hp : heap) (o : TraceEventCompressOpts) (info : option nat)
    (e se : TraceEvent) : bool :=
  info_ignored hp info ||
  negb (bool_decide (threshold o = 0 \/ event_time se -w event_time e >= threshold o)).

(** The body of the loop of timeline_compress for the event at [r]. *)
Definition compress_step (fuel : nat) (hp : heap) (o : TraceEventCompressOpts)
    (tl : TraceEventTimeline) (r : EventRef) : TraceEventTimeline :=
  match event_at tl r with
  | Some e =>
      if include_thread o e then
        match op e, data e with
        | ENTER_SCOPE, DEvent info (Some sref) lines _ =>
            match event_at tl sref with
            | Some se =>
                if scope_ignored hp o info e se then
                  ignore_lines fuel
                    (modify_event (modify_event tl r (set_op IGNORE_SCOPE)) sref
                                  (set_op IGNORE_SCOPE)) lines
                else tl
            | None => tl
            end
        | _, _ => tl
        end
      else tl
  | None => tl
  end.

(** timeline_compress: the loop over every event, in order; the line walk
    is given the number of events as fuel. *)
Definition timeline_compress (hp : heap) (o : TraceEventCompressOpts)
    (tl : TraceEventTimeline) : TraceEventTimeline :=
  let refs := all_refs tl in
  foldl (compress_step (length refs) hp o) tl refs.

(** The slot [r]: [Some None] for a reserved slot not yet written. *)
Definition slot (tl : TraceEventTimeline) (r : EventRef) : option (option TraceEvent) :=
  pages tl !! r.1 ≫= fun pg => pg !! r.2.

(** The fill count of the current page ([list->curr->count]). *)
Definition cur_len (tl : TraceEventTimeline) : nat :=
  from_option length 0%nat (pages tl !! curr tl).

(** The number of events the timeline can still take under a page
    budget: the rest of the current page and [pageLimit - pageCount]
    further pages (the header page is not counted in [pageCount]). *)
Definition capacity_left (tl : TraceEventTimeline) : Z :=
  (Z.of_nat cap - Z.of_nat (cur_len tl)) + Z.of_nat cap * (pageLimit tl - pageCount tl).

(** The shape of a timeline built by timeline_new and the emitters: the
    current page is the last one ([curr] is never moved back, so the
    recycled-page branch of timeline_allocpage is never taken), no page
    holds more than [cap] slots, [pageCount] counts the pages after the
    header, and the budget is respected. *)
Record tl_wf (tl : TraceEventTimeline) : Prop := {
  wf_last : S (curr tl) = length (pages tl);
  wf_pages : Forall (fun pg => (length pg <= cap)%nat) (pages tl);
  wf_count : Z.of_nat (length (pages tl)) = pageCount tl + 1;
  wf_limit : pageLimit tl = 0 \/ pageCount tl <= pageLimit tl;
  wf_limit_nonneg : 0 <= pageLimit tl;
}.

(** One call of an emitter of lmprof_collections.c, by the profiler. *)
Inductive tl_step : TraceEventTimeline -> TraceEventTimeline -> Prop :=
  | step_process tl p n :
      tl_step tl (traceevent_metadata_process tl p n).2
  | step_thread tl p n :
      tl_step tl (traceevent_metadata_thread tl p n).2
  | step_beginframe tl u : tl_step tl (traceevent_beginframe tl u).2
  | step_endframe tl u : tl_step tl (traceevent_endframe tl u).2
  | step_beginroutine tl u : tl_step tl (traceevent_beginroutine tl u).2
  | step_endroutine tl u : tl_step tl (traceevent_endroutine tl u).2
  | step_enterscope tl i : tl_step tl (traceevent_enterscope tl i).1.2
  | step_exitscope tl i : tl_step tl (traceevent_exitscope tl i).2
  | step_sample tl i u l : tl_step tl (traceevent_sample tl i u l).2.

End WithCapacity.

(** * Allocation *)

Section Allocation.

Variable cap : nat.
Hypothesis cap_pos : (0 < cap)%nat.

Lemma wf_cur tl :
  tl_wf cap tl -> exists pg, pages tl !! curr tl = Some pg /\ cur_len tl = length pg /\
                           (length pg <= cap)%nat.
Proof.
  intros Hwf. destruct (lookup_lt_is_Some_2 (pages tl) (curr tl)) as [pg Hpg].
  { rewrite <- (wf_last _ _ Hwf). lia. }
  exists pg. unfold cur_len. rewrite Hpg. split_and!; [done..|].
  eapply (Forall_lookup_1 _ _ _ _ (wf_pages _ _ Hwf) Hpg).
Qed.

Lemma wf_no_next tl : tl_wf cap tl -> ~ (S (curr tl) < length (pages tl))%nat.
Proof. intros Hwf. rewrite <- (wf_last _ _ Hwf). lia. Qed.

(** timeline_allocpage on a well-formed timeline: the next slot of the
    current page, else a new page within the budget, else failure. *)
Lemma timeline_allocpage_wf_eq tl :
  tl_wf cap tl ->
  timeline_allocpage cap tl =
    if decide (cur_len tl = cap) then
      if decide (pageLimit tl = 0 \/ pageCount tl < pageLimit tl) then
        Some ((S (curr tl), 0%nat),
              mkTimeline (pageCount tl + 1) (pageLimit tl) (frameCount tl) (baseTime tl)
                         (pages tl ++ [[None]]) (S (curr tl)))
      else None
    else Some ((curr tl, cur_len tl),
               set_pages tl (alter (fun pg => pg ++ [None]) (curr tl) (pages tl))).
Proof.
  intros Hwf. destruct (wf_cur tl Hwf) as (pg & Hpg & Hlen & _).
  unfold timeline_allocpage. rewrite Hpg, Hlen.
  case_decide; [|rewrite list_insert_alter; do 2 f_equal; f_equal;
    apply list_alter_ext; [intros x Hx; congruence | done]].
  rewrite decide_False by (apply wf_no_next; done). reflexivity.
Qed.

(** timeline_allocpage keeps the timeline well formed. *)
Lemma timeline_allocpage_wf tl r tl' :
  tl_wf cap tl -> timeline_allocpage cap tl = Some (r, tl') -> tl_wf cap tl'.
Proof.
  intros Hwf Ha. destruct (wf_cur tl Hwf) as (pg & Hpg & Hlen & Hle).
  rewrite timeline_allocpage_wf_eq in Ha by done.
  destruct Hwf as [Hl Hp Hc Hlim Hnn].
  repeat case_decide; simplify_eq; unfold set_pages; constructor;
    cbn [pages curr pageCount pageLimit];
    rewrite ?length_app, ?length_alter; cbn [length]; try lia.
  - apply Forall_app; split; [done|]. repeat constructor. cbn. lia.
  - apply Forall_alter; [done|]. intros x Hx _. rewrite length_app. cbn.
    rewrite Hpg in Hx. simplify_eq. lia.
Qed.

(** The slot it returns is new and empty, and no other slot changes. *)
Lemma timeline_allocpage_fresh tl r tl' :
  tl_wf cap tl -> timeline_allocpage cap tl = Some (r, tl') ->
  slot tl r = None /\ slot tl' r = Some None /\
  (forall r', r' <> r -> slot tl' r' = slot tl r') /\
  frameCount tl' = frameCount tl /\ baseTime tl' = baseTime tl /\
  pageLimit tl' = pageLimit tl.
Proof.
  intros Hwf Ha. destruct (wf_cur tl Hwf) as (pg & Hpg & Hlen & Hle).
  pose proof (wf_last _ _ Hwf) as Hl.
  rewrite timeline_allocpage_wf_eq in Ha by done.
  unfold slot. repeat case_decide; simplify_eq; unfold set_pages;
    cbn [pages fst snd frameCount baseTime pageLimit]; split_and!; try done.
  - rewrite lookup_ge_None_2 by lia. done.
  - rewrite lookup_app_r by lia. rewrite <- Hl, Nat.sub_diag. done.
  - intros [p k] Hne. cbn [fst snd]. rewrite lookup_app.
    destruct (pages tl !! p) eqn:E; [done|].
    apply lookup_ge_None_1 in E. destruct (decide (p = S (curr tl))) as [->|].
    + rewrite <- Hl, Nat.sub_diag. destruct k; [done|]. cbn. destruct k; done.
    + rewrite lookup_ge_None_2 by (cbn; lia). done.
  - rewrite Hpg. cbn. rewrite lookup_ge_None_2 by lia. done.
  - rewrite list_lookup_alter, decide_True, Hlen, Hpg by done. cbn [fmap option_fmap option_map mbind option_bind].
    rewrite lookup_app_r, Nat.sub_diag by lia. done.
  - intros [p k] Hne. cbn [fst snd]. rewrite list_lookup_alter.
    case_decide; [subst p|done]. rewrite Hpg. cbn [fmap option_fmap option_map mbind option_bind].
    rewrite lookup_app.
    destruct (pg !! k) eqn:E; [done|]. apply lookup_ge_None_1 in E.
    assert (k <> length pg) by (intros ->; apply Hne; rewrite Hlen; done).
    rewrite lookup_ge_None_2 by (cbn; lia). done.
Qed.

Lemma event_at_slot tl r : event_at tl r = slot tl r ≫= id.
Proof. unfold event_at, slot. destruct (pages tl !! r.1); reflexivity. Qed.

Lemma write_slot_slot tl r e r' :
  is_Some (slot tl r) ->
  slot (write_slot tl r e) r' = if decide (r' = r) then Some e else slot tl r'.
Proof.
  destruct r as [p k], r' as [p' k']. unfold slot, write_slot, set_pages.
  cbn [pages fst snd]. intros Hs. rewrite list_lookup_alter.
  destruct (pages tl !! p) as [pg|] eqn:Hp; cbn in Hs; [|by destruct Hs].
  case_decide as Hpp; [subst p'|]; cbn [fmap option_fmap option_map mbind option_bind].
  - rewrite Hp. cbn [fmap option_fmap option_map mbind option_bind].
    destruct (decide (k' = k)) as [->|Hk].
    + rewrite decide_True by done. apply list_lookup_insert_eq, lookup_lt_is_Some_1. done.
    + rewrite decide_False by congruence. apply list_lookup_insert_ne. congruence.
  - rewrite decide_False by congruence. done.
Qed.

Lemma write_slot_wf tl r e :
  tl_wf cap tl -> is_Some (slot tl r) -> tl_wf cap (write_slot tl r e).
Proof.
  intros [Hl Hp Hc Hlim Hnn] _. unfold write_slot, set_pages.
  constructor; cbn [pages curr pageCount pageLimit]; rewrite ?length_alter; try done.
  apply Forall_alter; [done|]. intros x _ Hx. rewrite length_insert. done.
Qed.

Lemma write_slot_cur_len tl r e : cur_len (write_slot tl r e) = cur_len tl.
Proof.
  unfold cur_len, write_slot, set_pages. cbn [pages curr].
  rewrite list_lookup_alter. case_decide as E; [rewrite <- E|done].
  destruct (pages tl !! _); cbn; [by rewrite length_insert|done].
Qed.

Lemma modify_event_slot tl r f r' :
  slot (modify_event tl r f) r' =
    if decide (r' = r) then option_map (option_map f) (slot tl r) else slot tl r'.
Proof.
  unfold modify_event. rewrite event_at_slot.
  destruct (slot tl r) as [[e|]|] eqn:Hs; cbn [mbind option_bind id].
  - rewrite write_slot_slot by (rewrite Hs; done). case_decide; subst; by rewrite ?Hs.
  - case_decide; subst; done.
  - case_decide; subst; done.
Qed.

Lemma modify_event_wf tl r f : tl_wf cap tl -> tl_wf cap (modify_event tl r f).
Proof.
  intros Hwf. unfold modify_event. rewrite event_at_slot.
  destruct (slot tl r) as [[e|]|] eqn:Hs; cbn [mbind option_bind id]; [|done..].
  apply write_slot_wf; [done|]. rewrite Hs. done.
Qed.

Lemma modify_event_cur_len tl r f : cur_len (modify_event tl r f) = cur_len tl.
Proof. unfold modify_event. destruct (event_at tl r); [apply write_slot_cur_len|done]. Qed.

Lemma event_at_write_slot tl r e r' :
  is_Some (slot tl r) ->
  event_at (write_slot tl r e) r' = if decide (r' = r) then e else event_at tl r'.
Proof.
  intros Hs. rewrite !event_at_slot, write_slot_slot by done. case_decide; done.
Qed.

Lemma event_at_modify_event tl r f r' :
  event_at (modify_event tl r f) r' =
    if decide (r' = r) then f <$> event_at tl r else event_at tl r'.
Proof.
  rewrite !event_at_slot, modify_event_slot. case_decide; [subst|done].
  destruct (slot tl r) as [[]|]; done.
Qed.

Lemma event_at_Some_slot tl r e : event_at tl r = Some e -> slot tl r = Some (Some e).
Proof. rewrite event_at_slot. destruct (slot tl r) as [[]|]; cbn; congruence. Qed.

(** The page budget as the C code enforces it: with a limit, the
    remaining capacity is never negative, timeline_allocpage fails exactly
    when it is zero, and each allocation uses one unit of it. *)
Theorem timeline_allocpage_capacity tl :
  tl_wf cap tl -> pageLimit tl <> 0 ->
  0 <= capacity_left cap tl /\
  (timeline_allocpage cap tl = None <-> capacity_left cap tl = 0) /\
  (forall r tl', timeline_allocpage cap tl = Some (r, tl') ->
     capacity_left cap tl' = capacity_left cap tl - 1).
Proof.
  intros Hwf HL. destruct (wf_cur tl Hwf) as (pg & Hpg & Hlen & Hle).
  pose proof (wf_last _ _ Hwf) as Hl. pose proof (wf_limit _ _ Hwf) as Hlim.
  rewrite timeline_allocpage_wf_eq by done. unfold capacity_left. rewrite Hlen.
  destruct (decide (length pg = cap)) as [Hc|Hc];
    [destruct (decide (pageLimit tl = 0 \/ pageCount tl < pageLimit tl)) as [Hd|Hd]|].
  - split_and!; [nia | split; [discriminate | nia] |].
    intros r tl' [= <- <-]. unfold cur_len. cbn [pages curr pageLimit pageCount].
    rewrite lookup_app_r, <- Hl, Nat.sub_diag by lia. cbn. lia.
  - split_and!; [nia | split; [nia | done] | discriminate].
  - split_and!; [nia | split; [discriminate | nia] |].
    intros r tl' [= <- <-]. unfold cur_len, set_pages. cbn [pages curr pageLimit pageCount].
    rewrite list_lookup_alter, decide_True, Hpg by done. cbn. rewrite length_app. cbn. lia.
Qed.

(** Without a page limit allocation never fails. *)
Theorem timeline_allocpage_unlimited tl :
  tl_wf cap tl -> pageLimit tl = 0 -> is_Some (timeline_allocpage cap tl).
Proof.
  intros Hwf HL. rewrite timeline_allocpage_wf_eq by done.
  repeat case_decide; try done. naive_solver.
Qed.

Lemma alloc_write_wf tl r tl' e :
  tl_wf cap tl -> timeline_allocpage cap tl = Some (r, tl') ->
  tl_wf cap (write_slot tl' r e).
Proof.
  intros Hwf Ha. destruct (timeline_allocpage_fresh _ _ _ Hwf Ha) as (_ & Hs & _).
  apply write_slot_wf; [eapply timeline_allocpage_wf; eauto | rewrite Hs; done].
Qed.

Lemma set_frameCount_wf tl n : tl_wf cap tl -> tl_wf cap (set_frameCount tl n).
Proof. intros []; constructor; done. Qed.

Create HintDb tl_wf discriminated.
Local Hint Resolve modify_event_wf alloc_write_wf set_frameCount_wf
  timeline_allocpage_wf : tl_wf.

(** Every emitter of lmprof_collections.c keeps the timeline well
    formed. *)
Lemma tl_step_wf tl tl' : tl_step cap tl tl' -> tl_wf cap tl -> tl_wf cap tl'.
Proof.
  intros Hs Hwf. destruct Hs;
    unfold traceevent_metadata_process, traceevent_metadata_thread, traceevent_beginframe, traceevent_endframe,
      traceevent_beginroutine, traceevent_endroutine, traceevent_enterscope,
      traceevent_exitscope, traceevent_sample, emit;
    destruct (timeline_allocpage cap tl) as [[r tl1]|] eqn:Ha; cbn [fst snd];
    repeat case_match; cbn [fst snd]; eauto 6 with tl_wf.
  - apply write_slot_wf; [eauto with tl_wf|].
    destruct (timeline_allocpage_fresh _ _ _ Hwf Ha) as (_ & Hs & _).
    unfold slot, set_frameCount. cbn [pages]. exact (mk_is_Some _ _ Hs).
Qed.

Lemma timeline_new_wf bytes : 0 <= bytes -> tl_wf cap (timeline_new bytes).
Proof.
  intros Hb. constructor; cbn; try lia.
  - repeat constructor. cbn. lia.
  - right. pose proof (Z.div_pos bytes TRACE_EVENT_PAGE_SIZE). unfold TRACE_EVENT_PAGE_SIZE in *. lia.
  - apply Z.div_pos; [done|]. unfold TRACE_EVENT_PAGE_SIZE. lia.
Qed.

(** C3: Every timeline the profiler can build with timeline_new and any
    sequence of emitter calls is well formed. *)
Theorem timeline_reachable_wf bytes tl :
  0 <= bytes -> rtc (tl_step cap) (timeline_new bytes) tl -> tl_wf cap tl.
Proof.
  intros Hb Hr. apply timeline_new_wf in Hb. induction Hr; eauto using tl_step_wf.
Qed.

(** C24: timeline_canbuffer as the C code computes it: with room for at least
    one further page and no wrap-around, it answers whether the free
    space, counted one page short, is at most [n].  The question it is
    asked is whether [n] more events fit, i.e. [n <= capacity_left]. *)
Theorem timeline_canbuffer_eq tl n :
  tl_wf cap tl -> pageCount tl < pageLimit tl ->
  capacity_left cap tl < MODULUS ->
  timeline_canbuffer cap tl n = bool_decide (capacity_left cap tl - Z.of_nat cap <= n).
Proof.
  intros Hwf HL Hm. destruct (wf_cur tl Hwf) as (pg & Hpg & Hlen & Hle).
  pose proof (wf_count _ _ Hwf). pose proof (wf_last _ _ Hwf).
  unfold timeline_canbuffer, capacity_left in *. rewrite Hlen in *.
  rewrite decide_True by lia. rewrite Hpg. cbn [from_option].
  assert (Z.of_nat cap * (pageLimit tl - pageCount tl - 1) >= 0) by nia.
  unfold sub64, add64. rewrite (wrap_small (pageLimit tl - pageCount tl)),
    (wrap_small (pageLimit tl - pageCount tl - 1)), (wrap_small (Z.of_nat cap - _)) by
    (unfold in_range; nia).
  rewrite (wrap_small (Z.of_nat cap * _)), wrap_small by (unfold in_range; nia).
  apply bool_decide_ext. lia.
Qed.

(** The fields of the data of an enter or exit event. *)
Definition sibling_of (e : TraceEvent) : option EventRef :=
  match data e with DEvent _ s _ _ => s | _ => None end.

Lemma fresh_ne tl r b e : slot tl r = None -> event_at tl b = Some e -> b <> r.
Proof. intros Hr Hb ->. apply event_at_Some_slot in Hb. congruence. Qed.

(** C25: traceevent_exitscope on a frame whose begin event exists: on success
    the exit event is written in a new slot, the two events point to each
    other through [sibling], and no other slot changes; on failure the
    timeline is unchanged. *)
Theorem traceevent_exitscope_links tl inst b eb :
  tl_wf cap tl -> t_begin_event inst = Some b -> event_at tl b = Some eb ->
  match traceevent_exitscope cap tl inst with
  | (c, tl') =>
      (c = TRACE_EVENT_ERRPAGEFULL /\ tl' = tl) \/
      (c = TRACE_EVENT_OK /\ exists r, r <> b /\ slot tl r = None /\
         event_at tl' r = Some (mkEvent EXIT_SCOPE (t_call inst)
                                 (DEvent (record inst) (Some b) None 0)) /\
         event_at tl' b = Some (set_sibling (Some r) eb) /\
         (forall r', r' <> r -> r' <> b -> slot tl' r' = slot tl r'))
  end.
Proof.
  intros Hwf Hb Heb. unfold traceevent_exitscope, emit.
  destruct (timeline_allocpage cap tl) as [[r tl1]|] eqn:Ha; [|left; done].
  destruct (timeline_allocpage_fresh _ _ _ Hwf Ha) as (Hr & Hr1 & Hother & _).
  assert (b <> r) by eauto using fresh_ne.
  assert (Hb1 : event_at tl1 b = Some eb) by (rewrite event_at_slot, Hother, <- event_at_slot; done).
  rewrite Hb. right. split; [done|]. exists r. split_and!; [done..| | |].
  - rewrite event_at_modify_event, decide_True, event_at_modify_event, decide_False,
      event_at_write_slot, decide_True by (rewrite ?Hr1; done). done.
  - rewrite event_at_modify_event, decide_False, event_at_modify_event, decide_True,
      event_at_write_slot, decide_False by (rewrite ?Hr1; done). rewrite Hb1. done.
  - intros r' H1 H2. rewrite !modify_event_slot, !decide_False, write_slot_slot, decide_False
      by (rewrite ?Hr1; done). auto.
Qed.

Lemma elem_of_all_refs tl r : r ∈ all_refs tl <-> is_Some (slot tl r).
Proof.
  destruct r as [p k]. unfold all_refs, slot. cbn [fst snd].
  rewrite list_elem_of_In, in_concat. setoid_rewrite <- list_elem_of_In. split.
  - intros (l & Hin & Hl). apply elem_of_lookup_imap in Hin as (p' & pg & -> & Hp).
    apply elem_of_lookup_imap in Hl as (k' & x & [= <- <-] & Hx).
    rewrite Hp. cbn. rewrite Hx. done.
  - destruct (pages tl !! p) as [pg|] eqn:Hp; cbn; [|by intros []].
    intros [x Hx]. exists (imap (fun sl _ => (p, sl)) pg).
    split; apply elem_of_lookup_imap; eauto.
Qed.

(** C26: traceevent_sample without a begin event reserves a slot, returns
    TRACE_EVENT_OK and never writes the slot: the iteration of
    timeline_foreach (and so timeline_adjust, timeline_compress and the
    report) then visits an event whose contents were never set. *)
Theorem traceevent_sample_unwritten tl inst u line r tl1 :
  tl_wf cap tl -> t_begin_event inst = None ->
  timeline_allocpage cap tl = Some (r, tl1) ->
  traceevent_sample cap tl inst u line = (TRACE_EVENT_OK, tl1) /\
  slot tl r = None /\ slot tl1 r = Some None /\ r ∈ all_refs tl1.
Proof.
  intros Hwf Hb Ha. destruct (timeline_allocpage_fresh _ _ _ Hwf Ha) as (Hr & Hr1 & _).
  unfold traceevent_sample. rewrite Ha, Hb. split_and!; try done.
  apply elem_of_all_refs. rewrite Hr1. done.
Qed.

(** traceevent_sample of a line: the new LINE_SCOPE event is pushed at
    the end of the begin event's chain of lines, doubly linked with the
    previous last line. *)
Theorem traceevent_sample_line tl inst u line b eb i sb ls f tl' :
  tl_wf cap tl -> t_begin_event inst = Some b -> event_at tl b = Some eb ->
  data eb = DEvent i sb ls f -> line <> -1 ->
  (forall l, ls = Some l -> is_Some (event_at tl l)) ->
  traceevent_sample cap tl inst u line = (TRACE_EVENT_OK, tl') ->
  (exists r tl1, timeline_allocpage cap tl = Some (r, tl1)) ->
  exists r, r <> b /\ slot tl r = None /\
    event_at tl' r = Some (mkEvent LINE_SCOPE u (DLine (record inst) ls None line)) /\
    event_at tl' b = Some (mkEvent (op eb) (call eb) (DEvent i sb (Some r) f)) /\
    (forall l el, ls = Some l -> event_at tl l = Some el -> l <> b ->
       event_at tl' l = Some (set_line_next (Some r) el)).
Proof.
  intros Hwf Hb Heb Hd Hl Hlok Hs (r & tl1 & Ha).
  destruct (timeline_allocpage_fresh _ _ _ Hwf Ha) as (Hr & Hr1 & Hother & _).
  assert (b <> r) by eauto using fresh_ne.
  assert (Hb1 : event_at tl1 b = Some eb)
    by (rewrite event_at_slot, Hother, <- event_at_slot; done).
  unfold traceevent_sample in Hs. rewrite Ha, Hb, decide_False, Hb1 in Hs by done.
  assert (Hls : Some eb ≫= event_lines = ls) by (cbn; unfold event_lines; rewrite Hd; done).
  rewrite Hls in Hs. injection Hs as <-.
  exists r. split_and!; [done|done| | |].
  - rewrite event_at_modify_event, decide_False by done.
    destruct ls as [l|]; rewrite ?event_at_modify_event;
      [destruct (Hlok l eq_refl); rewrite decide_False by (symmetry; eauto using fresh_ne)|];
      rewrite event_at_write_slot, decide_True by (rewrite ?Hr1; done); done.
  - rewrite event_at_modify_event, decide_True by done.
    destruct ls as [l|]; [rewrite event_at_modify_event; destruct (decide (b = l)) as [<-|]|];
      rewrite ?decide_True, ?decide_False by done;
      rewrite event_at_write_slot, decide_False, Hb1 by (rewrite ?Hr1; done); cbn;
      unfold set_line_next, set_lines; rewrite ?Hd; cbn; rewrite ?Hd; done.
  - intros l el -> Hel Hne. assert (l <> r) by eauto using fresh_ne.
    rewrite event_at_modify_event, decide_False, event_at_modify_event, decide_True,
      event_at_write_slot, decide_False by (rewrite ?Hr1; done).
    rewrite event_at_slot, Hother, <- event_at_slot, Hel by done. done.
Qed.

End Allocation.

(** * The post passes *)

(** timeline_adjust rewrites every event in place with [adjust_event] and
    changes nothing else. *)
Theorem timeline_adjust_event tl r :
  event_at (timeline_adjust tl) r = adjust_event (baseTime tl) <$> event_at tl r.
Proof.
  unfold event_at, timeline_adjust, set_pages. cbn [pages].
  rewrite list_lookup_fmap. destruct (pages tl !! r.1) as [pg|]; [cbn|done].
  rewrite list_lookup_fmap. destruct (pg !! r.2) as [[]|]; done.
Qed.

(** An event taking part in ordering whose time is at least the base time
    plus its overhead ends up exactly that much earlier; PROCESS and THREAD
    events are untouched. *)
Theorem timeline_adjust_time tl r e :
  event_at tl r = Some e -> in_range (event_time e) -> 0 <= baseTime tl ->
  0 <= overhead (call e) -> baseTime tl + overhead (call e) <= event_time e ->
  exists e', event_at (timeline_adjust tl) r = Some e' /\
    call e' = (if op_adjust (op e)
               then mkMeasurement (proc (call e))
                      (mkUnit (event_time e - baseTime tl - overhead (call e))
                              (allocated (s (call e))) (deallocated (s (call e))))
                      (overhead (call e))
               else call e) /\
    op e' = op e /\ data e' = data e.
Proof.
  intros He Ht Hb Ho Hle. rewrite timeline_adjust_event, He. eexists; split; [done|].
  unfold adjust_event, event_time, in_range in *. destruct (op_adjust (op e)); [|done].
  cbn. rewrite sub64_sub64, wrap_small by (unfold in_range; lia).
  split_and!; [do 2 f_equal; lia | done..].
Qed.

(** R1 of the specification does not hold: even with the base time reset
    to zero, a second timeline_adjust subtracts every event's overhead
    again, so it changes each ordered event whose overhead is not a
    multiple of 2^64. *)
Theorem timeline_adjust_reset_not_idempotent tl r e :
  event_at tl r = Some e -> op_adjust (op e) = true -> wrap (overhead (call e)) <> 0 ->
  event_at (timeline_adjust (set_baseTime (timeline_adjust tl) 0)) r <>
  event_at (timeline_adjust tl) r.
Proof.
  intros He Hop Ho. rewrite (timeline_adjust_event (set_baseTime _ _)).
  change (event_at (set_baseTime (timeline_adjust tl) 0) r) with
    (event_at (timeline_adjust tl) r).
  rewrite timeline_adjust_event, He. cbn [fmap option_fmap option_map baseTime set_baseTime].
  unfold adjust_event at 2 3. rewrite Hop. unfold adjust_event. cbn [op call data]. rewrite Hop.
  intros [= Ht]. apply Ho. cbn [overhead s time] in Ht.
  rewrite sub64_sub64, Z.add_0_l in Ht. eapply wrap_sub_fixed; [|exact Ht].
  apply sub64_range.
Qed.

(** ** timeline_compress only ever turns events into IGNORE_SCOPE *)

(** [e'] is [e], possibly rewritten to IGNORE_SCOPE. *)
Definition ev_agree (e e' : TraceEvent) : Prop :=
  call e' = call e /\ data e' = data e /\ (op e' = op e \/ op e' = IGNORE_SCOPE).

Definition tl_agree (tl tl' : TraceEventTimeline) : Prop :=
  forall r, option_Forall2 ev_agree (event_at tl r) (event_at tl' r).

Lemma option_agree_refl (me : option TraceEvent) : option_Forall2 ev_agree me me.
Proof. destruct me; constructor. unfold ev_agree. auto. Qed.

#[export] Instance tl_agree_preorder : PreOrder tl_agree.
Proof.
  split.
  - intros tl r. apply option_agree_refl.
  - intros t1 t2 t3 H12 H23 r. specialize (H12 r). specialize (H23 r).
    destruct (event_at t1 r), (event_at t2 r), (event_at t3 r);
      inversion H12; inversion H23; subst; constructor.
    unfold ev_agree in *. destruct_and!. split_and!; try congruence.
    destruct_or!; first [left; congruence | right; congruence].
Qed.

Lemma tl_agree_modify_ignore tl r : tl_agree tl (modify_event tl r (set_op IGNORE_SCOPE)).
Proof.
  intros r'. rewrite event_at_modify_event. case_decide; [subst|apply option_agree_refl].
  destruct (event_at tl r); constructor. unfold ev_agree, set_op. cbn. auto.
Qed.

Lemma tl_agree_ignore_lines fuel tl x : tl_agree tl (ignore_lines fuel tl x).
Proof.
  revert tl x. induction fuel as [|fuel IH]; intros tl [x|]; cbn; try reflexivity.
  etrans; [apply tl_agree_modify_ignore | apply IH].
Qed.

Lemma tl_agree_compress_step fuel hp o tl r : tl_agree tl (compress_step fuel hp o tl r).
Proof.
  unfold compress_step. repeat case_match; try reflexivity.
  etrans; [|apply tl_agree_ignore_lines].
  etrans; apply tl_agree_modify_ignore.
Qed.

Lemma tl_agree_compress_fold fuel hp o refs tl :
  tl_agree tl (foldl (compress_step fuel hp o) tl refs).
Proof.
  revert tl. induction refs as [|r refs IH]; intros tl; cbn; [reflexivity|].
  etrans; [apply tl_agree_compress_step | apply IH].
Qed.

Lemma tl_agree_Some tl tl' r e' :
  tl_agree tl tl' -> event_at tl' r = Some e' -> exists e, event_at tl r = Some e /\ ev_agree e e'.
Proof. intros H He'. specialize (H r). rewrite He' in H. inversion H. eauto. Qed.

Lemma tl_agree_Some_r tl tl' r e :
  tl_agree tl tl' -> event_at tl r = Some e -> exists e', event_at tl' r = Some e' /\ ev_agree e e'.
Proof. intros H He. specialize (H r). rewrite He in H. inversion H. eauto. Qed.

Lemma ev_agree_scope_ignored hp o info e e' se se' :
  ev_agree e e' -> ev_agree se se' ->
  scope_ignored hp o info e' se' = scope_ignored hp o info e se.
Proof. intros (He & _) (Hs & _). unfold scope_ignored, event_time. rewrite He, Hs. done. Qed.

Lemma ev_agree_include o e e' : ev_agree e e' -> include_thread o e' = include_thread o e.
Proof. intros (He & _). unfold include_thread. rewrite He. done. Qed.

(** The condition of timeline_compress holds of the enter event at [r]:
    if it is an ENTER_SCOPE of a selected thread with a sibling, its scope
    is kept. *)
Definition enter_kept (hp : heap) (o : TraceEventCompressOpts) (tl : TraceEventTimeline)
    (r : EventRef) : Prop :=
  forall e info sref lines fl se,
    event_at tl r = Some e -> op e = ENTER_SCOPE -> include_thread o e = true ->
    data e = DEvent info (Some sref) lines fl -> event_at tl sref = Some se ->
    scope_ignored hp o info e se = false.

(** The event [e] has been rewritten to IGNORE_SCOPE at [r]. *)
Definition ignored_at (tl : TraceEventTimeline) (r : EventRef) (e : TraceEvent) : Prop :=
  exists e', event_at tl r = Some e' /\ ev_agree e e' /\ op e' = IGNORE_SCOPE.

Lemma enter_kept_agree hp o tl tl' r :
  tl_agree tl tl' -> enter_kept hp o tl r -> enter_kept hp o tl' r.
Proof.
  intros Hag Hk e info sref lines fl se He Hop Hinc Hd Hse.
  destruct (tl_agree_Some _ _ _ _ Hag He) as (e0 & He0 & Ha).
  destruct (tl_agree_Some _ _ _ _ Hag Hse) as (se0 & Hse0 & Hsa).
  rewrite (ev_agree_scope_ignored _ _ _ _ _ _ _ Ha Hsa).
  rewrite (ev_agree_include _ _ _ Ha) in Hinc.
  destruct Ha as (_ & Hdd & [Ho|Ho]); [|congruence].
  apply (Hk e0 info sref lines fl se0); congruence.
Qed.

Lemma ignored_at_agree tl tl' r e :
  tl_agree tl tl' -> ignored_at tl r e -> ignored_at tl' r e.
Proof.
  intros Hag (e1 & He1 & Ha1 & Ho1).
  destruct (tl_agree_Some_r _ _ _ _ Hag He1) as (e2 & He2 & (? & ? & Ho2)).
  exists e2. destruct Ha1 as (? & ? & _). unfold ev_agree.
  assert (op e2 = IGNORE_SCOPE) by (destruct Ho2; congruence).
  split_and!; auto; congruence.
Qed.

Lemma modify_ignore_ignored_at tl r e tl' :
  event_at tl r = Some e -> tl_agree (modify_event tl r (set_op IGNORE_SCOPE)) tl' ->
  ignored_at tl' r e.
Proof.
  intros He Hag. apply (ignored_at_agree _ _ _ _ Hag). exists (set_op IGNORE_SCOPE e).
  rewrite event_at_modify_event, decide_True, He by done. unfold ev_agree, set_op. cbn.
  split_and!; auto.
Qed.

#[local] Ltac kept_tl :=
  left; split; [done|]; intros ? ? ? ? ? ? ? ? ? ? ?; simplify_eq; congruence.

(** One step of the loop leaves the timeline alone, and then the
    condition holds of [r], or rewrites the scope. *)
Lemma compress_step_cases fuel hp o tl r :
  (compress_step fuel hp o tl r = tl /\ enter_kept hp o tl r) \/
  (exists e info sref lines fl se,
     event_at tl r = Some e /\ include_thread o e = true /\ op e = ENTER_SCOPE /\
     data e = DEvent info (Some sref) lines fl /\ event_at tl sref = Some se /\
     scope_ignored hp o info e se = true /\
     compress_step fuel hp o tl r =
       ignore_lines fuel (modify_event (modify_event tl r (set_op IGNORE_SCOPE)) sref
                                       (set_op IGNORE_SCOPE)) lines).
Proof.
  unfold compress_step. destruct (event_at tl r) as [e|] eqn:He; [|kept_tl].
  destruct (include_thread o e) eqn:Hi; [|kept_tl].
  destruct (op e) eqn:Hop; try kept_tl.
  destruct (data e) as [info [sref|] lines fl| | | |] eqn:Hd; try kept_tl.
  destruct (event_at tl sref) as [se|] eqn:Hse; [|kept_tl].
  destruct (scope_ignored hp o info e se) eqn:Hs; [|kept_tl].
  right. eexists _, _, _, _, _, _. split_and!; eauto.
Qed.

Lemma compress_step_ignored_at fuel hp o tl r e info sref lines se :
  event_at tl r = Some e -> scope_ignored hp o info e se = true ->
  compress_step fuel hp o tl r =
    ignore_lines fuel (modify_event (modify_event tl r (set_op IGNORE_SCOPE)) sref
                                    (set_op IGNORE_SCOPE)) lines ->
  ignored_at (compress_step fuel hp o tl r) r e.
Proof.
  intros He _ ->. eapply modify_ignore_ignored_at; [exact He|].
  etrans; [apply tl_agree_modify_ignore | apply tl_agree_ignore_lines].
Qed.

Lemma compress_step_kept fuel hp o tl r : enter_kept hp o (compress_step fuel hp o tl r) r.
Proof.
  destruct (compress_step_cases fuel hp o tl r) as [[-> Hk]|(e & ? & ? & ? & ? & ? & He & _ & Hop & _ & _ & Hs & Heq)];
    [done|].
  destruct (compress_step_ignored_at _ _ _ _ _ _ _ _ _ _ He Hs Heq) as (e' & He' & _ & Ho').
  intros e1 ? ? ? ? ? He1 Hop1. congruence.
Qed.

Lemma compress_fold_kept fuel hp o refs tl r :
  r ∈ refs -> enter_kept hp o (foldl (compress_step fuel hp o) tl refs) r.
Proof.
  revert tl. induction refs as [|x refs IH]; intros tl Hr; [by apply elem_of_nil in Hr|].
  cbn [foldl]. apply elem_of_cons in Hr as [->|Hr]; [|by apply IH].
  eapply enter_kept_agree; [apply tl_agree_compress_fold | apply compress_step_kept].
Qed.

Lemma compress_fold_drops fuel hp o refs tl0 r e info sref lines fl se :
  event_at tl0 r = Some e -> op e = ENTER_SCOPE -> include_thread o e = true ->
  data e = DEvent info (Some sref) lines fl -> event_at tl0 sref = Some se ->
  scope_ignored hp o info e se = true -> r ∈ refs ->
  forall tl, tl_agree tl0 tl -> ignored_at (foldl (compress_step fuel hp o) tl refs) r e.
Proof.
  intros He Hop Hinc Hd Hse Hs. induction refs as [|x refs IH]; intros Hr tl Hag;
    [by apply elem_of_nil in Hr|].
  cbn [foldl]. apply elem_of_cons in Hr as [->|Hr]; [|apply IH; [done|];
    etrans; [exact Hag | apply tl_agree_compress_step]].
  eapply ignored_at_agree; [apply tl_agree_compress_fold|].
  destruct (tl_agree_Some_r _ _ _ _ Hag He) as (e1 & He1 & Ha).
  destruct (tl_agree_Some_r _ _ _ _ Hag Hse) as (se1 & Hse1 & Hsa).
  destruct (proj2 (proj2 Ha)) as [Ho1|Ho1].
  2: { eapply ignored_at_agree; [apply tl_agree_compress_step|]. exists e1. done. }
  destruct (compress_step_cases fuel hp o tl x)
    as [[_ Hk]|(e2 & info2 & sref2 & lines2 & fl2 & se2 & He2 & _ & _ & _ & _ & Hs2 & Heq)].
  - exfalso. assert (Hk1 : scope_ignored hp o info e1 se1 = false).
    { pose proof Ha as (Hc & Hdd & _). apply (Hk e1 info sref lines fl se1); try congruence.
      rewrite (ev_agree_include _ _ _ Ha). done. }
    rewrite (ev_agree_scope_ignored _ _ _ _ _ _ _ Ha Hsa) in Hk1. congruence.
  - rewrite He1 in He2. injection He2 as <-.
    destruct (compress_step_ignored_at _ _ _ _ _ _ _ _ _ _ He1 Hs2 Heq) as (e3 & He3 & Ha3 & Ho3).
    exists e3. split_and!; [done| |done]. destruct Ha as (? & ? & _), Ha3 as (? & ? & _).
    unfold ev_agree. split_and!; [congruence | congruence | auto].
Qed.

Lemma event_at_all_refs tl r e : event_at tl r = Some e -> r ∈ all_refs tl.
Proof. intros He. apply elem_of_all_refs. apply event_at_Some_slot in He. rewrite He. done. Qed.

(** C22: timeline_compress: every ENTER_SCOPE event of a selected thread that
    is still an ENTER_SCOPE after the pass, and whose sibling exists, has
    a record outside the ignore set and a duration of at least the
    threshold (S4 of the specification). *)
Theorem timeline_compress_kept hp o tl r e info sref lines fl se :
  let tl' := timeline_compress hp o tl in
  event_at tl' r = Some e -> op e = ENTER_SCOPE -> include_thread o e = true ->
  data e = DEvent info (Some sref) lines fl -> event_at tl' sref = Some se ->
  info_ignored hp info = false /\
  (threshold o = 0 \/ event_time se -w event_time e >= threshold o).
Proof.
  intros tl' He Hop Hinc Hd Hse.
  destruct (tl_agree_Some _ _ _ _ (tl_agree_compress_fold _ _ _ _ _) He) as (e0 & He0 & _).
  pose proof (compress_fold_kept (length (all_refs tl)) hp o (all_refs tl) tl r
                (event_at_all_refs _ _ _ He0)) as Hk.
  specialize (Hk e info sref lines fl se He Hop Hinc Hd Hse).
  unfold scope_ignored in Hk. apply orb_false_iff in Hk as [Hi Hdur].
  apply negb_false_iff, bool_decide_eq_true in Hdur. done.
Qed.

(** C23: timeline_compress: every ENTER_SCOPE event of a selected thread whose
    sibling exists and whose scope is ignored (record in the ignore set,
    or shorter than the threshold) is an IGNORE_SCOPE event after the
    pass, with its measurement and data unchanged (I7). *)
Theorem timeline_compress_drops hp o tl r e info sref lines fl se :
  event_at tl r = Some e -> op e = ENTER_SCOPE -> include_thread o e = true ->
  data e = DEvent info (Some sref) lines fl -> event_at tl sref = Some se ->
  scope_ignored hp o info e se = true ->
  exists e', event_at (timeline_compress hp o tl) r = Some e' /\
    op e' = IGNORE_SCOPE /\ call e' = call e /\ data e' = data e.
Proof.
  intros He Hop Hinc Hd Hse Hs.
  destruct (compress_fold_drops (length (all_refs tl)) hp o (all_refs tl) tl r e info sref
              lines fl se He Hop Hinc Hd Hse Hs (event_at_all_refs _ _ _ He) tl ltac:(reflexivity))
    as (e' & He' & (Hc & Hdd & _) & Ho).
  exists e'. done.
Qed.

(** timeline_compress changes nothing but the [op] of events, and only to
    IGNORE_SCOPE. *)
Theorem timeline_compress_agree hp o tl : tl_agree tl (timeline_compress hp o tl).
Proof. apply tl_agree_compress_fold. Qed.

(** With a zero threshold and no record in the ignore set the pass is the
    identity. *)
Theorem timeline_compress_identity hp o tl :
  threshold o = 0 -> map_Forall (fun _ rc => record_ignored rc = false) hp ->
  timeline_compress hp o tl = tl.
Proof.
  intros Ht Hhp. unfold timeline_compress.
  generalize (all_refs tl) at 2. intros refs. generalize (length (all_refs tl)). intros fuel.
  revert tl. induction refs as [|x refs IH]; intros tl; [done|]. cbn [foldl].
  destruct (compress_step_cases fuel hp o tl x)
    as [[-> _]|(? & info & ? & ? & ? & ? & _ & _ & _ & _ & _ & Hs & _)]; [apply IH|].
  exfalso. unfold scope_ignored, info_ignored in Hs. rewrite Ht in Hs.
  rewrite bool_decide_true in Hs by (left; done). rewrite orb_false_r in Hs.
  destruct (info ≫= _) as [rc|] eqn:E; [|done].
  apply bind_Some in E as (p & _ & Hp). rewrite (Hhp p rc Hp) in Hs. done.
Qed.

(** * Concrete timelines (two slots per page) *)

Definition ex_meas (t : Z) : EventMeasurement := mkMeasurement (mkProcess 1 1) (mkUnit t 0 0) 1.

(** A budget of two pages after the header. *)
Definition ex_tl0 : TraceEventTimeline := timeline_new (2 * TRACE_EVENT_PAGE_SIZE).

Definition ex_inst : StackInst :=
  mkInst false 0 0 (Some 0%nat) 0 unit_clear unit_clear None (ex_meas 10).

Definition ex_enter := traceevent_enterscope 2 ex_tl0 ex_inst.
Definition ex_tl1 : TraceEventTimeline := ex_enter.1.2.

(** The frame at its return: same begin event, later time. *)
Definition ex_inst_ret : StackInst :=
  mkInst false 0 0 (Some 0%nat) 0 unit_clear unit_clear (t_begin_event ex_enter.2) (ex_meas 15).

Definition ex_tl2 : TraceEventTimeline := (traceevent_exitscope 2 ex_tl1 ex_inst_ret).2.

(** A record in the ignore set at address 0. *)
Definition ex_heap : heap := {[ 0%nat := set_event (record_blank 1 0 1) LMPROF_RECORD_IGNORED ]}.

Ltac solve_tl_wf := constructor; by_eval.

Definition ex_ev_enter : TraceEvent :=
  mkEvent ENTER_SCOPE (ex_meas 10) (DEvent (Some 0%nat) None None 0).
Definition ex_ev_enter2 : TraceEvent :=
  mkEvent ENTER_SCOPE (ex_meas 10) (DEvent (Some 0%nat) (Some (0%nat, 1%nat)) None 0).
Definition ex_ev_exit2 : TraceEvent :=
  mkEvent EXIT_SCOPE (ex_meas 15) (DEvent (Some 0%nat) (Some (0%nat, 0%nat)) None 0).

Lemma timeline_allocpage_capacity_witness :
  0 <= capacity_left 2 ex_tl0 /\
  (timeline_allocpage 2 ex_tl0 = None <-> capacity_left 2 ex_tl0 = 0) /\
  (forall r tl', timeline_allocpage 2 ex_tl0 = Some (r, tl') ->
     capacity_left 2 tl' = capacity_left 2 ex_tl0 - 1).
Proof. apply (timeline_allocpage_capacity 2 ltac:(lia)); [solve_tl_wf | by_eval]. Defined.

Lemma timeline_reachable_wf_witness : tl_wf 2 ex_tl2.
Proof.
  apply (timeline_reachable_wf 2 ltac:(lia) (2 * TRACE_EVENT_PAGE_SIZE)); [by_eval|].
  exact (rtc_l _ _ _ _ (step_enterscope 2 ex_tl0 ex_inst)
           (rtc_l _ _ _ _ (step_exitscope 2 ex_tl1 ex_inst_ret) (rtc_refl _ _))).
Defined.

Lemma timeline_canbuffer_eq_witness :
  timeline_canbuffer 2 ex_tl0 1 = bool_decide (capacity_left 2 ex_tl0 - 2 <= 1).
Proof.
  apply (timeline_canbuffer_eq 2 ltac:(lia) ex_tl0 1); [solve_tl_wf | by_eval | by_eval].
Defined.

Lemma traceevent_exitscope_links_witness :
  match traceevent_exitscope 2 ex_tl1 ex_inst_ret with
  | (c, tl') =>
      (c = TRACE_EVENT_ERRPAGEFULL /\ tl' = ex_tl1) \/
      (c = TRACE_EVENT_OK /\ exists r, r <> (0%nat, 0%nat) /\ slot ex_tl1 r = None /\
         event_at tl' r = Some (mkEvent EXIT_SCOPE (t_call ex_inst_ret)
                                 (DEvent (record ex_inst_ret) (Some (0%nat, 0%nat)) None 0)) /\
         event_at tl' (0%nat, 0%nat) = Some (set_sibling (Some r) ex_ev_enter) /\
         (forall r', r' <> r -> r' <> (0%nat, 0%nat) -> slot tl' r' = slot ex_tl1 r'))
  end.
Proof.
  apply (traceevent_exitscope_links 2 ltac:(lia)); [solve_tl_wf | vm_compute; reflexivity |
    vm_compute; reflexivity].
Defined.

Lemma traceevent_sample_unwritten_witness :
  let tl1 := match timeline_allocpage 2 ex_tl0 with Some (_, t) => t | None => ex_tl0 end in
  traceevent_sample 2 ex_tl0 blank_inst (ex_meas 3) 7 = (TRACE_EVENT_OK, tl1) /\
  slot ex_tl0 (0%nat, 0%nat) = None /\ slot tl1 (0%nat, 0%nat) = Some None /\
  (0%nat, 0%nat) ∈ all_refs tl1.
Proof.
  apply (traceevent_sample_unwritten 2 ltac:(lia)); [solve_tl_wf | reflexivity | vm_compute; reflexivity].
Defined.

Lemma traceevent_sample_line_witness :
  exists r, r <> (0%nat, 0%nat) /\ slot ex_tl1 r = None /\
    event_at (traceevent_sample 2 ex_tl1 ex_enter.2 (ex_meas 12) 7).2 r =
      Some (mkEvent LINE_SCOPE (ex_meas 12) (DLine (record ex_enter.2) None None 7)) /\
    event_at (traceevent_sample 2 ex_tl1 ex_enter.2 (ex_meas 12) 7).2 (0%nat, 0%nat) =
      Some (mkEvent (op ex_ev_enter) (call ex_ev_enter) (DEvent (Some 0%nat) None (Some r) 0)) /\
    (forall l el, (None : option EventRef) = Some l -> event_at ex_tl1 l = Some el ->
       l <> (0%nat, 0%nat) ->
       event_at (traceevent_sample 2 ex_tl1 ex_enter.2 (ex_meas 12) 7).2 l =
         Some (set_line_next (Some r) el)).
Proof.
  apply (traceevent_sample_line 2 ltac:(lia) ex_tl1 ex_enter.2 (ex_meas 12) 7 (0%nat, 0%nat)
           ex_ev_enter (Some 0%nat) None None 0);
    [solve_tl_wf | vm_compute; reflexivity | vm_compute; reflexivity | reflexivity |
     lia | intros l [=] | vm_compute; reflexivity | eexists _, _; vm_compute; reflexivity].
Defined.

Lemma timeline_adjust_time_witness :
  exists e', event_at (timeline_adjust ex_tl2) (0%nat, 0%nat) = Some e' /\
    call e' = (if op_adjust (op ex_ev_enter2)
               then mkMeasurement (proc (call ex_ev_enter2))
                      (mkUnit (event_time ex_ev_enter2 - baseTime ex_tl2 - overhead (call ex_ev_enter2))
                              (allocated (s (call ex_ev_enter2))) (deallocated (s (call ex_ev_enter2))))
                      (overhead (call ex_ev_enter2))
               else call ex_ev_enter2) /\
    op e' = op ex_ev_enter2 /\ data e' = data ex_ev_enter2.
Proof.
  apply timeline_adjust_time; vm_compute; try reflexivity; intuition discriminate.
Defined.

Lemma timeline_adjust_reset_not_idempotent_witness :
  event_at (timeline_adjust (set_baseTime (timeline_adjust ex_tl2) 0)) (0%nat, 0%nat) <>
  event_at (timeline_adjust ex_tl2) (0%nat, 0%nat).
Proof.
  apply (timeline_adjust_reset_not_idempotent _ _ ex_ev_enter2);
    [vm_compute; reflexivity | reflexivity | vm_compute; discriminate].
Defined.

Lemma timeline_compress_kept_witness :
  info_ignored ∅ (Some 0%nat) = false /\
  (threshold (mkOpts 0 0 3) = 0 \/ event_time ex_ev_exit2 -w event_time ex_ev_enter2 >=
                                    threshold (mkOpts 0 0 3)).
Proof.
  apply (timeline_compress_kept ∅ (mkOpts 0 0 3) ex_tl2 (0%nat, 0%nat) ex_ev_enter2
           (Some 0%nat) (0%nat, 1%nat) None 0 ex_ev_exit2);
    vm_compute; reflexivity.
Defined.

Lemma timeline_compress_drops_witness :
  exists e', event_at (timeline_compress ex_heap (mkOpts 0 0 0) ex_tl2) (0%nat, 0%nat) = Some e' /\
    op e' = IGNORE_SCOPE /\ call e' = call ex_ev_enter2 /\ data e' = data ex_ev_enter2.
Proof.
  apply (timeline_compress_drops ex_heap (mkOpts 0 0 0) ex_tl2 (0%nat, 0%nat) ex_ev_enter2
           (Some 0%nat) (0%nat, 1%nat) None 0 ex_ev_exit2); vm_compute; reflexivity.
Defined.

Lemma timeline_compress_identity_witness :
  timeline_compress ∅ (mkOpts 0 0 0) ex_tl2 = ex_tl2.
Proof.
  apply timeline_compress_identity; [reflexivity | apply map_Forall_empty].
Defined.

Lemma timeline_allocpage_unlimited_witness : is_Some (timeline_allocpage 2 (timeline_new 0)).
Proof. apply (timeline_allocpage_unlimited 2 ltac:(lia)); [solve_tl_wf | reflexivity]. Defined.

End Timeline.
