(* ===== verification/Graph.v ===== *)
(** * The graph profiler: record interning and the instrumentation hook

    lmprof_fetch_record (lmprof.c) interns activation records by
    (function, parent) pair in the record table and allocates new ones;
    graph_instrument (lmprof_lib.c) is the debug hook of the graph
    profiler: on a call it pushes a frame for the interned record, on a
    return it pops the frame and any tail-call frames above the matching
    one, on a line event it updates the line frequencies, and it charges
    the time spent in the hook to the overhead counters.

    The record table is used only through the [RecordTable] interface, so
    the theorems hold of any implementation of it, the hashtable
    included.  The Lua debug interface enters as section variables: the
    function information lmprof_record_update collects, and the ignore
    table consulted by lmprof_function_is_ignored.  Allocation outcomes
    and clock readings are inputs of each hook call.  lmprof_error raises
    a Lua error, which ends the hook: an erroring step returns the state
    with [g_error] set and does nothing more.

    This file holds the operations on one call stack: [hook_entry] (the
    part of graph_prehook after its state checks) and [graph_dispatch]
    (the body of graph_instrument after graph_prehook).  The whole hook,
    with the checks of graph_prehook, the per-thread call stacks and the
    NULL call stack of a profile without instrumentation, is in
    GraphHook.v. *)

From S2P Require Import Common Unit Record Hash Stack.
Import Unit Record Hash Stack.

Module Graph.

(** The fields of lua_Debug the profiler reads. *)
Record ActRecord := mkAr {
  ar_linedefined : Z;
  ar_lastlinedefined : Z;
  ar_currentline : Z;
}.

(** The configuration bits the hook reads (lmprof_State [conf] and
    [mode], [hook.yield], [i.calibration], [i.mask_count]). *)
Record GraphConf := mkConf {
  compress_graph : bool;   (** LMPROF_OPT_COMPRESS_GRAPH *)
  line_frequency : bool;   (** MODE_LINE|MODE_SAMPLE, no callback, OPT_LINE_FREQUENCY *)
  ignore_yield : bool;     (** LMPROF_OPT_TRACE_IGNORE_YIELD *)
  yield_fid : option Z;    (** st->hook.yield *)
  stack_mismatch : bool;   (** LMPROF_OPT_STACK_MISMATCH *)
  calibration : Z;         (** st->i.calibration *)
  mask_count : Z;          (** st->i.mask_count *)
}.

(** Whether each allocation of one hook call succeeds: the record, the
    hashtable bucket node, the line-frequency vector. *)
Record Allocs := mkAllocs {
  a_record : bool;
  a_bucket : bool;
  a_linefreq : bool;
}.

(** The events of graph_instrument; a call carries the function
    identifier computed by lmprof_record_id, whether it is the profiler's
    stop function and whether it is a tail call (LUA_IS_TAILCALL); a
    return carries the identifier of the returning function. *)
Inductive HookEvent :=
  | HookCall (fid : Z) (is_stop tail : bool) (ar : ActRecord)
  | HookRet (fid : Z)
  | HookCount
  | HookLine (currentline : Z)
  | HookUnknown.

(** LMPROF_RECORD_ID_ROOT *)
Definition LMPROF_RECORD_ID_ROOT : Z := 0.

Section Profiler.

Context `{RecordTable T}.

(** lmprof_record_populate and the synthetic-record case of
    lmprof_record_update: the function information read from Lua. *)
Variable record_populate : option ActRecord -> Z -> FunctionInfo -> FunctionInfo.

(** lmprof_function_is_ignored for the function [fid]. *)
Variable function_is_ignored : Z -> bool.

(** The profiler state the graph hook reads and writes. *)
Record GState := mkG {
  g_table : T;             (** st->i.hash *)
  g_heap : heap;           (** the records *)
  g_next : nat;            (** the next free address *)
  record_count : Z;        (** st->i.record_count *)
  g_stack : lmprof_Stack;  (** st->thread.call_stack *)
  g_unit : EventUnit;      (** st->thread.r.s *)
  g_overhead_total : Z;    (** st->thread.r.overhead *)
  g_instr_count : Z;       (** st->i.instr_count *)
  g_running : bool;        (** LMPROF_STATE_RUNNING *)
  g_ignore_call : bool;    (** LMPROF_STATE_IGNORE_CALL *)
  g_ignore_alloc : bool;   (** LMPROF_STATE_IGNORE_ALLOC *)
  g_error : bool;          (** LMPROF_STATE_ERROR *)
}.

(** Field updates. *)
Definition set_tables (st : GState) (t : T) (hp : heap) (nx : nat) (rc : Z) : GState :=
  mkG t hp nx rc (g_stack st) (g_unit st) (g_overhead_total st) (g_instr_count st)
      (g_running st) (g_ignore_call st) (g_ignore_alloc st) (g_error st).

Definition set_gstack (st : GState) (s : lmprof_Stack) : GState :=
  mkG (g_table st) (g_heap st) (g_next st) (record_count st) s (g_unit st)
      (g_overhead_total st) (g_instr_count st) (g_running st) (g_ignore_call st)
      (g_ignore_alloc st) (g_error st).

Definition set_gheap (st : GState) (hp : heap) : GState :=
  set_tables st (g_table st) hp (g_next st) (record_count st).

(** lmprof_error: the state is marked, the Lua error ends the hook. *)
Definition raise (st : GState) : GState :=
  mkG (g_table st) (g_heap st) (g_next st) (record_count st) (g_stack st) (g_unit st)
      (g_overhead_total st) (g_instr_count st) (g_running st) (g_ignore_call st) true true.

(** The guarded part of lmprof_record_update. *)
Definition refresh_info (ar : option ActRecord) (fid : Z) (r : lmprof_Record) : lmprof_Record :=
  if has_name (info r) then r else set_info r (record_populate ar fid (info r)).

(** The ignore flag of a new record. *)
Definition new_record_flags (conf : GraphConf) (ar : option ActRecord) (fid : Z)
    (r : lmprof_Record) : lmprof_Record :=
  let ignored := set_event r (Z.lor (event (info r)) LMPROF_RECORD_IGNORED) in
  if ignore_yield conf && bool_decide (yield_fid conf = Some fid) then ignored
  else match ar with
       | Some _ => if function_is_ignored fid then ignored else r
       | None => r
       end.

(** The line-frequency vector of a new record: [lastlinedefined -
    linedefined + 1] zeroed counters, when configured and allocated. *)
Definition new_line_freq (conf : GraphConf) (al : Allocs) (ar : option ActRecord)
    (r : lmprof_Record) : lmprof_Record :=
  match ar with
  | Some a =>
      if line_frequency conf && bool_decide (0 < ar_linedefined a) &&
         bool_decide (0 < ar_lastlinedefined a) && a_linefreq al then
        set_line_freq r
          (Some (replicate (Z.to_nat (ar_lastlinedefined a - ar_linedefined a + 1)) 0))
      else r
  | None => r
  end.

(** lmprof_fetch_record: the interned record of the pair, created on
    first use; [None] when an allocation fails (and the error is raised). *)
Definition lmprof_fetch_record (conf : GraphConf) (al : Allocs) (ar : option ActRecord)
    (fid pid : Z) (st : GState) : option nat * GState :=
  let '(res, t1) := table_get (g_heap st) (g_table st) fid pid in
  match res with
  | Some p =>
      (Some p, set_tables st t1 (alter (refresh_info ar fid) p (g_heap st))
                          (g_next st) (record_count st))
  | None =>
      if a_record al then
        let p := g_next st in
        let r1 := refresh_info ar fid (record_blank fid pid (record_count st)) in
        match table_insert (a_bucket al) t1 p r1 with
        | (true, t2) =>
            let r2 := new_line_freq conf al ar (new_record_flags conf ar fid r1) in
            (Some p, set_tables st t2 (<[p := r2]> (g_heap st)) (S p)
                                (record_count st +w 1))
        | (false, t2) =>
            (None, raise (set_tables st t2 (g_heap st) (g_next st) (record_count st +w 1)))
        end
      else (None, raise (set_tables st t1 (g_heap st) (g_next st) (record_count st)))
  end.

(** The entry shared by graph_prehook and traceevent_prehook once the
    state checks have passed: an ignored call clears
    LMPROF_STATE_IGNORE_CALL and ends the hook; otherwise the hook time is
    read into [g_unit], the calibration is charged to the running overhead
    and allocation counting is suspended (LMPROF_STATE_IGNORE_ALLOC).  The
    boolean says whether the hook goes on. *)
Definition hook_entry (conf : GraphConf) (t0 : Z) (st : GState) : GState * bool :=
  if g_ignore_call st then
    (mkG (g_table st) (g_heap st) (g_next st) (record_count st) (g_stack st) (g_unit st)
         (g_overhead_total st) (g_instr_count st) (g_running st) false
         (g_ignore_alloc st) (g_error st), false)
  else
    (mkG (g_table st) (g_heap st) (g_next st) (record_count st) (g_stack st)
         (mkUnit t0 (allocated (g_unit st)) (deallocated (g_unit st)))
         (g_overhead_total st +w calibration conf) (g_instr_count st) (g_running st)
         (g_ignore_call st) true (g_error st), true).

Definition frame_alter (i : nat) (f : StackInst -> StackInst) (st : GState) : GState :=
  set_gstack st (set_stack (g_stack st) (head (g_stack st)) (alter f i (stack (g_stack st)))).

Definition frame_at (st : GState) (i : nat) : option StackInst := stack (g_stack st) !! i.

(** The record of a frame. *)
Definition frame_record (st : GState) (fr : StackInst) : option lmprof_Record :=
  record fr ≫= fun p => g_heap st !! p.

(** The end of graph_instrument: the hook time is charged to the running
    overhead and to the top frame. *)
Definition graph_post (t1 : Z) (st : GState) : GState :=
  let amount := t1 -w time (g_unit st) in
  let st1 := mkG (g_table st) (g_heap st) (g_next st) (record_count st) (g_stack st)
                 (mkUnit t1 (allocated (g_unit st)) (deallocated (g_unit st)))
                 (g_overhead_total st +w amount) (g_instr_count st) (g_running st)
                 (g_ignore_call st) false (g_error st) in
  match lmprof_stack_peek (g_stack st) with
  | Some i => frame_alter i (fun fr => set_overhead (g_overhead fr +w amount) fr) st1
  | None => st1
  end.

(** The parent identifier of a call: P_ID of the top frame's record. *)
Definition parent_id (conf : GraphConf) (st : GState) : Z :=
  match (lmprof_stack_peek (g_stack st) ≫= frame_at st) ≫= frame_record st with
  | Some r => if compress_graph conf then f_id r else r_id r
  | None => LMPROF_RECORD_ID_ROOT
  end.

(** [(stack->head > 1) ? lmprof_stack_measured_pop(...) : NULL] *)
Definition pop_if (st : GState) : option nat * GState :=
  if decide (1 < head (g_stack st))%nat then
    match lmprof_stack_measured_pop (g_stack st) (g_heap st) (g_unit st) with
    | Some (h, s', hp') => (Some h, set_gheap (set_gstack st s') hp')
    | None => (None, st)
    end
  else (None, st).

Definition clear_frame (i : nat) (st : GState) : GState :=
  frame_alter i (stack_clear_instance (callback_api (g_stack st))) st.

(** check_stack_mismatch: without a frame to pop (and unless allowed or
    configured off) the mismatch error is raised; a popped frame is
    cleared. *)
Definition check_stack_mismatch (conf : GraphConf) (inst : option nat) (allow_nil : bool)
    (st : GState) : GState :=
  match inst with
  | None => if allow_nil || stack_mismatch conf then st else raise st
  | Some i => clear_frame i st
  end.

(** The loop of the LUA_HOOKRET case: pop while the popped frame is a
    tail call or (for a non-tail return) belongs to another function. *)
Fixpoint ret_loop (conf : GraphConf) (fuel : nat) (tail_return : bool) (fid : Z)
    (st : GState) (inst : option nat) : GState * option nat :=
  match fuel, inst with
  | S f, Some i =>
      match frame_at st i with
      | Some fr =>
          if tail_call fr ||
             (negb tail_return &&
              negb (bool_decide ((f_id <$> frame_record st fr) = Some fid))) then
            let '(inst', st') := pop_if (check_stack_mismatch conf inst false st) in
            ret_loop conf f tail_return fid st' inst'
          else (st, inst)
      | None => (st, inst)
      end
  | _, _ => (st, inst)
  end.

Definition set_line_info (ll lli : Z) (fr : StackInst) : StackInst :=
  mkInst (tail_call fr) ll lli (record fr) (g_overhead fr) (g_node fr) (g_path fr)
         (t_begin_event fr) (t_call fr).

(** The LUA_HOOKRET case. *)
Definition graph_return (conf : GraphConf) (fid : Z) (st : GState) : GState :=
  let fuel := head (g_stack st) in
  let '(inst, st1) := pop_if st in
  let tail_return := match inst ≫= frame_at st1 with Some fr => tail_call fr | None => false end in
  let fid' := if tail_return then 0 else fid in
  let '(st2, inst') := ret_loop conf fuel tail_return fid' st1 inst in
  check_stack_mismatch conf inst' true st2.

(** The LUA_HOOKCALL / LUA_HOOKTAILCALL case; [None] when an error is
    raised. *)
Definition graph_call (conf : GraphConf) (al : Allocs) (fid : Z) (tail : bool)
    (ar : ActRecord) (st : GState) : option GState :=
  match lmprof_fetch_record conf al (Some ar) fid (parent_id conf st) st with
  | (Some p, st1) =>
      match lmprof_stack_measured_push (g_stack st1) p (g_unit st1) tail with
      | (Some _, s') => Some (set_gstack st1 s')
      | (None, _) => None
      end
  | (None, _) => None
  end.

(** The LUA_HOOKLINE case. *)
Definition graph_line (cl : Z) (st : GState) : GState :=
  match lmprof_stack_peek (g_stack st) with
  | Some i =>
      let st1 := frame_alter i (set_line_info (if decide (cl >= 0) then cl else 0)
                                              (instr_count (g_stack st))) st in
      match frame_at st i ≫= record with
      | Some p => set_gheap st1 (alter (record_line_hit cl) p (g_heap st1))
      | None => st1
      end
  | None => st
  end.

(** The LUA_HOOKCOUNT case. *)
Definition graph_count (conf : GraphConf) (st : GState) : GState :=
  let s := g_stack st in
  mkG (g_table st) (g_heap st) (g_next st) (record_count st)
      (mkStack (callback_api s) (thread_identifier s) (instr_count s +w mask_count conf)
               (time (g_unit st)) (head s) (size s) (stack s))
      (g_unit st) (g_overhead_total st) (g_instr_count st +w mask_count conf)
      (g_running st) (g_ignore_call st) (g_ignore_alloc st) (g_error st).

(** The body of graph_instrument after graph_prehook, on the call stack
    [st->thread.call_stack] (which graph_instrument dereferences; see
    GraphHook.v for the whole hook): the switch on the event, then the end
    of the hook with the clock read [t1]. *)
Definition graph_dispatch (conf : GraphConf) (al : Allocs) (ev : HookEvent) (t1 : Z)
    (st : GState) : GState :=
  match ev with
  | HookCall fid is_stop tail ar =>
      if is_stop then graph_post t1 st
      else match graph_call conf al fid tail ar st with
           | Some st2 => graph_post t1 st2
           | None =>
               (** the error raised by lmprof_fetch_record, or the
                   "profiler stack overflow" error *)
               raise (snd (lmprof_fetch_record conf al (Some ar) fid (parent_id conf st) st))
           end
  | HookRet fid => graph_post t1 (graph_return conf fid st)
  | HookCount => graph_post t1 (graph_count conf st)
  | HookLine cl => graph_post t1 (graph_line cl st)
  | HookUnknown => raise st
  end.

(** A sequence of lmprof_fetch_record calls, each with its allocation
    outcomes, debug record and (function, parent) pair. *)
Fixpoint fetch_all (conf : GraphConf)
    (reqs : list (Allocs * option ActRecord * (Z * Z))) (st : GState)
    : list (option nat) * GState :=
  match reqs with
  | [] => ([], st)
  | (al, ar, (fid, pid)) :: rest =>
      let '(r, st1) := lmprof_fetch_record conf al ar fid pid st in
      let '(rs, st2) := fetch_all conf rest st1 in
      (r :: rs, st2)
  end.

(** Every frame below [head] points to a live record. *)
Definition frames_live (hp : heap) (s : lmprof_Stack) : Prop :=
  forall k fr, (k < head s)%nat -> stack s !! k = Some fr ->
    exists p r, record fr = Some p /\ hp !! p = Some r.

(** The invariant of the profiler state: the table is well formed over
    the heap, the stack has the right size and the given kind ([api]: a
    trace stack or a graph stack), every frame below [head] points to a
    live record, and the allocator's next address is fresh. *)
Record state_wf (api : bool) (st : GState) : Prop := {
  gw_table : table_wf (g_heap st) (g_table st);
  gw_stack : stack_wf (g_stack st);
  gw_api : callback_api (g_stack st) = api;
  gw_frames : frames_live (g_heap st) (g_stack st);
  gw_fresh : forall p, (g_next st <= p)%nat -> g_heap st !! p = None;
}.
Arguments gw_table {api} st _.
Arguments gw_stack {api} st _.
Arguments gw_api {api} st _.
Arguments gw_frames {api} st _.
Arguments gw_fresh {api} st _ _ _.

(** The invariant of the graph profiler: a graph stack. *)
Abbreviation graph_wf := (state_wf false).

(** * Record interning *)

Lemma refresh_info_key ar fid r :
  f_id (refresh_info ar fid r) = f_id r /\ p_id (refresh_info ar fid r) = p_id r.
Proof. unfold refresh_info. destruct (has_name _); done. Qed.

Lemma new_record_key conf al ar fid r :
  f_id (new_line_freq conf al ar (new_record_flags conf ar fid r)) = f_id r /\
  p_id (new_line_freq conf al ar (new_record_flags conf ar fid r)) = p_id r.
Proof.
  unfold new_line_freq, new_record_flags.
  repeat (case_match; cbn [f_id p_id set_line_freq set_event]); done.
Qed.

Lemma key_of_alter_key hp f p :
  (forall r, f_id (f r) = f_id r /\ p_id (f r) = p_id r) ->
  forall q, key_of (alter f p hp) q = key_of hp q.
Proof.
  intros Hf q. unfold key_of. rewrite lookup_alter.
  case_decide as E; [subst q|done]. destruct (hp !! p) as [r|]; [|done]. cbn.
  destruct (Hf r) as [-> ->]. done.
Qed.

Lemma key_of_insert_fresh hp p r q :
  hp !! p = None -> key_of hp q <> None -> key_of (<[p := r]> hp) q = key_of hp q.
Proof.
  intros Hp Hq. unfold key_of in *. rewrite lookup_insert_ne; [done|].
  intros ->. rewrite Hp in Hq. done.
Qed.

Lemma key_of_insert_same hp p r r' :
  f_id r' = f_id r -> p_id r' = p_id r ->
  forall q, key_of (<[p := r']> (<[p := r]> hp)) q = key_of (<[p := r]> hp) q.
Proof.
  intros E1 E2 q. unfold key_of.
  destruct (decide (p = q)) as [->|]; [rewrite !lookup_insert_eq; cbn; congruence|].
  rewrite !lookup_insert_ne by done. done.
Qed.

Lemma table_abs_live hp t k q :
  table_wf hp t -> table_abs hp t !! k = Some q -> is_Some (hp !! q).
Proof.
  intros Hwf Hk. apply table_abs_key in Hk; [|done]. unfold key_of in Hk.
  destruct (hp !! q); [done|discriminate].
Qed.

Lemma table_fresh_insert hp t p r :
  table_wf hp t -> hp !! p = None ->
  table_wf (<[p := r]> hp) t /\ table_abs (<[p := r]> hp) t = table_abs hp t.
Proof.
  intros Hwf Hp. apply table_keys; [done|]. intros k q Hk.
  apply key_of_insert_fresh; [done|]. rewrite (table_abs_key _ _ _ _ Hwf Hk). done.
Qed.

Lemma table_alter_key hp t f p :
  (forall r, f_id (f r) = f_id r /\ p_id (f r) = p_id r) -> table_wf hp t ->
  table_wf (alter f p hp) t /\ table_abs (alter f p hp) t = table_abs hp t.
Proof. intros Hf Hwf. apply table_keys; [done|]. intros. apply key_of_alter_key, Hf. Qed.

Lemma graph_wf_set_tables api st t hp nx rc :
  state_wf api st -> table_wf hp t ->
  (forall q, is_Some (g_heap st !! q) -> is_Some (hp !! q)) ->
  (forall q, (nx <= q)%nat -> hp !! q = None) ->
  state_wf api (set_tables st t hp nx rc).
Proof.
  intros [Ht Hs Ha Hf Hn] Ht' Hq Hn'. constructor; cbn; try done.
  unfold frames_live. intros k fr Hk Hfr. destruct (Hf k fr Hk Hfr) as (p & r & Hp & Hr).
  destruct (Hq p) as [r' Hr']; [rewrite Hr; done|]. eauto.
Qed.

Lemma graph_wf_raise api st : state_wf api st -> state_wf api (raise st).
Proof. intros []; constructor; done. Qed.

#[local] Hint Resolve graph_wf_raise : core.

#[local] Ltac fetch_err Hwf Hwf1 Habs1 :=
  cbn; split_and!; [apply graph_wf_raise, graph_wf_set_tables;
                    [done | done | auto | apply (gw_fresh _ Hwf)] | done | auto | done | exact Habs1].

(** lmprof_fetch_record interns records: on success the record it returns
    carries the requested (function, parent) pair, the table maps the pair
    to it (and to nothing else than before when the pair was known), the
    invariant is kept, the stack is untouched and no record disappears;
    on failure the error is raised and the table's map is unchanged. *)
Theorem lmprof_fetch_record_spec api conf al ar fid pid st :
  state_wf api st ->
  let '(res, st') := lmprof_fetch_record conf al ar fid pid st in
  state_wf api st' /\ g_stack st' = g_stack st /\
  (forall q, is_Some (g_heap st !! q) -> is_Some (g_heap st' !! q)) /\
  match res with
  | Some p =>
      key_of (g_heap st') p = Some (fid, pid) /\
      table_abs (g_heap st') (g_table st') =
        <[(fid, pid) := p]> (table_abs (g_heap st) (g_table st)) /\
      (forall q, table_abs (g_heap st) (g_table st) !! (fid, pid) = Some q -> q = p)
  | None =>
      g_error st' = true /\
      table_abs (g_heap st') (g_table st') = table_abs (g_heap st) (g_table st)
  end.
Proof.
  intros Hwf. pose proof (gw_table _ Hwf) as Ht. unfold lmprof_fetch_record.
  destruct (table_get_spec _ _ fid pid Ht) as (Hres & Habs1 & Hwf1).
  destruct (table_get (g_heap st) (g_table st) fid pid) as [[p|] t1]; cbn in *.
  - (* the pair is known *)
    destruct (table_alter_key _ t1 (refresh_info ar fid) p (refresh_info_key ar fid) Hwf1)
      as [Hwf2 Habs2].
    split_and!; [apply graph_wf_set_tables; [done..| |]| done | | | |].
    + intros q. rewrite lookup_alter_is_Some. done.
    + intros q Hq. rewrite lookup_alter_None. apply (gw_fresh _ Hwf _ Hq).
    + intros q. rewrite lookup_alter_is_Some. done.
    + cbn. rewrite key_of_alter_key by apply refresh_info_key.
      apply (table_abs_key _ t1); [done|]. rewrite Habs1. done.
    + cbn. rewrite Habs2, Habs1, insert_id by done. done.
    + intros q Hq. congruence.
  - destruct (a_record al); [|fetch_err Hwf Hwf1 Habs1].
    pose proof (gw_fresh _ Hwf (g_next st) ltac:(done)) as Hp.
    destruct (refresh_info_key ar fid (record_blank fid pid (record_count st))) as [Hf1 Hp1].
    cbn [f_id p_id record_blank] in Hf1, Hp1.
    set (r1 := refresh_info ar fid (record_blank fid pid (record_count st))) in *.
    destruct (table_fresh_insert _ _ (g_next st) r1 Hwf1 Hp) as [Hwf3 Habs3].
    destruct (a_bucket al); [|rewrite table_insert_fail; fetch_err Hwf Hwf1 Habs1].
    destruct (table_insert_spec (<[g_next st := r1]> (g_heap st)) t1 (g_next st) r1 Hwf3)
      as (Hok & Hwf4 & Habs4); [apply lookup_insert_eq | rewrite Habs3, Habs1, Hf1, Hp1; done|].
    destruct (table_insert true t1 (g_next st) r1) as [b t2]. cbn in Hok, Hwf4, Habs4. subst b.
    set (r2 := new_line_freq conf al ar (new_record_flags conf ar fid r1)).
    destruct (new_record_key conf al ar fid r1) as [Hf2 Hp2].
    assert (Hk : forall q, key_of (<[g_next st := r2]> (g_heap st)) q =
                          key_of (<[g_next st := r1]> (g_heap st)) q).
    { intros q. rewrite <- (insert_insert_eq (g_heap st) (g_next st) r2 r1).
      apply key_of_insert_same; done. }
    destruct (table_keys _ (<[g_next st := r2]> (g_heap st)) t2 Hwf4 (fun _ q _ => Hk q))
      as [Hwf5 Habs5].
    split_and!; [apply graph_wf_set_tables; [done..| |] | done | | | |].
    + intros q Hq. apply lookup_insert_is_Some'. auto.
    + intros q Hq. rewrite lookup_insert_ne by lia. apply (gw_fresh _ Hwf). lia.
    + intros q Hq. apply lookup_insert_is_Some'. auto.
    + cbn. rewrite Hk. unfold key_of. rewrite lookup_insert_eq. cbn. rewrite Hf1, Hp1. done.
    + cbn. rewrite Habs5, Habs4, Habs3, Habs1, Hf1, Hp1. done.
    + intros q Hq. congruence.
Qed.

(** * The invariant across the hook *)

Lemma frames_transfer hp hp' s s' :
  frames_live hp s -> (forall q, is_Some (hp !! q) -> is_Some (hp' !! q)) ->
  (head s' <= head s)%nat ->
  (forall k fr', (k < head s')%nat -> stack s' !! k = Some fr' ->
     exists fr, stack s !! k = Some fr /\ record fr' = record fr) ->
  frames_live hp' s'.
Proof.
  intros Hf Hq Hh Hs k fr' Hk Hfr'. destruct (Hs k fr' Hk Hfr') as (fr & Hfr & ->).
  destruct (Hf k fr ltac:(lia) Hfr) as (p & r & Hp & Hr).
  destruct (Hq p) as [r' ?]; [rewrite Hr; done|]. eauto.
Qed.

Lemma frames_alter hp s s' i f :
  frames_live hp s -> (forall fr, record (f fr) = record fr) ->
  head s' = head s -> stack s' = alter f i (stack s) -> frames_live hp s'.
Proof.
  intros Hf Hr Hh Hs. apply (frames_transfer hp hp s s'); [done|done|lia|].
  intros k fr' _ Hk. rewrite Hs, list_lookup_alter in Hk.
  case_decide; [subst|eauto]. apply fmap_Some in Hk as (fr & ? & ->).
  exists fr. rewrite Hr. done.
Qed.

Lemma graph_wf_frame_alter api st i f :
  state_wf api st -> (forall fr, record (f fr) = record fr) -> state_wf api (frame_alter i f st).
Proof.
  intros [Ht [Hl Hh] Ha Hf Hn] Hr. constructor; cbn; try done.
  - unfold stack_wf. cbn. rewrite length_alter. done.
  - eapply frames_alter; [exact Hf|exact Hr|done|done].
Qed.

Lemma graph_wf_entry conf t0 st : graph_wf st -> graph_wf (hook_entry conf t0 st).1.
Proof.
  intros [] . unfold hook_entry. repeat case_match; constructor; done.
Qed.

Lemma graph_wf_post t1 st : graph_wf st -> graph_wf (graph_post t1 st).
Proof.
  intros Hwf. unfold graph_post. destruct (lmprof_stack_peek _).
  - apply graph_wf_frame_alter; [destruct Hwf; constructor; done | done].
  - destruct Hwf; constructor; done.
Qed.

Lemma graph_wf_count conf st : graph_wf st -> graph_wf (graph_count conf st).
Proof. intros []. constructor; done. Qed.

Lemma measured_pop_shape s hp u h s' hp' :
  lmprof_stack_measured_pop s hp u = Some (h, s', hp') ->
  head s = S h /\ head s' = h /\ callback_api s' = callback_api s.
Proof.
  unfold lmprof_stack_measured_pop. destruct (head s) as [|n] eqn:Hh; [done|].
  unfold mbind, option_bind. repeat case_match; intros; simplify_eq; done.
Qed.

Lemma key_of_insert_samekey hp p r r' :
  hp !! p = Some r -> f_id r' = f_id r -> p_id r' = p_id r ->
  forall q, key_of (<[p := r']> hp) q = key_of hp q.
Proof.
  intros Hp E1 E2 q. unfold key_of. destruct (decide (p = q)) as [->|].
  - rewrite lookup_insert_eq, Hp. cbn. congruence.
  - rewrite lookup_insert_ne by done. done.
Qed.

Lemma frames_alter_above hp s s' i f :
  frames_live hp s -> head s' = head s -> (head s <= i)%nat ->
  stack s' = alter f i (stack s) -> frames_live hp s'.
Proof.
  intros Hf Hh Hi Hs. apply (frames_transfer hp hp s s'); [done|done|lia|].
  intros k fr' Hk Hfr. rewrite Hs, list_lookup_alter, decide_False in Hfr by lia. eauto.
Qed.

Lemma clear_frame_wf api st i :
  state_wf api st -> (head (g_stack st) <= i)%nat ->
  state_wf api (clear_frame i st) /\ head (g_stack (clear_frame i st)) = head (g_stack st) /\
  g_error (clear_frame i st) = g_error st.
Proof.
  intros [Ht [Hl Hh] Ha Hf Hn] Hi. split_and!; [|done|done]. constructor; cbn; try done.
  - unfold stack_wf. cbn. rewrite length_alter. done.
  - eapply frames_alter_above; [exact Hf|done|done|done].
Qed.

(** One pop of the return path: it happens only above the bottom frame,
    and keeps the invariant. *)
Lemma pop_if_spec st :
  graph_wf st ->
  match pop_if st with
  | (Some h, st') => graph_wf st' /\ head (g_stack st) = S h /\ head (g_stack st') = h /\
                     (1 <= h)%nat /\ g_error st' = g_error st
  | (None, st') => st' = st
  end.
Proof.
  intros Hwf. unfold pop_if. case_decide as Hlt; [|done].
  destruct (head (g_stack st)) as [|h] eqn:Hh; [lia|].
  pose proof (gw_stack _ Hwf) as [Hl Hsz].
  destruct (lookup_lt_is_Some_2 (stack (g_stack st)) h) as [inst Hinst]; [lia|].
  destruct (gw_frames _ Hwf h inst ltac:(lia) Hinst) as (p & r & Hp & Hr).
  destruct (lmprof_stack_measured_pop_Some _ _ (g_unit st) _ _ _ _ Hh Hinst Hp Hr)
    as (s' & Hpop & Hh' & Hsz' & Hl' & Hk). rewrite Hpop.
  destruct (measured_pop_shape _ _ _ _ _ _ Hpop) as (_ & _ & Hapi).
  split_and!; try done; [|lia]. constructor; cbn; try done.
  - apply (table_keys (g_heap st)); [apply (gw_table _ Hwf)|].
    intros; apply key_of_insert_samekey with (r := r); done.
  - unfold stack_wf. lia.
  - rewrite Hapi. apply (gw_api _ Hwf).
  - apply (frames_transfer (g_heap st) _ (g_stack st) s' (gw_frames _ Hwf)); [|lia|].
    + intros q Hq. apply lookup_insert_is_Some'. auto.
    + intros k fr' Hk' Hfr'. rewrite Hk in Hfr' by lia.
      case_decide; [|eauto]. apply fmap_Some in Hfr' as (fr & ? & ->). eauto.
  - intros q Hq. rewrite lookup_insert_ne; [apply (gw_fresh _ Hwf _ Hq)|].
    intros ->. rewrite (gw_fresh _ Hwf _ Hq) in Hr. done.
Qed.

Lemma ret_loop_spec conf fuel tr fid st inst :
  graph_wf st -> (forall i, inst = Some i -> (head (g_stack st) <= i)%nat) ->
  let '(st', inst') := ret_loop conf fuel tr fid st inst in
  graph_wf st' /\ (forall i, inst' = Some i -> (head (g_stack st') <= i)%nat) /\
  (head (g_stack st') <= head (g_stack st))%nat /\
  ((1 <= head (g_stack st))%nat -> (1 <= head (g_stack st'))%nat) /\
  g_error st' = g_error st.
Proof.
  revert st inst. induction fuel as [|f IH]; intros st inst Hwf Hi; cbn;
    [split_and!; auto|].
  destruct inst as [i|]; [|split_and!; auto; discriminate].
  destruct (frame_at st i) as [fr|]; [|split_and!; auto].
  destruct (_ || _); [|split_and!; auto]. cbn [check_stack_mismatch].
  destruct (clear_frame_wf false st i Hwf (Hi i eq_refl)) as (Hwf1 & Hh1 & He1).
  pose proof (pop_if_spec _ Hwf1) as Hp.
  destruct (pop_if (clear_frame i st)) as [[h|] st2] eqn:Hpop.
  - destruct Hp as (Hwf2 & Hh & Hh2 & H1 & He2).
    pose proof (IH st2 (Some h) Hwf2 ltac:(intros ? [= <-]; lia)) as IHs.
    destruct (ret_loop conf f tr fid st2 (Some h)) as [st3 inst3].
    destruct IHs as (? & ? & ? & ? & ?). split_and!; auto; [lia | intros; lia | congruence].
  - subst st2. destruct f; cbn; split_and!; auto; try discriminate; lia.
Qed.

(** The LUA_HOOKRET path keeps the invariant, never pops the bottom
    frame (the frame of the function that started the profiler), and
    never raises the stack-mismatch error of check_stack_mismatch, under
    any configuration: inside the loop the frame is never NULL, and after
    it NULL is allowed.  The specification (S6) expects the error when
    stop is not called at the level of start. *)
Theorem graph_return_spec conf fid st :
  graph_wf st ->
  let st' := graph_return conf fid st in
  graph_wf st' /\ (head (g_stack st') <= head (g_stack st))%nat /\
  ((1 <= head (g_stack st))%nat -> (1 <= head (g_stack st'))%nat) /\
  g_error st' = g_error st.
Proof.
  intros Hwf. unfold graph_return.
  pose proof (pop_if_spec _ Hwf) as Hp.
  destruct (pop_if st) as [inst st1] eqn:Hpop.
  assert (Hwf1 : graph_wf st1 /\ (forall i, inst = Some i -> (head (g_stack st1) <= i)%nat) /\
                 (head (g_stack st1) <= head (g_stack st))%nat /\
                 ((1 <= head (g_stack st))%nat -> (1 <= head (g_stack st1))%nat) /\
                 g_error st1 = g_error st).
  { destruct inst as [h|]; [|subst; split_and!; auto; discriminate].
    destruct Hp as (? & ? & ? & ? & ?). split_and!; auto; [intros ? [= <-]|..]; lia. }
  destruct Hwf1 as (Hwf1 & Hi1 & Hh1 & H11 & He1).
  pose proof (ret_loop_spec conf (head (g_stack st))
    (match inst ≫= frame_at st1 with Some fr => tail_call fr | None => false end)
    (if match inst ≫= frame_at st1 with Some fr => tail_call fr | None => false end
     then 0 else fid) st1 inst Hwf1 Hi1) as Hl.
  destruct (ret_loop _ _ _ _ st1 inst) as [st2 inst2].
  destruct Hl as (Hwf2 & Hi2 & Hh2 & H12 & He2).
  destruct inst2 as [i|]; cbn [check_stack_mismatch orb].
  - destruct (clear_frame_wf false st2 i Hwf2 (Hi2 i eq_refl)) as (? & -> & ->).
    split_and!; auto; [lia | congruence].
  - split_and!; auto; [lia | congruence].
Qed.

(** C12: The return loop is bounded: the fuel it is given (the stack height
    before the first pop) is enough, more fuel changes nothing. *)
Theorem ret_loop_fuel conf fuel k tr fid st inst :
  (forall i, inst = Some i -> (1 <= head (g_stack st) <= fuel)%nat) ->
  ret_loop conf (fuel + k) tr fid st inst = ret_loop conf fuel tr fid st inst.
Proof.
  revert st inst. induction fuel as [|f IH]; intros st inst Hi.
  - destruct inst as [i|]; [specialize (Hi i eq_refl); lia|]. destruct k; done.
  - destruct inst as [i|]; [|done]. cbn [ret_loop Nat.add].
    destruct (frame_at st i); [|done]. destruct (_ || _); [|done].
    cbn [check_stack_mismatch]. specialize (Hi i eq_refl).
    unfold pop_if. case_decide as Hlt; [|destruct f, k; done].
    destruct (lmprof_stack_measured_pop _ _ _) as [[[h s'] hp']|] eqn:Hpop;
      [|destruct f, k; done].
    apply measured_pop_shape in Hpop as (Hh & Hh' & _).
    apply IH. intros ? [= <-]. cbn in *. unfold frame_alter, set_stack in Hh. cbn in Hh. lia.
Qed.

Lemma measured_push_frames hp s p u tail i s' :
  callback_api s = false -> stack_wf s -> frames_live hp s -> is_Some (hp !! p) ->
  lmprof_stack_measured_push s p u tail = (Some i, s') ->
  frames_live hp s' /\ stack_wf s' /\ callback_api s' = false /\
  head s' = S (head s) /\ i = head s /\
  exists fr, stack s' !! i = Some fr /\ record fr = Some p.
Proof.
  intros Ha [Hl Hh] Hf [r Hr] Hpush. unfold lmprof_stack_measured_push in Hpush.
  rewrite Ha in Hpush. unfold lmprof_stack_next in Hpush.
  case_decide as Hlt; [|done]. injection Hpush as <- <-.
  unfold set_stack; cbn [head stack callback_api size].
  destruct (lookup_lt_is_Some_2 (stack s) (head s)) as [fr0 Hfr0]; [lia|].
  split_and!; try done.
  - intros k fr Hk Hfr. cbn [head stack] in Hk, Hfr.
    destruct (decide (head s = k)) as [<-|Hne].
    + rewrite !list_lookup_alter_eq, Hfr0 in Hfr. cbn in Hfr. injection Hfr as <-. eauto.
    + rewrite !list_lookup_alter_ne in Hfr by done. apply (Hf k fr); [lia|done].
  - unfold stack_wf. cbn. rewrite !length_alter. lia.
  - rewrite list_lookup_alter, decide_True, list_lookup_alter, decide_True, Hfr0 by done.
    eexists; split; [reflexivity|done].
Qed.

(** The LUA_HOOKCALL path: on success a frame for the interned record of
    (function, parent) is pushed on top of the stack. *)
Lemma graph_call_spec conf al fid tail ar st st' :
  graph_wf st -> graph_call conf al fid tail ar st = Some st' ->
  graph_wf st' /\ head (g_stack st') = S (head (g_stack st)) /\
  exists fr p, stack (g_stack st') !! head (g_stack st) = Some fr /\ record fr = Some p /\
    key_of (g_heap st') p = Some (fid, parent_id conf st) /\
    table_abs (g_heap st') (g_table st') =
      <[(fid, parent_id conf st) := p]> (table_abs (g_heap st) (g_table st)).
Proof.
  intros Hwf Hc. unfold graph_call in Hc.
  pose proof (lmprof_fetch_record_spec false conf al (Some ar) fid (parent_id conf st) st Hwf) as Hf.
  destruct (lmprof_fetch_record _ _ _ _ _ _) as [[p|] st1]; [|done].
  destruct Hf as (Hwf1 & Hs1 & _ & Hk & Habs & _).
  destruct (lmprof_stack_measured_push _ _ _ _) as [[i|] s'] eqn:Hpush; [|done].
  injection Hc as <-.
  assert (Hp : is_Some (g_heap st1 !! p)) by (unfold key_of in Hk; destruct (g_heap st1 !! p); done).
  destruct (measured_push_frames _ _ _ _ _ _ _ (gw_api _ Hwf1) (gw_stack _ Hwf1)
              (gw_frames _ Hwf1) Hp Hpush) as (Hf' & Hs' & Ha' & Hh' & -> & fr & Hfr & Hr).
  rewrite Hs1 in Hh', Hfr. split_and!; [|done|].
  - destruct Hwf1; constructor; done.
  - exists fr, p. done.
Qed.

Lemma graph_wf_line cl st : graph_wf st -> graph_wf (graph_line cl st).
Proof.
  intros Hwf. unfold graph_line. destruct (lmprof_stack_peek _) as [i|]; [|done].
  pose proof (graph_wf_frame_alter false st i (set_line_info (if decide (cl >= 0) then cl else 0)
                (instr_count (g_stack st))) Hwf (fun _ => eq_refl)) as [Ht Hs Ha Hf Hn].
  destruct (frame_at st i ≫= record) as [p|]; [|constructor; done].
  constructor; cbn; try done.
  - apply (table_alter_key _ _ (record_line_hit cl) p); [|done].
    intros r. destruct (record_line_hit_other cl r) as (_ & ? & ? & _). done.
  - eapply frames_transfer; [exact Hf| |done|eauto].
    intros q. rewrite lookup_alter_is_Some. done.
  - intros q Hq. rewrite lookup_alter_None. apply Hn, Hq.
Qed.

(** The body of every hook call keeps the invariant: whatever the event,
    the clock reading and the allocation outcomes. *)
Theorem graph_dispatch_wf conf al ev t1 st :
  graph_wf st -> graph_wf (graph_dispatch conf al ev t1 st).
Proof.
  intros Hwf1. unfold graph_dispatch.
  destruct ev as [fid is_stop tail ar|fid| |cl|]; auto using graph_wf_post, graph_wf_count,
    graph_wf_line, graph_wf_raise.
  - destruct is_stop; [auto using graph_wf_post|].
    destruct (graph_call conf al fid tail ar st) as [st2|] eqn:Hc.
    + apply graph_wf_post. apply (graph_call_spec _ _ _ _ _ _ _ Hwf1 Hc).
    + apply graph_wf_raise.
      pose proof (lmprof_fetch_record_spec false conf al (Some ar) fid (parent_id conf st) st Hwf1).
      destruct (lmprof_fetch_record _ _ _ _ _ _). naive_solver.
  - apply graph_wf_post, (graph_return_spec conf fid st Hwf1).
Qed.

(** ** No record is freed *)

(** Every record of [st] is still allocated in [st']. *)
Definition heap_grows (st st' : GState) : Prop :=
  forall q, is_Some (g_heap st !! q) -> is_Some (g_heap st' !! q).

#[export] Instance heap_grows_preorder : PreOrder heap_grows.
Proof. split; [intros st q; done|intros a b c H1 H2 q Hq; auto]. Qed.

Lemma heap_grows_same st st' : g_heap st' = g_heap st -> heap_grows st st'.
Proof. intros E q. rewrite E. done. Qed.

Lemma heap_grows_alter st f p : heap_grows st (set_gheap st (alter f p (g_heap st))).
Proof. intros q. cbn. rewrite lookup_alter_is_Some. done. Qed.

Lemma pop_if_grows st : graph_wf st -> heap_grows st (pop_if st).2.
Proof.
  intros Hwf. unfold pop_if. case_decide as Hlt; [|reflexivity].
  destruct (head (g_stack st)) as [|h] eqn:Hh; [lia|].
  pose proof (gw_stack _ Hwf) as [Hl Hsz].
  destruct (lookup_lt_is_Some_2 (stack (g_stack st)) h) as [inst Hinst]; [lia|].
  destruct (gw_frames _ Hwf h inst ltac:(lia) Hinst) as (p & r & Hp & Hr).
  destruct (lmprof_stack_measured_pop_Some _ _ (g_unit st) _ _ _ _ Hh Hinst Hp Hr)
    as (s' & Hpop & _). rewrite Hpop. intros q Hq. cbn. apply lookup_insert_is_Some'. auto.
Qed.

Lemma ret_loop_grows conf fuel tr fid st inst :
  graph_wf st -> (forall i, inst = Some i -> (head (g_stack st) <= i)%nat) ->
  heap_grows st (ret_loop conf fuel tr fid st inst).1.
Proof.
  revert st inst. induction fuel as [|f IH]; intros st inst Hwf Hi; cbn; [reflexivity|].
  destruct inst as [i|]; [|reflexivity].
  destruct (frame_at st i) as [fr|]; [|reflexivity].
  destruct (_ || _); [|reflexivity]. cbn [check_stack_mismatch].
  destruct (clear_frame_wf false st i Hwf (Hi i eq_refl)) as (Hwf1 & _ & _).
  pose proof (pop_if_spec _ Hwf1) as Hp. pose proof (pop_if_grows _ Hwf1) as Hg.
  destruct (pop_if (clear_frame i st)) as [[h|] st2] eqn:Hpop; cbn in Hg.
  - destruct Hp as (Hwf2 & Hh & Hh2 & _ & _).
    etrans; [apply heap_grows_same; done|]. etrans; [exact Hg|].
    apply IH; [done|intros ? [= <-]; lia].
  - subst st2. destruct f; cbn; apply heap_grows_same; done.
Qed.

Lemma graph_return_grows conf fid st : graph_wf st -> heap_grows st (graph_return conf fid st).
Proof.
  intros Hwf. unfold graph_return.
  pose proof (pop_if_spec _ Hwf) as Hp. pose proof (pop_if_grows _ Hwf) as Hg.
  destruct (pop_if st) as [inst st1] eqn:Hpop. cbn in Hg.
  assert (Hwf1 : graph_wf st1 /\ (forall i, inst = Some i -> (head (g_stack st1) <= i)%nat)).
  { destruct inst as [h|]; [|subst; split; [done|discriminate]].
    destruct Hp as (? & ? & ? & ? & ?). split; [done|intros ? [= <-]; lia]. }
  destruct Hwf1 as [Hwf1 Hi1].
  pose proof (ret_loop_grows conf (head (g_stack st))
    (match inst ≫= frame_at st1 with Some fr => tail_call fr | None => false end)
    (if match inst ≫= frame_at st1 with Some fr => tail_call fr | None => false end
     then 0 else fid) st1 inst Hwf1 Hi1) as Hl.
  destruct (ret_loop _ _ _ _ st1 inst) as [st2 inst2]. cbn in Hl.
  etrans; [exact Hg|]. etrans; [exact Hl|].
  destruct inst2; cbn [check_stack_mismatch orb]; apply heap_grows_same; done.
Qed.

(** The body of the hook frees no record. *)
Lemma graph_dispatch_grows conf al ev t1 st :
  graph_wf st -> heap_grows st (graph_dispatch conf al ev t1 st).
Proof.
  intros Hwf. unfold graph_dispatch.
  assert (Hpost : forall st', heap_grows st (graph_post t1 st') <-> heap_grows st st').
  { intros st'. unfold heap_grows. unfold graph_post. destruct (lmprof_stack_peek _); done. }
  destruct ev as [fid is_stop tail ar|fid| |cl|].
  - destruct is_stop; [apply Hpost; reflexivity|].
    pose proof (lmprof_fetch_record_spec false conf al (Some ar) fid (parent_id conf st) st Hwf) as Hf.
    unfold graph_call. destruct (lmprof_fetch_record _ _ _ _ _ _) as [[p|] st1]; cbn;
      destruct Hf as (_ & _ & Hg & _); [|done].
    destruct (lmprof_stack_measured_push _ _ _ _) as [[i|] s']; [apply Hpost|]; done.
  - apply Hpost, graph_return_grows, Hwf.
  - apply Hpost, heap_grows_same. done.
  - apply Hpost. unfold graph_line. destruct (lmprof_stack_peek _) as [i|]; [|reflexivity].
    destruct (frame_at st i ≫= record) as [p|]; [|apply heap_grows_same; done].
    etrans; [|apply heap_grows_alter]. apply heap_grows_same. done.
  - apply heap_grows_same. done.
Qed.

(** With its allocations successful, lmprof_fetch_record returns a record. *)
Lemma fetch_record_succeeds api conf al ar fid pid st :
  state_wf api st -> a_record al = true -> a_bucket al = true ->
  is_Some (lmprof_fetch_record conf al ar fid pid st).1.
Proof.
  intros Hwf Ha Hb. pose proof (gw_table _ Hwf) as Ht. unfold lmprof_fetch_record.
  destruct (table_get_spec _ _ fid pid Ht) as (Hres & Habs1 & Hwf1).
  destruct (table_get (g_heap st) (g_table st) fid pid) as [[p|] t1]; cbn in *; [done|].
  rewrite Ha, Hb. pose proof (gw_fresh _ Hwf (g_next st) ltac:(done)) as Hp.
  destruct (refresh_info_key ar fid (record_blank fid pid (record_count st))) as [Hf1 Hp1].
  cbn [f_id p_id record_blank] in Hf1, Hp1.
  set (r1 := refresh_info ar fid (record_blank fid pid (record_count st))) in *.
  destruct (table_fresh_insert _ _ (g_next st) r1 Hwf1 Hp) as [Hwf3 Habs3].
  destruct (table_insert_spec (<[g_next st := r1]> (g_heap st)) t1 (g_next st) r1 Hwf3)
    as (Hok & _ & _); [apply lookup_insert_eq | rewrite Habs3, Habs1, Hf1, Hp1; done|].
  destruct (table_insert true t1 (g_next st) r1) as [b t2]. cbn in Hok. subst b. done.
Qed.

(** With its allocations successful and room on the stack, the call path
    pushes a frame. *)
Lemma graph_call_succeeds conf al fid tail ar st :
  graph_wf st -> a_record al = true -> a_bucket al = true ->
  (head (g_stack st) < size (g_stack st))%nat ->
  is_Some (graph_call conf al fid tail ar st).
Proof.
  intros Hwf Ha Hb Hh. unfold graph_call.
  pose proof (fetch_record_succeeds false conf al (Some ar) fid (parent_id conf st) st Hwf Ha Hb) as Hs.
  pose proof (lmprof_fetch_record_spec false conf al (Some ar) fid (parent_id conf st) st Hwf) as Hf.
  destruct (lmprof_fetch_record _ _ _ _ _ _) as [[p|] st1]; cbn in Hs; [|by destruct Hs].
  destruct Hf as (Hwf1 & Hs1 & _).
  unfold lmprof_stack_measured_push, lmprof_stack_next. rewrite (gw_api _ Hwf1), Hs1.
  rewrite decide_True by done. done.
Qed.

Lemma fetch_record_error conf al ar fid pid st p st' :
  lmprof_fetch_record conf al ar fid pid st = (Some p, st') -> g_error st' = g_error st.
Proof. unfold lmprof_fetch_record. repeat case_match; intros; simplify_eq; done. Qed.

Lemma entry_fields conf t0 st :
  let st1 := (hook_entry conf t0 st).1 in
  g_stack st1 = g_stack st /\ g_heap st1 = g_heap st /\ g_table st1 = g_table st /\
  g_error st1 = g_error st /\ g_next st1 = g_next st /\ g_running st1 = g_running st.
Proof. unfold hook_entry. repeat case_match; done. Qed.

Lemma post_fields t1 st :
  let st' := graph_post t1 st in
  g_heap st' = g_heap st /\ g_table st' = g_table st /\ g_error st' = g_error st /\
  head (g_stack st') = head (g_stack st) /\
  (forall k, record <$> stack (g_stack st') !! k = record <$> stack (g_stack st) !! k).
Proof.
  unfold graph_post. destruct (lmprof_stack_peek _) as [i|]; [|done].
  split_and!; try done. intros k. cbn. rewrite list_lookup_alter.
  case_decide; [subst|done]. destruct (stack _ !! k); done.
Qed.

Lemma fetch_record_abs conf al ar fid pid st :
  graph_wf st ->
  let '(res, st') := lmprof_fetch_record conf al ar fid pid st in
  graph_wf st' /\
  (forall k p, table_abs (g_heap st) (g_table st) !! k = Some p ->
               table_abs (g_heap st') (g_table st') !! k = Some p) /\
  (forall p, res = Some p -> table_abs (g_heap st') (g_table st') !! (fid, pid) = Some p).
Proof.
  intros Hwf. pose proof (lmprof_fetch_record_spec false conf al ar fid pid st Hwf) as Hs.
  destruct (lmprof_fetch_record _ _ _ _ _ _) as [[p|] st']; cbn.
  - destruct Hs as (Hwf' & _ & _ & _ & Habs & Huniq). split_and!; [done| |].
    + intros k q Hk. rewrite Habs. destruct (decide (k = (fid, pid))) as [->|].
      * rewrite (Huniq q Hk), lookup_insert_eq. done.
      * rewrite lookup_insert_ne by done. done.
    + intros q [= <-]. rewrite Habs, lookup_insert_eq. done.
  - destruct Hs as (Hwf' & _ & _ & _ & Habs). rewrite Habs. split_and!; done.
Qed.

(** C20: Record interning over any sequence of lookups (R4 of the
    specification): every record a lookup returned is the one the final
    table maps its pair to, so equal pairs always get the same record,
    and different pairs different records. *)
Theorem fetch_all_interns conf reqs st :
  graph_wf st ->
  let '(rs, st') := fetch_all conf reqs st in
  graph_wf st' /\
  (forall j req p, reqs !! j = Some req -> rs !! j = Some (Some p) ->
     table_abs (g_heap st') (g_table st') !! req.2 = Some p) /\
  (forall k p, table_abs (g_heap st') (g_table st') !! k = Some p ->
     key_of (g_heap st') p = Some k).
Proof.
  intros Hwf. cut (let '(rs, st') := fetch_all conf reqs st in graph_wf st' /\
    (forall k p, table_abs (g_heap st) (g_table st) !! k = Some p ->
                 table_abs (g_heap st') (g_table st') !! k = Some p) /\
    (forall j req p, reqs !! j = Some req -> rs !! j = Some (Some p) ->
       table_abs (g_heap st') (g_table st') !! req.2 = Some p)).
  { destruct (fetch_all conf reqs st) as [rs st']. intros (Hwf' & _ & Hj).
    split_and!; [done|done|]. intros k p. apply table_abs_key, (gw_table _ Hwf'). }
  revert st Hwf. induction reqs as [|[[al ar] [fid pid]] reqs IH]; intros st Hwf; cbn.
  - split_and!; [done|done|]. intros j req p Hj. done.
  - pose proof (fetch_record_abs conf al ar fid pid st Hwf) as Hf.
    destruct (lmprof_fetch_record _ _ _ _ _ _) as [r st1]. destruct Hf as (Hwf1 & Hmono1 & Hr).
    specialize (IH st1 Hwf1). destruct (fetch_all conf reqs st1) as [rs st2].
    destruct IH as (Hwf2 & Hmono2 & Hj). split_and!; [done|auto|].
    intros [|j] req p Hreq Hrs; cbn in Hreq, Hrs; [|eauto].
    injection Hreq as <-. injection Hrs as ->. cbn. apply Hmono2, Hr. done.
Qed.

(** A profiler state as lmprof_initialize_profiler leaves it for the graph
    hook: an empty table of [bc] buckets, no records, an empty stack. *)
Definition graph_init_state (t : T) (id : Z) : GState :=
  mkG t ∅ 0 0 (lmprof_stack_new id false) unit_clear 0 0 true false false false.

Lemma graph_init_state_wf t id :
  table_wf ∅ t -> graph_wf (graph_init_state t id).
Proof.
  intros Ht. constructor; cbn; try done.
  - apply lmprof_stack_new_wf.
  - intros k fr Hk. cbn in Hk. lia.
Qed.

End Profiler.

Abbreviation graph_wf := (state_wf false).
Arguments gw_table {T H api} st _.
Arguments gw_stack {T H api} st _.
Arguments gw_api {T H api} st _.
Arguments gw_frames {T H api} st _.
Arguments gw_fresh {T H api} st _ _ _.

(** * A concrete run on the hashtable *)

Definition ex_populate : option ActRecord -> Z -> FunctionInfo -> FunctionInfo :=
  fun _ _ i => i.
Definition ex_ignored : Z -> bool := fun _ => false.
Definition ex_conf : GraphConf := mkConf false false false None false 0 1.
Definition ex_ok : Allocs := mkAllocs true true true.
Definition ex_ar : ActRecord := mkAr 1 5 1.

Definition ex_st0 : @GState lmprof_Hash := graph_init_state (lmprof_hash_create 257) 1.
Definition ex_st1 := graph_dispatch ex_populate ex_ignored ex_conf ex_ok
                       (HookCall 10 false false ex_ar) 1 ex_st0.
Definition ex_st2 := graph_dispatch ex_populate ex_ignored ex_conf ex_ok
                       (HookCall 20 false false ex_ar) 3 ex_st1.

Lemma ex_st0_wf : graph_wf ex_st0.
Proof. apply graph_init_state_wf, lmprof_hash_create_wf. lia. Qed.

Lemma ex_st1_wf : graph_wf ex_st1.
Proof. apply graph_dispatch_wf, ex_st0_wf. Qed.

Lemma ex_st2_wf : graph_wf ex_st2.
Proof. apply graph_dispatch_wf, ex_st1_wf. Qed.

Definition ex_reqs : list (Allocs * option ActRecord * (Z * Z)) :=
  [(ex_ok, None, (10, 0)); (ex_ok, None, (20, 0)); (ex_ok, None, (10, 0))].

Lemma fetch_all_interns_witness :
  let '(rs, st') := fetch_all ex_populate ex_ignored ex_conf ex_reqs ex_st0 in
  graph_wf st' /\
  (forall j req p, ex_reqs !! j = Some req -> rs !! j = Some (Some p) ->
     table_abs (g_heap st') (g_table st') !! req.2 = Some p) /\
  (forall k p, table_abs (g_heap st') (g_table st') !! k = Some p ->
     key_of (g_heap st') p = Some k).
Proof. apply fetch_all_interns, ex_st0_wf. Defined.

Lemma ret_loop_fuel_witness :
  ret_loop ex_conf (1 + 5) false 20 (pop_if ex_st2).2 (Some 1%nat) =
  ret_loop ex_conf 1 false 20 (pop_if ex_st2).2 (Some 1%nat).
Proof. apply ret_loop_fuel. intros i [= <-]. vm_compute. lia. Defined.

End Graph.
