(* ===== verification/Sample.v ===== *)
(** * The sampling graph profiler: graph_sample and lmprof_sample_stack

    In LMPROF_MODE_SAMPLE without tracing the debug hook is graph_sample
    (lmprof_lib.c), installed with a count mask only.  On each
    LUA_HOOKCOUNT it adds the mask to the instruction counter and walks
    the Lua stack from its deepest level (lua_lastlevel) up to the running
    function (level 0) in lmprof_sample_stack: every level is interned by
    lmprof_fetch_record under (function, parent) as in the instrumenting
    hook, the running function's record has its count incremented and
    every record above it is counted at least once; the line-frequency
    vectors are updated the same way.  The hook ends by charging its own
    time to the running overhead.

    The state is the graph profiler's [GState] of Graph.v; the Lua stack
    is an input: the list of lua_getstack results from the deepest level
    down to level 0, each the activation record and the identifier
    lmprof_record_id computes for it.  The record of a level is fetched
    with the five-argument lmprof_fetch_record of lmprof.c, so the
    [last_line] the sampler computes for the line triples is not stored.
    The hook itself, graph_sample with graph_prehook, is in GraphHook.v. *)

From S2P Require Import Common Unit Record Hash Stack Graph.
Import Unit Record Hash Stack Graph.

Module Sample.

(** One [lua_getstack] call: the frame and its function identifier, or
    the failure that ends the walk. *)
Abbreviation StackLevel := (option (ActRecord * Z)).

(** [if (level == 0 || (level > 0 && record->graph.count == 0))
     record->graph.count++] *)
Definition count_hit (leaf : bool) (r : lmprof_Record) : lmprof_Record :=
  if leaf || bool_decide (count r = 0)
  then set_stats r (count r +w 1) (node r) (path r) else r.

(** The line update of lmprof_sample_stack: the slot of the current line
    is incremented for the running function, and for a function above it
    only while it is still zero. *)
Definition line_sample (leaf : bool) (currentline : Z) (r : lmprof_Record) : lmprof_Record :=
  match line_freq r with
  | Some lf =>
      if decide (linedefined (info r) > 0) then
        let diff := currentline - linedefined (info r) in
        if bool_decide (0 <= diff < Z.of_nat (length lf)) &&
           (leaf || bool_decide (lf !! Z.to_nat diff = Some 0)) then
          set_line_freq r (Some (alter (fun c => c +w 1) (Z.to_nat diff) lf))
        else r
      else r
  | None => r
  end.

(** Both updates of one level, in the order of the code. *)
Definition sample_update (leaf : bool) (currentline : Z) (r : lmprof_Record) : lmprof_Record :=
  line_sample leaf currentline (count_hit leaf r).

Lemma count_hit_keys leaf r :
  r_id (count_hit leaf r) = r_id r /\ f_id (count_hit leaf r) = f_id r /\
  p_id (count_hit leaf r) = p_id r.
Proof. unfold count_hit. case_match; done. Qed.

Lemma line_sample_other leaf cl r :
  r_id (line_sample leaf cl r) = r_id r /\ f_id (line_sample leaf cl r) = f_id r /\
  p_id (line_sample leaf cl r) = p_id r /\ count (line_sample leaf cl r) = count r.
Proof. unfold line_sample. repeat case_match; done. Qed.

Lemma sample_update_keys leaf cl r :
  r_id (sample_update leaf cl r) = r_id r /\ f_id (sample_update leaf cl r) = f_id r /\
  p_id (sample_update leaf cl r) = p_id r.
Proof.
  unfold sample_update. destruct (line_sample_other leaf cl (count_hit leaf r)) as (-> & -> & -> & _).
  apply count_hit_keys.
Qed.

(** The count after one level, while counts stay below the wrap. *)
Lemma count_hit_count leaf r :
  0 <= count r < MODULUS - 1 ->
  count (count_hit leaf r) = if leaf || bool_decide (count r = 0) then count r + 1 else count r.
Proof. intros Hc. unfold count_hit. case_match; [cbn; apply add64_exact; lia|done]. Qed.

Lemma sample_update_count leaf cl r :
  0 <= count r < MODULUS - 1 ->
  count (sample_update leaf cl r) =
    if leaf || bool_decide (count r = 0) then count r + 1 else count r.
Proof.
  intros Hc. unfold sample_update.
  destruct (line_sample_other leaf cl (count_hit leaf r)) as (_ & _ & _ & ->).
  apply count_hit_count, Hc.
Qed.

(** No record's count is at the wrap-around point: one more sample
    cannot bring a count back to zero. *)
Definition counts_lt (hp : heap) : Prop :=
  map_Forall (fun _ r => 0 <= count r < MODULUS - 1) hp.

(** The records of a sampled stack are counted: each level's
    (function, parent) pair is interned and its record has a positive
    count, and the next level's parent is this level's function or record
    id as configured. *)
Fixpoint path_counted (conf : GraphConf) (hp : heap) (abs : gmap (Z * Z) nat)
    (levels : list StackLevel) (last : Z) : Prop :=
  match levels with
  | Some (_, fid) :: rest =>
      exists p r, abs !! (fid, last) = Some p /\ hp !! p = Some r /\ 0 < count r /\
        path_counted conf hp abs rest (if compress_graph conf then fid else r_id r)
  | _ => True
  end.

(** What a record at an address keeps across lmprof_fetch_record: a
    record that was there keeps its id and count, a new one starts at
    zero. *)
Definition kept (o : option lmprof_Record) (r' : lmprof_Record) : Prop :=
  match o with
  | Some r => r_id r' = r_id r /\ count r' = count r
  | None => count r' = 0
  end.

Section Sampler.

Context `{RecordTable T}.
Variable record_populate : option ActRecord -> Z -> FunctionInfo -> FunctionInfo.
Variable function_is_ignored : Z -> bool.

Abbreviation fetch_record := (lmprof_fetch_record record_populate function_is_ignored).

(** The next parent: [COMPRESS_GRAPH ? fid : record->r_id]. *)
Definition next_parent (conf : GraphConf) (fid : Z) (st : @GState T) (p : nat) : Z :=
  if compress_graph conf then fid else default 0 (r_id <$> g_heap st !! p).

(** One level of the walk: [None] when lmprof_fetch_record raised its
    error, which ends the hook; otherwise the parent of the next level. *)
Definition sample_level (conf : GraphConf) (al : Allocs) (leaf : bool) (a : ActRecord)
    (fid last_fid : Z) (st : GState) : GState * option Z :=
  match fetch_record conf al (Some a) fid last_fid st with
  | (Some p, st1) =>
      (set_gheap st1 (alter (sample_update leaf (ar_currentline a)) p (g_heap st1)),
       Some (next_parent conf fid st1 p))
  | (None, st1) => (st1, None)
  end.

(** The loop [for (level = lua_lastlevel(L); level >= 0; --level)]: the
    list holds the levels from the deepest one to level 0, so a level is
    level 0 exactly when it is the last; a failed lua_getstack breaks
    out of the loop.  The flag is false when an error was raised. *)
Fixpoint sample_levels (conf : GraphConf) (al : Allocs) (levels : list StackLevel)
    (last_fid : Z) (st : GState) : GState * bool :=
  match levels with
  | [] => (st, true)
  | None :: _ => (st, true)
  | Some (a, fid) :: rest =>
      match sample_level conf al (bool_decide (rest = [])) a fid last_fid st with
      | (st1, Some lf) => sample_levels conf al rest lf st1
      | (st1, None) => (st1, false)
      end
  end.

(** lmprof_sample_stack: the root record is fetched and counted once,
    then the levels are walked. *)
Definition lmprof_sample_stack (conf : GraphConf) (al : Allocs) (levels : list StackLevel)
    (st : GState) : GState * bool :=
  match fetch_record conf al None LMPROF_RECORD_ID_ROOT LMPROF_RECORD_ID_ROOT st with
  | (Some p, st1) =>
      let last_fid := next_parent conf LMPROF_RECORD_ID_ROOT st1 p in
      sample_levels conf al levels last_fid
        (set_gheap st1 (alter (count_hit false) p (g_heap st1)))
  | (None, st1) => (st1, false)
  end.

(** [st->i.instr_count += st->i.mask_count] *)
Definition add_mask_count (conf : GraphConf) (st : @GState T) : @GState T :=
  mkG (g_table st) (g_heap st) (g_next st) (record_count st) (g_stack st) (g_unit st)
      (g_overhead_total st) (g_instr_count st +w mask_count conf) (g_running st)
      (g_ignore_call st) (g_ignore_alloc st) (g_error st).

(** The end of graph_sample: allocations are counted again and the hook
    time is charged to the running overhead (not to a frame). *)
Definition sample_post (t1 : Z) (st : @GState T) : @GState T :=
  mkG (g_table st) (g_heap st) (g_next st) (record_count st) (g_stack st)
      (mkUnit t1 (allocated (g_unit st)) (deallocated (g_unit st)))
      (g_overhead_total st +w (t1 -w time (g_unit st))) (g_instr_count st) (g_running st)
      (g_ignore_call st) false (g_error st).

(** * The invariant *)

Lemma graph_wf_alter_keys api (st : @GState T) f p :
  (forall r, f_id (f r) = f_id r /\ p_id (f r) = p_id r) ->
  state_wf api st -> state_wf api (set_gheap st (alter f p (g_heap st))).
Proof.
  intros Hf Hwf. unfold set_gheap. apply graph_wf_set_tables; [done| | |].
  - apply table_alter_key; [done|apply (gw_table _ Hwf)].
  - intros q. rewrite lookup_alter_is_Some. done.
  - intros q Hq. rewrite lookup_alter_None. apply (gw_fresh _ Hwf _ Hq).
Qed.

Lemma fetch_record_wf api conf al ar fid pid (st : @GState T) :
  state_wf api st -> state_wf api (fetch_record conf al ar fid pid st).2.
Proof.
  intros Hwf. pose proof (lmprof_fetch_record_spec record_populate function_is_ignored
                            api conf al ar fid pid st Hwf) as Hs.
  destruct (fetch_record _ _ _ _ _ _). naive_solver.
Qed.

Lemma sample_level_wf conf al leaf a fid last st :
  graph_wf st -> graph_wf (sample_level conf al leaf a fid last st).1.
Proof.
  intros Hwf. unfold sample_level. pose proof (fetch_record_wf _ conf al (Some a) fid last st Hwf).
  destruct (fetch_record _ _ _ _ _ _) as [[p|] st1]; [|done].
  apply graph_wf_alter_keys; [|done]. intros r. apply sample_update_keys.
Qed.

Lemma sample_levels_wf conf al levels last st :
  graph_wf st -> graph_wf (sample_levels conf al levels last st).1.
Proof.
  revert last st. induction levels as [|[[a fid]|] rest IH]; intros last st Hwf; [done| |done].
  cbn. pose proof (sample_level_wf conf al (bool_decide (rest = [])) a fid last st Hwf).
  destruct (sample_level _ _ _ _ _ _ _) as [st1 [lf|]]; auto.
Qed.

Lemma lmprof_sample_stack_wf conf al levels st :
  graph_wf st -> graph_wf (lmprof_sample_stack conf al levels st).1.
Proof.
  intros Hwf. unfold lmprof_sample_stack.
  pose proof (fetch_record_wf _ conf al None LMPROF_RECORD_ID_ROOT LMPROF_RECORD_ID_ROOT st Hwf).
  destruct (fetch_record _ _ _ _ _ _) as [[p|] st1]; [|done].
  apply sample_levels_wf, graph_wf_alter_keys; [|done]. intros r. apply count_hit_keys.
Qed.

(** * The sampled path is counted *)

(** The state only grows: the table's map gains pairs, every record
    stays with its id and a count at least as large. *)
Definition grows (st st' : @GState T) : Prop :=
  (forall k p, table_abs (g_heap st) (g_table st) !! k = Some p ->
               table_abs (g_heap st') (g_table st') !! k = Some p) /\
  (forall p r, g_heap st !! p = Some r ->
     exists r', g_heap st' !! p = Some r' /\ r_id r' = r_id r /\ count r <= count r').

#[local] Instance grows_preorder : PreOrder grows.
Proof.
  split.
  - intros st. split; [done|]. intros p r Hr. exists r. done.
  - intros s1 s2 s3 [Ha1 Hh1] [Ha2 Hh2]. split; [auto|].
    intros p r Hr. destruct (Hh1 p r Hr) as (r2 & Hr2 & E2 & C2).
    destruct (Hh2 p r2 Hr2) as (r3 & Hr3 & E3 & C3). exists r3. split_and!; [done|congruence|lia].
Qed.

Lemma fetch_record_heap api conf al ar fid pid (st : @GState T) p r' :
  state_wf api st -> g_heap (fetch_record conf al ar fid pid st).2 !! p = Some r' ->
  kept (g_heap st !! p) r'.
Proof.
  intros Hwf. unfold lmprof_fetch_record.
  destruct (table_get _ _ _ _) as [[q|] t1]; cbn.
  - rewrite lookup_alter. case_decide; [subst p|by intros ->].
    destruct (g_heap st !! q); intros; simplify_eq/=.
    unfold refresh_info. destruct (has_name _); done.
  - destruct (a_record al); [|by cbn; intros ->].
    destruct (table_insert _ _ _ _) as [[] t2]; cbn; [|by intros ->].
    rewrite lookup_insert_Some. intros [[<- <-]|[_ ->]]; [|done].
    rewrite (gw_fresh _ Hwf (g_next st)) by done. cbn.
    unfold new_line_freq, new_record_flags, refresh_info.
    repeat case_match; done.
Qed.

Lemma fetch_grows api conf al ar fid pid (st : @GState T) :
  state_wf api st -> grows st (fetch_record conf al ar fid pid st).2 /\
  (counts_lt (g_heap st) -> counts_lt (g_heap (fetch_record conf al ar fid pid st).2)).
Proof.
  intros Hwf. pose proof (fetch_record_heap api conf al ar fid pid st) as Hk.
  pose proof (lmprof_fetch_record_spec record_populate function_is_ignored
                api conf al ar fid pid st Hwf) as Hs.
  destruct (fetch_record _ _ _ _ _ _) as [res st'] eqn:E. cbn in *.
  destruct Hs as (_ & _ & Hl & Hres). split; [split|].
  - intros k p Hp. destruct res as [q|].
    + destruct Hres as (_ & -> & Hu). rewrite lookup_insert_Some.
      destruct (decide (k = (fid, pid))) as [->|]; [left; split; [done|]; symmetry; auto|by right].
    + rewrite (proj2 Hres). done.
  - intros p r Hr. destruct (Hl p) as [r' Hr']; [by rewrite Hr|].
    specialize (Hk p r' Hwf Hr'). rewrite Hr in Hk. destruct Hk. exists r'. split_and!; [done..|lia].
  - intros Hc p r' Hr'. specialize (Hk p r' Hwf Hr'). cbn.
    destruct (g_heap st !! p) as [r|] eqn:Hr; cbn in Hk.
    + destruct Hk as [_ ->]. apply (Hc p r Hr).
    + rewrite Hk. unfold MODULUS, WIDTH. lia.
Qed.

Lemma fetch_result api conf al ar fid pid (st : @GState T) p :
  state_wf api st -> (fetch_record conf al ar fid pid st).1 = Some p ->
  let st' := (fetch_record conf al ar fid pid st).2 in
  table_abs (g_heap st') (g_table st') !! (fid, pid) = Some p /\ is_Some (g_heap st' !! p).
Proof.
  intros Hwf. pose proof (lmprof_fetch_record_spec record_populate function_is_ignored
                            api conf al ar fid pid st Hwf) as Hs.
  destruct (fetch_record _ _ _ _ _ _) as [res st']. cbn. intros ->.
  destruct Hs as (Hwf' & _ & _ & Hkey & -> & _). rewrite lookup_insert_eq. split; [done|].
  unfold key_of in Hkey. destruct (g_heap st' !! p); done.
Qed.

(** One level's update, seen from the state: the record's count grows
    and becomes positive; away from the running function the counts
    stay below the wrap. *)
Lemma sample_alter api (st : @GState T) (f : lmprof_Record -> lmprof_Record) leaf p r :
  (forall r, r_id (f r) = r_id r /\ f_id (f r) = f_id r /\ p_id (f r) = p_id r) ->
  (forall r, 0 <= count r < MODULUS - 1 ->
     count (f r) = if leaf || bool_decide (count r = 0) then count r + 1 else count r) ->
  state_wf api st -> counts_lt (g_heap st) -> g_heap st !! p = Some r ->
  let st' := set_gheap st (alter f p (g_heap st)) in
  grows st st' /\ g_heap st' !! p = Some (f r) /\ 0 < count (f r) /\
  (leaf = false -> counts_lt (g_heap st')).
Proof.
  intros Hk Hf Hwf Hc Hr. pose proof (Hc p r Hr) as Hcr. cbn.
  pose proof (Hf r Hcr) as Hcount.
  destruct (table_alter_key _ _ f p (fun r => proj2 (Hk r)) (gw_table _ Hwf)) as [_ Habs].
  assert (Hp : alter f p (g_heap st) !! p = Some (f r)).
  { rewrite lookup_alter, decide_True, Hr by done. done. }
  split_and!; [split| done | | ].
  - intros k q. cbn. rewrite Habs. done.
  - intros q rq Hq. cbn. destruct (decide (p = q)) as [<-|Hne].
    + rewrite Hp. rewrite Hr in Hq. simplify_eq.
      eexists; split_and!; [done|apply Hk|]. rewrite Hcount. case_match; lia.
    + exists rq. rewrite lookup_alter_ne, Hq by done. split_and!; [done|done|lia].
  - rewrite Hcount. cbn in Hcr. destruct leaf; cbn; [|case_bool_decide]; lia.
  - intros ->. apply map_Forall_lookup. intros q rq. destruct (decide (p = q)) as [<-|Hne].
    + rewrite Hp. intros; simplify_eq. rewrite Hcount. cbn.
      case_bool_decide; unfold MODULUS, WIDTH in *; lia.
    + rewrite lookup_alter_ne by done. apply Hc.
Qed.

Lemma path_counted_grows conf (st st' : @GState T) levels last :
  grows st st' ->
  path_counted conf (g_heap st) (table_abs (g_heap st) (g_table st)) levels last ->
  path_counted conf (g_heap st') (table_abs (g_heap st') (g_table st')) levels last.
Proof.
  intros [Ha Hh]. revert last. induction levels as [|[[a fid]|] rest IH]; intros last; [done| |done].
  intros (p & r & Hp & Hr & Hc & Hrest). destruct (Hh p r Hr) as (r' & Hr' & E & C).
  exists p, r'. rewrite E. split_and!; auto. lia.
Qed.

Lemma sample_levels_counted conf al levels last (st st' : @GState T) :
  graph_wf st -> counts_lt (g_heap st) -> sample_levels conf al levels last st = (st', true) ->
  grows st st' /\
  path_counted conf (g_heap st') (table_abs (g_heap st') (g_table st')) levels last.
Proof.
  revert last st. induction levels as [|[[a fid]|] rest IH]; intros last st Hwf Hc Hs;
    cbn in Hs; try (simplify_eq; done).
  unfold sample_level in Hs.
  pose proof (fetch_result false conf al (Some a) fid last st) as Hres.
  destruct (fetch_grows false conf al (Some a) fid last st Hwf) as [G1 Hc1].
  pose proof (fetch_record_wf false conf al (Some a) fid last st Hwf) as Hwf1.
  destruct (fetch_record _ _ _ _ _ _) as [[p|] st1]; [|done]. cbn in *.
  destruct (Hres p Hwf eq_refl) as [Hp [r Hr]].
  destruct (sample_alter false st1 _ (bool_decide (rest = [])) p r
              (sample_update_keys _ (ar_currentline a)) (sample_update_count _ (ar_currentline a))
              Hwf1 (Hc1 Hc) Hr)
    as (G2 & Hr2 & Hpos & Hc2).
  pose proof (graph_wf_alter_keys false st1 (sample_update (bool_decide (rest = [])) (ar_currentline a)) p
                (fun r => proj2 (sample_update_keys _ _ r)) Hwf1) as Hwf2.
  assert (Hn : next_parent conf fid st1 p =
               if compress_graph conf then fid else r_id (sample_update (bool_decide (rest = [])) (ar_currentline a) r)).
  { unfold next_parent. rewrite Hr, (proj1 (sample_update_keys _ _ r)). done. }
  rewrite Hn in Hs. destruct (decide (rest = [])) as [->|Hne].
  - cbn in Hs. simplify_eq. split; [etrans; done|].
    exists p, (sample_update true (ar_currentline a) r). split_and!; [|done..].
    destruct G2 as [Ha _]. apply Ha. done.
  - rewrite bool_decide_false in Hs, Hwf2, Hr2, Hpos, Hc2, G2, Hn by done.
    destruct (IH _ _ Hwf2 (Hc2 eq_refl) Hs) as [G3 Hpath]. split; [etrans; [done|etrans; done]|].
    destruct G3 as [Ha3 Hh3]. destruct (Hh3 p _ Hr2) as (r' & Hr' & E & C).
    exists p, r'. rewrite E. split_and!; [|done|lia|done].
    apply Ha3. destruct G2 as [Ha2 _]. apply Ha2. done.
Qed.

(** C8: A completed sample counts the whole stack: the root record is
    interned and counted, and so is every level walked, each under the
    parent the previous level determines, provided no count was at the
    wrap-around point. *)
Theorem lmprof_sample_stack_counts conf al levels (st st' : @GState T) :
  graph_wf st -> counts_lt (g_heap st) ->
  lmprof_sample_stack conf al levels st = (st', true) ->
  exists p0 r0,
    table_abs (g_heap st') (g_table st') !! (LMPROF_RECORD_ID_ROOT, LMPROF_RECORD_ID_ROOT) = Some p0 /\
    g_heap st' !! p0 = Some r0 /\ 0 < count r0 /\
    path_counted conf (g_heap st') (table_abs (g_heap st') (g_table st')) levels
      (if compress_graph conf then LMPROF_RECORD_ID_ROOT else r_id r0).
Proof.
  intros Hwf Hc Hs. unfold lmprof_sample_stack in Hs.
  pose proof (fetch_result false conf al None LMPROF_RECORD_ID_ROOT LMPROF_RECORD_ID_ROOT st) as Hres.
  destruct (fetch_grows false conf al None LMPROF_RECORD_ID_ROOT LMPROF_RECORD_ID_ROOT st Hwf)
    as [_ Hc1].
  pose proof (fetch_record_wf false conf al None LMPROF_RECORD_ID_ROOT LMPROF_RECORD_ID_ROOT st Hwf)
    as Hwf1.
  destruct (fetch_record _ _ _ _ _ _) as [[p|] st1]; [|done]. cbn in *.
  destruct (Hres p Hwf eq_refl) as [Hp [r Hr]].
  destruct (sample_alter false st1 (count_hit false) false p r (count_hit_keys false)
              (count_hit_count false) Hwf1 (Hc1 Hc) Hr) as (G2 & Hr2 & Hpos & Hc2).
  pose proof (graph_wf_alter_keys false st1 (count_hit false) p
                (fun r => proj2 (count_hit_keys false r)) Hwf1) as Hwf2.
  destruct (sample_levels_counted _ _ _ _ _ _ Hwf2 (Hc2 eq_refl) Hs) as [[Ha3 Hh3] Hpath].
  destruct (Hh3 p _ Hr2) as (r' & Hr' & E & C).
  exists p, r'. split_and!; [apply Ha3, (proj1 G2), Hp|done|lia|].
  unfold next_parent in Hpath. rewrite Hr, E, (proj1 (count_hit_keys false r)) in *. done.
Qed.

End Sampler.

(** * A concrete sample on the hashtable *)

(** Two levels: function 10 called from the main chunk, and the running
    function 20 it called. *)
Definition ex_levels : list StackLevel := [Some (ex_ar, 10); Some (ex_ar, 20)].

Definition ex_sampled : @GState lmprof_Hash :=
  (lmprof_sample_stack ex_populate ex_ignored ex_conf ex_ok ex_levels ex_st0).1.

Lemma lmprof_sample_stack_counts_witness :
  exists p0 r0,
    table_abs (g_heap ex_sampled) (g_table ex_sampled) !!
      (LMPROF_RECORD_ID_ROOT, LMPROF_RECORD_ID_ROOT) = Some p0 /\
    g_heap ex_sampled !! p0 = Some r0 /\ 0 < count r0 /\
    path_counted ex_conf (g_heap ex_sampled) (table_abs (g_heap ex_sampled) (g_table ex_sampled))
      ex_levels (if compress_graph ex_conf then LMPROF_RECORD_ID_ROOT else r_id r0).
Proof.
  apply (lmprof_sample_stack_counts ex_populate ex_ignored ex_conf ex_ok ex_levels ex_st0);
    [apply ex_st0_wf | apply map_Forall_empty | vm_compute; reflexivity].
Defined.

End Sample.
