(* ===== verification/Config.v ===== *)
(** * Profiler configuration: modes and options

    lmprof_parsemode (lmprof.c) turns the mode strings given to the Lua API
    into the mode bitset and rejects invalid combinations;
    lmprof_set_option and lmprof_get_option (lmprof.c) store the default
    options of later sessions in the library's registry subtable, keyed by
    the integers LMPROF_FLAGS, LMPROF_HOOK_COUNT, ... (lmprof.h).

    Lua values are modelled as nil, booleans, integers and strings; the
    auxiliary-library checks (luaL_checkoption, luaL_checkinteger,
    luaL_checkstring, luaL_checktype) as partial functions, a failed check
    being the error it raises.  Numeric strings, which Lua would convert
    to integers, are not modelled: luaL_checkinteger rejects every
    string.  The fallible code runs in a small error monad. *)

From Stdlib Require Import String.
From stdpp Require Import strings pretty.
From S2P Require Import Common.

Module Config.

(** The error monad: a Lua error carries its message. *)
Inductive result (A : Type) := Ok (a : A) | Err (msg : string).
Arguments Ok {A} a.
Arguments Err {A} msg.

Definition bind {A B} (m : result A) (f : A -> result B) : result B :=
  match m with Ok a => f a | Err e => Err e end.

Declare Scope config_scope.
Delimit Scope config_scope with cfg.
Notation "x <- m ;; k" := (bind m (fun x => k))
  (at level 100, m at next level, right associativity) : config_scope.
Open Scope config_scope.

Definition of_option {A} (msg : string) (o : option A) : result A :=
  match o with Some a => Ok a | None => Err msg end.

Inductive LuaVal := LNil | LBool (b : bool) | LInt (z : Z) | LStr (s : string).

#[export] Instance LuaVal_eq_dec : EqDecision LuaVal.
Proof. solve_decision. Defined.

(** The argument at a 1-based index; absent arguments read as nil. *)
Definition arg (args : list LuaVal) (i : nat) : LuaVal :=
  from_option id LNil (args !! (i - 1)%nat).

(** luaL_checkoption: the index of the string in the list, the default
    replacing an absent argument.  Lua converts integers to strings. *)
Definition luaL_checkoption (v : LuaVal) (def : option string) (lst : list string)
    : result nat :=
  name <- of_option "string expected"
            match v, def with
            | LNil, Some d => Some d
            | LStr s, _ => Some s
            | LInt z, _ => Some (pretty z)
            | _, _ => None
            end ;;
  of_option "invalid option" (fst <$> list_find (fun x => x = name) lst).

Definition luaL_checkinteger (v : LuaVal) : result Z :=
  match v with LInt z => Ok z | _ => Err "number expected" end.

Definition luaL_checkstring (v : LuaVal) : result string :=
  match v with LStr s => Ok s | LInt z => Ok (pretty z) | _ => Err "string expected" end.

Definition luaL_checkboolean (v : LuaVal) : result bool :=
  match v with LBool b => Ok b | _ => Err "boolean expected" end.

(** BITFIELD_TEST and BITFIELD_IS *)
Definition bit_test (x m : Z) : bool := negb (Z.land x m =? 0).
Definition bit_is (x m : Z) : bool := Z.land x m =? m.

(** ** Modes (lmprof_state.h) *)

Definition LMPROF_MODE_NONE : Z := 0.
Definition LMPROF_MODE_TIME : Z := 1.
Definition LMPROF_MODE_INSTRUMENT : Z := 2.
Definition LMPROF_MODE_SAMPLE : Z := 4.
Definition LMPROF_MODE_MEMORY : Z := 8.
Definition LMPROF_MODE_TRACE : Z := 16.
Definition LMPROF_MODE_LINE : Z := 32.
Definition LMPROF_MODE_SINGLE_THREAD : Z := 64.
Definition LMPROF_MODE_EXT_CALLBACK : Z := 128.
Definition LMPROF_CALLBACK_MASK : Z := Z.lor LMPROF_MODE_TRACE LMPROF_MODE_EXT_CALLBACK.
Definition LMPROF_LUA_MODE_MASK : Z :=
  Z.lor LMPROF_MODE_TIME (Z.lor LMPROF_MODE_INSTRUMENT (Z.lor LMPROF_MODE_SAMPLE
    (Z.lor LMPROF_MODE_MEMORY LMPROF_MODE_TRACE))).

Definition lmprof_mode_strings : list string :=
  [""; "time"; "instrument"; "memory"; "trace"; "lines"; "sample"; "single_thread"].

Definition lmprof_mode_codes : list Z :=
  [LMPROF_MODE_NONE; LMPROF_MODE_TIME; LMPROF_MODE_INSTRUMENT; LMPROF_MODE_MEMORY;
   LMPROF_MODE_TRACE; LMPROF_MODE_LINE; LMPROF_MODE_SAMPLE; LMPROF_MODE_SINGLE_THREAD].

Definition mode_code (v : LuaVal) : result Z :=
  i <- luaL_checkoption v (Some "") lmprof_mode_strings ;;
  of_option "invalid option" (lmprof_mode_codes !! i).

(** NOT_ONLY_MODE *)
Definition not_only_mode (m mask : Z) : bool :=
  bit_test m mask && bit_test m (Z.land (Z.lnot mask) LMPROF_LUA_MODE_MASK).

(** The checks of lmprof_parsemode on the combined mode. *)
Definition sanitize_mode (mode : Z) : result Z :=
  if negb (bit_test mode LMPROF_LUA_MODE_MASK) then Err "Invalid profiler mode"
  else if not_only_mode mode LMPROF_MODE_TIME then
    Err "MODE_TIME cannot be paired with other modes"
  else if bit_is mode (Z.lor LMPROF_CALLBACK_MASK LMPROF_MODE_SAMPLE) &&
          negb (bit_test mode LMPROF_MODE_SINGLE_THREAD) then
    Err "trace + sample instrumentation is only configured for single thread profiling"
  else if bit_is mode (Z.lor LMPROF_MODE_SAMPLE LMPROF_MODE_MEMORY) &&
          negb (bit_test mode LMPROF_MODE_INSTRUMENT) then
    Err "memory mode cannot be enabled when in sampling mode"
  else if bit_is mode (Z.lor LMPROF_MODE_SAMPLE LMPROF_MODE_LINE) &&
          negb (bit_test mode LMPROF_MODE_INSTRUMENT) then
    Err "line mode cannot be enabled when in sampling mode"
  else Ok mode.

Fixpoint or_modes (acc : Z) (rest : list LuaVal) : result Z :=
  match rest with
  | [] => Ok acc
  | v :: rest' => c <- mode_code v ;; or_modes (Z.lor acc c) rest'
  end.

(** lmprof_parsemode over the arguments [index .. top]. *)
Definition lmprof_parsemode (args : list LuaVal) : result Z :=
  m0 <- mode_code (from_option id LNil (head args)) ;;
  m <- or_modes m0 (tail args) ;;
  sanitize_mode m.

(** ** Options (lmprof_state.h, lmprof.h) *)

Definition LMPROF_OPT_GC_DISABLE : Z := 1.
Definition LMPROF_OPT_CLOCK_INIT : Z := 2.
Definition LMPROF_OPT_CLOCK_MICRO : Z := 4.
Definition LMPROF_OPT_INSTRUCTION_COUNT : Z := 8.
Definition LMPROF_OPT_LOAD_STACK : Z := 16.
Definition LMPROF_OPT_STACK_MISMATCH : Z := 32.
Definition LMPROF_OPT_COMPRESS_GRAPH : Z := 64.
Definition LMPROF_OPT_REPORT_VERBOSE : Z := 4096.
Definition LMPROF_OPT_HASH_SIZE : Z := 262144.
Definition LMPROF_OPT_LINE_FREQUENCY : Z := 524288.
Definition LMPROF_OPT_TRACE_COUNTERS_FREQ : Z := 2097152.
Definition LMPROF_OPT_TRACE_IGNORE_YIELD : Z := 4194304.
Definition LMPROF_OPT_TRACE_PROCESS : Z := 8388608.
Definition LMPROF_OPT_TRACE_URL : Z := 16777216.
Definition LMPROF_OPT_TRACE_NAME : Z := 33554432.
Definition LMPROF_OPT_TRACE_DRAW_FRAME : Z := 67108864.
Definition LMPROF_OPT_TRACE_LAYOUT_SPLIT : Z := 134217728.
Definition LMPROF_OPT_TRACE_ABOUT_TRACING : Z := 268435456.
Definition LMPROF_OPT_TRACE_PAGELIMIT : Z := 536870912.
Definition LMPROF_OPT_TRACE_COMPRESS : Z := 1073741824.
Definition LMPROF_OPT_TRACE_THRESHOLD : Z := 2147483648.

(** LMPROF_OPT_DEFAULT (the build without LMPROF_MICRO...) *)
Definition LMPROF_OPT_DEFAULT : Z :=
  Z.lor LMPROF_OPT_CLOCK_INIT (Z.lor LMPROF_OPT_LOAD_STACK LMPROF_OPT_COMPRESS_GRAPH).

(** Keys of the library's registry subtable. *)
Definition LMPROF_FLAGS : Z := 2.
Definition LMPROF_THRESHOLD : Z := 3.
Definition LMPROF_HOOK_COUNT : Z := 4.
Definition LMPROF_HASHTABLE_SIZE : Z := 5.
Definition LMPROF_PROCESS : Z := 7.
Definition LMPROF_PROFILE_NAME : Z := 8.
Definition LMPROF_URL : Z := 9.
Definition LMPROF_PAGE_LIMIT : Z := 10.
Definition LMPROF_COUNTERS_FREQ : Z := 11.

Definition lmprof_option_strings : list string :=
  ["disable_gc"; "reinit_clock"; "micro"; "instructions"; "load_stack"; "mismatch";
   "verbose"; "line_freq"; "hash_size"; "counter_freq"; "ignore_yield"; "process";
   "url"; "name"; "draw_frame"; "split"; "tracing"; "page_limit"; "compress"; "threshold"].

Definition lmprof_option_codes : list Z :=
  [LMPROF_OPT_GC_DISABLE; LMPROF_OPT_CLOCK_INIT; LMPROF_OPT_CLOCK_MICRO;
   LMPROF_OPT_INSTRUCTION_COUNT; LMPROF_OPT_LOAD_STACK; LMPROF_OPT_STACK_MISMATCH;
   LMPROF_OPT_REPORT_VERBOSE; LMPROF_OPT_LINE_FREQUENCY; LMPROF_OPT_HASH_SIZE;
   LMPROF_OPT_TRACE_COUNTERS_FREQ; LMPROF_OPT_TRACE_IGNORE_YIELD; LMPROF_OPT_TRACE_PROCESS;
   LMPROF_OPT_TRACE_URL; LMPROF_OPT_TRACE_NAME; LMPROF_OPT_TRACE_DRAW_FRAME;
   LMPROF_OPT_TRACE_LAYOUT_SPLIT; LMPROF_OPT_TRACE_ABOUT_TRACING; LMPROF_OPT_TRACE_PAGELIMIT;
   LMPROF_OPT_TRACE_COMPRESS; LMPROF_OPT_TRACE_THRESHOLD].

(** The boolean options of lmprof_set_option / lmprof_get_option. *)
Definition bool_options : list Z :=
  [LMPROF_OPT_GC_DISABLE; LMPROF_OPT_CLOCK_INIT; LMPROF_OPT_CLOCK_MICRO;
   LMPROF_OPT_LOAD_STACK; LMPROF_OPT_STACK_MISMATCH; LMPROF_OPT_REPORT_VERBOSE;
   LMPROF_OPT_LINE_FREQUENCY; LMPROF_OPT_TRACE_IGNORE_YIELD; LMPROF_OPT_TRACE_DRAW_FRAME;
   LMPROF_OPT_TRACE_LAYOUT_SPLIT; LMPROF_OPT_TRACE_ABOUT_TRACING; LMPROF_OPT_TRACE_COMPRESS].

(** The registry subtable of the library. *)
Abbreviation registry := (gmap Z LuaVal).

(** lmprof_getlibi: luaL_optinteger on the stored value. *)
Definition lmprof_getlibi (reg : registry) (key opt : Z) : result Z :=
  match reg !! key with
  | None | Some LNil => Ok opt
  | Some (LInt z) => Ok z
  | Some _ => Err "number expected"
  end.

(** lmprof_getlibfield: the stored value, nil when absent. *)
Definition lmprof_getlibfield (reg : registry) (key : Z) : LuaVal :=
  from_option id LNil (reg !! key).

Definition option_code (v : LuaVal) : result Z :=
  i <- luaL_checkoption v None lmprof_option_strings ;;
  of_option "invalid option" (lmprof_option_codes !! i).

(** lmprof_set_option(k, v) *)
Definition lmprof_set_option (args : list LuaVal) (reg : registry) : result registry :=
  opt <- option_code (arg args 1) ;;
  if bool_decide (opt ∈ bool_options) then
    b <- luaL_checkboolean (arg args 2) ;;
    conf <- lmprof_getlibi reg LMPROF_FLAGS LMPROF_OPT_DEFAULT ;;
    Ok (<[LMPROF_FLAGS := LInt (if b then Z.lor conf opt else Z.land conf (Z.lnot opt))]> reg)
  else if decide (opt = LMPROF_OPT_INSTRUCTION_COUNT) then
    count <- luaL_checkinteger (arg args 2) ;;
    if decide (count > 0) then Ok (<[LMPROF_HOOK_COUNT := LInt count]> reg)
    else Err "instruction count less-than/equal to zero"
  else if decide (opt = LMPROF_OPT_HASH_SIZE) then
    count <- luaL_checkinteger (arg args 2) ;;
    if decide (1 <= count <= 1031) then Ok (<[LMPROF_HASHTABLE_SIZE := LInt count]> reg)
    else Err "hashtable size is less-than/equal to zero"
  else if decide (opt = LMPROF_OPT_TRACE_PROCESS) then
    p <- luaL_checkinteger (arg args 2) ;; Ok (<[LMPROF_PROCESS := LInt p]> reg)
  else if decide (opt = LMPROF_OPT_TRACE_NAME) then
    s <- luaL_checkstring (arg args 2) ;; Ok (<[LMPROF_PROFILE_NAME := LStr s]> reg)
  else if decide (opt = LMPROF_OPT_TRACE_URL) then
    s <- luaL_checkstring (arg args 2) ;; Ok (<[LMPROF_URL := LStr s]> reg)
  else if decide (opt = LMPROF_OPT_TRACE_PAGELIMIT) then
    n <- luaL_checkinteger (arg args 2) ;; Ok (<[LMPROF_PAGE_LIMIT := LInt n]> reg)
  else if decide (opt = LMPROF_OPT_TRACE_COUNTERS_FREQ) then
    n <- luaL_checkinteger (arg args 2) ;; Ok (<[LMPROF_COUNTERS_FREQ := LInt n]> reg)
  else if decide (opt = LMPROF_OPT_TRACE_THRESHOLD) then
    t <- luaL_checkinteger (arg args 2) ;;
    if decide (0 <= t <= 1024 * 1024) then Ok (<[LMPROF_THRESHOLD := LInt t]> reg)
    else Err "threshold not within [0, 1048576]"
  else Err "Invalid option".

(** lmprof_get_option(k): the value it returns ([None]: no result). *)
Definition lmprof_get_option (args : list LuaVal) (reg : registry) : result (option LuaVal) :=
  opt <- option_code (arg args 1) ;;
  if bool_decide (opt ∈ bool_options) then
    flags <- lmprof_getlibi reg LMPROF_FLAGS 0 ;; Ok (Some (LBool (bit_test flags opt)))
  else if decide (opt = LMPROF_OPT_INSTRUCTION_COUNT) then
    Ok (Some (lmprof_getlibfield reg LMPROF_HOOK_COUNT))
  else if decide (opt = LMPROF_OPT_HASH_SIZE) then
    Ok (Some (lmprof_getlibfield reg LMPROF_HOOK_COUNT))
  else if decide (opt = LMPROF_OPT_TRACE_PROCESS) then
    Ok (Some (lmprof_getlibfield reg LMPROF_PROCESS))
  else if decide (opt = LMPROF_OPT_TRACE_URL) then
    Ok (Some (lmprof_getlibfield reg LMPROF_URL))
  else if decide (opt = LMPROF_OPT_TRACE_NAME) then
    Ok (Some (lmprof_getlibfield reg LMPROF_PROFILE_NAME))
  else if decide (opt = LMPROF_OPT_TRACE_PAGELIMIT) then
    Ok (Some (lmprof_getlibfield reg LMPROF_PAGE_LIMIT))
  else if decide (opt = LMPROF_OPT_TRACE_THRESHOLD) then
    Ok (Some (lmprof_getlibfield reg LMPROF_THRESHOLD))
  else if decide (opt = LMPROF_OPT_TRACE_COUNTERS_FREQ) then
    Ok (Some (lmprof_getlibfield reg LMPROF_COUNTERS_FREQ))
  else Ok None.

(** * Lemmas *)

Lemma option_code_index o c :
  option_code (LStr o) = Ok c ->
  exists i, lmprof_option_strings !! i = Some o /\ lmprof_option_codes !! i = Some c.
Proof.
  unfold option_code, luaL_checkoption. cbn [bind of_option].
  destruct (list_find (fun x => x = o) lmprof_option_strings) as [[i x]|] eqn:E;
    cbn; [|discriminate].
  apply list_find_Some in E as (Hi & -> & _).
  destruct (lmprof_option_codes !! i) eqn:Hc; cbn; [intros [= <-]; eauto|discriminate].
Qed.

(** Only the option named so has the code of [hash_size], [name] or
    [url]. *)
Lemma option_code_names o c :
  option_code (LStr o) = Ok c ->
  (c = LMPROF_OPT_HASH_SIZE -> o = "hash_size") /\
  (c = LMPROF_OPT_TRACE_NAME -> o = "name") /\ (c = LMPROF_OPT_TRACE_URL -> o = "url").
Proof.
  intros (i & Hi & Hc)%option_code_index.
  do 20 (destruct i as [|i]; [cbn in Hi, Hc; simplify_eq; split_and!; intros Heq;
    first [done | vm_compute in Heq; discriminate] |]).
  done.
Qed.

Lemma bool_options_nonzero c : c ∈ bool_options -> c <> 0.
Proof. intros Hc. repeat (apply elem_of_cons in Hc as [->|Hc]; [discriminate|]). by apply elem_of_nil in Hc. Qed.

Lemma bit_test_set c o : o <> 0 -> bit_test (Z.lor c o) o = true.
Proof.
  intros Ho. unfold bit_test. rewrite Z.land_lor_distr_l, Z.land_diag.
  apply negb_true_iff, Z.eqb_neq. intros Hz. apply Z.lor_eq_0_iff in Hz as [_ Hz]. done.
Qed.

Lemma bit_test_clear c o : bit_test (Z.land c (Z.lnot o)) o = false.
Proof.
  unfold bit_test. rewrite <- Z.land_assoc, (Z.land_comm (Z.lnot o)), Z.land_lnot_diag,
    Z.land_0_r. done.
Qed.

(** Setting an option and reading it back gives the value set, for every
    option but [hash_size] (the value of a [name] or [url] must be given
    as a string: Lua would store the string form of a number). *)
Theorem lmprof_option_roundtrip o v reg reg' :
  lmprof_set_option [LStr o; v] reg = Ok reg' -> o <> "hash_size" ->
  (forall z, v = LInt z -> o <> "name" /\ o <> "url") ->
  lmprof_get_option [LStr o] reg' = Ok (Some v).
Proof.
  unfold lmprof_set_option, lmprof_get_option. change (arg _ 1) with (LStr o).
  change (arg [LStr o; v] 2) with v.
  destruct (option_code (LStr o)) as [c|] eqn:Hc; cbn; [|discriminate].
  destruct (option_code_names o c Hc) as (Hh & Hn & Hu). intros Hset Ho Hv.
  case_bool_decide as Hb.
  - destruct v as [|b| |]; cbn in Hset; try discriminate.
    destruct (lmprof_getlibi reg _ _) as [conf|]; cbn in Hset; [|discriminate].
    injection Hset as <-. unfold lmprof_getlibi. rewrite lookup_insert_eq. cbn.
    destruct b; [rewrite bit_test_set by (apply bool_options_nonzero, Hb) | rewrite bit_test_clear];
      done.
  - unfold LMPROF_OPT_INSTRUCTION_COUNT, LMPROF_OPT_HASH_SIZE, LMPROF_OPT_TRACE_PROCESS,
      LMPROF_OPT_TRACE_NAME, LMPROF_OPT_TRACE_URL, LMPROF_OPT_TRACE_PAGELIMIT,
      LMPROF_OPT_TRACE_COUNTERS_FREQ, LMPROF_OPT_TRACE_THRESHOLD in *.
    repeat case_decide; subst; try lia; try discriminate;
      destruct v as [| |z|]; cbn in Hset; try discriminate;
      repeat case_decide; try discriminate; injection Hset as <-;
      unfold lmprof_getlibfield; rewrite ?lookup_insert_eq; try done.
    + by destruct Ho, Hh.
    + by destruct (Hv z eq_refl) as [[] _]; apply Hn.
    + by destruct (Hv z eq_refl) as [_ []]; apply Hu.
Qed.

(** lmprof_get_option("hash_size") reads the registry slot of the
    instruction count: after a successful lmprof_set_option("hash_size", n)
    the value read back is the instruction count, not [n]. *)
Theorem lmprof_get_option_hash_size n reg reg' :
  lmprof_set_option [LStr "hash_size"; LInt n] reg = Ok reg' ->
  lmprof_get_option [LStr "hash_size"] reg' = Ok (Some (lmprof_getlibfield reg LMPROF_HOOK_COUNT)) /\
  reg' !! LMPROF_HASHTABLE_SIZE = Some (LInt n).
Proof.
  unfold lmprof_set_option, lmprof_get_option. change (arg _ 1) with (LStr "hash_size").
  change (arg [_; LInt n] 2) with (LInt n).
  assert (Hc : option_code (LStr "hash_size") = Ok LMPROF_OPT_HASH_SIZE) by reflexivity.
  rewrite Hc. cbn [bind luaL_checkinteger].
  rewrite bool_decide_eq_false_2, decide_False, decide_True
    by (first [reflexivity | apply (bool_decide_unpack _); vm_compute; reflexivity]).
  case_decide; [|discriminate]. intros [= <-]. split; [|apply lookup_insert_eq].
  unfold lmprof_getlibfield. rewrite lookup_insert_ne by discriminate. done.
Qed.

(** The boolean options read back with a default of 0 while they are
    written (and read by lmprof_initialize_state) with a default of
    LMPROF_OPT_DEFAULT: before any lmprof_set_option, [load_stack] reads
    false although it is on by default. *)
Theorem lmprof_get_option_default :
  lmprof_get_option [LStr "load_stack"] ∅ = Ok (Some (LBool false)) /\
  bit_test LMPROF_OPT_DEFAULT LMPROF_OPT_LOAD_STACK = true.
Proof. split; reflexivity. Qed.

(** ** Mode parsing *)

Definition code_of (v : LuaVal) : Z := match mode_code v with Ok c => c | Err _ => 0 end.

Lemma or_modes_Ok acc l m :
  or_modes acc l = Ok m <->
  (forall v, v ∈ l -> exists c, mode_code v = Ok c) /\
  m = Z.lor acc (foldr Z.lor 0 (map code_of l)).
Proof.
  revert acc. induction l as [|v l IH]; intros acc; cbn.
  - rewrite Z.lor_0_r. split; [intros [= <-]|intros [_ ->]]; [split; [|done]|done].
    intros ? Hv. by apply elem_of_nil in Hv.
  - unfold code_of at 1. destruct (mode_code v) as [c|e] eqn:Hv; cbn.
    + rewrite IH, Z.lor_assoc. split; intros [Hall Hm]; split; try done.
      * intros w [->|Hw]%elem_of_cons; eauto.
      * intros w Hw. apply Hall. by apply elem_of_cons; right.
    + split; [discriminate|]. intros [Hall _].
      destruct (Hall v) as [c Hc]; [apply elem_of_cons; auto|congruence].
Qed.

Lemma foldr_lor_perm (l l' : list Z) : l ≡ₚ l' -> foldr Z.lor 0 l = foldr Z.lor 0 l'.
Proof.
  induction 1; cbn; try congruence.
  rewrite !Z.lor_assoc, (Z.lor_comm y x). done.
Qed.

Lemma lmprof_parsemode_or args :
  args <> [] -> lmprof_parsemode args = (m <- or_modes 0 args ;; sanitize_mode m).
Proof.
  destruct args as [|v rest]; [done|]. intros _. unfold lmprof_parsemode. cbn.
  destruct (mode_code v); cbn; [rewrite Z.lor_0_l|]; done.
Qed.

(** The order of the mode strings does not matter: a permutation of an
    accepted argument list is accepted with the same mode. *)
Theorem lmprof_parsemode_perm args args' m :
  args ≡ₚ args' -> lmprof_parsemode args = Ok m -> lmprof_parsemode args' = Ok m.
Proof.
  intros Hp. destruct args as [|v rest].
  { apply Permutation_nil_l in Hp. subst. done. }
  assert (args' <> []) by (intros ->; apply Permutation_nil_r in Hp; done).
  rewrite !lmprof_parsemode_or by done.
  destruct (or_modes 0 (v :: rest)) as [m0|] eqn:Ho; cbn; [|discriminate].
  apply or_modes_Ok in Ho as [Hall ->].
  assert (Ho' : or_modes 0 args' = Ok (Z.lor 0 (foldr Z.lor 0 (map code_of (v :: rest))))).
  { apply or_modes_Ok. split.
    - intros w Hw. apply Hall. rewrite Hp. done.
    - rewrite (foldr_lor_perm (map code_of (v :: rest)) (map code_of args')); [done|].
      by apply Permutation_map. }
  rewrite Ho'. done.
Qed.

Ltac unfold_modes := unfold LMPROF_MODE_NONE, LMPROF_MODE_TIME, LMPROF_MODE_INSTRUMENT,
  LMPROF_MODE_SAMPLE, LMPROF_MODE_MEMORY, LMPROF_MODE_TRACE, LMPROF_MODE_LINE,
  LMPROF_MODE_SINGLE_THREAD.

Lemma mode_code_range v c : mode_code v = Ok c -> 0 <= c < 128.
Proof.
  unfold mode_code. destruct (luaL_checkoption _ _ _) as [i|]; cbn; [|discriminate].
  destruct (lmprof_mode_codes !! i) eqn:Hi; cbn; [intros [= <-]|discriminate].
  do 8 (destruct i as [|i]; [cbn in Hi; injection Hi as <-; unfold_modes; lia|]).
  done.
Qed.

Lemma or_modes_range acc l m :
  0 <= acc < 128 -> or_modes acc l = Ok m -> 0 <= m < 128.
Proof.
  revert acc. induction l as [|v l IH]; intros acc Hacc; cbn; [congruence|].
  destruct (mode_code v) as [c|] eqn:Hc; cbn; [|discriminate].
  apply IH. change 128 with (2 ^ 7). apply lor_lt_pow2; [lia|done|].
  eapply mode_code_range; eauto.
Qed.

Lemma lmprof_parsemode_range args m :
  lmprof_parsemode args = Ok m -> exists m0, 0 <= m0 < 128 /\ sanitize_mode m0 = Ok m.
Proof.
  unfold lmprof_parsemode. destruct (mode_code _) as [m0|] eqn:H0; cbn; [|discriminate].
  destruct (or_modes m0 _) as [m1|] eqn:H1; cbn; [|discriminate].
  intros Hs. exists m1. split; [|done].
  eapply or_modes_range; [eapply mode_code_range; eauto | exact H1].
Qed.

(** The properties of an accepted mode, as a boolean. *)
Definition mode_sound (m : Z) : bool :=
  bit_test m LMPROF_LUA_MODE_MASK &&
  implb (bit_test m LMPROF_MODE_TIME)
        (negb (bit_test m (Z.lor LMPROF_MODE_INSTRUMENT (Z.lor LMPROF_MODE_SAMPLE
                 (Z.lor LMPROF_MODE_MEMORY LMPROF_MODE_TRACE))))) &&
  implb (bit_test m LMPROF_MODE_SAMPLE && negb (bit_test m LMPROF_MODE_INSTRUMENT))
        (negb (bit_test m LMPROF_MODE_MEMORY) && negb (bit_test m LMPROF_MODE_LINE)).

Definition TRACE_SAMPLE_MSG : string :=
  "trace + sample instrumentation is only configured for single thread profiling".

(** The outcome of the checks on one combined mode below 2^7. *)
Definition sanitize_ok (m : Z) : bool :=
  match sanitize_mode m with
  | Ok m' => bool_decide (m' = m) && mode_sound m
  | Err e => negb (bool_decide (e = TRACE_SAMPLE_MSG))
  end.

Lemma mode_code_err v e :
  mode_code v = Err e -> e = "string expected" \/ e = "invalid option".
Proof.
  unfold mode_code, luaL_checkoption, of_option, bind. repeat case_match; intros; simplify_eq; auto.
Qed.

Lemma or_modes_err acc l e :
  or_modes acc l = Err e -> e = "string expected" \/ e = "invalid option".
Proof.
  revert acc. induction l as [|v l IH]; intros acc; cbn; [discriminate|].
  destruct (mode_code v) eqn:Hv; cbn; [apply IH|]. intros [= <-]. eapply mode_code_err; eauto.
Qed.

Lemma sanitize_ok_all m : 0 <= m < 128 -> sanitize_ok m = true.
Proof.
  intros Hm.
  assert (Hall : forallb (fun n => sanitize_ok (Z.of_nat n)) (seq 0 128) = true)
    by (vm_compute; reflexivity).
  rewrite forallb_forall in Hall. rewrite <- (Z2Nat.id m) by lia.
  apply Hall, in_seq. lia.
Qed.

(** C37: Every mode lmprof_parsemode accepts has a Lua mode, has TIME alone
    when TIME is set, and, sampling without instrumentation, neither
    memory nor lines; it never has the EXT_CALLBACK bit. *)
Theorem lmprof_parsemode_sound args m :
  lmprof_parsemode args = Ok m -> mode_sound m = true /\ 0 <= m < 128.
Proof.
  intros (m0 & Hr & Hs)%lmprof_parsemode_range.
  pose proof (sanitize_ok_all m0 Hr) as Hok. unfold sanitize_ok in Hok. rewrite Hs in Hok.
  apply andb_true_iff in Hok as [He Hm]. apply bool_decide_eq_true in He. subst. done.
Qed.

(** The check "trace + sample only for single-thread profiling" can never
    fire: it requires the EXT_CALLBACK bit, which no mode string sets.
    The specification requires single_thread whenever trace and sample
    are both given. *)
Theorem lmprof_parsemode_trace_sample args : lmprof_parsemode args <> Err TRACE_SAMPLE_MSG.
Proof.
  unfold lmprof_parsemode. destruct (mode_code _) as [m0|e] eqn:H0; cbn.
  { destruct (or_modes m0 _) as [m1|e] eqn:H1; cbn.
    2: { apply or_modes_err in H1 as [-> | ->]; discriminate. }
  pose proof (sanitize_ok_all m1 (or_modes_range _ _ _ (mode_code_range _ _ H0) H1)) as Hok.
  unfold sanitize_ok in Hok. destruct (sanitize_mode m1); [discriminate|].
  intros [= ->]. rewrite bool_decide_true in Hok by done. discriminate. }
  apply mode_code_err in H0 as [-> | ->]; discriminate.
Qed.

(** * Witnesses *)

Lemma lmprof_option_roundtrip_witness :
  lmprof_get_option [LStr "instructions"]
    (<[LMPROF_HOOK_COUNT := LInt 100]> ∅) = Ok (Some (LInt 100)).
Proof.
  apply (lmprof_option_roundtrip "instructions" (LInt 100) ∅); [reflexivity | discriminate |].
  intros z _. split; discriminate.
Defined.

Lemma lmprof_get_option_hash_size_witness :
  lmprof_get_option [LStr "hash_size"] (<[LMPROF_HASHTABLE_SIZE := LInt 100]> ∅) =
    Ok (Some (lmprof_getlibfield ∅ LMPROF_HOOK_COUNT)) /\
  (<[LMPROF_HASHTABLE_SIZE := LInt 100]> ∅ : registry) !! LMPROF_HASHTABLE_SIZE = Some (LInt 100).
Proof. apply lmprof_get_option_hash_size. reflexivity. Defined.

Lemma lmprof_parsemode_perm_witness :
  lmprof_parsemode [LStr "memory"; LStr "instrument"] = Ok 10.
Proof.
  apply (lmprof_parsemode_perm [LStr "instrument"; LStr "memory"]);
    [apply Permutation_swap | reflexivity].
Defined.

Lemma lmprof_parsemode_sound_witness :
  mode_sound 20 = true /\ 0 <= 20 < 128.
Proof. apply (lmprof_parsemode_sound [LStr "trace"; LStr "sample"]). reflexivity. Defined.

End Config.
