(* ===== verification/StateApi.v ===== *)
(** * The profiler object's Lua methods: state, mode and options

    A profiler created with lmprof.create() is a userdata (lmprof_State)
    whose metatable exposes, among others, getstate, getmode, setmode,
    getoption and setoption (state_getstate ... state_setoption,
    lmprof_lib.c).  Unlike the library functions of Config.v, which store
    defaults in the registry, these methods read and write the fields of
    the profiler itself: [st->state], [st->mode], [st->conf] and the
    cached [st->i] values.

    The model reuses the Lua values, the argument checks and the error
    monad of Config.v.  Arguments are given with the indices of the C
    code: index 1 is the profiler itself (the userdata check of
    luaL_checkudata is not modelled), the option name is index 2, its
    value index 3.  The narrowing [l_cast(int, count)] of the
    instruction count is the two's-complement wrap of the compilers the
    code targets. *)

From Stdlib Require Import String.
From stdpp Require Import strings pretty.
From S2P Require Import Common Hash Stack Config.
Import Config Hash.

Module StateApi.

Open Scope config_scope.

(** The fields of lmprof_State the methods read and write. *)
Record PState := mkP {
  p_state : Z;              (** st->state *)
  p_mode : Z;               (** st->mode *)
  p_conf : Z;               (** st->conf *)
  p_mask_count : Z;         (** st->i.mask_count (an int) *)
  p_hash_size : Z;          (** st->i.hash_size *)
  p_pid : Z;                (** st->thread.mainproc.pid *)
  p_url : option string;    (** st->i.url, NULL as None *)
  p_name : option string;   (** st->i.name *)
  p_pageLimit : Z;          (** st->i.pageLimit *)
  p_counterFrequency : Z;   (** st->i.counterFrequency *)
  p_event_threshold : Z;    (** st->i.event_threshold *)
}.

Definition set_mode (st : PState) (m : Z) : PState :=
  mkP (p_state st) m (p_conf st) (p_mask_count st) (p_hash_size st) (p_pid st) (p_url st)
      (p_name st) (p_pageLimit st) (p_counterFrequency st) (p_event_threshold st).
Definition set_conf (st : PState) (c : Z) : PState :=
  mkP (p_state st) (p_mode st) c (p_mask_count st) (p_hash_size st) (p_pid st) (p_url st)
      (p_name st) (p_pageLimit st) (p_counterFrequency st) (p_event_threshold st).
Definition set_mask_count (st : PState) (n : Z) : PState :=
  mkP (p_state st) (p_mode st) (p_conf st) n (p_hash_size st) (p_pid st) (p_url st)
      (p_name st) (p_pageLimit st) (p_counterFrequency st) (p_event_threshold st).
Definition set_hash_size (st : PState) (n : Z) : PState :=
  mkP (p_state st) (p_mode st) (p_conf st) (p_mask_count st) n (p_pid st) (p_url st)
      (p_name st) (p_pageLimit st) (p_counterFrequency st) (p_event_threshold st).
Definition set_pid (st : PState) (n : Z) : PState :=
  mkP (p_state st) (p_mode st) (p_conf st) (p_mask_count st) (p_hash_size st) n (p_url st)
      (p_name st) (p_pageLimit st) (p_counterFrequency st) (p_event_threshold st).
Definition set_url (st : PState) (u : option string) : PState :=
  mkP (p_state st) (p_mode st) (p_conf st) (p_mask_count st) (p_hash_size st) (p_pid st) u
      (p_name st) (p_pageLimit st) (p_counterFrequency st) (p_event_threshold st).
Definition set_name (st : PState) (u : option string) : PState :=
  mkP (p_state st) (p_mode st) (p_conf st) (p_mask_count st) (p_hash_size st) (p_pid st)
      (p_url st) u (p_pageLimit st) (p_counterFrequency st) (p_event_threshold st).
Definition set_pageLimit (st : PState) (n : Z) : PState :=
  mkP (p_state st) (p_mode st) (p_conf st) (p_mask_count st) (p_hash_size st) (p_pid st)
      (p_url st) (p_name st) n (p_counterFrequency st) (p_event_threshold st).
Definition set_counterFrequency (st : PState) (n : Z) : PState :=
  mkP (p_state st) (p_mode st) (p_conf st) (p_mask_count st) (p_hash_size st) (p_pid st)
      (p_url st) (p_name st) (p_pageLimit st) n (p_event_threshold st).
Definition set_event_threshold (st : PState) (n : Z) : PState :=
  mkP (p_state st) (p_mode st) (p_conf st) (p_mask_count st) (p_hash_size st) (p_pid st)
      (p_url st) (p_name st) (p_pageLimit st) (p_counterFrequency st) n.

(** The state flags (lmprof_state.h) and their names (lmprof.c). *)
Definition LMPROF_STATE_PERSISTENT : Z := 1.
Definition LMPROF_STATE_RUNNING : Z := 4.
Definition LMPROF_STATE_ERROR : Z := 8.
Definition LMPROF_STATE_IGNORE_ALLOC : Z := 16.
Definition LMPROF_STATE_IGNORE_CALL : Z := 32.
Definition LMPROF_STATE_GC_WAS_RUNNING : Z := 64.

Definition lmprof_state_strings : list string :=
  ["persistent"; "running"; "error"; "ignore_alloc"; "ignore_next"; "restore_gc"].

Definition lmprof_state_codes : list Z :=
  [LMPROF_STATE_PERSISTENT; LMPROF_STATE_RUNNING; LMPROF_STATE_ERROR;
   LMPROF_STATE_IGNORE_ALLOC; LMPROF_STATE_IGNORE_CALL; LMPROF_STATE_GC_WAS_RUNNING].

(** LMPROF_OPT_REPORT_STRING (lmprof_state.h). *)
Definition LMPROF_OPT_REPORT_STRING : Z := 8192.

(** The boolean options of state_getoption and state_setoption.  The
    case label LMPROF_OPT_GC_COUNT_INIT names no macro of the sources
    and is left out. *)
Definition state_bool_options : list Z :=
  [LMPROF_OPT_GC_DISABLE; LMPROF_OPT_CLOCK_INIT; LMPROF_OPT_CLOCK_MICRO;
   LMPROF_OPT_LOAD_STACK; LMPROF_OPT_STACK_MISMATCH; LMPROF_OPT_COMPRESS_GRAPH;
   LMPROF_OPT_REPORT_VERBOSE; LMPROF_OPT_REPORT_STRING; LMPROF_OPT_LINE_FREQUENCY;
   LMPROF_OPT_TRACE_IGNORE_YIELD; LMPROF_OPT_TRACE_DRAW_FRAME; LMPROF_OPT_TRACE_LAYOUT_SPLIT;
   LMPROF_OPT_TRACE_ABOUT_TRACING; LMPROF_OPT_TRACE_COMPRESS].

(** [l_cast(int, x)]: the low 32 bits, as a signed int. *)
Definition to_int (z : Z) : Z :=
  let w := z mod 2 ^ 32 in if decide (w < 2 ^ 31) then w else w - 2 ^ 32.

(** lua_tostring: strings and (converted) numbers, NULL otherwise. *)
Definition lua_tostring (v : LuaVal) : option string :=
  match v with LStr s => Some s | LInt z => Some (pretty z) | _ => None end.

(** state_get_valid *)
Definition state_get_valid (st : PState) : result PState :=
  if bit_test (p_state st) LMPROF_STATE_ERROR
  then Err "profiler in an invalid state." else Ok st.

(** state_getstate(self, name) *)
Definition state_getstate (args : list LuaVal) (st : PState) : result bool :=
  i <- luaL_checkoption (arg args 2) None lmprof_state_strings ;;
  flags <- of_option "invalid option" (lmprof_state_codes !! i) ;;
  Ok (bit_test (p_state st) flags).

(** state_getmode(self): the names of the modes set, in table order. *)
Definition state_getmode (st : PState) : list string :=
  fst <$> filter (fun sc => bit_test (p_mode st) sc.2 = true)
                 (zip lmprof_mode_strings lmprof_mode_codes).

(** state_setmode(self, mode, ...): the codes of the names are or-ed
    together and stored. *)
Definition state_setmode (args : list LuaVal) (st : PState) : result PState :=
  st <- state_get_valid st ;;
  m0 <- mode_code (arg args 2) ;;
  m <- or_modes m0 (drop 2 args) ;;
  Ok (set_mode st m).

(** state_getoption(self, name): the value pushed. *)
Definition state_getoption (args : list LuaVal) (st : PState) : result LuaVal :=
  opt <- option_code (arg args 2) ;;
  Ok (if bool_decide (opt ∈ state_bool_options) then LBool (bit_test (p_conf st) opt)
      else if decide (opt = LMPROF_OPT_INSTRUCTION_COUNT) then LInt (p_mask_count st)
      else if decide (opt = LMPROF_OPT_HASH_SIZE) then LInt (p_hash_size st)
      else if decide (opt = LMPROF_OPT_TRACE_PROCESS) then LInt (p_pid st)
      else if decide (opt = LMPROF_OPT_TRACE_URL) then LStr (default EmptyString (p_url st))
      else if decide (opt = LMPROF_OPT_TRACE_NAME) then LStr (default EmptyString (p_name st))
      else if decide (opt = LMPROF_OPT_TRACE_PAGELIMIT) then LInt (p_pageLimit st)
      else if decide (opt = LMPROF_OPT_TRACE_COUNTERS_FREQ) then LInt (p_counterFrequency st)
      else if decide (opt = LMPROF_OPT_TRACE_THRESHOLD) then LInt (p_event_threshold st)
      else LNil).

(** state_setoption(self, name, value).  The page limit goes through
    [size_t] and back into a lua_Integer, which is the identity. *)
Definition state_setoption (args : list LuaVal) (st : PState) : result PState :=
  st <- state_get_valid st ;;
  opt <- option_code (arg args 2) ;;
  if bool_decide (opt ∈ state_bool_options) then
    b <- luaL_checkboolean (arg args 3) ;;
    Ok (set_conf st (if b then Z.lor (p_conf st) opt else Z.land (p_conf st) (Z.lnot opt)))
  else if decide (opt = LMPROF_OPT_INSTRUCTION_COUNT) then
    count <- luaL_checkinteger (arg args 3) ;;
    if decide (count > 0) then Ok (set_mask_count st (to_int count))
    else Err "instruction count less-than/equal to zero"
  else if decide (opt = LMPROF_OPT_HASH_SIZE) then
    count <- luaL_checkinteger (arg args 3) ;;
    if decide (1 <= count <= LMPROF_HASH_MAXSIZE) then Ok (set_hash_size st count)
    else Err "hashtable size is less-than/equal to zero"
  else if decide (opt = LMPROF_OPT_TRACE_PROCESS) then
    p <- luaL_checkinteger (arg args 3) ;; Ok (set_pid st p)
  else if decide (opt = LMPROF_OPT_TRACE_URL) then
    Ok (set_url st (lua_tostring (arg args 3)))
  else if decide (opt = LMPROF_OPT_TRACE_NAME) then
    Ok (set_name st (lua_tostring (arg args 3)))
  else if decide (opt = LMPROF_OPT_TRACE_PAGELIMIT) then
    n <- luaL_checkinteger (arg args 3) ;; Ok (set_pageLimit st n)
  else if decide (opt = LMPROF_OPT_TRACE_COUNTERS_FREQ) then
    n <- luaL_checkinteger (arg args 3) ;; Ok (set_counterFrequency st n)
  else if decide (opt = LMPROF_OPT_TRACE_THRESHOLD) then
    (** [luaL_checkinteger(L, 2)]: the option's name, not its value *)
    t <- luaL_checkinteger (arg args 2) ;;
    if decide (0 <= t <= 1024 * 1024) then Ok (set_event_threshold st t)
    else Err "threshold not within [0, 1048576]"
  else Ok st.

(** ** Creating a profiler *)

(** TRACE_EVENT_COUNTER_FREQ and TRACE_EVENT_DEFAULT_THRESHOLD (lmprof.h). *)
Definition TRACE_EVENT_COUNTER_FREQ : Z := 20.
Definition TRACE_EVENT_DEFAULT_THRESHOLD : Z := 1.

(** [l_cast(uint32_t, x)] *)
Definition to_uint32 (z : Z) : Z := Z.land z (Z.ones 32).

(** [lua_type(L, -1) == LUA_TSTRING ? lua_tostring(L, -1) : NULL] *)
Definition string_field (v : LuaVal) : option string :=
  match v with LStr s => Some s | _ => None end.

(** lmprof_initialize_state with a Lua state: the profiler's fields are
    reset, then the defaults stored by lmprof.set_option are read from
    the registry (lmprof_getlibi raises on a non-integer slot), with the
    casts of the C fields; a single-threaded profiler drops the memory
    mode.  The hook, allocator, thread and coroutine.yield fields are
    not part of the model. *)
Definition lmprof_initialize_state (reg : registry) (mode : Z) : result PState :=
  let mode' := if bit_test mode LMPROF_MODE_SINGLE_THREAD
               then Z.land mode (Z.lnot LMPROF_MODE_MEMORY) else mode in
  conf <- lmprof_getlibi reg LMPROF_FLAGS LMPROF_OPT_DEFAULT ;;
  pid <- lmprof_getlibi reg LMPROF_PROCESS Stack.LMPROF_PROCESS_MAIN ;;
  pageLimit <- lmprof_getlibi reg LMPROF_PAGE_LIMIT 0 ;;
  freq <- lmprof_getlibi reg LMPROF_COUNTERS_FREQ TRACE_EVENT_COUNTER_FREQ ;;
  hs <- lmprof_getlibi reg LMPROF_HASHTABLE_SIZE LMPROF_HASH_SIZE ;;
  thr <- lmprof_getlibi reg LMPROF_THRESHOLD TRACE_EVENT_DEFAULT_THRESHOLD ;;
  mc <- lmprof_getlibi reg LMPROF_HOOK_COUNT 0 ;;
  Ok (mkP LMPROF_STATE_IGNORE_CALL mode' (to_uint32 conf) (to_int mc) (wrap hs) pid
          (string_field (lmprof_getlibfield reg LMPROF_URL))
          (string_field (lmprof_getlibfield reg LMPROF_PROFILE_NAME))
          pageLimit freq (wrap thr)).

(** * Lemmas *)

Lemma option_code_in v c : option_code v = Ok c -> c ∈ lmprof_option_codes.
Proof.
  unfold option_code. destruct (luaL_checkoption _ _ _) as [i|]; cbn; [|discriminate].
  destruct (lmprof_option_codes !! i) eqn:E; cbn; [intros [= <-]|discriminate].
  eapply list_elem_of_lookup_2; eauto.
Qed.

(** Only the option named so has the code of [instructions]. *)
Lemma option_code_instructions o c :
  option_code (LStr o) = Ok c -> c = LMPROF_OPT_INSTRUCTION_COUNT -> o = "instructions".
Proof.
  intros (i & Hi & Hc)%option_code_index.
  do 20 (destruct i as [|i]; [cbn in Hi, Hc; simplify_eq; intros Heq;
    first [done | vm_compute in Heq; discriminate] |]).
  done.
Qed.

Lemma state_bool_options_nonzero c : c ∈ state_bool_options -> c <> 0.
Proof.
  intros Hc. repeat (apply elem_of_cons in Hc as [->|Hc]; [discriminate|]).
  by apply elem_of_nil in Hc.
Qed.

Lemma to_int_small z : 0 <= z < 2 ^ 31 -> to_int z = z.
Proof.
  intros Hz. unfold to_int. rewrite Z.mod_small by lia. case_decide; lia.
Qed.

Lemma to_int_wrap z : 2 ^ 31 <= z < 2 ^ 32 -> to_int z = z - 2 ^ 32.
Proof.
  intros Hz. unfold to_int. rewrite Z.mod_small by lia. case_decide; lia.
Qed.

Lemma initialize_state_fields reg mode st :
  lmprof_initialize_state reg mode = Ok st ->
  (forall c, lmprof_getlibi reg LMPROF_FLAGS LMPROF_OPT_DEFAULT = Ok c -> p_conf st = to_uint32 c) /\
  (forall z, lmprof_getlibi reg LMPROF_PROCESS Stack.LMPROF_PROCESS_MAIN = Ok z -> p_pid st = z) /\
  (forall z, lmprof_getlibi reg LMPROF_PAGE_LIMIT 0 = Ok z -> p_pageLimit st = z) /\
  (forall z, lmprof_getlibi reg LMPROF_COUNTERS_FREQ TRACE_EVENT_COUNTER_FREQ = Ok z ->
     p_counterFrequency st = z) /\
  (forall z, lmprof_getlibi reg LMPROF_HASHTABLE_SIZE LMPROF_HASH_SIZE = Ok z ->
     p_hash_size st = wrap z) /\
  (forall z, lmprof_getlibi reg LMPROF_THRESHOLD TRACE_EVENT_DEFAULT_THRESHOLD = Ok z ->
     p_event_threshold st = wrap z) /\
  (forall z, lmprof_getlibi reg LMPROF_HOOK_COUNT 0 = Ok z -> p_mask_count st = to_int z) /\
  p_url st = string_field (lmprof_getlibfield reg LMPROF_URL) /\
  p_name st = string_field (lmprof_getlibfield reg LMPROF_PROFILE_NAME).
Proof.
  intros H. unfold lmprof_initialize_state in H.
  repeat match type of H with
         | context [bind (lmprof_getlibi ?r ?k ?d) _] =>
             destruct (lmprof_getlibi r k d) eqn:?; cbn [bind] in H; [|discriminate]
         end.
  injection H as <-.
  cbn [p_conf p_pid p_pageLimit p_counterFrequency p_hash_size p_event_threshold p_mask_count
       p_url p_name].
  split_and!; try done; intros ? E; congruence.
Qed.

Lemma getlibi_insert reg k z d : lmprof_getlibi (<[k := LInt z]> reg) k d = Ok z.
Proof. unfold lmprof_getlibi. rewrite lookup_insert_eq. done. Qed.

Lemma getlibfield_insert reg k v : lmprof_getlibfield (<[k := v]> reg) k = v.
Proof. unfold lmprof_getlibfield. rewrite lookup_insert_eq. done. Qed.

Lemma bit_test_uint32 c o : 0 <= o < 2 ^ 32 -> bit_test (to_uint32 c) o = bit_test c o.
Proof.
  intros Ho. unfold bit_test, to_uint32.
  rewrite <- Z.land_assoc, (Z.land_comm (Z.ones 32)), Z.land_ones, Z.mod_small by lia. done.
Qed.

(** The options lmprof.set_option treats as flags are flags of the
    profiler object too, and fit its 32-bit [conf]. *)
Lemma bool_options_state c : c ∈ bool_options -> c ∈ state_bool_options /\ 0 < c < 2 ^ 32.
Proof.
  intros Hc. repeat (apply elem_of_cons in Hc as [->|Hc]; [by_eval|]). by apply elem_of_nil in Hc.
Qed.

Lemma option_codes_state_bool c :
  c ∈ lmprof_option_codes -> c ∈ state_bool_options -> c ∈ bool_options.
Proof.
  intros Hc. repeat (apply elem_of_cons in Hc as [->|Hc]; [by_eval|]). by apply elem_of_nil in Hc.
Qed.

(** The codes the option names map to, all of which have a case. *)
Ltac no_default_case Hin Hb :=
  exfalso; cbv [lmprof_option_codes LMPROF_OPT_GC_DISABLE LMPROF_OPT_CLOCK_INIT
    LMPROF_OPT_CLOCK_MICRO LMPROF_OPT_LOAD_STACK LMPROF_OPT_STACK_MISMATCH
    LMPROF_OPT_REPORT_VERBOSE LMPROF_OPT_LINE_FREQUENCY LMPROF_OPT_TRACE_IGNORE_YIELD
    LMPROF_OPT_TRACE_DRAW_FRAME LMPROF_OPT_TRACE_LAYOUT_SPLIT LMPROF_OPT_TRACE_ABOUT_TRACING
    LMPROF_OPT_TRACE_COMPRESS LMPROF_OPT_INSTRUCTION_COUNT LMPROF_OPT_HASH_SIZE
    LMPROF_OPT_TRACE_PROCESS LMPROF_OPT_TRACE_NAME LMPROF_OPT_TRACE_URL
    LMPROF_OPT_TRACE_PAGELIMIT LMPROF_OPT_TRACE_COUNTERS_FREQ LMPROF_OPT_TRACE_THRESHOLD] in Hin;
  repeat (apply elem_of_cons in Hin as [->|Hin]; [first [lia | apply Hb; by_eval]|]);
  by apply elem_of_nil in Hin.

(** * Theorems *)

(** C35: Setting an option of the profiler and reading it back gives the value
    set: a boolean for the flags, the integer for the numeric options and
    the string for [name] and [url].  The instruction count reads back
    unchanged only below 2^31. *)
Theorem state_option_roundtrip self o v st st' :
  state_setoption [self; LStr o; v] st = Ok st' ->
  (o = "instructions" -> forall z, v = LInt z -> z < 2 ^ 31) ->
  (o = "name" \/ o = "url" -> exists s, v = LStr s) ->
  state_getoption [self; LStr o] st' = Ok v.
Proof.
  intros Hset Hins Hstr. unfold state_setoption, state_getoption in *.
  change (arg [self; LStr o; v] 2) with (LStr o) in Hset.
  change (arg [self; LStr o; v] 3) with v in Hset. change (arg [self; LStr o] 2) with (LStr o).
  destruct (state_get_valid st) as [st0|]; cbn [bind] in Hset; [|discriminate].
  destruct (option_code (LStr o)) as [c|] eqn:Hc; cbn [bind] in Hset |- *; [|discriminate].
  destruct (option_code_names o c Hc) as (_ & Hn & Hu).
  pose proof (option_code_instructions o c Hc) as Hi. pose proof (option_code_in _ _ Hc) as Hin.
  case_bool_decide as Hb.
  - destruct v as [|b| |]; cbn in Hset; try discriminate. injection Hset as <-. cbn.
    destruct b; [rewrite bit_test_set by (apply state_bool_options_nonzero, Hb)
                |rewrite bit_test_clear]; done.
  - unfold LMPROF_OPT_INSTRUCTION_COUNT, LMPROF_OPT_HASH_SIZE, LMPROF_OPT_TRACE_PROCESS,
      LMPROF_OPT_TRACE_NAME, LMPROF_OPT_TRACE_URL, LMPROF_OPT_TRACE_PAGELIMIT,
      LMPROF_OPT_TRACE_COUNTERS_FREQ, LMPROF_OPT_TRACE_THRESHOLD in *.
    repeat case_decide; subst; try lia; try discriminate;
      destruct v as [|b|z|str]; cbn in Hset; try discriminate;
      repeat case_decide; try discriminate; injection Hset as <-; cbn; try done.
    + rewrite to_int_small; [done|]. specialize (Hins (Hi eq_refl) z eq_refl). lia.
    + destruct (Hstr (or_intror (Hu eq_refl))) as [? [=]].
    + destruct (Hstr (or_intror (Hu eq_refl))) as [? [=]].
    + destruct (Hstr (or_intror (Hu eq_refl))) as [? [=]].
    + destruct (Hstr (or_introl (Hn eq_refl))) as [? [=]].
    + destruct (Hstr (or_introl (Hn eq_refl))) as [? [=]].
    + destruct (Hstr (or_introl (Hn eq_refl))) as [? [=]].
    (* the default case: every code of the table has a case *)
    + no_default_case Hin Hb.
    + no_default_case Hin Hb.
    + no_default_case Hin Hb.
Qed.

(** C36: The defaults stored with lmprof.set_option are what a profiler
    created afterwards reports through getoption: lmprof_initialize_state
    reads every slot lmprof_set_option writes, with casts that keep the
    values lmprof_set_option accepts (instruction counts below 2^31). *)
Theorem lmprof_set_option_initialize self o v reg reg' mode st :
  lmprof_set_option [LStr o; v] reg = Ok reg' ->
  lmprof_initialize_state reg' mode = Ok st ->
  (o = "instructions" -> forall z, v = LInt z -> z < 2 ^ 31) ->
  (o = "name" \/ o = "url" -> exists s, v = LStr s) ->
  state_getoption [self; LStr o] st = Ok v.
Proof.
  intros Hset Hinit Hins Hstr.
  destruct (initialize_state_fields _ _ _ Hinit)
    as (Hconf & Hpid & Hpl & Hfr & Hhs & Hth & Hmc & Hurl & Hname).
  unfold lmprof_set_option in Hset. unfold state_getoption.
  change (arg [LStr o; v] 1) with (LStr o) in Hset. change (arg [LStr o; v] 2) with v in Hset.
  change (arg [self; LStr o] 2) with (LStr o).
  destruct (option_code (LStr o)) as [c|] eqn:Hc; cbn [bind] in Hset |- *; [|discriminate].
  destruct (option_code_names o c Hc) as (_ & Hn & Hu).
  pose proof (option_code_instructions o c Hc) as Hi. pose proof (option_code_in _ _ Hc) as Hin.
  case_bool_decide as Hb.
  - destruct (bool_options_state c Hb) as [Hs Hr]. rewrite bool_decide_true by done.
    destruct v as [|b| |]; cbn in Hset; try discriminate.
    destruct (lmprof_getlibi reg _ _) as [conf|]; cbn in Hset; [|discriminate].
    injection Hset as <-. rewrite (Hconf _ (getlibi_insert _ _ _ _)), bit_test_uint32 by lia.
    destruct b; [rewrite bit_test_set by lia|rewrite bit_test_clear]; done.
  - rewrite bool_decide_false by (intros ?; apply Hb, option_codes_state_bool; done).
    unfold LMPROF_OPT_INSTRUCTION_COUNT, LMPROF_OPT_HASH_SIZE, LMPROF_OPT_TRACE_PROCESS,
      LMPROF_OPT_TRACE_NAME, LMPROF_OPT_TRACE_URL, LMPROF_OPT_TRACE_PAGELIMIT,
      LMPROF_OPT_TRACE_COUNTERS_FREQ, LMPROF_OPT_TRACE_THRESHOLD in *.
    repeat case_decide; subst; try lia; try discriminate;
      destruct v as [|b|z|str]; cbn in Hset; try discriminate;
      repeat case_decide; try discriminate; injection Hset as <-.
    all: first
      [ rewrite (Hmc _ (getlibi_insert _ _ _ _)), to_int_small; [done|];
        specialize (Hins (Hi eq_refl) _ eq_refl); lia
      | rewrite (Hhs _ (getlibi_insert _ _ _ _)), wrap_small; [done|];
        unfold in_range, MODULUS, WIDTH; lia
      | rewrite (Hth _ (getlibi_insert _ _ _ _)), wrap_small; [done|];
        unfold in_range, MODULUS, WIDTH; lia
      | rewrite (Hpid _ (getlibi_insert _ _ _ _)); done
      | rewrite (Hpl _ (getlibi_insert _ _ _ _)); done
      | rewrite (Hfr _ (getlibi_insert _ _ _ _)); done
      | rewrite Hname, getlibfield_insert; done
      | rewrite Hurl, getlibfield_insert; done
      | destruct (Hstr (or_introl (Hn eq_refl))) as [? [=]]
      | destruct (Hstr (or_intror (Hu eq_refl))) as [? [=]] ].
Qed.

(** setoption("threshold", t) never sets the threshold: the value is
    read from argument 2, the option's own name, which is not a number,
    so every call on a valid profiler raises "number expected". *)
Theorem state_setoption_threshold self v st :
  bit_test (p_state st) LMPROF_STATE_ERROR = false ->
  state_setoption [self; LStr "threshold"; v] st = Err "number expected".
Proof. intros Hv. unfold state_setoption, state_get_valid. rewrite Hv. reflexivity. Qed.

(** setoption("instructions", n) checks [n > 0] before narrowing to an
    int: a count in [2^31, 2^32) is accepted and stored as a negative
    mask count. *)
Theorem state_setoption_instructions_wrap self z st st' :
  2 ^ 31 <= z < 2 ^ 32 ->
  state_setoption [self; LStr "instructions"; LInt z] st = Ok st' ->
  p_mask_count st' = z - 2 ^ 32 /\ p_mask_count st' < 0.
Proof.
  intros Hz. unfold state_setoption.
  destruct (state_get_valid st) as [st0|]; cbn [bind]; [|discriminate].
  assert (Hc : option_code (LStr "instructions") = Ok LMPROF_OPT_INSTRUCTION_COUNT) by reflexivity.
  change (arg _ 2) with (LStr "instructions"). change (arg _ 3) with (LInt z).
  rewrite Hc. cbn [bind luaL_checkinteger].
  rewrite bool_decide_eq_false_2, decide_True, decide_True by (first [reflexivity | lia | by_eval]).
  intros [= <-]. cbn. rewrite to_int_wrap by done. lia.
Qed.

(** setmode stores the or of the named modes without the checks of
    lmprof_parsemode, which the library's start functions apply to the
    same names: a combination they reject (time with instrument, say) is
    stored as is. *)
Theorem state_setmode_unchecked self args st m :
  bit_test (p_state st) LMPROF_STATE_ERROR = false ->
  (m0 <- mode_code (from_option id LNil (head args)) ;; or_modes m0 (tail args)) = Ok m ->
  state_setmode (self :: args) st = Ok (set_mode st m) /\ lmprof_parsemode args = sanitize_mode m.
Proof.
  intros Hv Hm. unfold state_setmode, lmprof_parsemode, state_get_valid. rewrite Hv.
  cbn [bind].
  replace (arg (self :: args) 2) with (from_option id LNil (head args)) by (destruct args; done).
  replace (drop 2 (self :: args)) with (tail args) by (destruct args; done).
  destruct (mode_code _) as [m0|]; cbn [bind] in Hm |- *; [|discriminate]. rewrite Hm. done.
Qed.

(** A profiler in the error state refuses setoption and setmode with the
    same error, and is left unchanged. *)
Theorem state_setters_invalid args st :
  bit_test (p_state st) LMPROF_STATE_ERROR = true ->
  state_setoption args st = Err "profiler in an invalid state." /\
  state_setmode args st = Err "profiler in an invalid state.".
Proof. intros Hv. unfold state_setoption, state_setmode, state_get_valid. rewrite Hv. done. Qed.

(** * A profiler object *)

Definition ex_pstate : PState :=
  mkP LMPROF_STATE_PERSISTENT LMPROF_MODE_INSTRUMENT LMPROF_OPT_DEFAULT 0 257 1 None None 0 0 0.

Lemma state_option_roundtrip_witness :
  exists st', state_setoption [LNil; LStr "url"; LStr "chrome"] ex_pstate = Ok st' /\
              state_getoption [LNil; LStr "url"] st' = Ok (LStr "chrome").
Proof.
  eexists. split; [reflexivity|].
  apply (state_option_roundtrip LNil "url" (LStr "chrome") ex_pstate); [reflexivity|..].
  - intros Hc. discriminate.
  - intros _. eexists. reflexivity.
Defined.

Lemma lmprof_set_option_initialize_witness :
  exists reg' st,
    lmprof_set_option [LStr "url"; LStr "chrome"] ∅ = Ok reg' /\
    lmprof_initialize_state reg' LMPROF_MODE_INSTRUMENT = Ok st /\
    state_getoption [LNil; LStr "url"] st = Ok (LStr "chrome").
Proof.
  eexists _, _. split; [reflexivity|]. split; [reflexivity|].
  eapply (lmprof_set_option_initialize LNil "url" (LStr "chrome") ∅ _ LMPROF_MODE_INSTRUMENT);
    [reflexivity | reflexivity | intros Hc; discriminate Hc | intros _; eexists; reflexivity].
Defined.

Lemma state_setoption_threshold_witness :
  state_setoption [LNil; LStr "threshold"; LInt 100] ex_pstate = Err "number expected".
Proof. apply state_setoption_threshold. reflexivity. Defined.

Lemma state_setoption_instructions_wrap_witness :
  exists st', state_setoption [LNil; LStr "instructions"; LInt (2 ^ 31)] ex_pstate = Ok st' /\
              p_mask_count st' = 2 ^ 31 - 2 ^ 32 /\ p_mask_count st' < 0.
Proof.
  eexists. split; [reflexivity|].
  apply (state_setoption_instructions_wrap LNil (2 ^ 31) ex_pstate); [lia|reflexivity].
Defined.

Lemma state_setmode_unchecked_witness :
  state_setmode [LNil; LStr "time"; LStr "instrument"] ex_pstate = Ok (set_mode ex_pstate 3) /\
  lmprof_parsemode [LStr "time"; LStr "instrument"] = sanitize_mode 3 /\
  sanitize_mode 3 = Err "MODE_TIME cannot be paired with other modes".
Proof.
  split; [|split; [|reflexivity]];
    apply (state_setmode_unchecked LNil [LStr "time"; LStr "instrument"] ex_pstate 3);
    reflexivity.
Defined.

Lemma state_setters_invalid_witness :
  state_setoption [LNil; LStr "micro"; LBool true] (set_mode (mkP 8 0 0 0 0 0 None None 0 0 0) 2)
    = Err "profiler in an invalid state." /\
  state_setmode [LNil; LStr "micro"; LBool true] (set_mode (mkP 8 0 0 0 0 0 None None 0 0 0) 2)
    = Err "profiler in an invalid state.".
Proof. apply state_setters_invalid. reflexivity. Defined.

End StateApi.
