(* ===== verification/Trace.v ===== *)
(** * The trace-event profiler: thread stacks and the trace hook

    In trace mode (LMPROF_MODE_TRACE, lmprof_lib.c) the debug hook
    traceevent_instrument does not accumulate statistics in records: each
    call, return, line and count event is turned into an event of the
    timeline (Timeline.v) through the trace interface
    traceevent_iroutine / traceevent_iscope / traceevent_isample.  The
    profile stack of each Lua thread lives in a registry table
    (lmprof_thread_stacktable_get, lmprof.c); when the hook observes
    another thread it emits the exits of the old thread's frames
    (traceevent_clear_stack) and the enters of the new one's
    (traceevent_append_stack).  lmprof_pause_execution and
    lmprof_resume_execution do the same around a pause; traceevent_frame
    injects frame boundaries.

    The hook is written in a state and error monad [hook] over the
    profiler state [HState]: [Done] is a normal return, [Raised] the Lua
    error thrown by lmprof_error (the state keeps LMPROF_STATE_ERROR), and
    [Fault] a dereference of a NULL pointer (the call stack, or a frame's
    record), which the C code does not guard against.

    A lua_State is named by an integer.  The stacks of the registry are
    shared with [st->thread.call_stack] by pointer; here the current
    thread's stack is the one of the profiler state and is written back
    to the table when the hook leaves the thread ([save_stack]), which is
    the same as long as only the current stack is mutated, as is the case
    for the hook.  Allocation of the stack userdata (lmprof_stack_new)
    raises a Lua error on failure and is not modelled as failing. *)

From S2P Require Import Common Unit Record Hash Stack Timeline Graph.
Import Unit Record Hash Stack Timeline Graph.

Module Trace.

(** LMPROF_THREAD_SAMPLE_TIMELINE and LMPROF_THREAD_OFFSET
    (collections/lmprof_traceevent.h); LMPROF_RECORD_ID_UNKNOWN
    (collections/lmprof_record.h). *)
Definition LMPROF_THREAD_SAMPLE_TIMELINE : Z := 2.
Definition LMPROF_THREAD_OFFSET (x : Z) : Z := x + LMPROF_THREAD_SAMPLE_TIMELINE + 1.
Definition LMPROF_RECORD_ID_UNKNOWN : Z := 2.

(** The registry tables of threads: LMPROF_TAB_THREAD_IDS, the counter
    LMPROF_THREAD_COUNTER of the library table, and
    LMPROF_TAB_THREAD_STACKS. *)
Record ThreadTable := mkThreads {
  thread_ids : gmap Z Z;
  thread_counter : option Z;
  thread_stacks : gmap Z lmprof_Stack;
}.

(** lmprof_thread_identifier: the thread's identifier, allocated from the
    counter (default LMPROF_THREAD_OFFSET(0)) on first sight. *)
Definition lmprof_thread_identifier (L : Z) (tt : ThreadTable) : Z * ThreadTable :=
  match thread_ids tt !! L with
  | Some id => (id, tt)
  | None =>
      let id := default (LMPROF_THREAD_OFFSET 0) (thread_counter tt) in
      (id, mkThreads (<[L := id]> (thread_ids tt)) (Some (id + 1)) (thread_stacks tt))
  end.

(** The bits of [st->mode] and [st->conf] the trace hook reads, with the
    graph configuration shared with lmprof_fetch_record and
    check_stack_mismatch. *)
Record TraceConf := mkTraceConf {
  tc_graph : GraphConf;
  tc_callback : bool;       (** mode & LMPROF_CALLBACK_MASK *)
  tc_trace : bool;          (** mode & LMPROF_MODE_TRACE *)
  tc_instrument : bool;     (** mode & LMPROF_MODE_INSTRUMENT *)
  tc_single_thread : bool;  (** mode & LMPROF_MODE_SINGLE_THREAD *)
  tc_draw_frame : bool;     (** conf & LMPROF_OPT_TRACE_DRAW_FRAME *)
  tc_layout_split : bool;   (** conf & LMPROF_OPT_TRACE_LAYOUT_SPLIT *)
  tc_load_stack : bool;     (** conf & LMPROF_OPT_LOAD_STACK *)
  tc_main : Z;              (** st->thread.main *)
}.

(** One level of the traceback walked by lmprof_thread_stacktable_get,
    from lua_lastlevel down to 0: the debug record, the function
    identifier and the tail-call flag when lua_getstack succeeds. *)
Abbreviation Level := (option (ActRecord * Z * bool)).

Section Hook.

Context `{RecordTable T}.
Variable record_populate : option ActRecord -> Z -> FunctionInfo -> FunctionInfo.
Variable function_is_ignored : Z -> bool.
Variable cap : nat.

(** The profiler state the trace hook reads and writes. *)
Record HState := mkH {
  h_g : @GState T;             (** records, table, call stack, st->thread.r.s, flags *)
  h_has_stack : bool;          (** st->thread.call_stack != NULL *)
  h_thread : option Z;         (** st->thread.state *)
  h_proc : EventProcess;       (** st->thread.r.proc *)
  h_mainproc : EventProcess;   (** st->thread.mainproc *)
  h_tl : TraceEventTimeline;   (** st->i.trace.arg *)
  h_paused : bool;             (** LMPROF_STATE_PAUSED *)
  h_threads : ThreadTable;     (** the registry tables *)
}.

Definition set_g (s : HState) (g : GState) : HState :=
  mkH g (h_has_stack s) (h_thread s) (h_proc s) (h_mainproc s) (h_tl s) (h_paused s)
      (h_threads s).
Definition set_current (s : HState) (has : bool) (L : option Z) : HState :=
  mkH (h_g s) has L (h_proc s) (h_mainproc s) (h_tl s) (h_paused s) (h_threads s).
Definition set_proc (s : HState) (p : EventProcess) : HState :=
  mkH (h_g s) (h_has_stack s) (h_thread s) p (h_mainproc s) (h_tl s) (h_paused s)
      (h_threads s).
Definition set_tl (s : HState) (tl : TraceEventTimeline) : HState :=
  mkH (h_g s) (h_has_stack s) (h_thread s) (h_proc s) (h_mainproc s) tl (h_paused s)
      (h_threads s).
Definition set_paused (s : HState) (b : bool) : HState :=
  mkH (h_g s) (h_has_stack s) (h_thread s) (h_proc s) (h_mainproc s) (h_tl s) b
      (h_threads s).
Definition set_threads (s : HState) (tt : ThreadTable) : HState :=
  mkH (h_g s) (h_has_stack s) (h_thread s) (h_proc s) (h_mainproc s) (h_tl s) (h_paused s)
      tt.

(** [st->thread.r] *)
Definition measurement (s : HState) : EventMeasurement :=
  mkMeasurement (h_proc s) (g_unit (h_g s)) (g_overhead_total (h_g s)).

(** ** The hook monad *)

Inductive outcome (A : Type) :=
  | Done (a : A) (s : HState)
  | Raised (s : HState)
  | Fault.
Arguments Done {A}.
Arguments Raised {A}.
Arguments Fault {A}.

Definition hook (A : Type) : Type := HState -> outcome A.

#[export] Instance hook_ret : MRet hook := fun A a s => Done a s.
#[export] Instance hook_bind : MBind hook := fun A B f m s =>
  match m s with
  | Done a s' => f a s'
  | Raised s' => Raised s'
  | Fault => Fault
  end.

Definition gets {A} (f : HState -> A) : hook A := fun s => Done (f s) s.
Definition modify (f : HState -> HState) : hook unit := fun s => Done () (f s).
Definition modify_g (f : GState -> GState) : hook unit := modify (fun s => set_g s (f (h_g s))).

(** lmprof_error: the state is marked and the Lua error ends the hook. *)
Definition lmprof_error {A} : hook A := fun s => Raised (set_g s (raise (h_g s))).

(** A NULL dereference. *)
Definition fault {A} : hook A := fun _ => Fault.

(** An operation of the graph model that may call lmprof_error (the hook
    runs with LMPROF_STATE_ERROR clear, so a set flag means it did). *)
Definition lift_g (f : GState -> GState) : hook unit := fun s =>
  let g' := f (h_g s) in
  if g_error g' then Raised (set_g s g') else Done () (set_g s g').

(** [st->thread.call_stack], dereferenced. *)
Definition need_stack : hook lmprof_Stack := fun s =>
  if h_has_stack s then Done (g_stack (h_g s)) s else Fault.

Definition put_stack (stk : lmprof_Stack) : hook unit := modify_g (fun g => set_gstack g stk).

(** The frame [i] of the call stack and the record it points to
    ([inst->trace.record], dereferenced). *)
Definition frame (i : nat) : hook StackInst :=
  stk ← need_stack; from_option mret fault (stack stk !! i).

Definition frame_rec (fr : StackInst) : hook lmprof_Record := fun s =>
  match record fr ≫= fun p => g_heap (h_g s) !! p with
  | Some r => Done r s
  | None => Fault
  end.

Definition put_frame (i : nat) (fr : StackInst) : hook unit :=
  modify_g (frame_alter i (fun _ => fr)).

(** Run an emitter on the timeline. *)
Definition with_tl {A} (f : TraceEventTimeline -> A * TraceEventTimeline) : hook A := fun s =>
  let '(a, tl') := f (h_tl s) in Done a (set_tl s tl').

(** [if (code != TRACE_EVENT_OK) return lmprof_error(...)] *)
Definition check_code (c : Z) : hook unit :=
  if decide (c = TRACE_EVENT_OK) then mret () else lmprof_error.

(** PROFILE_ADJUST_OVERHEAD, with the clock read [t]. *)
Definition adjust_overhead (t : Z) : hook unit :=
  modify_g (fun g =>
    mkG (g_table g) (g_heap g) (g_next g) (record_count g) (g_stack g)
        (mkUnit t (allocated (g_unit g)) (deallocated (g_unit g)))
        (g_overhead_total g +w (t -w time (g_unit g))) (g_instr_count g) (g_running g)
        (g_ignore_call g) (g_ignore_alloc g) (g_error g)).

(** [st->thread.r.s.time = t] *)
Definition set_time (t : Z) : hook unit :=
  modify_g (fun g =>
    mkG (g_table g) (g_heap g) (g_next g) (record_count g) (g_stack g)
        (mkUnit t (allocated (g_unit g)) (deallocated (g_unit g)))
        (g_overhead_total g) (g_instr_count g) (g_running g)
        (g_ignore_call g) (g_ignore_alloc g) (g_error g)).

Definition set_ignore_alloc (b : bool) : hook unit :=
  modify_g (fun g =>
    mkG (g_table g) (g_heap g) (g_next g) (record_count g) (g_stack g) (g_unit g)
        (g_overhead_total g) (g_instr_count g) (g_running g) (g_ignore_call g) b (g_error g)).

(** A loop over a list whose body can raise. *)
Fixpoint for_each {A} (f : A -> hook unit) (l : list A) : hook unit :=
  match l with
  | [] => mret ()
  | x :: l' => f x ;; for_each f l'
  end.

(** ** The trace interface *)

Definition set_t_call (m : EventMeasurement) (i : StackInst) : StackInst :=
  mkInst (tail_call i) (last_line i) (last_line_instructions i) (record i) (g_overhead i)
         (g_node i) (g_path i) (t_begin_event i) m.

(** traceevent_routine through traceevent_iroutine, which writes the
    running measurement [st->thread.r] (its [thread] argument is unused). *)
Definition traceevent_routine (begin : bool) : hook unit :=
  r ← gets measurement;
  c ← with_tl (fun tl => if begin then traceevent_beginroutine cap tl r
                         else traceevent_endroutine cap tl r);
  check_code c.

(** traceevent_scope through traceevent_iscope: a frame whose record is
    ignored emits nothing; otherwise the frame takes the measurement [r]
    and an ENTER_SCOPE (remembered in the frame) or an EXIT_SCOPE is
    emitted. *)
Definition traceevent_scope (i : nat) (r : EventMeasurement) (enter : bool) : hook unit :=
  fr ← frame i;
  rec ← frame_rec fr;
  if record_ignored rec then mret ()
  else
    let fr1 := set_t_call r fr in
    if enter then
      '(c, fr2) ← with_tl (fun tl => let '(c, tl', fr2) := traceevent_enterscope cap tl fr1 in
                                     ((c, fr2), tl'));
      put_frame i fr2 ;; check_code c
    else
      c ← with_tl (fun tl => traceevent_exitscope cap tl fr1);
      put_frame i fr1 ;; check_code c.

(** The lane of the frame events: the main process, the browser thread. *)
Definition frame_measurement (s : HState) (r : EventMeasurement) : EventMeasurement :=
  mkMeasurement (mkProcess (pid (h_mainproc s)) LMPROF_THREAD_BROWSER) (Unit.s r) (overhead r).

Section Conf.

Variable conf : TraceConf.

(** traceevent_append_stack: a BEGIN_FRAME when drawing frames, then
    (unless the layout is split) a BEGIN_ROUTINE and an ENTER_SCOPE for
    each frame, from the bottom of the stack up. *)
Definition traceevent_append_stack : hook unit :=
  unit ← gets measurement;
  fm ← gets (fun s => frame_measurement s unit);
  (if tc_trace conf && tc_draw_frame conf
   then _ ← with_tl (fun tl => traceevent_beginframe cap tl fm); mret ()
   else mret ()) ;;
  if tc_layout_split conf then mret ()
  else
    stk ← need_stack;
    traceevent_routine true ;;
    for_each (fun i => traceevent_scope i unit true) (seq 0 (head stk)).

(** traceevent_clear_stack: (unless the layout is split) an EXIT_SCOPE for
    each frame, from the bottom of the stack up, and an END_ROUTINE; then
    an END_FRAME when drawing frames. *)
Definition traceevent_clear_stack : hook unit :=
  unit ← gets measurement;
  (if tc_layout_split conf then mret ()
   else
     stk ← need_stack;
     for_each (fun i => traceevent_scope i unit false) (seq 0 (head stk)) ;;
     traceevent_routine false) ;;
  fm ← gets (fun s => frame_measurement s unit);
  if tc_trace conf && tc_draw_frame conf
  then _ ← with_tl (fun tl => traceevent_endframe cap tl fm); mret ()
  else mret ().

(** ** Thread stacks *)

Definition put_threads (tt : ThreadTable) : hook unit := modify (fun s => set_threads s tt).

(** Record the stack [stk] of thread [L] in LMPROF_TAB_THREAD_STACKS. *)
Definition store_stack (L : Z) (stk : lmprof_Stack) : hook unit :=
  tt ← gets h_threads;
  put_threads (mkThreads (thread_ids tt) (thread_counter tt) (<[L := stk]> (thread_stacks tt))).

(** The current stack goes back to the table when the hook leaves its
    thread. *)
Definition save_stack : hook unit :=
  s ← gets id;
  match h_thread s with
  | Some L => if h_has_stack s then store_stack L (g_stack (h_g s)) else mret ()
  | None => mret ()
  end.

(** lmprof_fetch_record in the hook: a failed allocation raises. *)
Definition fetch (al : Allocs) (ar : option ActRecord) (fid pid : Z) : hook nat := fun s =>
  match lmprof_fetch_record record_populate function_is_ignored (tc_graph conf) al ar fid pid
          (h_g s) with
  | (Some p, g') => Done p (set_g s g')
  | (None, g') => Raised (set_g s g')
  end.

(** The push of lmprof_thread_stacktable_get, by kind of stack; a full
    stack is not reported. *)
Definition push_frame (stk : lmprof_Stack) (p : nat) (r : EventMeasurement) (tail : bool)
    : lmprof_Stack :=
  if tc_callback conf then (lmprof_stack_event_push stk p r tail).2
  else (lmprof_stack_measured_push stk p (Unit.s r) tail).2.

Definition set_instr_last (t : Z) (stk : lmprof_Stack) : lmprof_Stack :=
  mkStack (callback_api stk) (thread_identifier stk) (instr_count stk) t (head stk)
          (size stk) (stack stk).

(** The traceback loop of lmprof_thread_stacktable_get (LMPROF_OPT_LOAD_STACK):
    one record and one frame per level, the parent being the level below. *)
Fixpoint load_levels (al : Allocs) (L : Z) (levels : list Level) (last_fid : Z)
    (stk : lmprof_Stack) : hook lmprof_Stack :=
  match levels with
  | [] => mret stk
  | lv :: rest =>
      let '(ar, fid, tail) := match lv with
                              | Some (a, f, t) => (Some a, f, t)
                              | None => (None, LMPROF_RECORD_ID_UNKNOWN, false)
                              end in
      p ← fetch al ar fid last_fid;
      r ← gets measurement;
      let stk' := push_frame stk p r tail in
      store_stack L stk' ;;
      load_levels al L rest fid stk'
  end.

(** lmprof_thread_stacktable_get: the thread's stack, or a new one with
    the root record at its bottom and, with LMPROF_OPT_LOAD_STACK, the
    thread's traceback above it. *)
Definition lmprof_thread_stacktable_get (al : Allocs) (levels : list Level) (L : Z)
    : hook lmprof_Stack :=
  tt ← gets h_threads;
  match thread_stacks tt !! L with
  | Some stk => mret stk
  | None =>
      let '(id, tt1) := lmprof_thread_identifier L tt in
      put_threads tt1 ;;
      t ← gets (fun s => time (g_unit (h_g s)));
      let stk0 := set_instr_last t (lmprof_stack_new id (tc_callback conf)) in
      store_stack L stk0 ;;
      p ← fetch al None LMPROF_RECORD_ID_ROOT LMPROF_RECORD_ID_ROOT;
      r ← gets measurement;
      let stk1 := push_frame stk0 p r false in
      store_stack L stk1 ;;
      if tc_load_stack conf then load_levels al L levels LMPROF_RECORD_ID_ROOT stk1
      else mret stk1
  end.

(** ** The hook *)

Definition graph_conf := tc_graph conf.

(** traceevent_prehook: whether the hook goes on.  The checks of the
    singleton and the mode come first (the hook is then removed, which is
    not modelled), then the single-thread filter, the paused state (an
    error), and the ignored call; then, as in graph_prehook (hook_entry), the clock is
    read ([t0]), the calibration charged and allocation counting
    suspended.  On a change of thread with instrumentation the previous
    thread's frames are closed, the new thread's stack fetched (created
    if needed) and its frames opened; without instrumentation the call
    stack becomes NULL.  The overhead is adjusted with the clock read
    [t1]. *)
Definition traceevent_prehook (al : Allocs) (levels : list Level) (L : Z) (t0 t1 : Z)
    : hook bool :=
  s ← gets id;
  let g := h_g s in
  if negb (g_running g) || g_error g || negb (tc_callback conf) then mret false
  else if tc_single_thread conf && bool_decide (tc_main conf <> L) then mret false
  else if h_paused s then lmprof_error
  else
    let '(g1, go) := hook_entry graph_conf t0 g in
    modify (fun s => set_g s g1) ;;
    if negb go then mret false
    else
      (if bool_decide (h_thread s <> Some L) && tc_instrument conf then
         (if h_has_stack s then traceevent_clear_stack else mret ()) ;;
         save_stack ;;
         stk ← lmprof_thread_stacktable_get al levels L;
         put_stack stk ;;
         modify (fun s => set_current s true (Some L)) ;;
         (if tc_layout_split conf
          then modify (fun s => set_proc s (mkProcess (pid (h_proc s)) (thread_identifier stk)))
          else mret ()) ;;
         traceevent_append_stack
       else if bool_decide (h_thread s <> Some L) then
         save_stack ;; modify (fun s => set_current s false (Some L))
       else mret ()) ;;
      adjust_overhead t1 ;;
      mret true.

(** [(stack->head > 1) ? lmprof_stack_pop(stack) : NULL] *)
Definition pop_if : hook (option nat) :=
  stk ← need_stack;
  if decide (1 < head stk)%nat then
    let '(i, stk') := lmprof_stack_pop stk in put_stack stk' ;; mret i
  else mret None.

Definition check_stack_mismatch_h (inst : option nat) (allow_nil : bool) : hook unit :=
  lift_g (check_stack_mismatch graph_conf inst allow_nil).

(** The condition of the return loop, with the C evaluation order: the
    record is dereferenced only for a non-tail frame on a non-tail
    return. *)
Definition ret_cond (tail_return : bool) (fid : Z) (fr : StackInst) : hook bool :=
  if tail_call fr then mret true
  else if tail_return then mret false
  else rec ← frame_rec fr; mret (bool_decide (f_id rec <> fid)).

(** The loop of the LUA_HOOKRET case: the popped frames that are tail
    calls or (on a non-tail return) belong to another function are closed
    and cleared. *)
Fixpoint trace_ret_loop (fuel : nat) (tail_return : bool) (fid : Z) (inst : option nat)
    : hook (option nat) :=
  match fuel, inst with
  | S f, Some i =>
      fr ← frame i;
      c ← ret_cond tail_return fid fr;
      if (c : bool) then
        r ← gets measurement;
        traceevent_scope i r false ;;
        check_stack_mismatch_h (Some i) false ;;
        inst' ← pop_if;
        trace_ret_loop f tail_return fid inst'
      else mret inst
  | _, _ => mret inst
  end.

(** The LUA_HOOKCALL / LUA_HOOKTAILCALL case: the record of (function,
    parent function) is fetched, a frame pushed and its scope opened. *)
Definition trace_call (al : Allocs) (fid : Z) (tail : bool) (ar : ActRecord) : hook unit :=
  stk ← need_stack;
  pid ← match lmprof_stack_peek stk with
        | Some i => fr ← frame i; rec ← frame_rec fr; mret (f_id rec)
        | None => mret LMPROF_RECORD_ID_ROOT
        end;
  p ← fetch al (Some ar) fid pid;
  stk1 ← need_stack;
  r ← gets measurement;
  match lmprof_stack_event_push stk1 p r tail with
  | (Some i, stk2) => put_stack stk2 ;; traceevent_scope i r true
  | (None, _) => lmprof_error
  end.

(** The LUA_HOOKRET case. *)
Definition trace_return (fid : Z) : hook unit :=
  stk ← need_stack;
  inst ← pop_if;
  tail_return ← match inst with
                | Some i => fr ← frame i; mret (tail_call fr)
                | None => mret false
                end;
  let fid' := if (tail_return : bool) then 0 else fid in
  inst' ← trace_ret_loop (head stk) tail_return fid' inst;
  match inst' with
  | Some i =>
      r ← gets measurement;
      traceevent_scope i r false ;; check_stack_mismatch_h (Some i) true
  | None => mret ()
  end.

(** traceevent_isample: the sample or line event of the frame [i]; the
    trace interface's return code is not checked by the hook. *)
Definition traceevent_isample (i : nat) (line : Z) : hook unit :=
  fr ← frame i;
  r ← gets measurement;
  _ ← with_tl (fun tl => traceevent_sample cap tl fr r line);
  mret ().

Definition set_stack_counters (ic : Z) (il : Z) (stk : lmprof_Stack) : lmprof_Stack :=
  mkStack (callback_api stk) (thread_identifier stk) ic il (head stk) (size stk) (stack stk).

Definition add_instr_count (n : Z) : hook unit :=
  modify_g (fun g =>
    mkG (g_table g) (g_heap g) (g_next g) (record_count g) (g_stack g) (g_unit g)
        (g_overhead_total g) (g_instr_count g +w n) (g_running g) (g_ignore_call g)
        (g_ignore_alloc g) (g_error g)).

(** The LUA_HOOKCOUNT case. *)
Definition trace_count : hook unit :=
  stk ← need_stack;
  add_instr_count (mask_count graph_conf) ;;
  put_stack (set_stack_counters (instr_count stk +w mask_count graph_conf) (instr_last stk) stk) ;;
  (match lmprof_stack_peek stk with Some i => traceevent_isample i (-1) | None => mret () end) ;;
  t ← gets (fun s => time (g_unit (h_g s)));
  stk' ← need_stack;
  put_stack (set_stack_counters (instr_count stk') t stk').

(** The LUA_HOOKLINE case. *)
Definition trace_line (cl : Z) : hook unit :=
  stk ← need_stack;
  match lmprof_stack_peek stk with
  | Some i =>
      traceevent_isample i cl ;;
      ic ← gets (fun s => g_instr_count (h_g s));
      fr ← frame i;
      put_frame i (mkInst (tail_call fr) (if decide (cl >= 0) then cl else 0) ic (record fr)
                          (g_overhead fr) (g_node fr) (g_path fr) (t_begin_event fr) (t_call fr))
  | None => mret ()
  end.

(** traceevent_instrument: one hook call on thread [L], with the clock
    read at entry ([t0]), after the thread switch ([t1]) and at exit
    ([t2]). *)
Definition traceevent_instrument (al : Allocs) (levels : list Level) (L : Z) (ev : HookEvent)
    (t0 t1 t2 : Z) : hook unit :=
  go ← traceevent_prehook al levels L t0 t1;
  if negb go then mret ()
  else
    (match ev with
     | HookCall fid is_stop tail ar => if is_stop then mret () else trace_call al fid tail ar
     | HookRet fid => trace_return fid
     | HookCount => trace_count
     | HookLine cl => trace_line cl
     | HookUnknown => lmprof_error
     end) ;;
    set_ignore_alloc false ;;
    adjust_overhead t2.

(** lmprof_pause_execution: the frames of the current stack are closed
    and the profiler is paused. *)
Definition lmprof_pause_execution (t : Z) : hook bool :=
  s ← gets id;
  if h_has_stack s && negb (h_paused s) && tc_instrument conf && tc_callback conf then
    set_time t ;; traceevent_clear_stack ;; modify (fun s => set_paused s true) ;; mret true
  else mret false.

(** lmprof_resume_execution: the frames of the current stack are opened
    again and the pause is lifted. *)
Definition lmprof_resume_execution (t : Z) : hook bool :=
  s ← gets id;
  if h_has_stack s && h_paused s && tc_instrument conf && tc_callback conf then
    set_time t ;; traceevent_append_stack ;; modify (fun s => set_paused s false) ;; mret true
  else mret false.

(** traceevent_frame: a frame boundary at the clock read [t], emitted
    when LMPROF_OPT_TRACE_DRAW_FRAME is clear; it always returns LUA_OK. *)
Definition traceevent_frame (begin_frame : bool) (t : Z) : hook unit :=
  if tc_trace conf then
    set_ignore_alloc true ;;
    (if tc_draw_frame conf then mret ()
     else
       s ← gets id;
       let r := measurement s in
       let fm := mkMeasurement (mkProcess (pid (h_mainproc s)) LMPROF_THREAD_BROWSER)
                               (mkUnit t (allocated (Unit.s r)) (deallocated (Unit.s r)))
                               (overhead r) in
       _ ← with_tl (fun tl => if begin_frame then traceevent_beginframe cap tl fm
                              else traceevent_endframe cap tl fm);
       mret ()) ;;
    set_ignore_alloc false
  else mret ().

End Conf.

End Hook.

Arguments Done {T A} a s.
Arguments Raised {T A} s.
Arguments Fault {T A}.

(** * Thread identifiers *)

(** The identifier table is injective, its identifiers lie between
    LMPROF_THREAD_OFFSET(0) and the counter. *)
Definition next_id (tt : ThreadTable) : Z := default (LMPROF_THREAD_OFFSET 0) (thread_counter tt).

Definition ids_wf (tt : ThreadTable) : Prop :=
  (forall L1 L2 id, thread_ids tt !! L1 = Some id -> thread_ids tt !! L2 = Some id -> L1 = L2) /\
  (forall L id, thread_ids tt !! L = Some id -> LMPROF_THREAD_OFFSET 0 <= id < next_id tt) /\
  LMPROF_THREAD_OFFSET 0 <= next_id tt.

(** lmprof_thread_identifier keeps the identifier table injective:
    the thread gets an identifier no other thread has, the identifiers of
    the other threads and the stack table are unchanged, and a thread
    keeps its identifier. *)
Theorem lmprof_thread_identifier_spec L tt :
  ids_wf tt ->
  let '(id, tt') := lmprof_thread_identifier L tt in
  ids_wf tt' /\ thread_ids tt' !! L = Some id /\
  (forall L', L' <> L -> thread_ids tt' !! L' = thread_ids tt !! L') /\
  thread_stacks tt' = thread_stacks tt.
Proof.
  intros (Hinj & Hrange & Hnext). unfold lmprof_thread_identifier.
  destruct (thread_ids tt !! L) as [id|] eqn:HL; [split_and!; done|].
  unfold ids_wf, next_id, LMPROF_THREAD_OFFSET, LMPROF_THREAD_SAMPLE_TIMELINE in *; cbn.
  split_and!; [| |lia|apply lookup_insert_eq| |done].
  - intros L1 L2 i H1 H2. apply lookup_insert_Some in H1, H2.
    destruct H1 as [[<- <-]|[N1 H1]], H2 as [[<- E]|[N2 H2]]; try done.
    + apply Hrange in H2. lia.
    + apply Hrange in H1. lia.
    + eauto.
  - intros L1 i H1. apply lookup_insert_Some in H1 as [[<- <-]|[_ H1]]; [lia|].
    apply Hrange in H1. lia.
  - intros L' N. rewrite lookup_insert_ne; congruence.
Qed.

(** The registry as lmprof_initialize_state leaves it. *)
Definition empty_threads : ThreadTable := mkThreads ∅ None ∅.

Lemma ids_wf_empty : ids_wf empty_threads.
Proof.
  unfold ids_wf, next_id; cbn. split_and!; [intros ? ? ?; rewrite lookup_empty; done|
    intros ? ?; rewrite lookup_empty; done | lia].
Qed.

(** Unfolding the monad, as a rewriting step of proofs. *)
Ltac hook_simpl :=
  unfold mbind, hook_bind, mret, hook_ret, gets, modify, modify_g in *; cbn in *.

Section Props.

Context `{RecordTable T}.
Variable record_populate : option ActRecord -> Z -> FunctionInfo -> FunctionInfo.
Variable function_is_ignored : Z -> bool.
Variable cap : nat.
Variable conf : TraceConf.

Abbreviation instrument := (traceevent_instrument record_populate function_is_ignored cap conf).

(** C6: without LMPROF_MODE_INSTRUMENT (the modes "trace memory" that
    lmprof_parsemode accepts) no call stack is ever fetched, and the
    first call event that reaches the hook dereferences the NULL call
    stack ([lmprof_stack_peek(stack)] in traceevent_instrument). *)
Theorem traceevent_instrument_no_stack_fault al levels L fid tail ar t0 t1 t2 (s : @HState T) :
  tc_instrument conf = false -> tc_callback conf = true -> tc_single_thread conf = false ->
  g_running (h_g s) = true -> g_error (h_g s) = false -> g_ignore_call (h_g s) = false ->
  h_paused s = false -> h_has_stack s = false ->
  instrument al levels L (HookCall fid false tail ar) t0 t1 t2 s = Fault.
Proof.
  intros Hi Hc Hst Hr He Hic Hp Hs.
  unfold traceevent_instrument, traceevent_prehook, hook_entry. hook_simpl.
  rewrite Hr, He, Hc, Hst, Hp, Hic, Hi. cbn. rewrite andb_false_r.
  destruct (bool_decide (h_thread s <> Some L)); unfold save_stack; hook_simpl;
    [destruct (h_thread s)|]; rewrite ?Hs; hook_simpl;
    unfold trace_call, need_stack; hook_simpl; rewrite ?Hs; done.
Qed.

(** the option LMPROF_OPT_TRACE_DRAW_FRAME acts in opposite ways:
    when it is set, traceevent_frame (the begin_frame API) emits nothing,
    while traceevent_append_stack emits a BEGIN_FRAME. *)
Theorem traceevent_frame_draw_frame_inverted t (s : @HState T) :
  tc_trace conf = true -> tc_draw_frame conf = true -> tc_layout_split conf = true ->
  (exists s', traceevent_frame cap conf true t s = Done () s' /\ h_tl s' = h_tl s) /\
  (exists s', traceevent_append_stack cap conf s = Done () s' /\
     h_tl s' = (traceevent_beginframe cap (h_tl s) (frame_measurement s (measurement s))).2).
Proof.
  intros Ht Hd Hs. unfold traceevent_frame, traceevent_append_stack, set_ignore_alloc, with_tl.
  hook_simpl. rewrite Ht, Hd, Hs. cbn.
  destruct (traceevent_beginframe cap (h_tl s) _) as [c tl'] eqn:E. cbn.
  split; eexists; split; reflexivity.
Qed.

End Props.

(** * A concrete trace profiler *)

(** Trace mode with instrumentation, and the same without it. *)
Definition ex_tconf : TraceConf := mkTraceConf ex_conf true true true false false false true 1.
Definition ex_tconf_noinstr : TraceConf :=
  mkTraceConf ex_conf true true false false false false true 1.
Definition ex_tconf_frames : TraceConf := mkTraceConf ex_conf true true true false true true true 1.

(** A profiler that has not observed a thread yet. *)
Definition ex_hs0 : @HState lmprof_Hash :=
  mkH (mkG (lmprof_hash_create 7) ∅ 0 0 (lmprof_stack_new 0 true) unit_clear 0 0
           true false false false)
      false None (mkProcess 1 3) (mkProcess 1 3) (timeline_new 0) false empty_threads.

Lemma lmprof_thread_identifier_spec_witness :
  ids_wf empty_threads /\
  let '(id, tt') := lmprof_thread_identifier 5 empty_threads in
  ids_wf tt' /\ thread_ids tt' !! 5 = Some id /\
  (forall L', L' <> 5 -> thread_ids tt' !! L' = thread_ids empty_threads !! L') /\
  thread_stacks tt' = thread_stacks empty_threads.
Proof. split; [apply ids_wf_empty|apply (lmprof_thread_identifier_spec 5 empty_threads ids_wf_empty)]. Defined.

Lemma traceevent_instrument_no_stack_fault_witness :
  traceevent_instrument ex_populate ex_ignored 4 ex_tconf_noinstr ex_ok [] 1
    (HookCall 10 false false ex_ar) 5 6 7 ex_hs0 = Fault.
Proof.
  apply (traceevent_instrument_no_stack_fault ex_populate ex_ignored 4 ex_tconf_noinstr);
    reflexivity.
Defined.

Lemma traceevent_frame_draw_frame_inverted_witness :
  (exists s', traceevent_frame 4 ex_tconf_frames true 9 ex_hs0 = Done () s' /\
              h_tl s' = h_tl ex_hs0) /\
  (exists s', traceevent_append_stack 4 ex_tconf_frames ex_hs0 = Done () s' /\
     h_tl s' = (traceevent_beginframe 4 (h_tl ex_hs0)
                  (frame_measurement ex_hs0 (measurement ex_hs0))).2).
Proof. apply (traceevent_frame_draw_frame_inverted 4 ex_tconf_frames 9 ex_hs0); reflexivity. Defined.

End Trace.
