(* ===== verification/TraceWf.v ===== *)
(** * The invariant of the trace hook

    The profiler state of trace mode (Trace.v) is well formed when the
    record table and the current call stack satisfy the invariant of the
    graph model ([state_wf], with stacks of the trace kind), the timeline
    is well formed ([tl_wf]), every stack of the registry is well formed
    over the same records, and, with instrumentation, a thread that has
    been observed has a call stack.

    The theorems show that every entry point of the trace profiler keeps
    this invariant, never dereferences a NULL pointer on such a state,
    changes the timeline only by calls of the emitters of
    lmprof_collections.c ([tl_step]), and never loses a record.  The
    proofs reason on the outcome of a monadic program with [okR], in the
    style of a weakest precondition: [okR s o Q] says that the outcome [o]
    of a run from [s] is not a fault, keeps the invariant, is a
    [hstep] from [s], and satisfies [Q] when it returns. *)

From S2P Require Import Common Unit Record Hash Stack Timeline Graph Trace.
Import Unit Record Hash Stack Timeline Graph Trace.

Module TraceWf.

Section Wf.

Context `{RecordTable T}.
Variable record_populate : option ActRecord -> Z -> FunctionInfo -> FunctionInfo.
Variable function_is_ignored : Z -> bool.
Variable cap : nat.
Hypothesis cap_pos : (0 < cap)%nat.
Variable conf : TraceConf.

Abbreviation HS := (@HState T).

(** A stack of the registry or the current one, over the heap [hp]. *)
Definition stack_ok (hp : heap) (stk : lmprof_Stack) : Prop :=
  stack_wf stk /\ callback_api stk = tc_callback conf /\ frames_live hp stk.

Record trace_wf (s : HS) : Prop := {
  tw_g : state_wf (tc_callback conf) (h_g s);
  tw_tl : tl_wf cap (h_tl s);
  tw_stacks : map_Forall (fun _ => stack_ok (g_heap (h_g s))) (thread_stacks (h_threads s));
  tw_current : tc_instrument conf = true -> is_Some (h_thread s) -> h_has_stack s = true;
}.

Definition heap_incl (hp hp' : heap) : Prop := forall q, is_Some (hp !! q) -> is_Some (hp' !! q).

(** What a run may do to the parts of the state other runs rely on: the
    timeline moves by emitter calls and records are never freed. *)
Definition hstep (s s' : HS) : Prop :=
  rtc (tl_step cap) (h_tl s) (h_tl s') /\ heap_incl (g_heap (h_g s)) (g_heap (h_g s')).

#[export] Instance hstep_preorder : PreOrder hstep.
Proof.
  split; [intros s; split; [apply rtc_refl | intros ? ?; done]|].
  intros s1 s2 s3 [H1 K1] [H2 K2]. split; [etrans; eauto|]. intros q Hq. auto.
Qed.

Definition okR {A} (s : HS) (o : @outcome T A) (Q : A -> HS -> Prop) : Prop :=
  match o with
  | Done a s' => trace_wf s' /\ hstep s s' /\ Q a s'
  | Raised s' => trace_wf s' /\ hstep s s'
  | Fault => False
  end.

Lemma okR_bind {A B} s (m : hook A) (f : A -> hook B) P Q :
  okR s (m s) P ->
  (forall a s', trace_wf s' -> hstep s s' -> P a s' -> okR s' (f a s') Q) ->
  okR s ((m ≫= f) s) Q.
Proof.
  intros Hm Hf. unfold mbind, hook_bind. destruct (m s) as [a s'|s'|]; [|done|done].
  destruct Hm as (Hw & Hs & Hp). specialize (Hf a s' Hw Hs Hp).
  destruct (f a s') as [b s''|s''|]; cbn in *; [|destruct Hf as [? ?]|done].
  - destruct Hf as (? & ? & ?). split_and!; [done|etrans; eauto|done].
  - split; [done|etrans; eauto].
Qed.

Lemma okR_mono {A} s (o : @outcome T A) (P Q : A -> HS -> Prop) :
  okR s o P -> (forall a s', P a s' -> Q a s') -> okR s o Q.
Proof. destruct o; naive_solver. Qed.

Lemma okR_ret {A} s (a : A) (Q : A -> HS -> Prop) : trace_wf s -> Q a s -> okR s (mret (M := @hook T) a s) Q.
Proof. intros. split_and!; [done|reflexivity|done]. Qed.

Lemma okR_gets {A} s (f : HS -> A) (Q : A -> HS -> Prop) :
  trace_wf s -> Q (f s) s -> okR s (gets f s) Q.
Proof. intros. split_and!; [done|reflexivity|done]. Qed.

Lemma bind_gets {A B} (f : HS -> A) (k : A -> hook B) s : (gets f ≫= k) s = k (f s) s.
Proof. reflexivity. Qed.

Lemma bind_need_stack {B} (k : lmprof_Stack -> hook B) (s : HS) :
  h_has_stack s = true -> (need_stack ≫= k) s = k (g_stack (h_g s)) s.
Proof. intros Hs. cbv [mbind hook_bind need_stack]. rewrite Hs. reflexivity. Qed.

Lemma raise_wf s : trace_wf s -> trace_wf (set_g s (raise (h_g s))).
Proof. intros []. constructor; cbn; auto using graph_wf_raise. Qed.

Lemma okR_error {A} s (Q : A -> HS -> Prop) : trace_wf s -> okR s (lmprof_error s) Q.
Proof. intros Hw. split; [apply raise_wf, Hw|split; [apply rtc_refl|intros ? ?; done]]. Qed.

Lemma okR_check_code s c : trace_wf s -> okR s (check_code c s) (fun _ s' => s' = s).
Proof. intros Hw. unfold check_code. case_decide; [apply okR_ret; done|apply okR_error, Hw]. Qed.

(** ** Steps that keep the shape of the call stack *)

(** Two stacks with the same frames, up to the per-frame data the trace
    interface writes (the call measurement and the begin event). *)
Definition frames_eq (stk stk' : lmprof_Stack) : Prop :=
  head stk' = head stk /\ size stk' = size stk /\ callback_api stk' = callback_api stk /\
  thread_identifier stk' = thread_identifier stk /\ record <$> stack stk' = record <$> stack stk.

(** A step that changes neither the thread, nor the frames, nor the
    running measurement, nor the registry. *)
Definition quiet (s s' : HS) : Prop :=
  h_has_stack s' = h_has_stack s /\ h_thread s' = h_thread s /\ h_paused s' = h_paused s /\
  h_threads s' = h_threads s /\ measurement s' = measurement s /\ h_mainproc s' = h_mainproc s /\
  g_error (h_g s') = g_error (h_g s) /\ frames_eq (g_stack (h_g s)) (g_stack (h_g s')).

#[export] Instance quiet_preorder : PreOrder quiet.
Proof.
  split; [intros s; unfold quiet, frames_eq; done|].
  unfold quiet, frames_eq.
  intros s1 s2 s3 (?&?&?&?&?&?&?&?&?&?&?&?) (?&?&?&?&?&?&?&?&?&?&?&?).
  split_and!; congruence.
Qed.

(** The frame [i] is below the top and points to a live record. *)
Definition live_at (s : HS) (i : nat) : Prop :=
  h_has_stack s = true /\ (i < head (g_stack (h_g s)))%nat.

Lemma tl_wf_step s tl' : trace_wf s -> tl_step cap (h_tl s) tl' -> trace_wf (set_tl s tl').
Proof. intros [] Hs. constructor; cbn; auto. eapply tl_step_wf; eauto. Qed.

Lemma okR_with_tl {A} s (f : TraceEventTimeline -> A * TraceEventTimeline) (Q : A -> HS -> Prop) :
  trace_wf s -> (forall tl, tl_step cap tl (f tl).2) ->
  Q (f (h_tl s)).1 (set_tl s (f (h_tl s)).2) -> okR s (with_tl f s) Q.
Proof.
  intros Hw Hf Hq. unfold with_tl. destruct (f (h_tl s)) as [a tl'] eqn:E. cbn.
  pose proof (Hf (h_tl s)) as Hs. rewrite E in Hs. cbn in Hs.
  split_and!; [apply tl_wf_step; done | split; [apply rtc_once; done | intros ? ?; done] |].
  exact Hq.
Qed.

Lemma quiet_set_tl s tl : quiet s (set_tl s tl).
Proof. unfold quiet, frames_eq. done. Qed.

Lemma okR_routine s b :
  trace_wf s -> okR s (traceevent_routine cap b s) (fun _ s' => quiet s s').
Proof.
  intros Hw. unfold traceevent_routine. rewrite bind_gets. eapply okR_bind.
  { apply (okR_with_tl _ _ (fun _ s' => quiet s s')); [done| |apply quiet_set_tl].
    intros tl; destruct b; [apply step_beginroutine|apply step_endroutine]. }
  intros c s2 Hw2 _ Hq. eapply okR_mono; [apply okR_check_code; done|]. intros _ ? ->. done.
Qed.

Lemma bind_frame {B} i fr (k : StackInst -> hook B) (s : HS) :
  h_has_stack s = true -> stack (g_stack (h_g s)) !! i = Some fr -> (frame i ≫= k) s = k fr s.
Proof. intros Hs Hi. cbv [mbind hook_bind frame need_stack]. rewrite Hs, Hi. done. Qed.

Lemma bind_frame_rec {B} fr p r (k : lmprof_Record -> hook B) (s : HS) :
  record fr = Some p -> g_heap (h_g s) !! p = Some r -> (frame_rec fr ≫= k) s = k r s.
Proof. intros Hp Hr. cbv [mbind hook_bind frame_rec]. rewrite Hp. cbn. rewrite Hr. done. Qed.

(** A live frame: its slot exists and its record is allocated. *)
Lemma live_frame s i :
  trace_wf s -> live_at s i ->
  exists fr p r, stack (g_stack (h_g s)) !! i = Some fr /\ record fr = Some p /\
                 g_heap (h_g s) !! p = Some r.
Proof.
  intros Hw [Hs Hi]. pose proof (gw_stack _ (tw_g _ Hw)) as [Hl Hh].
  destruct (lookup_lt_is_Some_2 (stack (g_stack (h_g s))) i) as [fr Hfr]; [lia|].
  destruct (gw_frames _ (tw_g _ Hw) i fr Hi Hfr) as (p & r & Hp & Hr). exists fr, p, r. done.
Qed.

Lemma fmap_alter_same {A B} (f : A -> B) (l : list A) i x y :
  l !! i = Some x -> f y = f x -> f <$> alter (fun _ => y) i l = f <$> l.
Proof.
  intros Hi Hf. apply list_eq. intros k. rewrite !list_lookup_fmap, list_lookup_alter.
  case_decide; [subst; rewrite Hi; cbn; congruence|done].
Qed.

(** Writing a frame that keeps its record. *)
Lemma okR_put_frame s i fr fr' :
  trace_wf s -> stack (g_stack (h_g s)) !! i = Some fr -> record fr' = record fr ->
  okR s (put_frame i fr' s) (fun _ s' => quiet s s').
Proof.
  intros Hw Hi Hr. destruct Hw as [[Ht [Hl Hh] Ha Hf Hn] Htl Hst Hc].
  unfold put_frame, modify_g, modify, frame_alter. cbn.
  assert (E : record <$> alter (fun _ => fr') i (stack (g_stack (h_g s))) =
              record <$> stack (g_stack (h_g s))) by (apply fmap_alter_same with (x := fr); done).
  split_and!; [constructor; [constructor; cbn; try done|done..]| |].
  - unfold stack_wf. cbn. rewrite length_alter. done.
  - apply (frames_transfer (g_heap (h_g s)) (g_heap (h_g s)) (g_stack (h_g s)));
      [done|done|cbn; lia|].
    intros k fr2 _ Hk. cbn in Hk. rewrite list_lookup_alter in Hk. case_decide.
    + subst. rewrite Hi in Hk. injection Hk as <-. eauto.
    + eauto.
  - split; [apply rtc_refl|intros ? ?; done].
  - unfold quiet, frames_eq. cbn. split_and!; done.
Qed.

Lemma enterscope_record tl inst : record (traceevent_enterscope cap tl inst).2 = record inst.
Proof. unfold traceevent_enterscope. repeat case_match; simplify_eq; done. Qed.

(** The frame [i] exists and points to an allocated record (below the
    top, or just popped). *)
Definition rec_at (s : HS) (i : nat) : Prop :=
  h_has_stack s = true /\
  exists fr p r, stack (g_stack (h_g s)) !! i = Some fr /\ record fr = Some p /\
                 g_heap (h_g s) !! p = Some r.

Lemma live_rec_at s i : trace_wf s -> live_at s i -> rec_at s i.
Proof. intros Hw Hl. split; [apply Hl|]. apply live_frame; done. Qed.

(** The trace interface on a frame with a record. *)
Lemma okR_scope s i r e :
  trace_wf s -> rec_at s i -> okR s (traceevent_scope cap i r e s) (fun _ s' => quiet s s').
Proof.
  intros Hw [Hs (fr & p & rc & Hi & Hp & Hr)].
  unfold traceevent_scope. rewrite (bind_frame i fr) by done.
  rewrite (bind_frame_rec fr p rc) by done.
  destruct (record_ignored rc); [apply okR_ret; [done|reflexivity]|].
  destruct e.
  - eapply okR_bind.
    { apply (okR_with_tl _ _ (fun a s' => s' = set_tl s (h_tl s') /\
                                          record a.2 = record fr)); [done| |].
      - intros tl. destruct (traceevent_enterscope cap tl _) as [[c tl'] fr2] eqn:E.
        pose proof (step_enterscope cap tl (set_t_call r fr)) as S. rewrite E in S. exact S.
      - destruct (traceevent_enterscope cap (h_tl s) _) as [[c tl'] fr2] eqn:E. cbn. split; [done|].
        pose proof (enterscope_record (h_tl s) (set_t_call r fr)) as R. rewrite E in R. done. }
    intros [c fr2] s1 Hw1 _ [Hs1 Hr1]. cbn in Hr1.
    eapply okR_bind; [apply (okR_put_frame s1 i fr fr2); [done|rewrite Hs1; done|done]|].
    intros u s2 Hw2 _ Hq2. cbn in Hq2. eapply okR_mono; [apply okR_check_code; done|].
    intros u3 s3 E3. cbn in E3. rewrite E3. etrans; [|exact Hq2]. rewrite Hs1. apply quiet_set_tl.
  - eapply okR_bind.
    { apply (okR_with_tl _ _ (fun _ s' => s' = set_tl s (h_tl s'))); [done| |done].
      intros tl. apply step_exitscope. }
    intros c s1 Hw1 _ Hs1.
    eapply okR_bind; [apply (okR_put_frame s1 i fr (set_t_call r fr)); [done|rewrite Hs1; done|done]|].
    intros u s2 Hw2 _ Hq2. cbn in Hq2. eapply okR_mono; [apply okR_check_code; done|].
    intros u3 s3 E3. cbn in E3. rewrite E3. etrans; [|exact Hq2]. rewrite Hs1. apply quiet_set_tl.
Qed.

Lemma okR_for_each {A} (f : A -> hook unit) l s :
  trace_wf s ->
  (forall x s', x ∈ l -> trace_wf s' -> quiet s s' -> okR s' (f x s') (fun _ s'' => quiet s' s'')) ->
  okR s (for_each f l s) (fun _ s' => quiet s s').
Proof.
  revert s. induction l as [|x l IH]; intros s Hw Hf; cbn; [apply okR_ret; [done|reflexivity]|].
  eapply okR_bind; [apply Hf; [set_solver|done|reflexivity]|].
  intros u s1 Hw1 _ Hq1. cbn in Hq1. eapply okR_mono; [apply IH; [done|]|].
  - intros y s' Hy Hw' Hq'. apply Hf; [set_solver|done|etrans; eauto].
  - intros u' s' Hq'. etrans; eauto.
Qed.

Lemma quiet_has_stack s s' : quiet s s' -> h_has_stack s' = h_has_stack s.
Proof. intros Hq; apply Hq. Qed.

Lemma quiet_head s s' : quiet s s' -> head (g_stack (h_g s')) = head (g_stack (h_g s)).
Proof. intros Hq; apply Hq. Qed.

Lemma live_quiet s s' i : quiet s s' -> live_at s i -> live_at s' i.
Proof. intros (Hs & _ & _ & _ & _ & _ & _ & Hh & _) [Hs0 Hi]. split; [congruence|lia]. Qed.

(** The enters or exits of all the frames of the current stack. *)
Lemma okR_scope_all s r e :
  trace_wf s -> h_has_stack s = true ->
  okR s (for_each (fun i => traceevent_scope cap i r e) (seq 0 (head (g_stack (h_g s)))) s)
      (fun _ s' => quiet s s').
Proof.
  intros Hw Hs. apply okR_for_each; [done|]. intros i s' Hi Hw' Hq.
  apply okR_scope; [done|]. apply live_rec_at; [done|]. apply (live_quiet s); [done|].
  apply elem_of_seq in Hi. split; [done|lia].
Qed.

(** An emitter whose outcome is dropped. *)
Lemma okR_emit_drop s (f : TraceEventTimeline -> Z * TraceEventTimeline) :
  trace_wf s -> (forall tl, tl_step cap tl (f tl).2) ->
  okR s ((_ ← with_tl f; mret ()) s) (fun _ s' => quiet s s').
Proof.
  intros Hw Hf. eapply okR_bind; [apply (okR_with_tl _ _ (fun _ s' => quiet s s')); auto using quiet_set_tl|].
  intros u s1 Hw1 _ Hq. cbn in Hq. apply okR_ret; done.
Qed.

Lemma okR_append s :
  trace_wf s -> (tc_layout_split conf = false -> h_has_stack s = true) ->
  okR s (traceevent_append_stack cap conf s) (fun _ s' => quiet s s').
Proof.
  intros Hw Hs. unfold traceevent_append_stack. rewrite !bind_gets.
  eapply okR_bind.
  { destruct (tc_trace conf && tc_draw_frame conf);
      [apply okR_emit_drop; [done|intros; apply step_beginframe]|apply okR_ret; [done|reflexivity]]. }
  intros u s1 Hw1 _ Hq1. cbn in Hq1. destruct (tc_layout_split conf) eqn:Hsp; [apply okR_ret; done|].
  rewrite bind_need_stack by (rewrite (quiet_has_stack _ _ Hq1); auto).
  eapply okR_bind; [apply okR_routine; done|].
  intros u2 s2 Hw2 _ Hq2. cbn in Hq2. rewrite <- (quiet_head _ _ Hq2).
  eapply okR_mono; [apply (okR_scope_all s2); [done|]|].
  - rewrite (quiet_has_stack _ _ Hq2), (quiet_has_stack _ _ Hq1). auto.
  - intros u3 s3 Hq3. etrans; [exact Hq1|]. etrans; [exact Hq2|exact Hq3].
Qed.

Lemma okR_clear s :
  trace_wf s -> (tc_layout_split conf = false -> h_has_stack s = true) ->
  okR s (traceevent_clear_stack cap conf s) (fun _ s' => quiet s s').
Proof.
  intros Hw Hs. unfold traceevent_clear_stack. rewrite bind_gets.
  eapply (okR_bind s _ _ (fun _ s' => quiet s s')).
  { destruct (tc_layout_split conf) eqn:Hsp; [apply okR_ret; [done|reflexivity]|].
    rewrite bind_need_stack by auto.
    eapply okR_bind; [apply okR_scope_all; auto|].
    intros u1 s1 Hw1 _ Hq1. cbn in Hq1. eapply okR_mono; [apply okR_routine; done|].
    intros u2 s2 Hq2. etrans; eauto. }
  intros u1 s1 Hw1 _ Hq1. cbn in Hq1. rewrite bind_gets.
  destruct (tc_trace conf && tc_draw_frame conf);
    [|apply okR_ret; done].
  eapply okR_mono; [apply okR_emit_drop; [done|intros; apply step_endframe]|].
  intros u2 s2 Hq2. etrans; eauto.
Qed.

(** Changing the fields of the profiler state that no invariant mentions. *)
Lemma wf_set_g s g :
  trace_wf s -> g_table g = g_table (h_g s) -> g_heap g = g_heap (h_g s) ->
  g_next g = g_next (h_g s) -> g_stack g = g_stack (h_g s) -> trace_wf (set_g s g).
Proof.
  intros [[Ht Hs Ha Hf Hn] Htl Hst Hc] E1 E2 E3 E4.
  constructor; cbn; rewrite ?E2; try done. constructor; rewrite ?E1, ?E2, ?E3, ?E4; done.
Qed.

Lemma okR_modify s (f : HS -> HS) (Q : unit -> HS -> Prop) :
  trace_wf (f s) -> hstep s (f s) -> Q () (f s) -> okR s (modify f s) Q.
Proof. intros. split_and!; done. Qed.

Lemma okR_set_g s g (Q : unit -> HS -> Prop) :
  trace_wf s -> g_table g = g_table (h_g s) -> g_heap g = g_heap (h_g s) ->
  g_next g = g_next (h_g s) -> g_stack g = g_stack (h_g s) -> Q () (set_g s g) ->
  okR s (modify (fun s => set_g s g) s) Q.
Proof.
  intros Hw E1 E2 E3 E4 Hq. split_and!; [apply wf_set_g; done| |done].
  split; [apply rtc_refl|]. intros q. cbn. rewrite E2. done.
Qed.

(** What pause and resume keep of the state. *)
Definition same_frames (s s' : HS) : Prop :=
  h_has_stack s' = h_has_stack s /\ h_thread s' = h_thread s /\
  frames_eq (g_stack (h_g s)) (g_stack (h_g s')).

Lemma quiet_same_frames s s' : quiet s s' -> same_frames s s'.
Proof. intros (? & ? & _ & _ & _ & _ & _ & ?). split_and!; done. Qed.

Lemma set_paused_wf s b : trace_wf s -> trace_wf (set_paused s b).
Proof. intros []; constructor; done. Qed.

(** The clock read and the emission of the pause or resume, then the
    flag. *)
Lemma okR_pause_body s t (body : hook unit) b :
  trace_wf s ->
  (forall s1, trace_wf s1 -> same_frames s s1 -> okR s1 (body s1) (fun _ s2 => quiet s1 s2)) ->
  okR s ((set_time t ;; body ;; modify (fun s => set_paused s b) ;; mret true) s)
      (fun r s' => r = true /\ h_paused s' = b /\ same_frames s s').
Proof.
  intros Hw Hb. unfold set_time, modify_g.
  eapply okR_bind; [apply (okR_set_g _ _ (fun _ s1 => same_frames s s1)); try done|].
  intros u1 s1 Hw1 _ Hs1. cbn in Hs1. eapply okR_bind; [apply Hb; done|].
  intros u2 s2 Hw2 _ Hq2. cbn in Hq2. cbn.
  split_and!; [apply set_paused_wf; done|split; [apply rtc_refl|intros ? ?; done]|done|done|].
  destruct Hs1 as (A1 & A2 & A3 & A4 & A5 & A6 & A7). apply quiet_same_frames in Hq2.
  destruct Hq2 as (B1 & B2 & B3 & B4 & B5 & B6 & B7). unfold same_frames, frames_eq; cbn.
  split_and!; congruence.
Qed.

Lemma same_frames_refl s : same_frames s s.
Proof. unfold same_frames, frames_eq. done. Qed.

(** C33: lmprof_pause_execution keeps the invariant and never faults; it
    pauses exactly when the state has a call stack, is not paused and
    traces with instrumentation, and it leaves the thread and the frames
    of the call stack in place (only their exit events are emitted). *)
Theorem lmprof_pause_execution_spec t s :
  trace_wf s ->
  okR s (lmprof_pause_execution cap conf t s)
    (fun b s' => b = h_has_stack s && negb (h_paused s) && tc_instrument conf && tc_callback conf /\
                 h_paused s' = b || h_paused s /\ same_frames s s').
Proof.
  intros Hw. unfold lmprof_pause_execution. rewrite bind_gets. cbn [id].
  destruct (h_has_stack s && negb (h_paused s) && tc_instrument conf && tc_callback conf) eqn:G.
  - rewrite !andb_true_iff in G. destruct G as [[[Hs _] _] _].
    eapply okR_mono; [apply okR_pause_body; [done|]|].
    + intros s1 Hw1 Hs1. apply okR_clear; [done|]. destruct Hs1 as [-> _]. auto.
    + intros b s' (-> & -> & ?). done.
  - apply okR_ret; [done|]. split_and!; [done|done|apply same_frames_refl].
Qed.

(** C34: lmprof_resume_execution keeps the invariant and never faults; it
    resumes exactly when the state has a call stack, is paused and traces
    with instrumentation, and it leaves the thread and the frames in
    place (only their enter events are emitted). *)
Theorem lmprof_resume_execution_spec t s :
  trace_wf s ->
  okR s (lmprof_resume_execution cap conf t s)
    (fun b s' => b = h_has_stack s && h_paused s && tc_instrument conf && tc_callback conf /\
                 h_paused s' = negb b && h_paused s /\ same_frames s s').
Proof.
  intros Hw. unfold lmprof_resume_execution. rewrite bind_gets. cbn [id].
  destruct (h_has_stack s && h_paused s && tc_instrument conf && tc_callback conf) eqn:G.
  - rewrite !andb_true_iff in G. destruct G as [[[Hs _] _] _].
    eapply okR_mono; [apply okR_pause_body; [done|]|].
    + intros s1 Hw1 Hs1. apply okR_append; [done|]. destruct Hs1 as [-> _]. auto.
    + intros b s' (-> & -> & ?). done.
  - apply okR_ret; [done|]. split_and!; [done|by destruct (h_paused s)|apply same_frames_refl].
Qed.

(** ** Records and stacks *)

Lemma stacks_grow hp hp' (m : gmap Z lmprof_Stack) :
  map_Forall (fun _ => stack_ok hp) m -> heap_incl hp hp' -> map_Forall (fun _ => stack_ok hp') m.
Proof.
  intros Hm Hi L stk HL. destruct (Hm L stk HL) as (? & ? & Hf). split_and!; [done|done|].
  apply (frames_transfer hp hp' stk stk); [done|done|lia|eauto].
Qed.

Lemma fetch_record_fields gconf al ar fid pid g :
  let g' := (lmprof_fetch_record record_populate function_is_ignored gconf al ar fid pid g).2 in
  g_unit g' = g_unit g /\ g_overhead_total g' = g_overhead_total g /\ g_stack g' = g_stack g.
Proof. unfold lmprof_fetch_record. repeat case_match; simplify_eq; done. Qed.

(** The new state of the profiler after a step of the graph model that
    keeps the stack and lets the heap grow. *)
Lemma wf_set_g_grow s g :
  trace_wf s -> state_wf (tc_callback conf) g -> heap_incl (g_heap (h_g s)) (g_heap g) ->
  trace_wf (set_g s g).
Proof.
  intros [Hg Htl Hst Hc] Hg' Hi. constructor; cbn; try done. eapply stacks_grow; eauto.
Qed.

(** lmprof_fetch_record in the hook does not touch the call stack or the
    measurement, and returns an allocated record. *)
Lemma okR_fetch s al ar fid pid :
  trace_wf s ->
  okR s (fetch record_populate function_is_ignored conf al ar fid pid s)
    (fun p s' => quiet s s' /\ g_stack (h_g s') = g_stack (h_g s) /\
                 is_Some (g_heap (h_g s') !! p)).
Proof.
  intros Hw. unfold fetch.
  pose proof (lmprof_fetch_record_spec record_populate function_is_ignored (tc_callback conf)
                (tc_graph conf) al ar fid pid (h_g s) (tw_g _ Hw)) as Hs.
  pose proof (fetch_record_fields (tc_graph conf) al ar fid pid (h_g s)) as (Hu & Ho & Hk).
  destruct (lmprof_fetch_record _ _ _ _ _ _ _ _) as [[p|] g'] eqn:E;
    destruct Hs as (Hwf' & Hst & Hincl & Hres); cbn in Hu, Ho, Hk.
  - split_and!; [apply wf_set_g_grow; done|split; [apply rtc_refl|done]| | |].
    + unfold quiet, measurement, frames_eq. cbn. rewrite Hu, Ho, Hst.
      rewrite (fetch_record_error _ _ _ _ _ _ _ _ _ _ E). split_and!; done.
    + done.
    + destruct Hres as (Hkey & _). unfold key_of in Hkey. cbn. destruct (g_heap g' !! p); done.
  - split; [apply wf_set_g_grow; done|split; [apply rtc_refl|done]].
Qed.

(** A stack of the right kind, over the records. *)
Lemma okR_put_stack s stk :
  trace_wf s -> stack_ok (g_heap (h_g s)) stk ->
  okR s (put_stack stk s) (fun _ s' => s' = set_g s (set_gstack (h_g s) stk)).
Proof.
  intros [[Ht Hs Ha Hf Hn] Htl Hst Hc] (Hs' & Ha' & Hf').
  split_and!; [constructor; [constructor|..]; cbn; done| split; [apply rtc_refl|intros ? ?; done]|done].
Qed.

Lemma okR_store_stack s L stk :
  trace_wf s -> stack_ok (g_heap (h_g s)) stk ->
  okR s (store_stack L stk s)
    (fun _ s' => s' = set_threads s (mkThreads (thread_ids (h_threads s))
                                                (thread_counter (h_threads s))
                                                (<[L := stk]> (thread_stacks (h_threads s))))).
Proof.
  intros Hw Hok. unfold store_stack, put_threads. rewrite bind_gets.
  split_and!; [|split; [apply rtc_refl|intros ? ?; done]|done].
  destruct Hw as [Hg Htl Hst Hc]. constructor; cbn; try done.
  apply map_Forall_insert_2; done.
Qed.

(** An event push (or a graph push) of an allocated record. *)
Lemma event_push_ok hp stk p r tail :
  stack_ok hp stk -> is_Some (hp !! p) ->
  stack_ok hp (lmprof_stack_event_push stk p r tail).2 /\
  match lmprof_stack_event_push stk p r tail with
  | (Some i, stk') => i = head stk /\ head stk' = S (head stk) /\
                      (i < head stk')%nat
  | (None, stk') => stk' = stk
  end.
Proof.
  intros ([Hl Hh] & Ha & Hf) [rc Hp]. unfold lmprof_stack_event_push, lmprof_stack_next.
  case_decide as Hlt; cbn; [|split; [split_and!; [split|..]; done|done]].
  destruct (lookup_lt_is_Some_2 (stack stk) (head stk)) as [fr0 Hfr0]; [lia|].
  split; [|split_and!; [done|done|lia]].
  split_and!; [unfold stack_wf; cbn; rewrite !length_alter; lia|done|].
  intros k fr Hk Hfr. cbn in Hk, Hfr.
  destruct (decide (head stk = k)) as [<-|Hne].
  - rewrite !list_lookup_alter_eq, Hfr0 in Hfr. cbn in Hfr. injection Hfr as <-. eauto.
  - rewrite !list_lookup_alter_ne in Hfr by done. apply (Hf k fr); [lia|done].
Qed.

Lemma push_frame_ok hp stk p r tail :
  stack_ok hp stk -> is_Some (hp !! p) -> stack_ok hp (push_frame conf stk p r tail).
Proof.
  intros Hok Hp. unfold push_frame. destruct (tc_callback conf) eqn:Hc.
  - apply event_push_ok; done.
  - destruct Hok as (Hs & Ha & Hf). rewrite Hc in Ha.
    destruct (lmprof_stack_measured_push stk p (Unit.s r) tail) as [[i|] stk'] eqn:E; cbn;
      [|unfold lmprof_stack_measured_push, lmprof_stack_next in E; rewrite Ha in E;
        case_decide; simplify_eq; split_and!; first [done|congruence]].
    destruct (measured_push_frames hp stk p (Unit.s r) tail i stk' Ha Hs Hf Hp E)
      as (? & ? & ? & _). split_and!; first [done|congruence].
Qed.

(** ** The registry of stacks *)

(** What fetching a thread's stack keeps. *)
Definition ctl (s s' : HS) : Prop :=
  h_has_stack s' = h_has_stack s /\ h_thread s' = h_thread s /\ h_paused s' = h_paused s /\
  h_proc s' = h_proc s /\ h_mainproc s' = h_mainproc s /\ g_stack (h_g s') = g_stack (h_g s).

#[export] Instance ctl_preorder : PreOrder ctl.
Proof.
  split; [intros s; unfold ctl; done|].
  unfold ctl. intros s1 s2 s3 (?&?&?&?&?&?) (?&?&?&?&?&?). split_and!; congruence.
Qed.

Lemma quiet_ctl s s' : quiet s s' -> g_stack (h_g s') = g_stack (h_g s) -> ctl s s'.
Proof.
  intros (? & ? & ? & _ & Hm & ? & _) Hk. unfold measurement in Hm. injection Hm as Hp _ _.
  unfold ctl. split_and!; done.
Qed.

Lemma stack_ok_grow hp hp' stk : stack_ok hp stk -> heap_incl hp hp' -> stack_ok hp' stk.
Proof.
  intros (? & ? & Hf) Hi. split_and!; [done|done|].
  apply (frames_transfer hp hp' stk stk); [done|done|lia|eauto].
Qed.

Lemma store_ctl s L stk s' :
  s' = set_threads s (mkThreads (thread_ids (h_threads s)) (thread_counter (h_threads s))
                                (<[L := stk]> (thread_stacks (h_threads s)))) -> ctl s s'.
Proof. intros ->. unfold ctl. done. Qed.

Lemma okR_load_levels al L levels last stk s :
  trace_wf s -> stack_ok (g_heap (h_g s)) stk ->
  okR s (load_levels record_populate function_is_ignored conf al L levels last stk s)
    (fun stk' s' => stack_ok (g_heap (h_g s')) stk' /\ ctl s s').
Proof.
  revert last stk s. induction levels as [|lv levels IH]; intros last stk s Hw Hok; cbn.
  { split_and!; [done|reflexivity|done|reflexivity]. }
  destruct (match lv with Some (a, f, t) => (Some a, f, t) | None => _ end) as [[ar fid] tail].
  eapply okR_bind; [apply okR_fetch; done|].
  intros p s1 Hw1 [_ Hi1] (Hq1 & Hk1 & Hp1). rewrite bind_gets.
  eapply okR_bind.
  { apply okR_store_stack; [done|]. apply push_frame_ok; [|done].
    apply (stack_ok_grow (g_heap (h_g s))); done. }
  intros u s2 Hw2 [_ Hi2] E2. cbn in E2. eapply okR_mono; [apply IH; [done|]|].
  - rewrite E2; cbn. apply push_frame_ok; [|done]. apply (stack_ok_grow (g_heap (h_g s))); done.
  - intros stk' s3 [Hok3 Hc3]. split; [done|]. etrans; [apply quiet_ctl; done|].
    etrans; [apply (store_ctl s1 L _ s2 E2)|done].
Qed.

Lemma thread_identifier_stacks L tt :
  thread_stacks (lmprof_thread_identifier L tt).2 = thread_stacks tt.
Proof. unfold lmprof_thread_identifier. case_match; done. Qed.

Lemma new_stack_ok hp id t :
  stack_ok hp (set_instr_last t (lmprof_stack_new id (tc_callback conf))).
Proof.
  pose proof (lmprof_stack_new_wf id (tc_callback conf)) as [Hl Hh].
  split_and!; [split; done|done|intros k fr Hk; cbn in Hk; lia].
Qed.

(** lmprof_thread_stacktable_get returns a well-formed stack of the
    profiler's kind, over allocated records. *)
Lemma okR_stacktable_get al levels L s :
  trace_wf s ->
  okR s (lmprof_thread_stacktable_get record_populate function_is_ignored conf al levels L s)
    (fun stk s' => stack_ok (g_heap (h_g s')) stk /\ ctl s s').
Proof.
  intros Hw. unfold lmprof_thread_stacktable_get. rewrite bind_gets.
  destruct (thread_stacks (h_threads s) !! L) as [stk|] eqn:HL.
  { apply okR_ret; [done|]. split; [|reflexivity]. apply (tw_stacks _ Hw L stk HL). }
  destruct (lmprof_thread_identifier L (h_threads s)) as [id tt1] eqn:Eid.
  pose proof (thread_identifier_stacks L (h_threads s)) as Hst. rewrite Eid in Hst. cbn in Hst.
  eapply okR_bind.
  { apply (okR_modify _ _ (fun _ s1 => s1 = set_threads s tt1));
      [|split; [apply rtc_refl|intros ? ?; done]|done].
    destruct Hw; constructor; cbn; rewrite ?Hst; done. }
  intros u s1 Hw1 [_ Hi1] E1. cbn in E1. rewrite bind_gets.
  assert (Hc1 : ctl s s1) by (rewrite E1; unfold ctl; done).
  eapply okR_bind; [apply okR_store_stack; [done|apply new_stack_ok]|].
  intros u2 s2 Hw2 [_ Hi2] E2. cbn in E2.
  eapply okR_bind; [apply okR_fetch; done|].
  intros p s3 Hw3 [_ Hi3] (Hq3 & Hk3 & Hp3). rewrite bind_gets.
  eapply okR_bind.
  { apply okR_store_stack; [done|]. apply push_frame_ok; [apply new_stack_ok|done]. }
  intros u4 s4 Hw4 [_ Hi4] E4. cbn in E4.
  assert (Hc4 : ctl s s4).
  { etrans; [exact Hc1|]. etrans; [apply (store_ctl _ _ _ _ E2)|].
    etrans; [apply quiet_ctl; done|]. apply (store_ctl _ _ _ _ E4). }
  assert (Hok4 : stack_ok (g_heap (h_g s4))
                   (push_frame conf (set_instr_last (time (g_unit (h_g s1)))
                      (lmprof_stack_new id (tc_callback conf))) p (measurement s3) false)).
  { rewrite E4. cbn. apply push_frame_ok; [apply new_stack_ok|done]. }
  destruct (tc_load_stack conf).
  - eapply okR_mono; [apply okR_load_levels; done|].
    intros stk' s5 [Hok5 Hc5]. split; [done|etrans; eauto].
  - apply okR_ret; [done|]. split; done.
Qed.

(** ** The hook *)

Lemma current_stack_ok s : trace_wf s -> stack_ok (g_heap (h_g s)) (g_stack (h_g s)).
Proof. intros [[Ht Hs Ha Hf Hn] _ _ _]. split_and!; done. Qed.

(** A change of the profiler's counters and flags. *)
Lemma okR_modify_g s (f : GState -> GState) :
  trace_wf s ->
  g_table (f (h_g s)) = g_table (h_g s) -> g_heap (f (h_g s)) = g_heap (h_g s) ->
  g_next (f (h_g s)) = g_next (h_g s) -> g_stack (f (h_g s)) = g_stack (h_g s) ->
  okR s (modify_g f s) (fun _ s' => ctl s s').
Proof.
  intros Hw E1 E2 E3 E4. unfold modify_g. apply okR_set_g; try done.
Qed.

Lemma okR_adjust s t : trace_wf s -> okR s (adjust_overhead t s) (fun _ s' => ctl s s').
Proof. intros Hw. apply okR_modify_g; done. Qed.

Lemma okR_save_stack s : trace_wf s -> okR s (save_stack s) (fun _ s' => ctl s s').
Proof.
  intros Hw. unfold save_stack. rewrite bind_gets. cbn [id].
  destruct (h_thread s) as [L|]; [destruct (h_has_stack s)|].
  - eapply okR_mono; [apply okR_store_stack; [done|apply current_stack_ok; done]|].
    intros u s' E. apply (store_ctl _ _ _ _ E).
  - apply okR_ret; [done|reflexivity].
  - apply okR_ret; [done|reflexivity].
Qed.

(** The switch to the thread [L] with instrumentation: the frames of the
    previous thread are closed, its stack saved, the stack of [L] fetched
    and its frames opened. *)
Lemma okR_switch al levels L s :
  trace_wf s ->
  okR s (((if h_has_stack s then traceevent_clear_stack cap conf else mret ()) ;;
          save_stack ;;
          stk ← lmprof_thread_stacktable_get record_populate function_is_ignored conf al levels L;
          put_stack stk ;;
          modify (fun s => set_current s true (Some L)) ;;
          (if tc_layout_split conf
           then modify (fun s => set_proc s (mkProcess (pid (h_proc s)) (thread_identifier stk)))
           else mret ()) ;;
          traceevent_append_stack cap conf) s)
    (fun _ s' => h_has_stack s' = true).
Proof.
  intros Hw. eapply okR_bind.
  { destruct (h_has_stack s) eqn:Hs; [apply okR_clear; auto|apply okR_ret; done]. }
  intros u1 s1 Hw1 _ _. eapply okR_bind; [apply okR_save_stack; done|].
  intros u2 s2 Hw2 _ _. eapply okR_bind; [apply okR_stacktable_get; done|].
  intros stk s3 Hw3 _ [Hok3 _]. eapply okR_bind; [apply okR_put_stack; done|].
  intros u4 s4 Hw4 _ E4. cbn in E4. subst s4.
  set (s5 := set_current (set_g s3 (set_gstack (h_g s3) stk)) true (Some L)).
  assert (Hw5 : trace_wf s5) by (destruct Hw4; constructor; done).
  eapply (okR_bind _ _ _ (fun _ s' => s' = s5)); [apply okR_modify; [done|split; [apply rtc_refl|intros ? ?; done]|done]|].
  intros u5 s5' Hw5' _ ->.
  eapply (okR_bind _ _ _ (fun _ s' => h_has_stack s' = true)).
  { destruct (tc_layout_split conf).
    - apply okR_modify; [destruct Hw5; constructor; done|split; [apply rtc_refl|intros ? ?; done]|done].
    - apply okR_ret; done. }
  intros u6 s6 Hw6 _ Hs6. eapply okR_mono; [apply okR_append; auto|].
  intros u7 s7 Hq7. rewrite (quiet_has_stack _ _ Hq7). done.
Qed.

Lemma okR_prehook al levels L t0 t1 s :
  trace_wf s -> tc_instrument conf = true ->
  okR s (traceevent_prehook record_populate function_is_ignored cap conf al levels L t0 t1 s)
    (fun go s' => go = true -> h_has_stack s' = true).
Proof.
  intros Hw Hi. unfold traceevent_prehook. rewrite bind_gets. cbn [id].
  destruct (negb (g_running (h_g s)) || g_error (h_g s) || negb (tc_callback conf));
    [apply okR_ret; done|].
  destruct (tc_single_thread conf && bool_decide (tc_main conf <> L)); [apply okR_ret; done|].
  destruct (h_paused s); [apply okR_error; done|].
  pose proof (entry_fields (graph_conf conf) t0 (h_g s)) as (E1 & E2 & E3 & _ & E4 & _).
  destruct (hook_entry (graph_conf conf) t0 (h_g s)) as [g1 go] eqn:Eg. cbn in E1, E2, E3, E4.
  eapply okR_bind; [apply (okR_set_g _ _ (fun _ s' => s' = set_g s g1)); done|].
  intros u s1 Hw1 _ ->. destruct go; cbn [negb]; [|apply okR_ret; done].
  rewrite Hi, andb_true_r.
  eapply (okR_bind _ _ _ (fun _ s' => h_has_stack s' = true)).
  { case_bool_decide as Ht.
    - exact (okR_switch al levels L (set_g s g1) Hw1).
    - apply okR_ret; [done|]. cbn. apply (tw_current _ Hw Hi).
      destruct (h_thread s); [done|]. discriminate. }
  intros u2 s2 Hw2 _ Hs2. eapply okR_bind; [apply okR_adjust; done|].
  intros u3 s3 Hw3 _ Hc3. apply okR_ret; [done|]. intros _. destruct Hc3 as [-> _]. done.
Qed.

Lemma rec_at_quiet s s' i : quiet s s' -> hstep s s' -> rec_at s i -> rec_at s' i.
Proof.
  intros Hq [_ Hi] [Hs (fr & p & r & Hfr & Hp & Hr)].
  destruct Hq as (Hs' & _ & _ & _ & _ & _ & _ & _ & _ & _ & _ & Hrec).
  split; [congruence|].
  assert (E : record <$> stack (g_stack (h_g s')) !! i = Some (Some p)).
  { rewrite <- list_lookup_fmap, Hrec, list_lookup_fmap, Hfr. cbn. rewrite Hp. done. }
  apply fmap_Some in E as (fr' & Hfr' & Hp').
  destruct (Hi p) as [r' Hr']; [rewrite Hr; done|]. exists fr', p, r'. done.
Qed.

(** A frame popped from the stack: it sits at [head] and keeps its record. *)
Definition popped (s : HS) (inst : option nat) : Prop :=
  h_has_stack s = true /\
  forall i, inst = Some i -> i = head (g_stack (h_g s)) /\ rec_at s i.

Lemma popped_quiet s s' inst : quiet s s' -> hstep s s' -> popped s inst -> popped s' inst.
Proof.
  intros Hq Hh [Hs Hi]. split; [rewrite (quiet_has_stack _ _ Hq); done|].
  intros i E. destruct (Hi i E) as [-> Hr]. split; [rewrite (quiet_head _ _ Hq); done|].
  apply (rec_at_quiet s); done.
Qed.

Lemma okR_pop_if s :
  trace_wf s -> h_has_stack s = true -> okR s (pop_if s) (fun inst s' => popped s' inst).
Proof.
  intros Hw Hs. unfold pop_if. rewrite bind_need_stack by done.
  case_decide as Hlt; [|apply okR_ret; [done|split; [done|discriminate]]].
  pose proof (current_stack_ok s Hw) as ([Hl Hh] & Ha & Hf).
  destruct (head (g_stack (h_g s))) as [|h] eqn:Eh; [lia|].
  unfold lmprof_stack_pop. rewrite Eh. case_decide; [|lia]. cbn. rewrite Nat.sub_0_r.
  destruct (lookup_lt_is_Some_2 (stack (g_stack (h_g s))) h) as [fr Hfr]; [lia|].
  destruct (Hf h fr ltac:(lia) Hfr) as (p & r & Hp & Hr).
  eapply okR_bind.
  { apply okR_put_stack; [done|]. split_and!; [unfold stack_wf; cbn; lia|done|].
    apply (frames_transfer (g_heap (h_g s)) (g_heap (h_g s)) (g_stack (h_g s))); [done|done|cbn; lia|]. cbn. eauto. }
  intros u s1 Hw1 _ E1. cbn in E1. apply okR_ret; [done|]. subst s1.
  split; [done|]. intros i [= <-]. split; [done|]. split; [done|]. exists fr, p, r. done.
Qed.

Lemma okR_mismatch s i b :
  trace_wf s -> (head (g_stack (h_g s)) <= i)%nat ->
  okR s (check_stack_mismatch_h conf (Some i) b s)
    (fun _ s' => h_has_stack s' = h_has_stack s /\
                 head (g_stack (h_g s')) = head (g_stack (h_g s))).
Proof.
  intros Hw Hi. unfold check_stack_mismatch_h, lift_g. cbn [check_stack_mismatch].
  destruct (clear_frame_wf (tc_callback conf) (h_g s) i (tw_g _ Hw) Hi) as (Hwf & Hh & _).
  assert (Hw' : trace_wf (set_g s (clear_frame i (h_g s)))).
  { apply wf_set_g_grow; [done|done|intros ? ?; done]. }
  destruct (g_error _); cbn; split_and!; first [done | split; [apply rtc_refl|intros ? ?; done]].
Qed.

Lemma okR_ret_cond s i tr fid :
  trace_wf s -> rec_at s i ->
  forall fr, stack (g_stack (h_g s)) !! i = Some fr ->
  okR s (ret_cond tr fid fr s) (fun _ s' => s' = s).
Proof.
  intros Hw [_ (fr0 & p & r & Hfr0 & Hp & Hr)] fr Hfr. rewrite Hfr in Hfr0. injection Hfr0 as <-.
  unfold ret_cond. destruct (tail_call fr); [apply okR_ret; done|].
  destruct tr; [apply okR_ret; done|].
  rewrite (bind_frame_rec fr p r) by done. apply okR_ret; done.
Qed.

Lemma okR_ret_loop fuel tr fid inst s :
  trace_wf s -> popped s inst ->
  okR s (trace_ret_loop cap conf fuel tr fid inst s) (fun inst' s' => popped s' inst').
Proof.
  revert inst s. induction fuel as [|f IH]; intros inst s Hw Hp; cbn [trace_ret_loop].
  { destruct inst; apply okR_ret; done. }
  destruct inst as [i|]; [|apply okR_ret; done].
  destruct Hp as [Hs Hi]. destruct (Hi i eq_refl) as [Hhi Hrec].
  pose proof Hrec as [_ (fr & p & r & Hfr & Hpr & Hr)].
  rewrite (bind_frame i fr) by done.
  eapply okR_bind; [apply (okR_ret_cond s i tr fid Hw Hrec fr Hfr)|].
  intros c s1 Hw1 _ ->. destruct c; [|apply okR_ret; [done|split; done]].
  rewrite bind_gets. eapply okR_bind; [apply okR_scope; done|].
  intros u2 s2 Hw2 Hst2 Hq2. cbn in Hq2.
  eapply okR_bind; [apply okR_mismatch; [done|rewrite (quiet_head _ _ Hq2); lia]|].
  intros u3 s3 Hw3 _ [Hs3 Hh3].
  eapply okR_bind; [apply okR_pop_if; [done|rewrite Hs3, (quiet_has_stack _ _ Hq2); done]|].
  intros inst' s4 Hw4 _ Hp4. apply IH; done.
Qed.

Lemma okR_return s fid :
  trace_wf s -> h_has_stack s = true -> okR s (trace_return cap conf fid s) (fun _ _ => True).
Proof.
  intros Hw Hs. unfold trace_return. rewrite bind_need_stack by done.
  eapply okR_bind; [apply okR_pop_if; done|].
  intros inst s1 Hw1 _ Hp1.
  eapply (okR_bind _ _ _ (fun _ s' => s' = s1)).
  { destruct inst as [i|]; [|apply okR_ret; done].
    destruct Hp1 as [Hs1 Hi1]. destruct (Hi1 i eq_refl) as [_ [_ (fr & p & r & Hfr & _)]].
    rewrite (bind_frame i fr) by done. apply okR_ret; done. }
  intros tr s2 Hw2 _ ->. eapply okR_bind; [apply okR_ret_loop; done|].
  intros inst' s3 Hw3 _ [Hs3 Hi3]. destruct inst' as [i|]; [|apply okR_ret; done].
  destruct (Hi3 i eq_refl) as [Hh3 Hr3]. rewrite bind_gets.
  eapply okR_bind; [apply okR_scope; done|]. intros u4 s4 Hw4 _ Hq4. cbn in Hq4.
  eapply okR_mono; [apply okR_mismatch; [done|rewrite (quiet_head _ _ Hq4); lia]|]. done.
Qed.

Lemma okR_call s al fid tail ar :
  trace_wf s -> h_has_stack s = true ->
  okR s (trace_call record_populate function_is_ignored cap conf al fid tail ar s)
    (fun _ _ => True).
Proof.
  intros Hw Hs. unfold trace_call. rewrite bind_need_stack by done.
  eapply (okR_bind _ _ _ (fun _ s' => s' = s)).
  { unfold lmprof_stack_peek. case_decide as Hh; [|apply okR_ret; done].
    destruct (live_frame s (head (g_stack (h_g s)) - 1) Hw) as (fr & p & r & Hfr & Hp & Hr);
      [split; [done|lia]|].
    rewrite (bind_frame _ fr) by done. rewrite (bind_frame_rec fr p r) by done.
    apply okR_ret; done. }
  intros pid s1 Hw1 _ ->. eapply okR_bind; [apply okR_fetch; done|].
  intros p s2 Hw2 _ (Hq2 & Hk2 & Hp2).
  rewrite bind_need_stack by (rewrite (quiet_has_stack _ _ Hq2); done). rewrite bind_gets.
  pose proof (event_push_ok (g_heap (h_g s2)) (g_stack (h_g s2)) p (measurement s2) tail
                (current_stack_ok s2 Hw2) Hp2) as [Hok Hpush].
  destruct (lmprof_stack_event_push _ _ _ _) as [[i|] stk'] eqn:E; [|apply okR_error; done].
  destruct Hpush as (-> & Hh' & Hlt). cbn in Hok.
  eapply okR_bind; [apply okR_put_stack; done|]. intros u3 s3 Hw3 _ E3. cbn in E3. subst s3.
  eapply okR_mono; [apply okR_scope; [done|]|done].
  apply live_rec_at; [done|]. split; [cbn; rewrite (quiet_has_stack _ _ Hq2); done|cbn; lia].
Qed.

Lemma counters_ok hp ic il stk : stack_ok hp stk -> stack_ok hp (set_stack_counters ic il stk).
Proof. intros ([Hl Hh] & Ha & Hf). split_and!; [split|..]; done. Qed.

Lemma okR_isample s i line :
  trace_wf s -> live_at s i -> okR s (traceevent_isample cap i line s) (fun _ s' => quiet s s').
Proof.
  intros Hw Hl. destruct (live_frame s i Hw Hl) as (fr & p & r & Hfr & _).
  unfold traceevent_isample. rewrite (bind_frame i fr) by apply Hl || done. rewrite bind_gets.
  eapply okR_bind; [apply (okR_with_tl _ _ (fun _ s' => quiet s s')); [done| |apply quiet_set_tl]|].
  - intros tl. apply step_sample.
  - intros c s1 Hw1 _ Hq1. apply okR_ret; done.
Qed.

Lemma okR_count s :
  trace_wf s -> h_has_stack s = true -> okR s (trace_count cap conf s) (fun _ _ => True).
Proof.
  intros Hw Hs. unfold trace_count. rewrite bind_need_stack by done.
  eapply okR_bind; [apply okR_modify_g; done|]. intros u1 s1 Hw1 _ Hc1.
  destruct Hc1 as (Hs1 & _ & _ & _ & _ & Hk1).
  eapply okR_bind; [apply okR_put_stack; [done|]|].
  { apply counters_ok. rewrite <- Hk1. apply current_stack_ok; done. }
  intros u2 s2 Hw2 _ E2. cbn in E2. subst s2.
  eapply (okR_bind _ _ _ (fun _ s' => h_has_stack s' = true)).
  { unfold lmprof_stack_peek. case_decide as Hh; [|apply okR_ret; [done|cbn; congruence]].
    eapply okR_mono; [apply okR_isample; [done|split; cbn; [congruence|lia]]|].
    intros u3 s3 Hq3. rewrite (quiet_has_stack _ _ Hq3). cbn. congruence. }
  intros u3 s3 Hw3 _ Hs3. rewrite bind_gets, bind_need_stack by done.
  eapply okR_mono; [apply okR_put_stack; [done|apply counters_ok, current_stack_ok; done]|]. done.
Qed.

Lemma okR_line s cl :
  trace_wf s -> h_has_stack s = true -> okR s (trace_line cap cl s) (fun _ _ => True).
Proof.
  intros Hw Hs. unfold trace_line. rewrite bind_need_stack by done.
  unfold lmprof_stack_peek. case_decide as Hh; [|apply okR_ret; done].
  assert (Hl : live_at s (head (g_stack (h_g s)) - 1)) by (split; [done|lia]).
  eapply okR_bind; [apply okR_isample; done|]. intros u1 s1 Hw1 _ Hq1. cbn in Hq1.
  rewrite bind_gets.
  destruct (live_frame s1 (head (g_stack (h_g s)) - 1) Hw1) as (fr & p & r & Hfr & _);
    [split; [rewrite (quiet_has_stack _ _ Hq1); done|rewrite (quiet_head _ _ Hq1); lia]|].
  rewrite (bind_frame _ fr) by (rewrite ?(quiet_has_stack _ _ Hq1); done).
  eapply okR_mono; [apply (okR_put_frame s1 _ fr); done|]. done.
Qed.

Lemma okR_instrument al levels L ev t0 t1 t2 s :
  trace_wf s -> tc_instrument conf = true ->
  okR s (traceevent_instrument record_populate function_is_ignored cap conf al levels L ev
           t0 t1 t2 s) (fun _ _ => True).
Proof.
  intros Hw Hi. unfold traceevent_instrument.
  eapply okR_bind; [apply okR_prehook; done|]. intros go s1 Hw1 _ Hgo.
  destruct go; cbn [negb]; [|apply okR_ret; done]. specialize (Hgo eq_refl).
  eapply (okR_bind _ _ _ (fun _ _ => True)).
  { destruct ev as [fid is_stop tail ar|fid| |cl|].
    - destruct is_stop; [apply okR_ret; done|apply okR_call; done].
    - apply okR_return; done.
    - apply okR_count; done.
    - apply okR_line; done.
    - apply okR_error; done. }
  intros u2 s2 Hw2 _ _. unfold set_ignore_alloc.
  eapply okR_bind; [apply okR_modify_g; done|]. intros u3 s3 Hw3 _ _.
  eapply okR_mono; [apply okR_adjust; done|]. done.
Qed.

(** C1: every call of the trace hook with instrumentation, whatever the
    thread, the event, the clock readings and the allocation outcomes,
    keeps the invariant of the profiler state, never dereferences a NULL
    call stack or a NULL record, changes the timeline only through the
    emitters of lmprof_collections.c and never frees a record. *)
Theorem traceevent_instrument_wf al levels L ev t0 t1 t2 s :
  trace_wf s -> tc_instrument conf = true ->
  match traceevent_instrument record_populate function_is_ignored cap conf al levels L ev
          t0 t1 t2 s with
  | Done _ s' | Raised s' =>
      trace_wf s' /\ rtc (tl_step cap) (h_tl s) (h_tl s') /\
      heap_incl (g_heap (h_g s)) (g_heap (h_g s'))
  | Fault => False
  end.
Proof.
  intros Hw Hi. pose proof (okR_instrument al levels L ev t0 t1 t2 s Hw Hi) as Ho.
  destruct (traceevent_instrument _ _ _ _ _ _ _ _ _ _ _ _); [destruct Ho as (? & [? ?] & _)|
    destruct Ho as (? & [? ?])|done]; done.
Qed.

Lemma okR_frame s b t :
  trace_wf s -> okR s (traceevent_frame cap conf b t s) (fun _ _ => True).
Proof.
  intros Hw. unfold traceevent_frame, set_ignore_alloc.
  destruct (tc_trace conf); [|apply okR_ret; done].
  eapply okR_bind; [apply okR_modify_g; done|]. intros u1 s1 Hw1 _ _.
  eapply (okR_bind _ _ _ (fun _ _ => True)).
  { destruct (tc_draw_frame conf); [apply okR_ret; done|]. rewrite bind_gets.
    eapply okR_mono; [apply okR_emit_drop; [done|]|done].
    intros tl. destruct b; [apply step_beginframe|apply step_endframe]. }
  intros u2 s2 Hw2 _ _. eapply okR_mono; [apply okR_modify_g; done|done].
Qed.

(** Pause and resume, whatever their outcome. *)
Lemma okR_pause_any t s :
  trace_wf s -> okR s (lmprof_pause_execution cap conf t s) (fun _ _ => True).
Proof.
  intros Hw. unfold lmprof_pause_execution. rewrite bind_gets. cbn [id].
  destruct (_ && _) eqn:G; [|apply okR_ret; done].
  rewrite !andb_true_iff in G. destruct G as [[[Hs _] _] _].
  eapply okR_mono; [apply okR_pause_body; [done|]|done].
  intros s1 Hw1 [Hs1 _]. apply okR_clear; [done|]. rewrite Hs1. auto.
Qed.

Lemma okR_resume_any t s :
  trace_wf s -> okR s (lmprof_resume_execution cap conf t s) (fun _ _ => True).
Proof.
  intros Hw. unfold lmprof_resume_execution. rewrite bind_gets. cbn [id].
  destruct (_ && _) eqn:G; [|apply okR_ret; done].
  rewrite !andb_true_iff in G. destruct G as [[[Hs _] _] _].
  eapply okR_mono; [apply okR_pause_body; [done|]|done].
  intros s1 Hw1 [Hs1 _]. apply okR_append; [done|]. rewrite Hs1. auto.
Qed.

(** ** Runs of the trace profiler *)

(** The state an outcome leaves, unless it is a fault. *)
Definition next_state {A} (o : @outcome T A) : option HS :=
  match o with Done _ s' | Raised s' => Some s' | Fault => None end.

(** The entry points of the trace profiler: the hook, pause, resume and
    the frame boundaries of the API. *)
Inductive trace_step : HS -> HS -> Prop :=
  | tstep_hook al levels L ev t0 t1 t2 s s' :
      next_state (traceevent_instrument record_populate function_is_ignored cap conf al levels L
                    ev t0 t1 t2 s) = Some s' -> trace_step s s'
  | tstep_pause t s s' :
      next_state (lmprof_pause_execution cap conf t s) = Some s' -> trace_step s s'
  | tstep_resume t s s' :
      next_state (lmprof_resume_execution cap conf t s) = Some s' -> trace_step s s'
  | tstep_frame b t s s' :
      next_state (traceevent_frame cap conf b t s) = Some s' -> trace_step s s'.

(** The profiler state once lmprof_initialize_profiler has run: an empty
    record table [t], the timeline of [timeline_new], no thread observed
    yet, running and ignoring the call of start. *)
Definition trace_init_state (t : T) (mainproc : EventProcess) (pageLimitBytes base : Z) : HS :=
  mkH (mkG t ∅ 0 0 (lmprof_stack_new 0 (tc_callback conf)) unit_clear 0 0 true true false false)
      false None mainproc mainproc (set_baseTime (timeline_new pageLimitBytes) base) false
      empty_threads.

Lemma okR_next {A} s (o : @outcome T A) Q s' : okR s o Q -> next_state o = Some s' -> trace_wf s'.
Proof. destruct o; cbn; intros Ho [= <-]; apply Ho. Qed.

Lemma trace_init_state_wf t mainproc bytes base :
  table_wf ∅ t -> 0 <= bytes -> trace_wf (trace_init_state t mainproc bytes base).
Proof.
  intros Ht Hb. pose proof (timeline_new_wf cap cap_pos bytes Hb) as [W1 W2 W3 W4 W5].
  constructor; cbn.
  - constructor; cbn; try done; [apply lmprof_stack_new_wf|intros k fr Hk; cbn in Hk; lia].
  - constructor; done.
  - intros L stk. rewrite lookup_empty. done.
  - intros _ [? ?]. done.
Qed.

(** C7: every state of a run of the trace profiler with instrumentation,
    from its initial state and under any sequence of hook calls, pauses,
    resumes and frame boundaries, satisfies the invariant. *)
Theorem trace_reachable_wf t mainproc bytes base s :
  tc_instrument conf = true -> table_wf ∅ t -> 0 <= bytes ->
  rtc trace_step (trace_init_state t mainproc bytes base) s -> trace_wf s.
Proof.
  intros Hi Ht Hb Hr. pose proof (trace_init_state_wf t mainproc bytes base Ht Hb) as Hw.
  induction Hr as [|x y z Hs _ IH]; [done|]. apply IH.
  destruct Hs as [al levels L ev t0 t1 t2 s s' E|t0 s s' E|t0 s s' E|b t0 s s' E];
    (eapply okR_next; [|exact E]).
  - apply okR_instrument; done.
  - apply okR_pause_any; done.
  - apply okR_resume_any; done.
  - apply okR_frame; done.
Qed.

End Wf.

(** * A concrete run *)

Lemma ex_cap_pos : (0 < 4)%nat.
Proof. lia. Qed.

Definition ex_init : @HState lmprof_Hash :=
  trace_init_state ex_tconf (lmprof_hash_create 7) (mkProcess 1 3) 0 5.

Lemma ex_init_wf : trace_wf 4 ex_tconf ex_init.
Proof.
  apply (trace_init_state_wf 4 ex_cap_pos); [apply lmprof_hash_create_wf; lia|lia].
Qed.

(** The state after the first hook call of the run: the call of
    function 10 on thread 1 (the start call itself is ignored). *)
Definition ex_call : option (@HState lmprof_Hash) :=
  next_state (traceevent_instrument ex_populate ex_ignored 4 ex_tconf ex_ok [] 1
                (HookCall 10 false false ex_ar) 5 6 7 ex_init).
Definition ex_s1 : @HState lmprof_Hash := default ex_init ex_call.

Lemma traceevent_instrument_wf_witness :
  trace_wf 4 ex_tconf ex_init /\
  match traceevent_instrument ex_populate ex_ignored 4 ex_tconf ex_ok [] 1
          (HookCall 10 false false ex_ar) 5 6 7 ex_init with
  | Done _ s' | Raised s' =>
      trace_wf 4 ex_tconf s' /\ rtc (tl_step 4) (h_tl ex_init) (h_tl s') /\
      heap_incl (g_heap (h_g ex_init)) (g_heap (h_g s'))
  | Fault => False
  end.
Proof.
  split; [apply ex_init_wf|].
  apply (traceevent_instrument_wf ex_populate ex_ignored 4 ex_cap_pos ex_tconf); [apply ex_init_wf|reflexivity].
Defined.

Lemma trace_reachable_wf_witness : trace_wf 4 ex_tconf ex_s1.
Proof.
  apply (trace_reachable_wf ex_populate ex_ignored 4 ex_cap_pos ex_tconf
           (lmprof_hash_create 7) (mkProcess 1 3) 0 5); [reflexivity|apply lmprof_hash_create_wf; lia|lia|].
  apply rtc_once. apply (tstep_hook _ _ _ _ ex_ok [] 1 (HookCall 10 false false ex_ar) 5 6 7).
  vm_compute. reflexivity.
Defined.

Lemma lmprof_pause_execution_spec_witness :
  trace_wf 4 ex_tconf ex_init /\
  okR 4 ex_tconf ex_init (lmprof_pause_execution 4 ex_tconf 8 ex_init)
    (fun b s' => b = h_has_stack ex_init && negb (h_paused ex_init) && tc_instrument ex_tconf &&
                     tc_callback ex_tconf /\
                 h_paused s' = b || h_paused ex_init /\ same_frames ex_init s').
Proof. split; [apply ex_init_wf|apply (lmprof_pause_execution_spec 4 ex_cap_pos ex_tconf 8 ex_init ex_init_wf)]. Defined.

Lemma lmprof_resume_execution_spec_witness :
  trace_wf 4 ex_tconf ex_init /\
  okR 4 ex_tconf ex_init (lmprof_resume_execution 4 ex_tconf 8 ex_init)
    (fun b s' => b = h_has_stack ex_init && h_paused ex_init && tc_instrument ex_tconf &&
                     tc_callback ex_tconf /\
                 h_paused s' = negb b && h_paused ex_init /\ same_frames ex_init s').
Proof. split; [apply ex_init_wf|apply (lmprof_resume_execution_spec 4 ex_cap_pos ex_tconf 8 ex_init ex_init_wf)]. Defined.

End TraceWf.
