(* ===== verification/GraphHook.v ===== *)
(** * The graph hooks: graph_prehook, graph_instrument and graph_sample

    In graph mode (no LMPROF_CALLBACK_MASK bit) lmprof_initialize_only_hooks
    (lmprof_lib.c) installs graph_instrument when the mode has
    LMPROF_MODE_INSTRUMENT or LMPROF_MODE_MEMORY, and graph_sample for
    LMPROF_MODE_SAMPLE without instrumentation.  Both start with
    graph_prehook: the hook gives up (and removes itself, which is not
    modelled) when the profiler is in a callback or time mode, in error, or
    not running; it ignores the threads other than the main one in
    single-thread mode and the call flagged LMPROF_STATE_IGNORE_CALL; then
    it reads the clock, charges the calibration and suspends allocation
    counting ([hook_entry] of Graph.v).  When the hook runs on another
    thread than the last one, [st->thread.state] becomes that thread and
    [st->thread.call_stack] NULL; with instrumentation the thread's stack
    is fetched from the registry (lmprof_thread_stacktable_get, created on
    first use), the thread identifier of the running measurement becomes
    the stack's, and the overhead is adjusted.  graph_instrument then
    dereferences the call stack in every case but the unknown event and
    runs the body [graph_dispatch] of Graph.v.

    The state is the profiler state [HState] of Trace.v, run in its hook
    monad: [Done], [Raised] for the Lua error of lmprof_error, [Fault] for a
    NULL dereference.  The clock readings, allocation outcomes and the Lua
    stack are inputs.  The stack of the registry is a userdata allocated by
    lua_newuserdata, which raises on failure, so the NULL test after
    lmprof_thread_stacktable_get ("could not allocate local stack") never
    succeeds and is not modelled.

    The theorems show that with instrumentation every state a run reaches
    is well formed (the invariant of TraceWf.v, or, after the error of a
    failed record allocation during the fetch of a new thread's stack, the
    same invariant with the call stack NULL) and that the hook never
    dereferences NULL; that a call or a return on the current thread does
    what the code means; and that without instrumentation (the "memory"
    mode) the first event on a thread dereferences the NULL call stack. *)

From S2P Require Import Common Unit Record Hash Stack Timeline Graph Sample Trace TraceWf.
Import Unit Record Hash Stack Timeline Graph Sample Trace TraceWf.

Module GraphHook.

Section Hook.

Context `{RecordTable T}.
Variable record_populate : option ActRecord -> Z -> FunctionInfo -> FunctionInfo.
Variable function_is_ignored : Z -> bool.
Variable conf : TraceConf.
(** [st->mode & LMPROF_MODE_TIME] *)
Variable time_mode : bool.

Abbreviation HS := (@HState T).

(** With instrumentation, the stack [stk] of the new thread becomes the
    call stack: [st->thread.call_stack = stk], the thread identifier of the
    running measurement becomes the stack's, and PROFILE_ADJUST_OVERHEAD
    runs with the clock read [t1]. *)
Definition take_stack (L t1 : Z) (stk : lmprof_Stack) : @hook T unit :=
  put_stack stk ;;
  modify (fun s => set_current s true (Some L)) ;;
  modify (fun s => set_proc s (mkProcess (pid (h_proc s)) (thread_identifier stk))) ;;
  adjust_overhead t1.

(** The change of thread of graph_prehook: [st->thread.state = L] and
    [st->thread.call_stack = NULL], then, with instrumentation, the fetch
    of the thread's stack.  The stack of the thread left goes back to the
    registry first ([save_stack], see Trace.v). *)
Definition graph_switch (al : Allocs) (levels : list Level) (L : Z) (t1 : Z) : @hook T unit :=
  save_stack ;;
  modify (fun s => set_current s false (Some L)) ;;
  if tc_instrument conf then
    stk ← lmprof_thread_stacktable_get record_populate function_is_ignored conf al levels L;
    take_stack L t1 stk
  else mret ().

(** graph_prehook on thread [L], the clock read at entry ([t0]) and after
    the change of thread ([t1]): whether the hook goes on. *)
Definition graph_prehook (al : Allocs) (levels : list Level) (L : Z) (t0 t1 : Z) : @hook T bool :=
  s ← gets id;
  let g := h_g s in
  if tc_callback conf || time_mode || g_error g || negb (g_running g) then mret false
  else if tc_single_thread conf && bool_decide (tc_main conf <> L) then mret false
  else
    let '(g1, go) := hook_entry (tc_graph conf) t0 g in
    modify (fun s => set_g s g1) ;;
    if negb go then mret false
    else
      (if bool_decide (h_thread s <> Some L) then graph_switch al levels L t1 else mret ()) ;;
      mret true.

(** graph_instrument: [stack = st->thread.call_stack] is dereferenced by
    every case but the unknown event; the clock is read at exit ([t2]). *)
Definition graph_instrument (al : Allocs) (levels : list Level) (L : Z) (ev : HookEvent)
    (t0 t1 t2 : Z) : @hook T unit :=
  go ← graph_prehook al levels L t0 t1;
  if negb go then mret ()
  else
    match ev with
    | HookUnknown => lmprof_error
    | _ =>
        _ ← need_stack;
        lift_g (graph_dispatch record_populate function_is_ignored (tc_graph conf) al ev t2)
    end.

(** graph_sample: on a count event the Lua stack [slevels] is sampled
    (lmprof_sample_stack, Sample.v); the call stack is not used. *)
Definition graph_sample (al : Allocs) (levels : list Level) (L : Z) (ev : HookEvent)
    (slevels : list StackLevel) (t0 t1 t2 : Z) : @hook T unit :=
  go ← graph_prehook al levels L t0 t1;
  if negb go then mret ()
  else
    lift_g (fun g =>
      let '(g2, ok) :=
        match ev with
        | HookCount =>
            lmprof_sample_stack record_populate function_is_ignored (tc_graph conf) al slevels
              (add_mask_count (tc_graph conf) g)
        | _ => (g, true)
        end in
      if ok then sample_post t2 g2 else g2).

(** The profiler state once lmprof_initialize_profiler has run for the
    graph hook: an empty record table [t], no thread observed yet and no
    call stack (lmprof_initialize_state), running, the state flags
    LMPROF_STATE_IGNORE_ALLOC and LMPROF_STATE_IGNORE_CALL cleared, and the
    clock read [now] into [st->thread.r.s]. *)
Definition graph_init_hstate (t : T) (mainproc : EventProcess) (now : Z) : HS :=
  mkH (mkG t ∅ 0 0 (lmprof_stack_new 0 false) (mkUnit now 0 0) 0 0 true false false false)
      false None mainproc mainproc (timeline_new 0) false empty_threads.

(** ** Memory-only profiling *)

(** C13: In graph mode without LMPROF_MODE_INSTRUMENT (the "memory" mode,
    for which graph_instrument is installed) no call stack is ever
    fetched: the first event other than an unknown one that reaches
    graph_instrument on a thread it has not seen last dereferences the
    NULL call stack. *)
Theorem graph_instrument_memory_fault al levels L ev t0 t1 t2 (s : HS) :
  tc_instrument conf = false -> tc_callback conf = false -> time_mode = false ->
  tc_single_thread conf = false ->
  g_running (h_g s) = true -> g_error (h_g s) = false -> g_ignore_call (h_g s) = false ->
  h_thread s <> Some L -> ev <> HookUnknown ->
  graph_instrument al levels L ev t0 t1 t2 s = Fault.
Proof.
  intros Hi Hc Ht Hst Hr He Hic HL Hev.
  unfold graph_instrument, graph_prehook, hook_entry. hook_simpl.
  rewrite Hc, Ht, He, Hr, Hst, Hic. cbn. rewrite bool_decide_true by done.
  unfold graph_switch, save_stack. hook_simpl.
  destruct (h_thread s) as [L'|]; [destruct (h_has_stack s)|];
    unfold store_stack, put_threads; hook_simpl; rewrite Hi; hook_simpl;
    destruct ev; try done; unfold need_stack; cbn; done.
Qed.

End Hook.

(** ** Programs that do not touch the current thread *)

Section Frame.

Context `{RecordTable T}.
Variable record_populate : option ActRecord -> Z -> FunctionInfo -> FunctionInfo.
Variable function_is_ignored : Z -> bool.
Variable conf : TraceConf.

Abbreviation HS := (@HState T).

(** The state of an outcome, changed by [f]. *)
Definition on_state {A} (f : HS -> HS) (o : @outcome T A) : @outcome T A :=
  match o with Done a s => Done a (f s) | Raised s => Raised (f s) | Fault => Fault end.

(** A program that neither reads nor writes [st->thread.state] and the
    call stack pointer: it commutes with setting them. *)
Definition cur_free {A} (m : @hook T A) : Prop :=
  forall s b x, m (set_current s b x) = on_state (fun s' => set_current s' b x) (m s).

(** A program that raises only with LMPROF_STATE_ERROR set. *)
Definition err_raised {A} (m : @hook T A) : Prop :=
  forall s s', m s = Raised s' -> g_error (h_g s') = true.

Lemma bind_hook_eq {A B} (m : @hook T A) (k : A -> @hook T B) s :
  (m ≫= k) s = match m s with Done a s' => k a s' | Raised s' => Raised s' | Fault => Fault end.
Proof. reflexivity. Qed.

Lemma cur_free_bind {A B} (m : @hook T A) (k : A -> @hook T B) :
  cur_free m -> (forall a, cur_free (k a)) -> cur_free (m ≫= k).
Proof. intros Hm Hk s b x. rewrite !bind_hook_eq, Hm. destruct (m s); cbn; [apply Hk|done|done]. Qed.

Lemma cur_free_ret {A} (a : A) : cur_free (mret (M := @hook T) a).
Proof. intros s b x. reflexivity. Qed.

Lemma cur_free_gets {A} (f : HS -> A) :
  (forall s b x, f (set_current s b x) = f s) -> cur_free (gets f).
Proof. intros Hf s b x. unfold gets. rewrite Hf. done. Qed.

Lemma cur_free_modify (f : HS -> HS) :
  (forall s b x, f (set_current s b x) = set_current (f s) b x) -> cur_free (modify f).
Proof. intros Hf s b x. unfold modify. rewrite Hf. done. Qed.

Lemma err_raised_bind {A B} (m : @hook T A) (k : A -> @hook T B) :
  err_raised m -> (forall a, err_raised (k a)) -> err_raised (m ≫= k).
Proof. intros Hm Hk s s'. rewrite bind_hook_eq. destruct (m s) eqn:E; [apply Hk|intros [= ->]; eauto|done]. Qed.

Lemma err_raised_ret {A} (a : A) : err_raised (mret (M := @hook T) a).
Proof. intros s s'. done. Qed.

Lemma err_raised_gets {A} (f : HS -> A) : err_raised (gets f).
Proof. intros s s'. done. Qed.

Lemma err_raised_modify (f : HS -> HS) : err_raised (modify f).
Proof. intros s s'. done. Qed.

Lemma cur_free_fetch al ar fid pid : cur_free (fetch record_populate function_is_ignored conf al ar fid pid).
Proof. intros s b x. unfold fetch. cbn. destruct (lmprof_fetch_record _ _ _ _ _ _ _ _) as [[p|] g']; done. Qed.

Lemma err_raised_fetch al ar fid pid : err_raised (fetch record_populate function_is_ignored conf al ar fid pid).
Proof.
  intros s s'. unfold fetch, lmprof_fetch_record.
  repeat case_match; intros; simplify_eq; done.
Qed.

End Frame.

Ltac cur_free_tac :=
  repeat first
    [ apply cur_free_bind; [|intros ?]
    | apply cur_free_ret
    | apply cur_free_gets; intros; reflexivity
    | apply cur_free_modify; intros; reflexivity
    | apply cur_free_fetch
    | progress case_match ].

Ltac err_raised_tac :=
  repeat first
    [ apply err_raised_bind; [|intros ?]
    | apply err_raised_ret
    | apply err_raised_gets
    | apply err_raised_modify
    | apply err_raised_fetch
    | progress case_match ].

Section Fetch.

Context `{RecordTable T}.
Variable record_populate : option ActRecord -> Z -> FunctionInfo -> FunctionInfo.
Variable function_is_ignored : Z -> bool.
Variable conf : TraceConf.

Lemma cur_free_load al L levels last stk :
  cur_free (load_levels record_populate function_is_ignored conf al L levels last stk).
Proof.
  revert last stk. induction levels as [|lv levels IH]; intros last stk; cbn; [apply cur_free_ret|].
  unfold store_stack, put_threads. cur_free_tac; apply IH.
Qed.

Lemma err_raised_load al L levels last stk :
  err_raised (load_levels record_populate function_is_ignored conf al L levels last stk).
Proof.
  revert last stk. induction levels as [|lv levels IH]; intros last stk; cbn; [apply err_raised_ret|].
  unfold store_stack, put_threads. err_raised_tac; apply IH.
Qed.

Lemma cur_free_stacktable_get al levels L :
  cur_free (lmprof_thread_stacktable_get record_populate function_is_ignored conf al levels L).
Proof. unfold lmprof_thread_stacktable_get, store_stack, put_threads. cur_free_tac; apply cur_free_load. Qed.

Lemma err_raised_stacktable_get al levels L :
  err_raised (lmprof_thread_stacktable_get record_populate function_is_ignored conf al levels L).
Proof. unfold lmprof_thread_stacktable_get, store_stack, put_threads. err_raised_tac; apply err_raised_load. Qed.

End Fetch.

(** ** The invariant of the graph hook with instrumentation *)

Section Wf.

Context `{RecordTable T}.
Variable record_populate : option ActRecord -> Z -> FunctionInfo -> FunctionInfo.
Variable function_is_ignored : Z -> bool.
Variable cap : nat.
Hypothesis cap_pos : (0 < cap)%nat.
Variable conf : TraceConf.
Variable time_mode : bool.
(** The graph hook runs without a callback mode bit. *)
Hypothesis graph_mode : tc_callback conf = false.

Abbreviation HS := (@HState T).
Abbreviation wf := (trace_wf cap conf).
Abbreviation stacktable_get := (lmprof_thread_stacktable_get record_populate function_is_ignored conf).
Abbreviation prehook := (graph_prehook record_populate function_is_ignored conf time_mode).
Abbreviation instrument := (graph_instrument record_populate function_is_ignored conf time_mode).

(** The state of a run: the invariant of TraceWf.v (with stacks of the
    graph kind), or the state the error of a failed record allocation
    leaves while the stack of a new thread is fetched, where the error flag
    is set and the call stack pointer already NULL. *)
Definition ghook_wf (s : HS) : Prop :=
  wf s \/
  (g_error (h_g s) = true /\ h_has_stack s = false /\ wf (set_current s true (h_thread s))).

Lemma bind_done {A B} (m : @hook T A) (k : A -> @hook T B) s a s1 :
  m s = Done a s1 -> (m ≫= k) s = k a s1.
Proof. intros E. rewrite bind_hook_eq, E. done. Qed.

Lemma save_stack_done (s : HS) : exists s1, save_stack s = Done () s1.
Proof. unfold save_stack. rewrite bind_gets. cbn. repeat case_match; eexists; reflexivity. Qed.

Lemma wf_current_true s y : wf s -> wf (set_current s true y).
Proof. intros []. constructor; done. Qed.

Lemma take_stack_current L t1 stk s b x :
  @take_stack T L t1 stk (set_current s b x) = @take_stack T L t1 stk s.
Proof. reflexivity. Qed.

(** The change of thread, with the fetch moved before the assignments of
    [st->thread.state] and [st->thread.call_stack]: the same run, except
    that an error raised by the fetch leaves the pointer NULL. *)
Lemma graph_switch_reorder al levels L t1 s :
  tc_instrument conf = true ->
  graph_switch record_populate function_is_ignored conf al levels L t1 s =
  match (save_stack ;; stk ← stacktable_get al levels L; @take_stack T L t1 stk) s with
  | Raised s' => Raised (set_current s' false (Some L))
  | o => o
  end.
Proof.
  intros Hi. unfold graph_switch. rewrite Hi.
  destruct (save_stack_done s) as [s1 Hs1]. rewrite !(bind_done _ _ _ _ _ Hs1).
  rewrite (bind_done (modify _) _ s1 () _ eq_refl), !bind_hook_eq, cur_free_stacktable_get.
  destruct (stacktable_get al levels L s1); cbn [on_state]; [apply take_stack_current|done|done].
Qed.

Lemma err_raised_switch al levels L t1 :
  err_raised (save_stack ;; stk ← stacktable_get al levels L; @take_stack T L t1 stk).
Proof.
  apply err_raised_bind; [unfold save_stack, store_stack, put_threads; err_raised_tac|intros _].
  apply err_raised_bind; [apply err_raised_stacktable_get|intros stk].
  unfold take_stack, put_stack, adjust_overhead, modify_g. err_raised_tac.
Qed.

(** The change of thread keeps the invariant and leaves the thread's
    stack as the call stack. *)
Lemma okR_graph_switch al levels L t1 s :
  wf s ->
  okR cap conf s ((save_stack ;; stk ← stacktable_get al levels L; @take_stack T L t1 stk) s)
    (fun _ s' => h_has_stack s' = true /\ h_thread s' = Some L).
Proof.
  intros Hw. eapply okR_bind; [apply okR_save_stack; done|].
  intros u2 s2 Hw2 _ _. eapply okR_bind; [apply okR_stacktable_get; done|].
  intros stk s3 Hw3 _ [Hok3 _]. unfold take_stack.
  eapply okR_bind; [apply okR_put_stack; done|].
  intros u4 s4 Hw4 _ E4. cbn in E4. subst s4.
  set (s5 := set_current (set_g s3 (set_gstack (h_g s3) stk)) true (Some L)).
  assert (Hw5 : wf s5) by (destruct Hw4; constructor; done).
  eapply (okR_bind cap conf _ _ _ (fun _ s' => s' = s5));
    [apply okR_modify; [done|split; [apply rtc_refl|intros ? ?; done]|done]|].
  intros u5 s5' _ _ ->.
  eapply (okR_bind cap conf _ _ _ (fun _ s' => h_has_stack s' = true /\ h_thread s' = Some L)).
  { apply okR_modify; [destruct Hw5; constructor; done|split; [apply rtc_refl|intros ? ?; done]|done]. }
  intros u6 s6 Hw6 _ [Hs6 Ht6]. eapply okR_mono; [apply okR_adjust; done|].
  intros u7 s7 (Hs7 & Ht7 & _). rewrite Hs7, Ht7. done.
Qed.

(** graph_prehook on a well-formed state with instrumentation: it does
    not fault; when it goes on the call stack is not NULL; an error it
    raises leaves a state of the run. *)
Lemma prehook_ok al levels L t0 t1 s :
  wf s -> tc_instrument conf = true ->
  match prehook al levels L t0 t1 s with
  | Done go s' => wf s' /\ (go = true -> h_has_stack s' = true)
  | Raised s' => ghook_wf s'
  | Fault => False
  end.
Proof.
  intros Hw Hi. unfold graph_prehook. rewrite bind_gets. cbn [id].
  destruct (_ || _ || _ || _); [split; [done|discriminate]|].
  destruct (_ && _); [split; [done|discriminate]|].
  pose proof (entry_fields (tc_graph conf) t0 (h_g s)) as (E1 & E2 & E3 & E4 & E5 & _).
  destruct (hook_entry (tc_graph conf) t0 (h_g s)) as [g1 go]. cbn in E1, E2, E3, E4, E5.
  assert (Hw1 : wf (set_g s g1)) by (apply wf_set_g; done).
  rewrite (bind_done (modify _) _ s () _ eq_refl).
  destruct go; cbn [negb]; [|split; [done|discriminate]].
  case_bool_decide as Ht.
  - rewrite bind_hook_eq, graph_switch_reorder by done.
    pose proof (okR_graph_switch al levels L t1 (set_g s g1) Hw1) as Ho.
    pose proof (err_raised_switch al levels L t1 (set_g s g1)) as Herr.
    destruct ((save_stack ;; stk ← stacktable_get al levels L; @take_stack T L t1 stk) (set_g s g1))
      as [[] s2|s2|] eqn:Eo; cbn in Ho |- *; [|right|done].
    + destruct Ho as (Hw2 & _ & Hs2 & _). split; [done|intros _; done].
    + split_and!; [apply (Herr _ eq_refl)|done|exact (wf_current_true s2 (Some L) (proj1 Ho))].
  - cbn. split; [done|intros _]. apply (tw_current _ _ _ Hw Hi).
    destruct (h_thread s); [done|]. congruence.
Qed.

(** The body of the hook on a non-NULL call stack keeps the invariant. *)
Lemma dispatch_ok al ev t2 s :
  wf s -> h_has_stack s = true ->
  match (_ ← need_stack; lift_g (graph_dispatch record_populate function_is_ignored (tc_graph conf) al ev t2)) s
  with Done _ s' | Raised s' => wf s' | Fault => False end.
Proof.
  intros Hw Hs. rewrite bind_need_stack by done. unfold lift_g.
  pose proof (tw_g _ _ _ Hw) as Hg. rewrite graph_mode in Hg.
  assert (Hw' : wf (set_g s (graph_dispatch record_populate function_is_ignored (tc_graph conf) al ev t2 (h_g s)))).
  { apply wf_set_g_grow; try done; [rewrite graph_mode; apply graph_dispatch_wf, Hg|].
    apply graph_dispatch_grows, Hg. }
  destruct (g_error _); done.
Qed.

Lemma okw_ghook {A} (o : @outcome T A) :
  match o with Done _ s' | Raised s' => wf s' | Fault => False end ->
  match o with Done _ s' | Raised s' => ghook_wf s' | Fault => False end.
Proof. destruct o; [left|left|]; done. Qed.

(** One call of graph_instrument from a state of a run: no NULL pointer is
    dereferenced and the state it leaves is a state of a run. *)
Lemma instrument_ok al levels L ev t0 t1 t2 s :
  ghook_wf s -> tc_instrument conf = true ->
  match instrument al levels L ev t0 t1 t2 s with
  | Done _ s' | Raised s' => ghook_wf s'
  | Fault => False
  end.
Proof.
  intros Hs Hi. destruct Hs as [Hw|(He & Hns & Hw)].
  - unfold graph_instrument. rewrite bind_hook_eq.
    pose proof (prehook_ok al levels L t0 t1 s Hw Hi) as Hp.
    destruct (prehook al levels L t0 t1 s) as [go s1|s1|]; [|done|done].
    destruct Hp as [Hw1 Hs1]. destruct go; cbn [negb]; [|left; done].
    specialize (Hs1 eq_refl).
    destruct ev; [apply okw_ghook, dispatch_ok; done..|].
    unfold lmprof_error. left. apply raise_wf, Hw1.
  - unfold graph_instrument, graph_prehook. rewrite bind_hook_eq, bind_gets. cbn [id].
    rewrite He, !orb_true_r. cbn. right. done.
Qed.

(** The hook calls of one profiling run. *)
Inductive ghook_step : HS -> HS -> Prop :=
  | gstep al levels L ev t0 t1 t2 s s' :
      next_state (instrument al levels L ev t0 t1 t2 s) = Some s' -> ghook_step s s'.

Lemma graph_init_hstate_wf t mainproc now : table_wf ∅ t -> wf (graph_init_hstate t mainproc now).
Proof.
  intros Ht. constructor; cbn.
  - rewrite graph_mode. constructor; cbn; try done;
      [apply lmprof_stack_new_wf|intros k fr Hk; cbn in Hk; lia].
  - apply timeline_new_wf; [done|lia].
  - intros L stk. rewrite lookup_empty. done.
  - intros _ [? ?]. done.
Qed.

(** C2: With instrumentation, every state of a run of the graph hook, from
    the state lmprof_initialize_profiler leaves and under any sequence of
    hook calls on any threads, satisfies the invariant (or is the state of
    the error of a failed record allocation while a new thread's stack was
    fetched), and no hook call from it dereferences a NULL pointer. *)
Theorem graph_reachable_wf t mainproc now s :
  tc_instrument conf = true -> table_wf ∅ t ->
  rtc ghook_step (graph_init_hstate t mainproc now) s ->
  ghook_wf s /\ forall al levels L ev t0 t1 t2, instrument al levels L ev t0 t1 t2 s <> Fault.
Proof.
  intros Hi Ht Hr. cut (ghook_wf s).
  { intros Hs. split; [done|]. intros al levels L ev t0 t1 t2 E.
    pose proof (instrument_ok al levels L ev t0 t1 t2 s Hs Hi) as Ho. rewrite E in Ho. done. }
  assert (Hw : ghook_wf (graph_init_hstate t mainproc now)) by (left; apply graph_init_hstate_wf, Ht).
  revert Hw. induction Hr as [x|x y z Hs _ IH]; intros Hw; [exact Hw|]. apply IH.
  destruct Hs as [al levels L ev t0 t1 t2 x y E].
  pose proof (instrument_ok al levels L ev t0 t1 t2 x Hw Hi) as Ho.
  destruct (instrument _ _ _ _ _ _ _ x); cbn in E; try (injection E as <-); done.
Qed.

(** graph_prehook on the thread it last ran on: the checks and the entry,
    no change of thread. *)
Lemma prehook_same_thread al levels L t0 t1 s :
  h_thread s = Some L ->
  prehook al levels L t0 t1 s =
    if tc_callback conf || time_mode || g_error (h_g s) || negb (g_running (h_g s)) then Done false s
    else if tc_single_thread conf && bool_decide (tc_main conf <> L) then Done false s
    else Done (hook_entry (tc_graph conf) t0 (h_g s)).2
              (set_g s (hook_entry (tc_graph conf) t0 (h_g s)).1).
Proof.
  intros HL. unfold graph_prehook. rewrite bind_gets. cbn [id].
  destruct (_ || _ || _ || _); [done|]. destruct (_ && _); [done|].
  destruct (hook_entry _ _ _) as [g1 go]. rewrite (bind_done (modify _) _ s () _ eq_refl).
  destruct go; [|done]. cbn [negb]. rewrite HL, bool_decide_false by congruence. done.
Qed.

(** The call stack of a well-formed state on its current thread is not
    NULL. *)
Lemma current_has_stack s L : wf s -> tc_instrument conf = true -> h_thread s = Some L -> h_has_stack s = true.
Proof. intros Hw Hi HL. apply (tw_current _ _ _ Hw Hi). rewrite HL. done. Qed.

(** C11: A call event on the thread the hook last ran on, for a function
    other than the profiler's stop, when the profiler is running, the
    allocations of lmprof_fetch_record succeed and the stack has room:
    the hook returns normally, pushes one frame on the call stack, for the
    record interned under (function, parent identifier of the caller's
    frame), keeps the invariant and raises no error. *)
Theorem graph_instrument_call al levels L fid tail ar t0 t1 t2 s :
  wf s -> tc_instrument conf = true -> time_mode = false ->
  g_running (h_g s) = true -> g_error (h_g s) = false -> g_ignore_call (h_g s) = false ->
  tc_single_thread conf = false \/ tc_main conf = L -> h_thread s = Some L ->
  a_record al = true -> a_bucket al = true ->
  (head (g_stack (h_g s)) < size (g_stack (h_g s)))%nat ->
  exists s', graph_instrument record_populate function_is_ignored conf time_mode al levels L
               (HookCall fid false tail ar) t0 t1 t2 s = Done () s' /\
    wf s' /\ g_error (h_g s') = false /\ h_thread s' = Some L /\
    head (g_stack (h_g s')) = S (head (g_stack (h_g s))) /\
    exists p, (record <$> stack (g_stack (h_g s')) !! head (g_stack (h_g s))) = Some (Some p) /\
      key_of (g_heap (h_g s')) p = Some (fid, parent_id (tc_graph conf) (h_g s)).
Proof.
  intros Hw Hi Ht Hr He Hic Hst HL Ha Hb Hh.
  pose proof (current_has_stack s L Hw Hi HL) as Hstk.
  unfold graph_instrument. rewrite bind_hook_eq, prehook_same_thread by done.
  rewrite graph_mode, Ht, He, Hr. cbn [orb negb].
  replace (tc_single_thread conf && bool_decide (tc_main conf <> L)) with false
    by (symmetry; destruct Hst as [-> | ->];
        [done|rewrite bool_decide_false by (intros Hn; apply Hn; done); apply andb_false_r]).
  pose proof (tw_g _ _ _ Hw) as Hg. rewrite graph_mode in Hg.
  pose proof (graph_wf_entry (tc_graph conf) t0 (h_g s) Hg) as Hg1.
  pose proof (entry_fields (tc_graph conf) t0 (h_g s)) as (Hs1 & Hh1 & Ht1 & He1 & Hn1 & _).
  assert (Hgo : (hook_entry (tc_graph conf) t0 (h_g s)).2 = true) by (unfold hook_entry; rewrite Hic; done).
  rewrite Hgo. cbn [negb].
  set (g1 := (hook_entry (tc_graph conf) t0 (h_g s)).1) in *.
  assert (Hw1 : wf (set_g s g1)) by (apply wf_set_g; done).
  pose proof (dispatch_ok al (HookCall fid false tail ar) t2 (set_g s g1) Hw1 Hstk) as Hd.
  rewrite bind_need_stack in Hd |- * by done. unfold lift_g in Hd |- *. cbn [h_g set_g] in Hd |- *.
  destruct (graph_call_succeeds record_populate function_is_ignored (tc_graph conf) al fid tail ar g1 Hg1 Ha Hb ltac:(rewrite Hs1; done))
    as [st2 Hc].
  destruct (graph_call_spec record_populate function_is_ignored _ _ _ _ _ _ _ Hg1 Hc)
    as (Hwf2 & Hh2 & fr & p & Hfr & Hrec & Hk & _).
  assert (He2 : g_error st2 = false).
  { unfold graph_call in Hc. destruct (lmprof_fetch_record _ _ _ _ _ _ _ _) as [[p'|] st3] eqn:Hf; [|done].
    destruct (lmprof_stack_measured_push _ _ _ _) as [[i|] s'] eqn:Hp; [|done].
    injection Hc as <-. cbn. rewrite (fetch_record_error _ _ _ _ _ _ _ _ _ _ Hf). congruence. }
  destruct (post_fields t2 st2) as (Hhp & _ & Hep & Hhd & Hrecs).
  unfold graph_dispatch in Hd |- *. rewrite Hc in Hd |- *. rewrite Hep, He2 in Hd |- *.
  eexists; split; [reflexivity|]. cbn [h_g h_thread set_g]. split_and!; [done|rewrite Hep; done|done| |].
  - rewrite Hhd, Hh2, Hs1. done.
  - exists p. rewrite Hrecs, <- Hs1, Hfr. cbn [fmap option_fmap option_map].
    rewrite Hhp, Hrec, Hk. unfold parent_id, frame_at, frame_record. rewrite Hs1, Hh1. done.
Qed.

(** C19: A return event on the thread the hook last ran on, in any state of
    the profiler: the hook returns normally (the stack-mismatch error of
    check_stack_mismatch is never raised), keeps the invariant, and the
    call stack only shrinks, keeping its bottom frame (the function that
    started the profiler). *)
Theorem graph_instrument_return al levels L fid t0 t1 t2 s :
  wf s -> tc_instrument conf = true -> h_thread s = Some L ->
  exists s', graph_instrument record_populate function_is_ignored conf time_mode al levels L
               (HookRet fid) t0 t1 t2 s = Done () s' /\ wf s' /\
    g_error (h_g s') = g_error (h_g s) /\
    (head (g_stack (h_g s')) <= head (g_stack (h_g s)))%nat /\
    ((1 <= head (g_stack (h_g s)))%nat -> (1 <= head (g_stack (h_g s')))%nat).
Proof.
  intros Hw Hi HL. pose proof (current_has_stack s L Hw Hi HL) as Hstk.
  unfold graph_instrument. rewrite bind_hook_eq, prehook_same_thread by done.
  destruct (_ || _ || _ || _) eqn:Ec; [eexists; split; [reflexivity|]; split_and!; done|].
  destruct (_ && _); [eexists; split; [reflexivity|]; split_and!; done|].
  rewrite !orb_false_iff in Ec. destruct Ec as [[_ He] _].
  pose proof (tw_g _ _ _ Hw) as Hg. rewrite graph_mode in Hg.
  pose proof (graph_wf_entry (tc_graph conf) t0 (h_g s) Hg) as Hg1.
  pose proof (entry_fields (tc_graph conf) t0 (h_g s)) as (Hs1 & Hh1 & Ht1 & He1 & Hn1 & _).
  assert (Hw1 : wf (set_g s (hook_entry (tc_graph conf) t0 (h_g s)).1)) by (apply wf_set_g; done).
  destruct (hook_entry (tc_graph conf) t0 (h_g s)) as [g1 go]. cbn in Hg1, Hs1, He1, Hw1 |- *.
  destruct go; cbn [negb]; [|eexists; split; [reflexivity|]; cbn; split_and!; [done|done|rewrite Hs1; done..]].
  pose proof (dispatch_ok al (HookRet fid) t2 (set_g s g1) Hw1 Hstk) as Hd.
  rewrite bind_need_stack in Hd |- * by done. unfold lift_g in Hd |- *. cbn [h_g set_g] in Hd |- *.
  destruct (graph_return_spec (tc_graph conf) fid g1 Hg1)
    as (_ & Hh & H1 & Her).
  destruct (post_fields t2 (graph_return (tc_graph conf) fid g1))
    as (_ & _ & Hep & Hhd & _).
  assert (Edis : graph_dispatch record_populate function_is_ignored (tc_graph conf) al (HookRet fid) t2 g1 =
                 graph_post t2 (graph_return (tc_graph conf) fid g1))
    by reflexivity.
  rewrite Edis in Hd |- *. rewrite Hep, Her, He1, He in Hd |- *.
  eexists; split; [reflexivity|]. cbn [h_g set_g]. rewrite Hhd, <- Hs1. split_and!; [done|congruence|done|done].
Qed.

End Wf.

(** * A concrete graph profiler *)

(** Graph mode with instrumentation, and the memory-only mode. *)
Definition ex_gconf : TraceConf := mkTraceConf ex_conf false false true false false false false 1.
Definition ex_gconf_mem : TraceConf := mkTraceConf ex_conf false false false false false false false 1.

(** A running profiler that last ran on thread 1, its stack empty. *)
Definition ex_gs1 : @HState lmprof_Hash :=
  mkH (mkG (lmprof_hash_create 7) ∅ 0 0 (lmprof_stack_new 0 false) unit_clear 0 0 true false false false)
      true (Some 1) (mkProcess 1 3) (mkProcess 1 3) (timeline_new 0) false empty_threads.

(** A running profiler that has not run on a thread yet. *)
Definition ex_gs0 : @HState lmprof_Hash := set_current ex_gs1 false None.

Lemma ex_gs1_wf : trace_wf 4 ex_gconf ex_gs1.
Proof.
  constructor; cbn.
  - constructor; cbn; try done; [apply lmprof_hash_create_wf; lia|apply lmprof_stack_new_wf|].
    intros k fr Hk. cbn in Hk. lia.
  - apply timeline_new_wf; [exact ex_cap_pos|lia].
  - intros L stk. rewrite lookup_empty. done.
  - done.
Qed.

Lemma graph_instrument_memory_fault_witness :
  graph_instrument ex_populate ex_ignored ex_gconf_mem false ex_ok [] 1
    (HookCall 10 false false ex_ar) 5 6 7 ex_gs0 = Fault.
Proof.
  apply (graph_instrument_memory_fault ex_populate ex_ignored ex_gconf_mem false);
    first [reflexivity | discriminate].
Defined.

(** The state after the call of function 99 on thread 1 and then of
    function 10 on thread 2. *)
Definition ex_run : @HState lmprof_Hash :=
  let s0 := graph_init_hstate (lmprof_hash_create 7) (mkProcess 1 3) 0 in
  let s1 := default s0 (next_state (graph_instrument ex_populate ex_ignored ex_gconf false ex_ok [] 1
                                      (HookCall 99 false false ex_ar) 1 2 3 s0)) in
  default s1 (next_state (graph_instrument ex_populate ex_ignored ex_gconf false ex_ok [] 2
                            (HookCall 10 false false ex_ar) 5 6 7 s1)).

Lemma graph_reachable_wf_witness :
  ghook_wf 4 ex_gconf ex_run /\
  forall al levels L ev t0 t1 t2,
    graph_instrument ex_populate ex_ignored ex_gconf false al levels L ev t0 t1 t2 ex_run <> Fault.
Proof.
  apply (graph_reachable_wf ex_populate ex_ignored 4 ex_cap_pos ex_gconf false eq_refl
           (lmprof_hash_create 7) (mkProcess 1 3) 0); [reflexivity|apply lmprof_hash_create_wf; lia|].
  eapply rtc_l; [apply (gstep _ _ _ _ ex_ok [] 1 (HookCall 99 false false ex_ar) 1 2 3);
                 vm_compute; reflexivity|].
  apply rtc_once. apply (gstep _ _ _ _ ex_ok [] 2 (HookCall 10 false false ex_ar) 5 6 7).
  vm_compute. reflexivity.
Defined.

Lemma graph_instrument_call_witness :
  exists s', graph_instrument ex_populate ex_ignored ex_gconf false ex_ok [] 1
               (HookCall 10 false false ex_ar) 5 6 7 ex_gs1 = Done () s' /\
    trace_wf 4 ex_gconf s' /\ g_error (h_g s') = false /\ h_thread s' = Some 1 /\
    head (g_stack (h_g s')) = S (head (g_stack (h_g ex_gs1))) /\
    exists p, (record <$> stack (g_stack (h_g s')) !! head (g_stack (h_g ex_gs1))) = Some (Some p) /\
      key_of (g_heap (h_g s')) p = Some (10, parent_id (tc_graph ex_gconf) (h_g ex_gs1)).
Proof.
  apply (graph_instrument_call ex_populate ex_ignored 4 ex_cap_pos ex_gconf false eq_refl);
    [apply ex_gs1_wf|reflexivity..|left; reflexivity|reflexivity|reflexivity|reflexivity|vm_compute; lia].
Defined.

Lemma graph_instrument_return_witness :
  exists s', graph_instrument ex_populate ex_ignored ex_gconf false ex_ok [] 1
               (HookRet 10) 5 6 7 ex_gs1 = Done () s' /\ trace_wf 4 ex_gconf s' /\
    g_error (h_g s') = g_error (h_g ex_gs1) /\
    (head (g_stack (h_g s')) <= head (g_stack (h_g ex_gs1)))%nat /\
    ((1 <= head (g_stack (h_g ex_gs1)))%nat -> (1 <= head (g_stack (h_g s')))%nat).
Proof.
  apply (graph_instrument_return ex_populate ex_ignored 4 ex_cap_pos ex_gconf false eq_refl);
    [apply ex_gs1_wf|reflexivity|reflexivity].
Defined.

End GraphHook.
