(* ===== verification/Report.v ===== *)
(** * The graph report

    lmprof_report.c turns the record table of a graph profile (instrument,
    memory and sample modes) into a Lua table or into a Lua source file.
    This file models the values a report holds (lua_Integer casts, the
    hexadecimal identifier strings of snprintf with PRIxPTR, LMPROF_TIME_ADJ),
    the per-record callback graph_hash_callback in both its table and file
    branches, the header writer profiler_header, the bucket walk
    lmprof_hash_report and the statistics of lmprof_hash_debug
    (collections/lmprof_collections.c), the dispatcher graph_report and
    lmprof_push_report. *)

From Stdlib Require Import Ascii String.
From stdpp Require Import strings pretty.
From S2P Require Import Common Unit Record Hash Config.
Import Unit Record Hash Config.

Module Report.

(** ** Values of a report table *)

(** The values the report stores with luaL_settabss, luaL_settabsi,
    luaL_settabsb and luaL_settabsn, and the integer array of a record's
    line frequencies.  [RNum z] is a lua_Number holding the integral value
    [z]. *)
Inductive RVal :=
  | RStr (s : string)
  | RInt (z : Z)
  | RBool (b : bool)
  | RNum (z : Z)
  | RSeq (l : list Z).

(** A table filled by lua_setfield, in the order of the writes. *)
Abbreviation Row := (list (string * RVal)).

(** The value a read of field [k] finds: the last write wins. *)
Definition field_get {V} (k : string) (r : list (string * V)) : option V :=
  snd <$> last (filter (fun kv => kv.1 = k) r).

Definition LUA_MAXINTEGER : Z := 2 ^ 63 - 1.

(** l_cast(lua_Integer, v) of an unsigned 64-bit value: the bits are kept,
    so values above LUA_MAXINTEGER turn negative. *)
Definition to_lua_Integer (v : Z) : Z :=
  let w := wrap v in if w <=? LUA_MAXINTEGER then w else w - MODULUS.

(** LMPROF_TIME_ADJ (lmprof_state.h) on the 64-bit clock_gettime build:
    nanoseconds, or microseconds when LMPROF_OPT_CLOCK_MICRO is set. *)
Definition LMPROF_TIME_ADJ (t conf : Z) : Z :=
  if bit_test conf LMPROF_OPT_CLOCK_MICRO then t / 1000 else t.

(** LMPROF_TIME_ID *)
Definition LMPROF_TIME_ID (conf : Z) : string :=
  if bit_test conf LMPROF_OPT_CLOCK_MICRO then "micro" else "nano".

(** LMPROF_RECORD_NAME_UNKNOWN, substituted for a NULL string. *)
Definition LMPROF_RECORD_NAME_UNKNOWN : string := "?".

Definition name_or_unknown (s : option (list ascii)) : string :=
  match s with
  | Some l => string_of_list_ascii l
  | None => LMPROF_RECORD_NAME_UNKNOWN
  end.

(** ** Identifier strings

    snprintf(buf, IDENTIFIER_BUFFER_LENGTH, "%" PRIxPTR, id): lowercase
    hexadecimal digits, most significant first, without leading zeros. *)

Definition IDENTIFIER_BUFFER_LENGTH : nat := 256.

Definition hex_digit (d : Z) : ascii :=
  ascii_of_nat (Z.to_nat (if d <? 10 then 48 + d else 87 + d)).

(** [hex_digits fuel v acc] prepends the digits of [v] to [acc]; a 64-bit
    value has at most 16 digits, so fuel 15 is enough. *)
Fixpoint hex_digits (fuel : nat) (v : Z) (acc : list ascii) : list ascii :=
  let acc' := hex_digit (v mod 16) :: acc in
  match fuel with
  | O => acc'
  | S f => if v / 16 =? 0 then acc' else hex_digits f (v / 16) acc'
  end.

Definition format_addr (id : Z) : string :=
  string_of_list_ascii (hex_digits 15 (wrap id) []).

(** The reading of such a string back into an integer (what tonumber(s, 16)
    does with a report identifier). *)
Definition hex_val (c : ascii) : Z :=
  let n := Z.of_nat (nat_of_ascii c) in
  if n <? 58 then n - 48 else n - 87.

Definition hex_value (l : list ascii) (a : Z) : Z :=
  fold_left (fun a c => a * 16 + hex_val c) l a.

Definition parse_addr (s : string) : Z := hex_value (list_ascii_of_string s) 0.

(** ** Lemmas on the identifier strings *)

Lemma hex_digit_val d : 0 <= d < 16 -> hex_val (hex_digit d) = d.
Proof.
  intros Hd.
  assert (Forall (fun d => hex_val (hex_digit d) = d) (seqZ 0 16)) as Hall
    by (vm_compute; repeat constructor).
  rewrite Forall_forall in Hall. apply Hall, elem_of_seqZ. lia.
Qed.

Lemma hex_digits_value fuel v acc :
  0 <= v < 16 ^ Z.of_nat (S fuel) ->
  hex_value (hex_digits fuel v acc) 0 = hex_value acc v.
Proof.
  revert v acc. induction fuel as [|f IH]; intros v acc Hv;
    pose proof (Z.mod_pos_bound v 16 ltac:(lia)) as Hm;
    pose proof (Z.div_mod v 16 ltac:(lia)) as Hdm; cbn [hex_digits].
  - cbn. rewrite hex_digit_val by lia. f_equal. simpl in Hv. lia.
  - destruct (Z.eqb_spec (v / 16) 0) as [E|E].
    + cbn. rewrite hex_digit_val by lia. f_equal. lia.
    + rewrite IH.
      * cbn. rewrite hex_digit_val by lia. f_equal. lia.
      * split; [apply Z.div_pos; lia|].
        apply Z.div_lt_upper_bound; [lia|].
        rewrite Nat2Z.inj_succ, Z.pow_succ_r in Hv by lia. lia.
Qed.

Lemma hex_digits_length fuel v acc :
  (length (hex_digits fuel v acc) <= S fuel + length acc)%nat.
Proof.
  revert v acc. induction fuel as [|f IH]; intros v acc; cbn [hex_digits].
  - simpl. lia.
  - destruct (v / 16 =? 0); [simpl; lia|].
    specialize (IH (v / 16) (hex_digit (v mod 16) :: acc)). simpl in *. lia.
Qed.

Lemma wrap_hex_bound z : 0 <= wrap z < 16 ^ Z.of_nat 16.
Proof.
  pose proof (wrap_range z) as H. unfold in_range, MODULUS, WIDTH in H.
  change (16 ^ Z.of_nat 16) with (2 ^ 64). lia.
Qed.

(** ** Records *)

(** The fields of lmprof_FunctionInfo (a lua_Debug filled by lua_getinfo)
    that the report writes and that Record.v does not carry. *)
Record DebugExtra := mkExtra {
  what : option (list ascii);
  nups : Z;
  nparams : Z;
  isvararg : bool;
  istailcall : bool;
  ftransfer : Z;
  ntransfer : Z;
}.

(** lmprof_ReportType *)
Inductive ReportType := lTable | lFile | lBuffer.

(** The return codes of the report functions (lmprof_report.h). *)
Definition LUA_OK : Z := 0.
Definition LMPROF_REPORT_FAILURE : Z := -1.
Definition LMPROF_REPORT_DISABLED_IO : Z := -2.
Definition LMPROF_REPORT_UNKNOWN_TYPE : Z := -3.

(** Characters of the file format. *)
Definition LMPROF_NL : string := String "010"%char EmptyString.
Definition LMPROF_INDENT : string := String "009"%char EmptyString.
Definition QUOTE : string := String "034"%char EmptyString.

Definition quoted (s : string) : string := QUOTE +:+ s +:+ QUOTE.

(** LMPROF_PRINTF(f, "key = fmt", indent, v): one line [indent\tkey = v,]. *)
Definition LMPROF_PRINTF (indent : string) (kv : string * string) : string :=
  indent +:+ LMPROF_INDENT +:+ kv.1 +:+ " = " +:+ kv.2 +:+ "," +:+ LMPROF_NL.

(** "%d" of a C boolean (char) field. *)
Definition int_of_bool (b : bool) : string := if b then "1" else "0".

Definition bool_text (b : bool) : string := if b then "true" else "false".

Section Callback.

(** The lua_Debug fields of each record beyond those of Record.v. *)
Variable debug_extra : lmprof_Record -> DebugExtra.

(** The table branch of graph_hash_callback: the fields of one record, in
    the order of the luaL_settabs* calls (Lua 5.4). *)
Definition graph_record_row (mode conf : Z) (r : lmprof_Record) : Row :=
  let i := info r in
  let x := debug_extra r in
  [("id", RStr (format_addr (r_id r)));
   ("func", RStr (format_addr (f_id r)));
   ("parent", RStr (format_addr (p_id r)));
   ("parent_line", RInt (p_currentline r));
   ("ignored", RBool (bit_test (event i) LMPROF_RECORD_IGNORED));
   ("name", RStr (name_or_unknown (name i)));
   ("what", RStr (name_or_unknown (what x)));
   ("source", RStr (name_or_unknown (source i)));
   ("count", RInt (to_lua_Integer (count r)))] ++
  (if bit_test mode LMPROF_MODE_INSTRUMENT then
     [("time", RInt (to_lua_Integer (LMPROF_TIME_ADJ (time (node r)) conf)));
      ("total_time", RInt (to_lua_Integer (LMPROF_TIME_ADJ (time (path r)) conf)))]
   else []) ++
  (if bit_test mode LMPROF_MODE_MEMORY then
     [("allocated", RInt (to_lua_Integer (allocated (node r))));
      ("deallocated", RInt (to_lua_Integer (deallocated (node r))));
      ("total_allocated", RInt (to_lua_Integer (allocated (path r))));
      ("total_deallocated", RInt (to_lua_Integer (deallocated (path r))))]
   else []) ++
  [("linedefined", RInt (linedefined i));
   ("lastlinedefined", RInt (lastlinedefined i));
   ("nups", RInt (nups x));
   ("nparams", RInt (nparams x));
   ("isvararg", RBool (isvararg x));
   ("istailcall", RBool (istailcall x));
   ("ftransfer", RInt (ftransfer x));
   ("ntransfer", RInt (ntransfer x))] ++
  match line_freq r with
  | Some (f0 :: rest) => [("lines", RSeq (map to_lua_Integer (f0 :: rest)))]
  | _ => []
  end.

(** The file branch of graph_hash_callback: the (key, formatted value) of
    each LMPROF_PRINTF line, in order.  Unsigned statistics are printed with
    %zu or PRIu64, ints with %d. *)
Definition graph_record_file (mode conf : Z) (r : lmprof_Record) : list (string * string) :=
  let i := info r in
  let x := debug_extra r in
  [("id", quoted (format_addr (r_id r)));
   ("func", quoted (format_addr (f_id r)));
   ("parent", quoted (format_addr (p_id r)));
   ("parent_line", pretty (p_currentline r));
   ("ignored", bool_text (bit_test (event i) LMPROF_RECORD_IGNORED));
   ("name", quoted (name_or_unknown (name i)));
   ("what", quoted (name_or_unknown (what x)));
   ("source", quoted (name_or_unknown (source i)));
   ("count", pretty (wrap (count r)))] ++
  (if bit_test mode LMPROF_MODE_INSTRUMENT then
     [("time", pretty (wrap (LMPROF_TIME_ADJ (time (node r)) conf)));
      ("total_time", pretty (wrap (LMPROF_TIME_ADJ (time (path r)) conf)))]
   else []) ++
  (if bit_test mode LMPROF_MODE_MEMORY then
     [("allocated", pretty (wrap (allocated (node r))));
      ("deallocated", pretty (wrap (deallocated (node r))));
      ("total_allocated", pretty (wrap (allocated (path r))));
      ("total_deallocated", pretty (wrap (deallocated (path r))))]
   else []) ++
  [("linedefined", pretty (linedefined i));
   ("lastlinedefined", pretty (lastlinedefined i));
   ("nups", pretty (nups x));
   ("nparams", pretty (nparams x));
   ("isvararg", int_of_bool (isvararg x));
   ("istailcall", int_of_bool (istailcall x));
   ("ftransfer", pretty (ftransfer x));
   ("ntransfer", pretty (ntransfer x))] ++
  match line_freq r with
  | Some (f0 :: rest) =>
      [("lines", "{" +:+ pretty (wrap f0) +:+
                 String.concat EmptyString (map (fun f => ", " +:+ pretty (wrap f)) rest) +:+ "}")]
  | _ => []
  end.

(** ** The report state *)

(** lmprof_Report, with the part of the Lua stack the graph report writes:
    [records] is the array table graph_hash_callback appends to, [header]
    and [debug] the tables set as the "header" field and its "debug" field,
    [out] the strings written to the report file, in order. *)
Record lmprof_Report := mkReport {
  r_type : ReportType;
  array_count : Z;
  records : gmap Z Row;
  header : Row;
  debug : option Row;
  indent : string;
  out : list string;
}.

Definition set_records (R : lmprof_Report) (n : Z) (t : gmap Z Row) : lmprof_Report :=
  mkReport (r_type R) n t (header R) (debug R) (indent R) (out R).

Definition set_header (R : lmprof_Report) (hd : Row) (dbg : option Row) : lmprof_Report :=
  mkReport (r_type R) (array_count R) (records R) hd dbg (indent R) (out R).

Definition set_indent (R : lmprof_Report) (i : string) : lmprof_Report :=
  mkReport (r_type R) (array_count R) (records R) (header R) (debug R) i (out R).

Definition fprintf (R : lmprof_Report) (ls : list string) : lmprof_Report :=
  mkReport (r_type R) (array_count R) (records R) (header R) (debug R) (indent R) (out R ++ ls).

(** Whether LMPROF_FILE_API is defined in the build. *)
Variable LMPROF_FILE_API : bool.

(** graph_hash_callback *)
Definition graph_hash_callback (mode conf : Z) (r : lmprof_Record) (R : lmprof_Report)
    : Z * lmprof_Report :=
  match r_type R with
  | lTable =>
      (LUA_OK, set_records R (array_count R + 1)
                 (<[array_count R := graph_record_row mode conf r]> (records R)))
  | lFile =>
      if LMPROF_FILE_API then
        (LUA_OK, fprintf R ([indent R +:+ "{" +:+ LMPROF_NL] ++
                            map (LMPROF_PRINTF (indent R)) (graph_record_file mode conf r) ++
                            [indent R +:+ "}," +:+ LMPROF_NL]))
      else (LMPROF_REPORT_DISABLED_IO, R)
  | lBuffer => (LMPROF_REPORT_UNKNOWN_TYPE, R)
  end.

End Callback.

(** ** lmprof_hash_report *)

Section HashReport.
Context {A : Type} (cb : lmprof_Record -> A -> Z * A) (hp : heap).

(** The walk of one chain; [false] when a callback preempted the
    iteration.  A chain node always points to a live record under
    [hash_wf]; a dangling node is skipped. *)
Fixpoint hash_report_chain (c : list nat) (a : A) : bool * A :=
  match c with
  | [] => (true, a)
  | p :: c' =>
      match hp !! p with
      | Some r =>
          let '(res, a') := cb r a in
          if Z.eqb res LUA_OK then hash_report_chain c' a' else (false, a')
      | None => hash_report_chain c' a
      end
  end.

Fixpoint hash_report_buckets (bs : list (list nat)) (a : A) : A :=
  match bs with
  | [] => a
  | c :: bs' =>
      let '(go, a') := hash_report_chain c a in
      if go then hash_report_buckets bs' a' else a'
  end.

Definition lmprof_hash_report (h : lmprof_Hash) (a : A) : A :=
  hash_report_buckets (take (Z.to_nat (bucket_count h)) (buckets h)) a.

End HashReport.

(** ** lmprof_hash_debug

    The integer statistics of the bucket array; the floating-point mean
    and variance fields are not modelled. *)

Record HashStats := mkStats {
  st_count : Z;
  st_nonempty : Z;
  st_min : Z;
  st_max : Z;
}.

(** One iteration of the first loop, on a chain of length [f]. *)
Definition hash_debug_step (a : HashStats) (c : list nat) : HashStats :=
  let f := Z.of_nat (length c) in
  mkStats (st_count a + f)
          (st_nonempty a + (if 0 <? f then 1 else 0))
          (if (st_min a =? 0) || ((0 <? f) && (f <? st_min a)) then f else st_min a)
          (if (st_max a =? 0) || ((0 <? f) && (st_max a <? f)) then f else st_max a).

Definition hash_debug_stats (h : lmprof_Hash) : HashStats :=
  foldl hash_debug_step (mkStats 0 0 0 0) (take (Z.to_nat (bucket_count h)) (buckets h)).

Definition lmprof_hash_debug (h : lmprof_Hash) : Row :=
  let a := hash_debug_stats h in
  [("buckets", RInt (to_lua_Integer (bucket_count h)));
   ("used_buckets", RInt (to_lua_Integer (st_nonempty a)));
   ("record_count", RInt (to_lua_Integer (st_count a)));
   ("min", RNum (st_min a));
   ("max", RNum (st_max a))].

(** ** profiler_header *)

(** The profiler state the header reads: st->i.mask_count (an int),
    st->i.instr_count, st->thread.r.overhead and st->i.calibration. *)
Record HeaderInfo := mkHeaderInfo {
  h_mask_count : Z;
  h_instr_count : Z;
  h_overhead : Z;
  h_calibration : Z;
}.

Definition profiler_header_row (mode conf : Z) (hi : HeaderInfo) : Row :=
  [("clockid", RStr (LMPROF_TIME_ID conf));
   ("instrument", RBool (bit_test mode LMPROF_MODE_INSTRUMENT));
   ("memory", RBool (bit_test mode LMPROF_MODE_MEMORY));
   ("sample", RBool (bit_test mode LMPROF_MODE_SAMPLE));
   ("callback", RBool (bit_test mode LMPROF_CALLBACK_MASK));
   ("single_thread", RBool (bit_test mode LMPROF_MODE_SINGLE_THREAD));
   ("mismatch", RBool (bit_test conf LMPROF_OPT_STACK_MISMATCH));
   ("line_freq", RBool (bit_test conf LMPROF_OPT_LINE_FREQUENCY));
   ("sampler_count", RInt (h_mask_count hi));
   ("instr_count", RInt (to_lua_Integer (h_instr_count hi)));
   ("profile_overhead", RInt (to_lua_Integer (LMPROF_TIME_ADJ (h_overhead hi) conf)));
   ("calibration", RInt (to_lua_Integer (LMPROF_TIME_ADJ (h_calibration hi) conf)))].

(** The file branch: the same fields through LUA_INTEGER_FMT. *)
Definition profiler_header_file (mode conf : Z) (hi : HeaderInfo) : list (string * string) :=
  [("clockid", quoted (LMPROF_TIME_ID conf));
   ("instrument", bool_text (bit_test mode LMPROF_MODE_INSTRUMENT));
   ("memory", bool_text (bit_test mode LMPROF_MODE_MEMORY));
   ("sample", bool_text (bit_test mode LMPROF_MODE_SAMPLE));
   ("callback", bool_text (bit_test mode LMPROF_CALLBACK_MASK));
   ("single_thread", bool_text (bit_test mode LMPROF_MODE_SINGLE_THREAD));
   ("mismatch", bool_text (bit_test conf LMPROF_OPT_STACK_MISMATCH));
   ("line_freq", bool_text (bit_test conf LMPROF_OPT_LINE_FREQUENCY));
   ("sampler_count", pretty (h_mask_count hi));
   ("instr_count", pretty (to_lua_Integer (h_instr_count hi)));
   ("profile_overhead", pretty (to_lua_Integer (LMPROF_TIME_ADJ (h_overhead hi) conf)));
   ("calibration", pretty (to_lua_Integer (LMPROF_TIME_ADJ (h_calibration hi) conf)))].

(** ** graph_report, lmprof_push_report and lmprof_report *)

Section GraphReport.
Variable debug_extra : lmprof_Record -> DebugExtra.
Variable LMPROF_FILE_API : bool.
(** st->mode, st->conf, the header statistics, and the record table. *)
Variables (mode conf : Z) (hi : HeaderInfo) (hp : heap) (h : lmprof_Hash).

Definition graph_report (R : lmprof_Report) : Z * lmprof_Report :=
  let cb := graph_hash_callback debug_extra LMPROF_FILE_API mode conf in
  match r_type R with
  | lTable =>
      let dbg := if bit_test conf LMPROF_OPT_REPORT_VERBOSE &&
                    negb (bit_test mode LMPROF_CALLBACK_MASK)
                 then Some (lmprof_hash_debug h) else None in
      let R1 := set_header R (profiler_header_row mode conf hi) dbg in
      (LUA_OK, lmprof_hash_report cb hp h (set_records R1 (array_count R1) ∅))
  | lFile =>
      if LMPROF_FILE_API then
        let R1 := fprintf (set_indent R LMPROF_INDENT)
                    (["return {" +:+ LMPROF_NL; LMPROF_INDENT +:+ "header = {" +:+ LMPROF_NL] ++
                     map (LMPROF_PRINTF LMPROF_INDENT) (profiler_header_file mode conf hi) ++
                     [LMPROF_INDENT +:+ "}," +:+ LMPROF_NL]) in
        let R2 := fprintf (set_indent R1 (LMPROF_INDENT +:+ LMPROF_INDENT))
                    [LMPROF_INDENT +:+ "records = {" +:+ LMPROF_NL] in
        let R3 := lmprof_hash_report cb hp h R2 in
        (LUA_OK, fprintf R3 [LMPROF_INDENT +:+ "}" +:+ LMPROF_NL +:+ "}" +:+ LMPROF_NL])
      else (LMPROF_REPORT_DISABLED_IO, R)
  | lBuffer => (LMPROF_REPORT_FAILURE, R)
  end.

(** The outcome of lmprof_push_report: the trace-event report
    (traceevent_report) is not modelled. *)
Inductive PushResult := TraceReport | Pushed (code : Z) (R : lmprof_Report).

Definition lmprof_push_report (R : lmprof_Report) : PushResult :=
  if bit_test mode (Z.lor LMPROF_MODE_TIME LMPROF_MODE_EXT_CALLBACK) then
    Pushed LMPROF_REPORT_FAILURE R
  else if bit_test mode LMPROF_MODE_TRACE then TraceReport
  else if bit_test mode (Z.lor LMPROF_MODE_INSTRUMENT (Z.lor LMPROF_MODE_MEMORY LMPROF_MODE_SAMPLE))
  then let '(c, R') := graph_report R in Pushed c R'
  else Pushed LMPROF_REPORT_FAILURE R.

(** What lmprof_report leaves on the Lua stack for a table report. *)
Inductive ReportResult := ResTime (t : Z) | ResNil | ResTable (R : lmprof_Report) | ResTrace.

(** lmprof_report(L, st, lTable, NULL); [elapsed] is the clock difference
    since the profile started. *)
Definition lmprof_report_table (elapsed : Z) : ReportResult :=
  if bit_test mode LMPROF_MODE_TIME then
    ResTime (to_lua_Integer (LMPROF_TIME_ADJ elapsed conf))
  else
    match lmprof_push_report (mkReport lTable 1 ∅ [] None EmptyString []) with
    | TraceReport => ResTrace
    | Pushed c R => if Z.eqb c LUA_OK then ResTable R else ResNil
    end.

End GraphReport.

(** ** Specification *)

(** The records of the table, bucket by bucket and head first: the order
    lmprof_hash_report visits them in. *)
Definition hash_records (hp : heap) (h : lmprof_Hash) : list lmprof_Record :=
  omap (hp !!.) (concat (buckets h)).

(** The minimum of two bucket sizes where an empty bucket (0) counts as
    no bucket at all, and its fold over a list. *)
Definition zmin0 (a b : Z) : Z :=
  if a =? 0 then b else if b =? 0 then a else Z.min a b.

Definition min_nonempty (l : list Z) : Z := foldr zmin0 0 l.

(** The chain lengths of the buckets lmprof_hash_debug visits. *)
Definition chain_lengths (h : lmprof_Hash) : list Z :=
  map (fun c => Z.of_nat (length c)) (take (Z.to_nat (bucket_count h)) (buckets h)).

(** The modes lmprof_push_report sends to graph_report. *)
Definition graph_mode (mode : Z) : bool :=
  negb (bit_test mode (Z.lor LMPROF_MODE_TIME LMPROF_MODE_EXT_CALLBACK)) &&
  negb (bit_test mode LMPROF_MODE_TRACE) &&
  bit_test mode (Z.lor LMPROF_MODE_INSTRUMENT (Z.lor LMPROF_MODE_MEMORY LMPROF_MODE_SAMPLE)).

(** The Lua source text of a table value, as a Lua reader of the file
    report parses it back. *)
Definition lua_literal (v : RVal) : string :=
  match v with
  | RStr s => quoted s
  | RInt z | RNum z => pretty z
  | RBool b => bool_text b
  | RSeq l => "{" +:+ String.concat ", " (map pretty l) +:+ "}"
  end.

(** What the file report writes for a field of the table report: the Lua
    literal of its value, except for the two lua_Debug flags, which are
    printed with "%d". *)
Definition file_literal (kv : string * RVal) : string :=
  match kv.2 with
  | RBool b =>
      if bool_decide (kv.1 = "isvararg") || bool_decide (kv.1 = "istailcall")
      then int_of_bool b else bool_text b
  | v => lua_literal v
  end.

(** A statistic that a lua_Integer holds without a sign change. *)
Definition lua_small (v : Z) : Prop := 0 <= v <= LUA_MAXINTEGER.

(** The unsigned statistics of a record, which both report formats cast
    or print. *)
Definition record_stats (r : lmprof_Record) : list Z :=
  [count r; time (node r); time (path r); allocated (node r); deallocated (node r);
   allocated (path r); deallocated (path r)] ++ default [] (line_freq r).

(** ** Lemmas on the bucket walk *)

Section WalkLemmas.
Context {A : Type} (cb : lmprof_Record -> A -> Z * A) (step : lmprof_Record -> A -> A).
(** The callbacks return LUA_OK as long as the accumulator satisfies [P],
    which they preserve. *)
Variable P : A -> Prop.
Hypothesis cb_ok : forall r a, P a -> cb r a = (LUA_OK, step r a) /\ P (step r a).

Lemma foldl_step_P rs a : P a -> P (foldl (fun a r => step r a) a rs).
Proof.
  revert a. induction rs as [|r rs IH]; intros a Ha; [done|]. apply IH, cb_ok, Ha.
Qed.

Lemma hash_report_chain_ok hp c a :
  P a -> hash_report_chain cb hp c a = (true, foldl (fun a r => step r a) a (omap (hp !!.) c)).
Proof.
  revert a. induction c as [|p c IH]; intros a Ha; [done|]. cbn.
  destruct (hp !! p); [|by apply IH].
  destruct (cb_ok l a Ha) as [-> Hs]. cbn. by apply IH.
Qed.

Lemma hash_report_buckets_ok hp bs a :
  P a -> hash_report_buckets cb hp bs a =
  foldl (fun a r => step r a) a (omap (hp !!.) (concat bs)).
Proof.
  revert a. induction bs as [|c bs IH]; intros a Ha; [done|]. cbn.
  rewrite hash_report_chain_ok, IH, omap_app, foldl_app by (done || by apply foldl_step_P).
  done.
Qed.

Lemma lmprof_hash_report_ok hp h a :
  length (buckets h) = Z.to_nat (bucket_count h) -> P a ->
  lmprof_hash_report cb hp h a = foldl (fun a r => step r a) a (hash_records hp h).
Proof.
  intros Hlen Ha. unfold lmprof_hash_report, hash_records.
  rewrite take_ge by (rewrite Hlen; done). by apply hash_report_buckets_ok.
Qed.

End WalkLemmas.

(** ** Lemmas on the table callback *)

(** The table branch of graph_hash_callback appends the record's row at
    index array_count. *)
Definition table_append dx mode conf (r : lmprof_Record) (R : lmprof_Report) : lmprof_Report :=
  set_records R (array_count R + 1) (<[array_count R := graph_record_row dx mode conf r]> (records R)).

Lemma graph_hash_callback_table dx api mode conf r R :
  r_type R = lTable ->
  graph_hash_callback dx api mode conf r R = (LUA_OK, table_append dx mode conf r R) /\
  r_type (table_append dx mode conf r R) = lTable.
Proof. intros HT. unfold graph_hash_callback. rewrite HT. done. Qed.

(** Appending rows keeps the records a Lua sequence 1..n. *)
Lemma table_append_fold dx mode conf rs R xs :
  records R = map_seqZ 1 xs -> array_count R = 1 + Z.of_nat (length xs) ->
  let R' := foldl (fun a r => table_append dx mode conf r a) R rs in
  records R' = map_seqZ 1 (xs ++ map (graph_record_row dx mode conf) rs) /\
  header R' = header R /\ debug R' = debug R.
Proof.
  revert R xs. induction rs as [|r rs IH]; intros R xs Hrec Hcnt; cbn.
  - by rewrite app_nil_r.
  - destruct (IH (table_append dx mode conf r R) (xs ++ [graph_record_row dx mode conf r]))
      as (-> & -> & ->).
    + cbn. rewrite map_seqZ_snoc, Hrec, Hcnt. done.
    + cbn. rewrite Hcnt, length_app. cbn. lia.
    + by rewrite <-app_assoc.
Qed.

Lemma map_seqZ_size (start : Z) (xs : list Row) :
  size (map_seqZ start xs : gmap Z Row) = length xs.
Proof.
  revert start. induction xs as [|x xs IH]; intros start; cbn; [apply map_size_empty|].
  rewrite map_size_insert_None, IH; [done|].
  apply lookup_map_seqZ_None. lia.
Qed.

(** The number of records the table holds is the size of the map it
    represents. *)
Lemma hash_records_length hp h :
  hash_wf hp h -> length (hash_records hp h) = size (hash_abs hp h).
Proof.
  intros Hwf. unfold hash_abs. rewrite map_size_list_to_map by apply wf_nodup, Hwf.
  unfold entries, hash_records, key_of.
  induction (concat (buckets h)) as [|p l IH]; [done|].
  simpl. destruct (hp !! p); simpl; [f_equal|]; exact IH.
Qed.

Lemma bit_test_lor_false m a b :
  bit_test m (Z.lor a b) = false <-> bit_test m a = false /\ bit_test m b = false.
Proof.
  unfold bit_test. rewrite Z.land_lor_distr_r, !negb_false_iff, !Z.eqb_eq.
  apply Z.lor_eq_0_iff.
Qed.

Lemma graph_mode_spec mode :
  graph_mode mode = true ->
  bit_test mode LMPROF_MODE_TIME = false /\
  bit_test mode (Z.lor LMPROF_MODE_TIME LMPROF_MODE_EXT_CALLBACK) = false /\
  bit_test mode LMPROF_MODE_TRACE = false /\
  bit_test mode (Z.lor LMPROF_MODE_INSTRUMENT (Z.lor LMPROF_MODE_MEMORY LMPROF_MODE_SAMPLE)) = true /\
  bit_test mode LMPROF_CALLBACK_MASK = false.
Proof.
  unfold graph_mode. rewrite !andb_true_iff, !negb_true_iff. intros [[H1 H2] H3].
  pose proof H1 as [Ht He]%bit_test_lor_false.
  split_and!; try done. unfold LMPROF_CALLBACK_MASK. by apply bit_test_lor_false.
Qed.

Lemma string_app_String x (a b : string) : String x a +:+ b = String x (a +:+ b).
Proof. done. Qed.

Lemma string_app_assoc (a b c : string) : (a +:+ b) +:+ c = a +:+ (b +:+ c).
Proof. induction a as [|x a IH]; [done|]. by rewrite !string_app_String, IH. Qed.

Lemma string_app_nil_r (a : string) : a +:+ EmptyString = a.
Proof. induction a as [|x a IH]; [done|]. by rewrite string_app_String, IH. Qed.

(** The separator loop of the "lines" field builds String.concat. *)
Lemma concat_sep (x : string) (l : list string) :
  x +:+ String.concat EmptyString (map (fun f => ", " +:+ f) l) = String.concat ", " (x :: l).
Proof.
  revert x. induction l as [|y [|z l] IH]; intros x.
  - apply string_app_nil_r.
  - done.
  - change (String.concat ", " (x :: y :: z :: l))
      with (x +:+ ", " +:+ String.concat ", " (y :: z :: l)).
    rewrite <-(IH y).
    change (String.concat EmptyString (map (fun f => ", " +:+ f) (y :: z :: l)))
      with ((", " +:+ y) +:+ String.concat EmptyString (map (fun f => ", " +:+ f) (z :: l))).
    by rewrite string_app_assoc.
Qed.

Lemma to_lua_small v : lua_small v -> to_lua_Integer v = v.
Proof.
  intros Hv. unfold lua_small, LUA_MAXINTEGER in Hv. unfold to_lua_Integer, LUA_MAXINTEGER.
  rewrite wrap_small by (unfold in_range, MODULUS, WIDTH; lia).
  destruct (Z.leb_spec v (2 ^ 63 - 1)); lia.
Qed.

Lemma wrap_lua_small v : lua_small v -> wrap v = v.
Proof.
  intros Hv. unfold lua_small, LUA_MAXINTEGER in Hv.
  apply wrap_small. unfold in_range, MODULUS, WIDTH. lia.
Qed.

Lemma time_adj_small t conf : lua_small t -> lua_small (LMPROF_TIME_ADJ t conf).
Proof.
  unfold lua_small, LMPROF_TIME_ADJ. intros Ht. destruct (bit_test _ _); [|done].
  split; [apply Z.div_pos; lia|]. pose proof (Z.div_le_upper_bound t 1000 t). lia.
Qed.

#[local] Hint Resolve to_lua_small wrap_lua_small time_adj_small : lmprof.

Lemma lines_literal f0 rest :
  Forall lua_small (f0 :: rest) ->
  "{" +:+ pretty (wrap f0) +:+
    String.concat EmptyString (map (fun f => ", " +:+ pretty (wrap f)) rest) +:+ "}" =
  lua_literal (RSeq (map to_lua_Integer (f0 :: rest))).
Proof.
  intros Hs. cbn [lua_literal].
  rewrite (map_ext_in to_lua_Integer id), map_id by
    (intros f Hf; apply to_lua_small; rewrite List.Forall_forall in Hs; by apply Hs).
  rewrite Forall_cons in Hs. rewrite wrap_lua_small by apply Hs.
  rewrite (map_ext_in (fun f => ", " +:+ pretty (wrap f)) (fun f => ", " +:+ pretty f))
    by (intros f Hf; rewrite wrap_lua_small; [done|]; rewrite List.Forall_forall in Hs; by apply Hs).
  replace (map (fun f => ", " +:+ pretty f) rest)
    with (map (fun f => ", " +:+ f) (map pretty rest)) by (rewrite map_map; done).
  rewrite <-(string_app_assoc (pretty f0)), concat_sep. done.
Qed.

Lemma length_string_of_list_ascii l : String.length (string_of_list_ascii l) = length l.
Proof. induction l as [|c l IH]; cbn; [done|]. by rewrite IH. Qed.

(** ** The table report *)

(** C14: A table report of a graph profile is a Lua sequence: the record of
    the i-th table entry, in bucket order, is at index i, for i from 1 to
    the number of distinct (function, parent) keys of the table, and the
    header is the profiler header. *)
Theorem lmprof_report_table_records dx api mode conf hi hp h elapsed :
  hash_wf hp h -> graph_mode mode = true ->
  exists R, lmprof_report_table dx api mode conf hi hp h elapsed = ResTable R /\
    records R = map_seqZ 1 (map (graph_record_row dx mode conf) (hash_records hp h)) /\
    size (records R) = size (hash_abs hp h) /\
    header R = profiler_header_row mode conf hi.
Proof.
  intros Hwf Hg. destruct (graph_mode_spec _ Hg) as (Ht & H1 & H2 & H3 & _).
  unfold lmprof_report_table, lmprof_push_report. rewrite Ht, H1, H2, H3. cbn [graph_report r_type].
  set (R0 := set_records (set_header _ _ _) _ ∅).
  rewrite (lmprof_hash_report_ok _ (table_append dx mode conf) (fun R => r_type R = lTable)
             (fun r a HT => graph_hash_callback_table dx api mode conf r a HT) hp h R0);
    [| exact (wf_count _ _ Hwf) | done].
  destruct (table_append_fold dx mode conf (hash_records hp h) R0 []) as (Hr & Hh & _);
    [done|done|].
  eexists; split; [reflexivity|]. cbn [app] in Hr. rewrite Hr, Hh. split_and!; [done| |done].
  rewrite map_seqZ_size, length_map. by apply hash_records_length.
Qed.

(** The identifier strings of a report read back, as hexadecimal, to the
    64-bit identifiers they were printed from. *)
Theorem format_addr_roundtrip id : in_range id -> parse_addr (format_addr id) = id.
Proof.
  intros H. unfold parse_addr, format_addr.
  rewrite list_ascii_of_string_of_list_ascii, hex_digits_value by apply wrap_hex_bound.
  apply wrap_small, H.
Qed.

(** snprintf never truncates an identifier: its hexadecimal text has at
    most 16 characters, within the IDENTIFIER_BUFFER_LENGTH buffer. *)
Theorem format_addr_fits id :
  (String.length (format_addr id) <= 16 < IDENTIFIER_BUFFER_LENGTH)%nat.
Proof.
  unfold format_addr. rewrite length_string_of_list_ascii.
  pose proof (hex_digits_length 15 (wrap id) []) as H. cbn [length] in H.
  unfold IDENTIFIER_BUFFER_LENGTH. lia.
Qed.

(** ** The two report formats *)

(** C21: The file report of a record is the table report printed as Lua
    literals, field by field and in the same order, as long as the
    unsigned statistics fit in a lua_Integer; the only difference is that
    isvararg and istailcall are written as 0 or 1 instead of booleans. *)
Theorem graph_record_file_literal dx mode conf r :
  Forall lua_small (record_stats r) ->
  graph_record_file dx mode conf r =
  map (fun kv => (kv.1, file_literal kv)) (graph_record_row dx mode conf r).
Proof.
  intros Hs. unfold record_stats in Hs. rewrite Forall_app, !Forall_cons in Hs.
  destruct Hs as ((Hc & Hnt & Hpt & Hna & Hnd & Hpa & Hpd & _) & Hl).
  unfold graph_record_file, graph_record_row. rewrite !map_app.
  rewrite !to_lua_small, !wrap_lua_small by auto with lmprof.
  apply (f_equal2 app); [done|]. apply (f_equal2 app).
  { by destruct (bit_test mode LMPROF_MODE_INSTRUMENT). }
  apply (f_equal2 app). { by destruct (bit_test mode LMPROF_MODE_MEMORY). }
  apply (f_equal2 app); [done|].
  destruct (line_freq r) as [[|f0 rest]|]; [done| |done].
  cbn [map]. rewrite lines_literal by done. done.
Qed.

Lemma to_lua_big v : LUA_MAXINTEGER < v < MODULUS -> to_lua_Integer v = v - MODULUS.
Proof.
  intros Hv. unfold LUA_MAXINTEGER in Hv. unfold to_lua_Integer, LUA_MAXINTEGER.
  rewrite wrap_small by (unfold in_range; lia).
  zcases.
Qed.

Lemma field_get_app {V} k (l1 l2 : list (string * V)) :
  field_get k (l1 ++ l2) =
  match field_get k l2 with Some v => Some v | None => field_get k l1 end.
Proof.
  unfold field_get. rewrite filter_app.
  destruct (filter _ l2) as [|x l2'] eqn:E using rev_ind; [by rewrite app_nil_r|].
  by rewrite app_assoc, !last_snoc.
Qed.

(** C28: A call count above LUA_MAXINTEGER reaches the table report as a
    negative integer (the count minus 2^64), while the file report prints
    the unsigned count. *)
Theorem graph_record_count_overflow dx mode conf r :
  LUA_MAXINTEGER < count r < MODULUS ->
  field_get "count" (graph_record_row dx mode conf r) = Some (RInt (count r - MODULUS)) /\
  count r - MODULUS < 0 /\
  field_get "count" (graph_record_file dx mode conf r) = Some (pretty (count r)).
Proof.
  intros Hc. unfold graph_record_row, graph_record_file.
  rewrite !field_get_app, (to_lua_big (count r)), (wrap_small (count r)) by (unfold in_range, LUA_MAXINTEGER in *; lia).
  split_and!; [| unfold LUA_MAXINTEGER, MODULUS, WIDTH in *; lia |];
    destruct (bit_test mode LMPROF_MODE_INSTRUMENT), (bit_test mode LMPROF_MODE_MEMORY),
      (line_freq r) as [[|]|]; reflexivity.
Qed.

(** ** lmprof_hash_debug *)

Lemma hash_debug_step_min a c :
  0 <= st_min a -> forall x, 0 <= x ->
  zmin0 (st_min (hash_debug_step a c)) x = zmin0 (st_min a) (zmin0 (Z.of_nat (length c)) x).
Proof. intros Ha x Hx. unfold hash_debug_step, zmin0. cbn [st_min]. zcases. Qed.

Lemma min_nonempty_nonneg (l : list Z) : Forall (Z.le 0) l -> 0 <= min_nonempty l.
Proof.
  unfold min_nonempty. induction 1 as [|x l Hx _ IH]; cbn [foldr]; [done|].
  revert IH. generalize (foldr zmin0 0 l). intros m Hm. unfold zmin0. zcases.
Qed.

Lemma lengths_nonneg (l : list (list nat)) :
  Forall (Z.le 0) (map (fun c => Z.of_nat (length c)) l).
Proof. apply Forall_map, Forall_forall. intros. lia. Qed.

Lemma hash_debug_fold a l :
  0 <= st_min a -> 0 <= st_max a ->
  let a' := foldl hash_debug_step a l in
  st_count a' = st_count a + Z.of_nat (length (concat l)) /\
  st_nonempty a' = st_nonempty a + Z.of_nat (length (filter (fun c => c <> []) l)) /\
  st_min a' = zmin0 (st_min a) (min_nonempty (map (fun c => Z.of_nat (length c)) l)) /\
  st_max a' = Z.max (st_max a) (foldr Z.max 0 (map (fun c => Z.of_nat (length c)) l)).
Proof.
  revert a. induction l as [|c l IH]; intros a Hmin Hmax; cbn [foldl].
  - cbn. unfold zmin0. split_and!; zcases.
  - assert (0 <= st_min (hash_debug_step a c) /\ 0 <= st_max (hash_debug_step a c)) as [H1 H2]
      by (unfold hash_debug_step; cbn; split; zcases).
    destruct (IH _ H1 H2) as (-> & -> & -> & ->).
    split_and!.
    + cbn. rewrite length_app. lia.
    + rewrite filter_cons. destruct c; cbn; case_decide; cbn; try done; zcases.
    + rewrite hash_debug_step_min by (done || apply min_nonempty_nonneg, lengths_nonneg). done.
    + unfold hash_debug_step. cbn. zcases.
Qed.

Lemma foldr_max_nonneg (l : list Z) : 0 <= foldr Z.max 0 l.
Proof. induction l; cbn; lia. Qed.

Lemma length_hash_records hp h :
  hash_wf hp h -> length (hash_records hp h) = length (concat (buckets h)).
Proof.
  intros Hwf. unfold hash_records.
  assert (forall p, p ∈ concat (buckets h) -> is_Some (hp !! p)) as Hlive
    by (intros p Hp; destruct (wf_filed_concat hp h p Hwf Hp) as [r ->]; by eexists).
  induction (concat (buckets h)) as [|p l IH]; [done|]. simpl.
  destruct (Hlive p) as [r ->]; [by left|]. simpl. f_equal.
  apply IH. intros q Hq. apply Hlive. by right.
Qed.

(** The integer statistics of lmprof_hash_debug are right on a
    well-formed table: record_count is the number of distinct keys,
    used_buckets the number of non-empty chains, min and max the smallest
    and largest non-empty chain lengths (0 when the table is empty). *)
Theorem lmprof_hash_debug_stats hp h :
  hash_wf hp h ->
  let a := hash_debug_stats h in
  st_count a = Z.of_nat (size (hash_abs hp h)) /\
  st_nonempty a = Z.of_nat (length (filter (fun c => c <> []) (buckets h))) /\
  st_min a = min_nonempty (chain_lengths h) /\
  st_max a = foldr Z.max 0 (chain_lengths h).
Proof.
  intros Hwf. unfold hash_debug_stats, chain_lengths.
  rewrite take_ge by (rewrite (wf_count _ _ Hwf); done).
  destruct (hash_debug_fold (mkStats 0 0 0 0) (buckets h)) as (-> & -> & -> & ->); [done|done|].
  cbn [st_count st_nonempty st_min st_max].
  rewrite <-hash_records_length, length_hash_records by done.
  pose proof (foldr_max_nonneg (map (fun c : list nat => Z.of_nat (length c)) (buckets h))).
  split_and!; [lia|lia|done|lia].
Qed.

(** ** The file report *)

(** The lines graph_hash_callback writes for one record. *)
Definition record_block dx mode conf (ind : string) (r : lmprof_Record) : list string :=
  [ind +:+ "{" +:+ LMPROF_NL] ++ map (LMPROF_PRINTF ind) (graph_record_file dx mode conf r) ++
  [ind +:+ "}," +:+ LMPROF_NL].

Definition file_append dx mode conf (r : lmprof_Record) (R : lmprof_Report) : lmprof_Report :=
  fprintf R (record_block dx mode conf (indent R) r).

Lemma graph_hash_callback_file dx mode conf r R :
  r_type R = lFile ->
  graph_hash_callback dx true mode conf r R = (LUA_OK, file_append dx mode conf r R) /\
  r_type (file_append dx mode conf r R) = lFile.
Proof. intros HT. unfold graph_hash_callback. rewrite HT. done. Qed.

Lemma file_append_fold dx mode conf rs R :
  let R' := foldl (fun a r => file_append dx mode conf r a) R rs in
  out R' = out R ++ concat (map (record_block dx mode conf (indent R)) rs) /\
  indent R' = indent R.
Proof.
  revert R. induction rs as [|r rs IH]; intros R; cbn [foldl].
  - by rewrite app_nil_r.
  - destruct (IH (file_append dx mode conf r R)) as [-> ->].
    cbn [out indent file_append fprintf map concat]. by rewrite app_assoc.
Qed.

(** The header lines of a file report. *)
Definition file_header mode conf hi : list string :=
  ["return {" +:+ LMPROF_NL; LMPROF_INDENT +:+ "header = {" +:+ LMPROF_NL] ++
  map (LMPROF_PRINTF LMPROF_INDENT) (profiler_header_file mode conf hi) ++
  [LMPROF_INDENT +:+ "}," +:+ LMPROF_NL; LMPROF_INDENT +:+ "records = {" +:+ LMPROF_NL].

(** C27: With LMPROF_FILE_API, graph_report writes the Lua chunk
    [return { header = {...}, records = { {...}, ... } }]: the header
    fields, then one block per record of the table in bucket order,
    indented by two tabs, then the closing braces; the header fields are the
    Lua literals of the table report's header. *)
Theorem graph_report_file dx mode conf hi hp h R :
  hash_wf hp h -> r_type R = lFile ->
  exists R', graph_report dx true mode conf hi hp h R = (LUA_OK, R') /\
    out R' = out R ++ file_header mode conf hi ++
             concat (map (record_block dx mode conf (LMPROF_INDENT +:+ LMPROF_INDENT))
                         (hash_records hp h)) ++
             [LMPROF_INDENT +:+ "}" +:+ LMPROF_NL +:+ "}" +:+ LMPROF_NL] /\
    profiler_header_file mode conf hi =
    map (fun kv => (kv.1, lua_literal kv.2)) (profiler_header_row mode conf hi).
Proof.
  intros Hwf HT. unfold graph_report. rewrite HT.
  set (R2 := fprintf (set_indent (fprintf (set_indent R _) _) _) _).
  rewrite (lmprof_hash_report_ok _ (file_append dx mode conf) (fun R => r_type R = lFile)
             (fun r a HT => graph_hash_callback_file dx mode conf r a HT) hp h R2);
    [| exact (wf_count _ _ Hwf) | by subst R2].
  destruct (file_append_fold dx mode conf (hash_records hp h) R2) as [Ho Hi].
  eexists; split; [reflexivity|]. split; [|done].
  cbn [out fprintf]. rewrite Ho. subst R2. cbn [out indent fprintf set_indent].
  unfold file_header. rewrite <-!app_assoc. done.
Qed.

(** * Witnesses *)

Definition ex_extra (r : lmprof_Record) : DebugExtra := mkExtra (Some ["L"%char; "u"%char; "a"%char]) 0 1 false false 0 0.
Definition ex_header : HeaderInfo := mkHeaderInfo 0 0 0 0.

Lemma lmprof_report_table_records_witness :
  hash_wf ex_hash_heap ex_hash /\ graph_mode LMPROF_MODE_INSTRUMENT = true /\
  exists R, lmprof_report_table ex_extra true LMPROF_MODE_INSTRUMENT 0 ex_header
              ex_hash_heap ex_hash 0 = ResTable R /\
    records R = map_seqZ 1 (map (graph_record_row ex_extra LMPROF_MODE_INSTRUMENT 0)
                                (hash_records ex_hash_heap ex_hash)) /\
    size (records R) = size (hash_abs ex_hash_heap ex_hash) /\
    header R = profiler_header_row LMPROF_MODE_INSTRUMENT 0 ex_header.
Proof.
  split; [apply ex_hash_wf|]. split; [reflexivity|].
  apply lmprof_report_table_records; [apply ex_hash_wf | reflexivity].
Defined.

Lemma format_addr_roundtrip_witness :
  in_range 3054 /\ parse_addr (format_addr 3054) = 3054.
Proof. split; [by_eval|]. apply format_addr_roundtrip. by_eval. Defined.

Lemma graph_record_file_literal_witness :
  Forall lua_small (record_stats ex_record) /\
  graph_record_file ex_extra LMPROF_MODE_INSTRUMENT 0 ex_record =
  map (fun kv => (kv.1, file_literal kv)) (graph_record_row ex_extra LMPROF_MODE_INSTRUMENT 0 ex_record).
Proof.
  assert (Forall lua_small (record_stats ex_record)) as Hs
    by (repeat constructor; unfold lua_small, LUA_MAXINTEGER; cbn; lia).
  split; [exact Hs|]. apply graph_record_file_literal, Hs.
Defined.

Definition ex_big_record : lmprof_Record := set_stats ex_record (2 ^ 64 - 1) unit_clear unit_clear.

Lemma graph_record_count_overflow_witness :
  LUA_MAXINTEGER < count ex_big_record < MODULUS /\
  field_get "count" (graph_record_row ex_extra 0 0 ex_big_record) =
    Some (RInt (count ex_big_record - MODULUS)) /\
  count ex_big_record - MODULUS < 0 /\
  field_get "count" (graph_record_file ex_extra 0 0 ex_big_record) =
    Some (pretty (count ex_big_record)).
Proof.
  assert (LUA_MAXINTEGER < count ex_big_record < MODULUS) as Hc by by_eval.
  split; [exact Hc|]. apply graph_record_count_overflow, Hc.
Defined.

Lemma lmprof_hash_debug_stats_witness :
  hash_wf ex_hash_heap ex_hash /\
  let a := hash_debug_stats ex_hash in
  st_count a = Z.of_nat (size (hash_abs ex_hash_heap ex_hash)) /\
  st_nonempty a = Z.of_nat (length (filter (fun c => c <> []) (buckets ex_hash))) /\
  st_min a = min_nonempty (chain_lengths ex_hash) /\
  st_max a = foldr Z.max 0 (chain_lengths ex_hash).
Proof. split; [apply ex_hash_wf|]. apply lmprof_hash_debug_stats, ex_hash_wf. Defined.

Lemma graph_report_file_witness :
  hash_wf ex_hash_heap ex_hash /\
  r_type (mkReport lFile 1 ∅ [] None EmptyString []) = lFile /\
  exists R', graph_report ex_extra true LMPROF_MODE_INSTRUMENT 0 ex_header ex_hash_heap ex_hash
               (mkReport lFile 1 ∅ [] None EmptyString []) = (LUA_OK, R') /\
    out R' = [] ++ file_header LMPROF_MODE_INSTRUMENT 0 ex_header ++
             concat (map (record_block ex_extra LMPROF_MODE_INSTRUMENT 0
                            (LMPROF_INDENT +:+ LMPROF_INDENT))
                         (hash_records ex_hash_heap ex_hash)) ++
             [LMPROF_INDENT +:+ "}" +:+ LMPROF_NL +:+ "}" +:+ LMPROF_NL] /\
    profiler_header_file LMPROF_MODE_INSTRUMENT 0 ex_header =
    map (fun kv => (kv.1, lua_literal kv.2)) (profiler_header_row LMPROF_MODE_INSTRUMENT 0 ex_header).
Proof.
  split; [apply ex_hash_wf|]. split; [reflexivity|].
  apply graph_report_file; [apply ex_hash_wf | reflexivity].
Defined.

End Report.
