(* ===== verification/TraceJson.v ===== *)
(** * Trace-event formatting

    The trace-event report of lmprof_report.c writes every event of the
    timeline in the Chrome trace-event format, either as Lua tables (the
    lTable branch of each formatter) or as JSON text written to a file (the
    lFile branch).  This file models the value a formatter produces as a
    JSON-like tree [JVal]: a Lua table filled by lua_setfield is an
    [JObj] with its fields in the order of the writes, an array filled by
    lua_rawseti is a [JArr]; the file is the sequence of [Tok]ens written,
    the text of an object being its tree (the spacing inside an object is
    not modelled).  It holds the constants of the format, the report state
    with its delimiter flag (REPORT_ENSURE_DELIM) and the table append
    (REPORT_TABLE_APPEND), and one pair of definitions (table, file) per
    formatter: __metaProcess, __metaAbout, __metaTracingStarted,
    __enterFrame, __exitFrame, __drawFrame, __eventScope,
    __eventLineInstance, __eventSampleInstance, __eventUpdateCounters. *)

From Stdlib Require Import Ascii String Floats.
From stdpp Require Import strings pretty.
From S2P Require Import Common Unit Record Stack Timeline Config Report.
Import Unit Record Stack Timeline Config Report.

Module TraceJson.

(** ** Values *)

Inductive JVal :=
  | JStr (s : string)
  | JInt (z : Z)
  | JBool (b : bool)
  | JReal (d : float)  (** a lua_Number (C double), binary64 *)
  | JNull
  | JObj (fields : list (string * JVal))
  | JArr (items : list JVal).

(** What a report file receives: literal text, or the text of a value. *)
Inductive Tok := TText (s : string) | TVal (j : JVal).

(** ** Constants of the format *)

Definition CHROME_META_BEGIN : string := "B".
Definition CHROME_META_END : string := "E".
Definition CHROME_META_PROCESS : string := "process_name".
Definition CHROME_META_THREAD : string := "thread_name".
Definition CHROME_META_TICK : string := "Routine".

Definition CHROME_NAME_MAIN : string := "Main".
Definition CHROME_NAME_PROCESS : string := "Process".
Definition CHROME_NAME_BROWSER : string := "Browser".
Definition CHROME_NAME_SAMPLER : string := "Instruction Sampling".
Definition CHROME_NAME_CR_BROWSER : string := "CrBrowserMain".
Definition CHROME_NAME_CR_RENDERER : string := "CrRendererMain".

Definition CHROME_USER_TIMING : string := "blink.user_timing".
Definition CHROME_TIMLINE : string := "disabled-by-default-devtools.timeline".
Definition CHROME_TIMELINE_FRAME : string := "disabled-by-default-devtools.timeline.frame".

(** CHROME_OPT_NAME(n, o) *)
Definition CHROME_OPT_NAME (n : option string) (o : string) : string :=
  match n with Some s => s | None => o end.

Definition JSON_DELIM : string := ", ".
Definition JSON_NEWLINE : string := String "010"%char EmptyString.

(** LMPROF_THREAD_SAMPLE_TIMELINE, TRACE_EVENT_DEFAULT_NAME/URL and LMPROF. *)
Definition LMPROF_THREAD_SAMPLE_TIMELINE : Z := 2.
Definition TRACE_EVENT_DEFAULT_NAME : string := EmptyString.
Definition TRACE_EVENT_DEFAULT_URL : string := EmptyString.
Definition LMPROF : string := "lmprof".

(** What "%s" prints for a NULL string (glibc and lua_pushfstring). *)
Definition NULL_TEXT : string := "(null)".

(** ** The profiler state the report reads *)

(** R->st: the configuration, the main process and thread
    (st->thread.mainproc), the trace name and url (st->i.name, st->i.url),
    the counter frequency and the compression threshold; LUA_VERSION is
    the Lua host's. *)
Record TraceEnv := mkEnv {
  te_mode : Z;
  te_conf : Z;
  te_main : EventProcess;
  te_name : option string;
  te_url : option string;
  te_counterFrequency : Z;
  te_threshold : Z;
  te_lua_version : string;
}.

(** op_routine *)
Definition op_routine (o : TraceEventType) : bool :=
  match o with BEGIN_ROUTINE | END_ROUTINE => true | _ => false end.

Definition ev_pid (e : TraceEvent) : Z := pid (proc (call e)).
Definition ev_tid (e : TraceEvent) : Z := tid (proc (call e)).

(** LMPROF_TIME_ADJ(event->call.s.time, R->st->conf) *)
Definition ev_ts (E : TraceEnv) (e : TraceEvent) : Z := LMPROF_TIME_ADJ (time (s (call e))) (te_conf E).

(** The timestamp as the table stores it (l_cast(lua_Integer, ...)) and as
    the file prints it (PRIluTIME, unsigned). *)
Definition ts_table (t : Z) : JVal := JInt (to_lua_Integer t).
Definition ts_file (t : Z) : JVal := JInt (wrap t).

(** ** The report state *)

(** lmprof_Report for a trace report: the type, the array counter, the
    table at R->t.table_index, the delimiter flag and the file output. *)
Record TReport := mkTR {
  tr_type : ReportType;
  tr_count : Z;
  tr_table : gmap Z JVal;
  tr_delim : bool;
  tr_out : list Tok;
}.

Definition tr_write (R : TReport) (ts : list Tok) : TReport :=
  mkTR (tr_type R) (tr_count R) (tr_table R) (tr_delim R) (tr_out R ++ ts).

Definition tr_set_delim (R : TReport) (d : bool) : TReport :=
  mkTR (tr_type R) (tr_count R) (tr_table R) d (tr_out R).

Definition tr_set_table (R : TReport) (n : Z) (t : gmap Z JVal) : TReport :=
  mkTR (tr_type R) n t (tr_delim R) (tr_out R).

(** REPORT_ENSURE_DELIM (the indentation is the empty string lmprof_report
    gives a file report). *)
Definition REPORT_ENSURE_DELIM (R : TReport) : TReport :=
  if tr_delim R then tr_set_delim (tr_write R [TText (JSON_DELIM +:+ JSON_NEWLINE)]) false
  else R.

(** The result of a formatter: its code, the report, and the table it
    left on the Lua stack (lTable only). *)
Abbreviation FmtResult := (Z * TReport * option JVal)%type.

(** REPORT_TABLE_APPEND(L, R, X): the table X pushed is stored at the
    array counter, which is incremented. *)
Definition REPORT_TABLE_APPEND (x : FmtResult) : TReport :=
  let '(_, R, v) := x in
  match tr_type R, v with
  | lTable, Some t =>
      tr_set_table R (tr_count R + 1) (<[tr_count R := t]> (tr_table R))
  | _, _ => R
  end.

Section Formatters.

(** Whether LMPROF_FILE_API is defined in the build. *)
Variable LMPROF_FILE_API : bool.
Variable E : TraceEnv.

(** The shape every formatter shares: the lTable branch pushes [tab]; the
    lFile branch writes the delimiter if one is due, then [file], and
    marks the delimiter due; without LMPROF_FILE_API it returns
    [noio] (LMPROF_REPORT_DISABLED_IO, or LMPROF_REPORT_UNKNOWN_TYPE for
    the formatters whose #if has no #else). *)
Definition report_event (noio : Z) (tab : JVal) (file : list Tok) (R : TReport) : FmtResult :=
  match tr_type R with
  | lTable => (LUA_OK, R, Some tab)
  | lFile =>
      if LMPROF_FILE_API then (LUA_OK, tr_set_delim (tr_write (REPORT_ENSURE_DELIM R) file) true, None)
      else (noio, R, None)
  | lBuffer => (LMPROF_REPORT_UNKNOWN_TYPE, R, None)
  end.

(** *** __metaProcess *)

Definition metaProcess_table (process : EventProcess) (name : string) (pname : option string) : JVal :=
  JObj [("cat", JStr "__metadata"); ("name", JStr name); ("ph", JStr "M"); ("ts", JInt 0);
        ("pid", JInt (pid process)); ("tid", JInt (tid process));
        ("args", JObj (match pname with Some p => [("name", JStr p)] | None => [] end))].

Definition metaProcess_file (process : EventProcess) (name : string) (pname : option string) : list Tok :=
  [TVal (JObj [("cat", JStr "__metadata"); ("name", JStr name); ("ph", JStr "M"); ("ts", JInt 0);
               ("pid", JInt (pid process)); ("tid", JInt (tid process));
               ("args", JObj [("name", JStr (CHROME_OPT_NAME pname NULL_TEXT))])])].

Definition __metaProcess (R : TReport) (process : EventProcess) (name : string)
    (pname : option string) : FmtResult :=
  report_event LMPROF_REPORT_DISABLED_IO (metaProcess_table process name pname)
               (metaProcess_file process name pname) R.

(** *** __metaAbout *)

Definition metaAbout_fields (name url : string) : list (string * JVal) :=
  [("bitness", JInt 64); ("domain", JStr "WIN_QPC"); ("command_line", JStr EmptyString);
   ("highres-ticks", JInt 1); ("physical-memory", JInt 0); ("user-agent", JStr name);
   ("command_line", JStr url); ("v8-version", JStr (te_lua_version E))].

Definition __metaAbout (R : TReport) (name url : string) : FmtResult :=
  report_event LMPROF_REPORT_DISABLED_IO (JObj (metaAbout_fields name url))
               [TText (quoted "metadata" +:+ ":"); TVal (JObj (metaAbout_fields name url))] R.

(** *** __metaTracingStarted *)

Definition tracingStarted_args (process : EventProcess) (name url : option string) : JVal :=
  JObj [("data", JObj [("frameTreeNodeId", JInt 1); ("persistentIds", JBool true);
                       ("frames", JArr [JObj [("frame", JStr "FADE");
                                              ("url", JStr (CHROME_OPT_NAME url TRACE_EVENT_DEFAULT_URL));
                                              ("name", JStr (CHROME_OPT_NAME name TRACE_EVENT_DEFAULT_NAME));
                                              ("processId", JInt (pid process))]])])].

Definition tracingStarted_table (process : EventProcess) (name url : option string) : JVal :=
  JObj [("cat", JStr CHROME_TIMLINE); ("name", JStr "TracingStartedInBrowser"); ("ph", JStr "I");
        ("pid", JInt (pid process)); ("tid", JInt (tid process)); ("ts", JInt 0);
        ("args", tracingStarted_args process name url)].

Definition __metaTracingStarted (R : TReport) (process : EventProcess) (name url : option string)
    : FmtResult :=
  report_event LMPROF_REPORT_UNKNOWN_TYPE (tracingStarted_table process name url)
               [TVal (tracingStarted_table process name url)] R.

(** *** Frames *)

(** The fields an instant frame event shares. *)
Definition frame_fields (name : string) (ts : JVal) (e : TraceEvent) : list (string * JVal) :=
  [("cat", JStr CHROME_TIMELINE_FRAME); ("name", JStr name); ("s", JStr "t"); ("ph", JStr "I");
   ("ts", ts); ("pid", JInt (ev_pid e)); ("tid", JInt (ev_tid e))].

Definition __enterFrame (R : TReport) (e : TraceEvent) : FmtResult :=
  report_event LMPROF_REPORT_UNKNOWN_TYPE
    (JObj (frame_fields "BeginFrame" (ts_table (ev_ts E e)) e))
    [TVal (JObj (frame_fields "BeginFrame" (ts_file (ev_ts E e)) e ++
                 [("args", JObj [("layerTreeId", JNull)])]))] R.

(** event->data.frame.frame: END_FRAME events carry a [DFrame]. *)
Definition frame_of (e : TraceEvent) : Z :=
  match data e with DFrame n => n | _ => 0 end.

Definition __exitFrame (R : TReport) (e : TraceEvent) : FmtResult :=
  report_event LMPROF_REPORT_UNKNOWN_TYPE
    (JObj (frame_fields "ActivateLayerTree" (ts_table (ev_ts E e)) e ++
           [("args", JObj [("frameId", JInt (frame_of e))])]))
    [TVal (JObj (frame_fields "ActivateLayerTree" (ts_file (ev_ts E e)) e ++
                 [("args", JObj [("frameId", JInt (frame_of e)); ("layerTreeId", JNull)])]))] R.

Definition __drawFrame (R : TReport) (e : TraceEvent) : FmtResult :=
  report_event LMPROF_REPORT_UNKNOWN_TYPE
    (JObj (frame_fields "DrawFrame" (ts_table (ev_ts E e)) e))
    [TVal (JObj (frame_fields "DrawFrame" (ts_file (ev_ts E e)) e ++
                 [("args", JObj [("layerTreeId", JNull)])]))] R.

(** *** Scopes and routines *)

(** The thread of a scope event: routines are drawn on the main thread. *)
Definition scope_tid (e : TraceEvent) : Z :=
  if op_routine (op e) then tid (te_main E) else ev_tid e.

Definition scope_fields (ph eventName : string) (ts : JVal) (e : TraceEvent) : list (string * JVal) :=
  [("cat", JStr CHROME_USER_TIMING); ("name", JStr eventName); ("ph", JStr ph);
   ("pid", JInt (ev_pid e)); ("tid", JInt (scope_tid e)); ("ts", ts)].

Definition __eventScope (R : TReport) (e : TraceEvent) (ph eventName : string) : FmtResult :=
  report_event LMPROF_REPORT_DISABLED_IO
    (JObj (scope_fields ph eventName (ts_table (ev_ts E e)) e))
    [TVal (JObj (scope_fields ph eventName (ts_file (ev_ts E e)) e))] R.

(** *** Lines *)

(** "%s: Line %d" of the line's function source and line number. *)
Definition line_name (src : option string) (line : Z) : string :=
  CHROME_OPT_NAME src NULL_TEXT +:+ ": Line " +:+ pretty line.

(** The table branch's format string (lua_pushfstring) ends with an
    escaped quote after the line number, so its name has a stray quote. *)
Definition __eventLineInstance (R : TReport) (e : TraceEvent) (src : option string) (line : Z)
    : FmtResult :=
  report_event LMPROF_REPORT_DISABLED_IO
    (JObj [("cat", JStr CHROME_USER_TIMING); ("ph", JStr "I"); ("s", JStr "t");
           ("pid", JInt (ev_pid e)); ("tid", JInt (ev_tid e)); ("ts", ts_table (ev_ts E e));
           ("name", JStr (line_name src line +:+ QUOTE))])
    [TVal (JObj [("cat", JStr CHROME_USER_TIMING); ("name", JStr (line_name src line));
                 ("ph", JStr "I"); ("s", JStr "t"); ("ts", ts_file (ev_ts E e));
                 ("pid", JInt (ev_pid e)); ("tid", JInt (ev_tid e))])] R.

(** *** Samples *)

(** [duration = event->data.sample.next->call.s.time - event->call.s.time]
    on lu_time. *)
Definition sample_fields (ts dur : JVal) : list (string * JVal) :=
  [("cat", JStr CHROME_TIMLINE); ("name", JStr "EvaluateScript"); ("ph", JStr "X");
   ("pid", JInt (pid (te_main E))); ("tid", JInt LMPROF_THREAD_SAMPLE_TIMELINE);
   ("ts", ts); ("dur", dur)].

Definition __eventSampleInstance (R : TReport) (e next : TraceEvent) : FmtResult :=
  let duration := time (s (call next)) -w time (s (call e)) in
  let dur := LMPROF_TIME_ADJ duration (te_conf E) in
  report_event LMPROF_REPORT_DISABLED_IO
    (JObj (sample_fields (ts_table (ev_ts E e)) (ts_table dur)))
    [TVal (JObj (sample_fields (ts_file (ev_ts E e)) (ts_file dur)))] R.

(** *** Counters *)

Definition counters_fields (ts heap : JVal) (e : TraceEvent) : list (string * JVal) :=
  [("cat", JStr CHROME_TIMLINE); ("name", JStr "UpdateCounters"); ("ph", JStr "I");
   ("s", JStr "g"); ("pid", JInt (ev_pid e)); ("tid", JInt (ev_tid e)); ("ts", ts);
   ("args", JObj [("data", JObj [("jsHeapSizeUsed", heap)])])].

Definition __eventUpdateCounters (R : TReport) (e : TraceEvent) : FmtResult :=
  report_event LMPROF_REPORT_DISABLED_IO
    (JObj (counters_fields (ts_table (ev_ts E e)) (JInt (to_lua_Integer (unit_allocated (s (call e))))) e))
    [TVal (JObj (counters_fields (ts_file (ev_ts E e)) (JInt (wrap (unit_allocated (s (call e))))) e))] R.

End Formatters.

End TraceJson.
