(* ===== verification/TraceReport.v ===== *)
(** * The trace-event report

    traceevent_report (lmprof_report.c) turns the timeline of a trace
    profile into the Chrome trace-event format: the metadata events of
    tracevent_table_header, then one or two formatted events per timeline
    event (traceevent_table_events), the header of traceevent_report_header,
    and, with LMPROF_OPT_TRACE_ABOUT_TRACING, the wrapping object
    {"traceEvents": [...], "metadata": {...}} of chrome://tracing.  The
    event walk first adjusts and optionally compresses the timeline
    (Timeline.v), and links every SAMPLE_EVENT to the next one as it goes,
    so the report returns the timeline it leaves.  The formatters are
    those of TraceJson.v; the page usage (timeline_usage,
    collections/lmprof_collections.c) is computed in IEEE binary64, the
    arithmetic of the C [double]s it is written with (Stdlib's primitive
    floats, with the conversion of an integer rounded to nearest). *)

From Stdlib Require Import Ascii String Floats SpecFloat Uint63.
From stdpp Require Import strings pretty.
From S2P Require Import Common Unit Record Stack Timeline Config StateApi Report TraceJson.
Import Unit Record Stack Timeline Config Report TraceJson.

Module TraceReport.

#[local] Open Scope Z_scope.

(** ** Page statistics (collections/lmprof_collections.c) *)

(** The conversion [(double)n] of an integer (a [size_t]) to binary64,
    rounded to nearest even: the primitive conversion of a 63-bit integer
    when it fits, the rounding of the specification otherwise. *)
Definition double_of_Z (z : Z) : float :=
  if (0 <=? z) && (z <? 9223372036854775808)
  then PrimFloat.of_uint63 (Uint63.of_Z z)
  else SF2Prim (binary_normalize FloatOps.prec FloatOps.emax z 0 false).

Section Pages.
(** TRACE_EVENT_SIZE_ARRAY *)
Variable cap : nat.

(** timeline_page_size and timeline_event_array_size *)
Definition timeline_page_size : Z := TRACE_EVENT_PAGE_SIZE.
Definition timeline_event_array_size : Z := Z.of_nat cap.

(** timeline_usage, in binary64: the share of the page budget in use,
    the current page counting by its fill. *)
Definition timeline_usage (tl : TraceEventTimeline) : float :=
  if (pageCount tl =? 0) || (pageLimit tl =? 0) then 0%float
  else
    let uniform := (1 / double_of_Z (pageLimit tl))%float in
    let result := (uniform * (double_of_Z (pageCount tl) - 1))%float in
    let page := (double_of_Z (Z.of_nat (cur_len tl)) / double_of_Z (Z.of_nat cap))%float in
    (result + uniform * page)%float.

End Pages.

(** ** The walk over the events *)

(** The local state of traceevent_table_events: the report, the timeline
    (whose sample links the walk writes), the last SAMPLE_EVENT seen and
    the counter of scope events since the last UpdateCounters. *)
Record WalkState := mkWalk {
  ws_R : TReport;
  ws_tl : TraceEventTimeline;
  ws_samples : option EventRef;
  ws_counter : Z;
}.

(** lua_isnumber on a key of LMPROF_TAB_THREAD_NAMES (thread identifiers
    are integers). *)
Definition lua_isnumber (v : LuaVal) : bool :=
  match v with LInt _ => true | _ => false end.

(** The counter test of the ENTER_SCOPE and EXIT_SCOPE cases:
    [BITFIELD_TEST(mode, LMPROF_MODE_MEMORY) && (counterFrequency == 1 ||
     ((++counter) % counterFrequency) == 0)], then [counter = 0] when it
    holds.  Whether UpdateCounters is emitted, and the new counter. *)
Definition counter_tick (memory : bool) (freq counter : Z) : bool * Z :=
  if memory then
    if freq =? 1 then (true, 0)
    else let c := counter + 1 in if c mod freq =? 0 then (true, 0) else (false, c)
  else (false, counter).

(** The counter test over [n] consecutive scope events, from counter
    [c]: how many UpdateCounters events are emitted, and the counter left. *)
Fixpoint counter_run (memory : bool) (freq : Z) (n : nat) (c : Z) : nat * Z :=
  match n with
  | O => (O, c)
  | S n' =>
      let '(b, c1) := counter_tick memory freq c in
      let '(k, c2) := counter_run memory freq n' c1 in
      (if b then S k else k, c2)
  end.

Section Report.

Variable LMPROF_FILE_API : bool.
Variable E : TraceEnv.
(** TRACE_EVENT_SIZE_ARRAY and sizeof(TraceEvent), both layout constants. *)
Variable cap : nat.
Variable sizeof_TraceEvent : Z.
(** lmprof_thread_name(L, tid, opt): the name registered for a thread, or
    [opt]. *)
Variable lmprof_thread_name : Z -> string -> string.
(** The record heap the events' [info] pointers point into. *)
Variable hp : heap.

(** __threadName *)
Definition __threadName (e : TraceEvent) : string :=
  lmprof_thread_name (ev_tid e)
    (if ev_tid e =? tid (te_main E) then CHROME_NAME_MAIN else CHROME_META_TICK).

(** tracevent_table_header: the metadata events; [names] is the content
    of LMPROF_TAB_THREAD_NAMES in lua_next order. *)
Definition tracevent_table_header (names : list (LuaVal * LuaVal)) (R : TReport) : TReport :=
  let m := te_main E in
  let browser := mkProcess (pid m) Stack.LMPROF_THREAD_BROWSER in
  let renderer := mkProcess (pid m) (tid m) in
  let sampler := mkProcess (pid m) LMPROF_THREAD_SAMPLE_TIMELINE in
  let mp := __metaProcess LMPROF_FILE_API in
  let R1 := REPORT_TABLE_APPEND (mp R browser CHROME_META_PROCESS (Some CHROME_NAME_BROWSER)) in
  let R2 := REPORT_TABLE_APPEND (mp R1 browser CHROME_META_THREAD (Some CHROME_NAME_CR_BROWSER)) in
  let R3 := REPORT_TABLE_APPEND (mp R2 renderer CHROME_META_THREAD (Some CHROME_NAME_CR_RENDERER)) in
  let R4 := REPORT_TABLE_APPEND (mp R3 sampler CHROME_META_THREAD (Some CHROME_NAME_SAMPLER)) in
  let R5 := if negb (bit_test (te_conf E) LMPROF_OPT_TRACE_ABOUT_TRACING)
            then REPORT_TABLE_APPEND
                   (__metaTracingStarted LMPROF_FILE_API R4 browser (te_name E) (te_url E))
            else R4 in
  if bit_test (te_conf E) LMPROF_OPT_TRACE_LAYOUT_SPLIT then
    fold_left (fun R kv =>
      match kv.1 with
      | LInt t => REPORT_TABLE_APPEND
                    (mp R (mkProcess Stack.LMPROF_PROCESS_MAIN t) CHROME_META_THREAD
                        (StateApi.lua_tostring kv.2))
      | _ => R
      end) names R5
  else R5.

(** The record an ENTER_SCOPE/EXIT_SCOPE or LINE_SCOPE event points to
    ([event->data.event.info] / [event->data.line.info], dereferenced);
    [None] for a NULL or dangling pointer. *)
Definition event_info (e : TraceEvent) : option lmprof_Record :=
  match data e with
  | DEvent (Some p) _ _ _ | DLine (Some p) _ _ _ => hp !! p
  | _ => None
  end.

Definition src_string (r : lmprof_Record) : option string :=
  string_of_list_ascii <$> source (Record.info r).

(** CHROME_EVENT_NAME(E) *)
Definition CHROME_EVENT_NAME (r : lmprof_Record) : string :=
  CHROME_OPT_NAME (src_string r) LMPROF_RECORD_NAME_UNKNOWN.

(** The line number of a LINE_SCOPE event. *)
Definition line_of (e : TraceEvent) : Z :=
  match data e with DLine _ _ _ l => l | _ => 0 end.

Definition process_name (e : TraceEvent) : option string :=
  match data e with DProcess n => Some (string_of_list_ascii n) | _ => None end.

Definition set_sample_next (n : EventRef) (e : TraceEvent) : TraceEvent :=
  mkEvent (op e) (call e) (DSample (Some n)).

(** The ENTER_SCOPE and EXIT_SCOPE cases: the scope event, then
    UpdateCounters every [freq] scope events in memory mode. *)
Definition scope_case (freq : Z) (ph : string) (r : lmprof_Record) (e : TraceEvent)
    (w : WalkState) : WalkState :=
  let R1 := REPORT_TABLE_APPEND (__eventScope LMPROF_FILE_API E (ws_R w) e ph (CHROME_EVENT_NAME r)) in
  let '(emit, c) := counter_tick (bit_test (te_mode E) LMPROF_MODE_MEMORY) freq (ws_counter w) in
  let R2 := if emit then REPORT_TABLE_APPEND (__eventUpdateCounters LMPROF_FILE_API E R1 e) else R1 in
  mkWalk R2 (ws_tl w) (ws_samples w) c.

(** One iteration of the loop over the events: [None] when the slot was
    never written or a record pointer is NULL (both are undefined
    behaviour in the C code). *)
Definition event_step (freq : Z) (w : WalkState) (ref : EventRef) : option WalkState :=
  e ← slot (ws_tl w) ref ≫= id;
  let setR R := mkWalk R (ws_tl w) (ws_samples w) (ws_counter w) in
  let R := ws_R w in
  match op e with
  | ENTER_SCOPE | EXIT_SCOPE =>
      r ← event_info e;
      if bit_test (event (Record.info r)) LMPROF_RECORD_IGNORED then Some w
      else Some (scope_case freq (if op e is ENTER_SCOPE then CHROME_META_BEGIN else CHROME_META_END)
                            r e w)
  | BEGIN_FRAME => Some (setR (REPORT_TABLE_APPEND (__enterFrame LMPROF_FILE_API E R e)))
  | END_FRAME =>
      let R1 := REPORT_TABLE_APPEND (__exitFrame LMPROF_FILE_API E R e) in
      Some (setR (REPORT_TABLE_APPEND (__drawFrame LMPROF_FILE_API E R1 e)))
  | BEGIN_ROUTINE =>
      Some (setR (REPORT_TABLE_APPEND (__eventScope LMPROF_FILE_API E R e CHROME_META_BEGIN (__threadName e))))
  | END_ROUTINE =>
      Some (setR (REPORT_TABLE_APPEND (__eventScope LMPROF_FILE_API E R e CHROME_META_END (__threadName e))))
  | LINE_SCOPE =>
      r ← event_info e;
      Some (setR (REPORT_TABLE_APPEND (__eventLineInstance LMPROF_FILE_API E R e (src_string r) (line_of e))))
  | SAMPLE_EVENT =>
      match ws_samples w with
      | Some sref =>
          let tl' := modify_event (ws_tl w) sref (set_sample_next ref) in
          prev ← event_at (ws_tl w) sref;
          Some (mkWalk (REPORT_TABLE_APPEND (__eventSampleInstance LMPROF_FILE_API E R prev e))
                       tl' (Some ref) (ws_counter w))
      | None => Some (mkWalk R (ws_tl w) (Some ref) (ws_counter w))
      end
  | PROCESS =>
      Some (setR (REPORT_TABLE_APPEND (__metaProcess LMPROF_FILE_API R (proc (call e)) CHROME_META_PROCESS
                   (Some (CHROME_OPT_NAME (process_name e) CHROME_NAME_PROCESS)))))
  | THREAD =>
      Some (setR (REPORT_TABLE_APPEND (__metaProcess LMPROF_FILE_API R (proc (call e)) CHROME_META_THREAD
                   (Some (CHROME_OPT_NAME (process_name e) CHROME_NAME_PROCESS)))))
  | IGNORE_SCOPE => Some w
  end.

Fixpoint events_walk (freq : Z) (refs : list EventRef) (w : WalkState) : option WalkState :=
  match refs with
  | [] => Some w
  | r :: rs => w' ← event_step freq w r; events_walk freq rs w'
  end.

(** The counter frequency: st->i.counterFrequency when positive, else
    TRACE_EVENT_COUNTER_FREQ. *)
Definition counter_frequency : Z :=
  if 0 <? te_counterFrequency E then te_counterFrequency E else StateApi.TRACE_EVENT_COUNTER_FREQ.

(** traceevent_table_events: adjust, compress when asked, then the walk. *)
Definition traceevent_table_events (R : TReport) (tl : TraceEventTimeline)
    : option (TReport * TraceEventTimeline) :=
  let tl1 := timeline_adjust tl in
  let tl2 := if bit_test (te_conf E) LMPROF_OPT_TRACE_COMPRESS
             then timeline_compress hp (mkOpts 0 0 (te_threshold E)) tl1 else tl1 in
  w ← events_walk counter_frequency (all_refs tl2) (mkWalk R tl2 None 0);
  Some (ws_R w, ws_tl w).

(** traceevent_report_header (lTable): the profiler header and the
    timeline statistics. *)
Definition rval_json (v : RVal) : JVal :=
  match v with
  | RStr s => JStr s | RInt z => JInt z | RBool b => JBool b | RNum z => JInt z
  | RSeq l => JArr (map JInt l)
  end.

Definition traceevent_report_header (hi : HeaderInfo) (tl : TraceEventTimeline) : list (string * JVal) :=
  map (fun kv => (kv.1, rval_json kv.2)) (profiler_header_row (te_mode E) (te_conf E) hi) ++
  [("compress", JBool (bit_test (te_conf E) LMPROF_OPT_TRACE_COMPRESS));
   ("eventsize", JInt (to_lua_Integer sizeof_TraceEvent));
   ("eventpages", JInt (to_lua_Integer (timeline_event_array_size cap)));
   ("usedpages", JInt (to_lua_Integer (pageCount tl)));
   ("totalpages", JInt (to_lua_Integer (pageLimit tl)));
   ("pagelimit", JInt (to_lua_Integer (pageLimit tl * timeline_page_size)));
   ("pagesize", JInt (to_lua_Integer timeline_page_size));
   ("pageusage", JReal (timeline_usage cap tl))].

(** What traceevent_report leaves: for a table report, the "header" table,
    the array part and the named fields of the "records" table; for a file
    report, the code and the report; [TUndefined] when the walk hits
    undefined behaviour. *)
Inductive TraceOut :=
  | TOTable (hdr : list (string * JVal)) (records : gmap Z JVal) (fields : list (string * JVal))
            (tl : TraceEventTimeline)
  | TOFile (code : Z) (R : TReport) (tl : TraceEventTimeline)
  | TOFailure
  | TUndefined.

Definition traceevent_report (hi : HeaderInfo) (names : list (LuaVal * LuaVal)) (R : TReport)
    (tl : TraceEventTimeline) : TraceOut :=
  let about := bit_test (te_conf E) LMPROF_OPT_TRACE_ABOUT_TRACING in
  match tr_type R with
  | lTable =>
      let hdr := traceevent_report_header hi tl in
      let R0 := tr_set_table R (tr_count R) ∅ in
      match traceevent_table_events (tracevent_table_header names R0) tl with
      | Some (R1, tl') =>
          let fields := if about then
                          [("traceEvents", JObj []);
                           ("metadata", JObj (metaAbout_fields E LMPROF (te_lua_version E)))]
                        else [] in
          TOTable hdr (tr_table R1) fields tl'
      | None => TUndefined
      end
  | lFile =>
      if LMPROF_FILE_API then
        let R1 := tr_write R [TText (if about then "{" +:+ quoted "traceEvents" +:+ ":[" +:+ JSON_NEWLINE
                                     else "[" +:+ JSON_NEWLINE)] in
        match traceevent_table_events (tracevent_table_header names R1) tl with
        | Some (R2, tl') =>
            if about then
              let R3 := tr_write (tr_set_delim R2 false) [TText ("]" +:+ JSON_DELIM)] in
              let '(_, R4, _) := __metaAbout LMPROF_FILE_API E R3 LMPROF (te_lua_version E) in
              TOFile LUA_OK (tr_write R4 [TText ("}" +:+ JSON_NEWLINE)]) tl'
            else TOFile LUA_OK (tr_write R2 [TText (JSON_NEWLINE +:+ "]" +:+ JSON_NEWLINE)]) tl'
        | None => TUndefined
        end
      else TOFile LMPROF_REPORT_DISABLED_IO R tl
  | lBuffer => TOFailure
  end.

(** ** What the theorems are stated with *)

(** One REPORT_TABLE_APPEND of a formatter whose file branch writes one
    JSON value: every append of the trace report has this shape. *)
Definition app_step (R R' : TReport) : Prop :=
  exists noio tab v, R' = REPORT_TABLE_APPEND (report_event LMPROF_FILE_API noio tab [TVal v] R).

Definition needs_info (o : TraceEventType) : bool :=
  match o with ENTER_SCOPE | EXIT_SCOPE | LINE_SCOPE => true | _ => false end.

(** Every slot of the timeline up to its page's count is written, and
    every scope and line event points to a record of the heap. *)
Definition timeline_defined (tl : TraceEventTimeline) : Prop :=
  forall r so, slot tl r = Some so ->
    exists e, so = Some e /\ (needs_info (op e) = true -> is_Some (event_info e)).

(** The body of a JSON array of the values [vs], as the file branch
    writes it: the values separated by JSON_DELIM and a newline. *)
Definition json_array_body (vs : list JVal) : list Tok :=
  match vs with
  | [] => []
  | v :: vs' => TVal v :: flat_map (fun w => [TText (JSON_DELIM +:+ JSON_NEWLINE); TVal w]) vs'
  end.

(** The table branch only ever adds entries at the array counter. *)
Definition table_ext (R R' : TReport) : Prop :=
  tr_type R' = tr_type R /\ tr_count R <= tr_count R' /\
  (forall k, k < tr_count R -> tr_table R' !! k = tr_table R !! k).

(** The walk's link to the previous sample points to a SAMPLE_EVENT. *)
Definition samples_ok (w : WalkState) : Prop :=
  forall sref, ws_samples w = Some sref ->
    exists e, event_at (ws_tl w) sref = Some e /\ op e = SAMPLE_EVENT.

(** The file branch has written [pre], then the body of an array, and
    owes a delimiter exactly when the array is not empty. *)
Definition file_array (pre : list Tok) (R : TReport) : Prop :=
  exists vs, tr_out R = pre ++ json_array_body vs /\ (tr_delim R = true <-> vs <> []).

(** Two timelines with the same written and reserved slots. *)
Definition same_slots (tl tl' : TraceEventTimeline) : Prop :=
  forall r, is_Some (slot tl r) <-> is_Some (slot tl' r).

(** Every written slot holds a SAMPLE_EVENT (a profile of instruction
    samples only). *)
Definition all_samples (tl : TraceEventTimeline) : Prop :=
  forall r so, slot tl r = Some so -> exists e, so = Some e /\ op e = SAMPLE_EVENT.

(** Decision procedures for [timeline_defined] and [all_samples]. *)
Definition slot_definedb (so : option TraceEvent) : bool :=
  match so with
  | Some e => negb (needs_info (op e)) || bool_decide (is_Some (event_info e))
  | None => false
  end.

Definition timeline_definedb (tl : TraceEventTimeline) : bool :=
  forallb (forallb slot_definedb) (pages tl).

Definition all_samplesb (tl : TraceEventTimeline) : bool :=
  forallb (forallb (fun so => if so is Some e then bool_decide (op e = SAMPLE_EVENT) else false))
          (pages tl).

(** ** The appends *)

Lemma app_step_report_event noio tab v R :
  app_step R (REPORT_TABLE_APPEND (report_event LMPROF_FILE_API noio tab [TVal v] R)).
Proof. eexists _, _, _. reflexivity. Qed.

Lemma report_append_table noio tab ts R :
  tr_type R = lTable ->
  REPORT_TABLE_APPEND (report_event LMPROF_FILE_API noio tab ts R) =
    tr_set_table R (tr_count R + 1) (<[tr_count R := tab]> (tr_table R)).
Proof. destruct R as [ty n t d o]. cbn. intros ->. reflexivity. Qed.

Lemma report_append_file noio tab v R :
  tr_type R = lFile -> LMPROF_FILE_API = true ->
  REPORT_TABLE_APPEND (report_event LMPROF_FILE_API noio tab [TVal v] R) =
    tr_set_delim (tr_write (REPORT_ENSURE_DELIM R) [TVal v]) true.
Proof.
  destruct R as [ty n t [|] o]; cbn; intros -> ->; reflexivity.
Qed.

Lemma app_step_table_ext R R' : app_step R R' -> table_ext R R'.
Proof.
  intros (noio & tab & v & ->). unfold table_ext.
  destruct (tr_type R) eqn:Ht.
  - rewrite report_append_table by done. cbn. split_and!; [done|lia|].
    intros k Hk. apply lookup_insert_ne. lia.
  - destruct R as [ty n t [|] o]; cbn in *; subst; destruct LMPROF_FILE_API; cbn;
      split_and!; done || lia.
  - destruct R as [ty n t d o]; cbn in *; subst. split_and!; done || lia.
Qed.

#[export] Instance table_ext_preorder : PreOrder table_ext.
Proof.
  split.
  - intros R. unfold table_ext. split_and!; done || lia.
  - intros R1 R2 R3 (H1 & H2 & H3) (H4 & H5 & H6). split_and!; [congruence|lia|].
    intros k Hk. rewrite H6 by lia. auto.
Qed.

Lemma steps_table_ext R R' : rtc app_step R R' -> table_ext R R'.
Proof.
  induction 1 as [|R1 R2 R3 H12 _ IH]; [reflexivity|].
  etrans; [apply app_step_table_ext, H12|exact IH].
Qed.

Lemma json_array_body_snoc vs v :
  json_array_body (vs ++ [v]) =
    json_array_body vs ++ (if vs is [] then [TVal v] else [TText (JSON_DELIM +:+ JSON_NEWLINE); TVal v]).
Proof. destruct vs as [|v0 vs]; [done|]. cbn [app json_array_body]. rewrite flat_map_app. done. Qed.

Lemma app_step_file_array pre R R' :
  tr_type R = lFile -> LMPROF_FILE_API = true -> app_step R R' -> file_array pre R ->
  tr_type R' = lFile /\ file_array pre R'.
Proof.
  intros Ht HF (noio & tab & v & ->) (vs & Hout & Hd).
  rewrite report_append_file by done. unfold REPORT_ENSURE_DELIM.
  assert (Hne : vs ++ [v] <> []) by (destruct vs; done).
  destruct (tr_delim R) eqn:Hdel; unfold tr_set_delim, tr_write; cbn [tr_type tr_out tr_delim];
    (split; [done|exists (vs ++ [v])]); cbn [tr_out tr_delim];
    rewrite json_array_body_snoc, Hout, <- !app_assoc; (split; [|done]).
  - destruct vs; [|done]. by destruct Hd as [Hd _]; specialize (Hd eq_refl).
  - destruct vs; [done|]. destruct Hd as [_ Hd]. by discriminate Hd.
Qed.

Lemma steps_file_array pre R R' :
  tr_type R = lFile -> LMPROF_FILE_API = true -> rtc app_step R R' -> file_array pre R ->
  tr_type R' = lFile /\ file_array pre R'.
Proof.
  intros Ht HF Hs. revert Ht. induction Hs as [|R1 R2 R3 H12 _ IH]; [done|].
  intros Ht Hf. destruct (app_step_file_array pre R1 R2) as [Ht2 Hf2]; auto.
Qed.

(** ** The decision procedures *)

Lemma forallb_slot (f : option TraceEvent -> bool) tl r so :
  forallb (forallb f) (pages tl) = true -> slot tl r = Some so -> f so = true.
Proof.
  unfold slot. destruct (pages tl !! r.1) as [pg|] eqn:Hp; cbn; [|done]. intros H Hs.
  apply forallb_forall with (x := pg) in H; [|apply list_elem_of_In; by eapply list_elem_of_lookup_2].
  apply forallb_forall with (x := so) in H; [done|apply list_elem_of_In; by eapply list_elem_of_lookup_2].
Qed.

Lemma timeline_definedb_spec tl : timeline_definedb tl = true -> timeline_defined tl.
Proof.
  intros H r so Hs. apply (forallb_slot _ _ _ _ H) in Hs. destruct so as [e|]; [|done].
  exists e. split; [done|]. intros Hn. cbn in Hs. rewrite Hn in Hs. cbn in Hs.
  by apply bool_decide_eq_true in Hs.
Qed.

Lemma all_samplesb_spec tl : all_samplesb tl = true -> all_samples tl.
Proof.
  intros H r so Hs. apply (forallb_slot _ _ _ _ H) in Hs. destruct so as [e|]; [|done].
  exists e. split; [done|]. by apply bool_decide_eq_true in Hs.
Qed.

(** ** The walk appends only formatted events *)

Ltac app_steps :=
  first [ apply rtc_refl
        | eapply rtc_r; [|eexists _, _, _; reflexivity]; app_steps ].

Lemma scope_case_steps freq ph r e w :
  rtc app_step (ws_R w) (ws_R (scope_case freq ph r e w)) /\
  ws_tl (scope_case freq ph r e w) = ws_tl w /\ ws_samples (scope_case freq ph r e w) = ws_samples w.
Proof.
  unfold scope_case. destruct (counter_tick _ _ _) as [[] c]; cbn; split_and!; try done; app_steps.
Qed.

Lemma event_step_steps freq w r w' :
  event_step freq w r = Some w' -> rtc app_step (ws_R w) (ws_R w').
Proof.
  unfold event_step. destruct (slot (ws_tl w) r ≫= id) as [e|]; cbn; [|done].
  destruct (op e); cbn;
    repeat match goal with
    | |- context [event_info ?e] => destruct (event_info e); cbn; [|done]
    | |- context [if ?b then _ else _] => destruct b
    | |- context [match ws_samples w with _ => _ end] => destruct (ws_samples w)
    | |- context [event_at ?tl ?x] => destruct (event_at tl x); cbn; [|done]
    end; intros [= <-]; try apply scope_case_steps; cbn; app_steps.
Qed.

Lemma events_walk_steps freq refs w w' :
  events_walk freq refs w = Some w' -> rtc app_step (ws_R w) (ws_R w').
Proof.
  revert w. induction refs as [|r refs IH]; intros w; cbn; [by intros [= <-]|].
  destruct (event_step freq w r) as [w1|] eqn:Hs; cbn; [|done].
  intros Hw. etrans; [eapply event_step_steps, Hs|eauto].
Qed.

Lemma thread_names_steps names R0 R :
  rtc app_step R R0 ->
  rtc app_step R (fold_left (fun R kv => match kv.1 with
      | LInt t => REPORT_TABLE_APPEND (__metaProcess LMPROF_FILE_API R
                    (mkProcess Stack.LMPROF_PROCESS_MAIN t) CHROME_META_THREAD (StateApi.lua_tostring kv.2))
      | _ => R end) names R0).
Proof.
  revert R0. induction names as [|[[] ?] l IH]; intros R0 H0; cbn; [done|..]; apply IH; try done.
  etrans; [exact H0|]. apply rtc_once, app_step_report_event.
Qed.

(** Everything the header appends after its first metadata event. *)
Lemma header_steps_from names R :
  rtc app_step
    (REPORT_TABLE_APPEND (__metaProcess LMPROF_FILE_API R
       (mkProcess (pid (te_main E)) Stack.LMPROF_THREAD_BROWSER) CHROME_META_PROCESS (Some CHROME_NAME_BROWSER)))
    (tracevent_table_header names R).
Proof. unfold tracevent_table_header. repeat (case_match || apply thread_names_steps); app_steps. Qed.

Lemma header_steps names R : rtc app_step R (tracevent_table_header names R).
Proof. eapply rtc_l; [apply app_step_report_event|apply header_steps_from]. Qed.

Lemma table_events_steps R tl R' tl' :
  traceevent_table_events R tl = Some (R', tl') -> rtc app_step R R'.
Proof.
  unfold traceevent_table_events.
  destruct (events_walk _ _ _) as [w|] eqn:Hw; cbn; [|done].
  intros [= <- _]. apply events_walk_steps in Hw. exact Hw.
Qed.

(** ** Every timeline whose events are defined is reported *)

Lemma event_info_data e e' : data e' = data e -> event_info e' = event_info e.
Proof. unfold event_info. intros ->. done. Qed.

Lemma adjust_event_op_data b e : op (adjust_event b e) = op e /\ data (adjust_event b e) = data e.
Proof. unfold adjust_event. destruct (op_adjust _); done. Qed.

Lemma slot_timeline_adjust tl r :
  slot (timeline_adjust tl) r = option_map (option_map (adjust_event (baseTime tl))) (slot tl r).
Proof.
  unfold slot, timeline_adjust, set_pages. cbn [pages].
  rewrite list_lookup_fmap. destruct (pages tl !! r.1) as [pg|]; [cbn|done].
  rewrite list_lookup_fmap. destruct (pg !! r.2) as [[]|]; done.
Qed.

Lemma timeline_adjust_defined tl : timeline_defined tl -> timeline_defined (timeline_adjust tl).
Proof.
  intros H r so. rewrite slot_timeline_adjust. destruct (slot tl r) as [so0|] eqn:Hs; cbn; [|done].
  intros [= <-]. destruct (H r so0 Hs) as (e & -> & He). eexists; split; [done|].
  destruct (adjust_event_op_data (baseTime tl) e) as [-> Hd]. rewrite (event_info_data _ _ Hd). done.
Qed.

#[export] Instance same_slots_preorder : PreOrder same_slots.
Proof. split; [intros ? ?; done|]. intros t1 t2 t3 H12 H23 r. rewrite (H12 r). apply H23. Qed.

Lemma modify_event_same_slots tl r f : same_slots tl (modify_event tl r f).
Proof.
  intros r'. rewrite modify_event_slot. case_decide; [subst|done].
  destruct (slot tl r) as [[]|]; cbn; done.
Qed.

Lemma ignore_lines_same_slots fuel tl x : same_slots tl (ignore_lines fuel tl x).
Proof.
  revert tl x. induction fuel as [|fuel IH]; intros tl [x|]; cbn; try reflexivity.
  etrans; [apply modify_event_same_slots|apply IH].
Qed.

Lemma compress_same_slots o tl : same_slots tl (timeline_compress hp o tl).
Proof.
  unfold timeline_compress. cbv zeta. generalize (length (all_refs tl)) as fuel.
  generalize (all_refs tl) as refs. intros refs fuel. revert tl.
  induction refs as [|r refs IH]; intros tl; cbn; [reflexivity|].
  etrans; [|apply IH]. unfold compress_step. repeat case_match; try reflexivity.
  etrans; [|apply ignore_lines_same_slots]. etrans; apply modify_event_same_slots.
Qed.

Lemma timeline_compress_defined o tl :
  timeline_defined tl -> timeline_defined (timeline_compress hp o tl).
Proof.
  intros H r so Hso.
  destruct (proj2 (compress_same_slots o tl r) (ltac:(rewrite Hso; done))) as [so0 Hs0].
  destruct (H r so0 Hs0) as (e & -> & He).
  assert (Hat : event_at tl r = Some e) by (rewrite event_at_slot, Hs0; done).
  destruct (tl_agree_Some_r _ _ _ _ (timeline_compress_agree hp o tl) Hat) as (e' & He' & _ & Hd & Ho).
  rewrite event_at_slot, Hso in He'. destruct so as [e0|]; cbn in He'; [|done].
  injection He' as ->. exists e'. split; [done|].
  destruct Ho as [->| ->]; [rewrite (event_info_data _ _ Hd); done|done].
Qed.

Lemma walk_keep w w' :
  ws_tl w' = ws_tl w -> ws_samples w' = ws_samples w ->
  timeline_defined (ws_tl w) -> samples_ok w ->
  timeline_defined (ws_tl w') /\ samples_ok w' /\ same_slots (ws_tl w) (ws_tl w').
Proof. unfold samples_ok. intros H1 H2 Hd Hs. rewrite H1, H2. split_and!; [done|done|reflexivity]. Qed.

Lemma sample_link_defined w r e sref prev :
  timeline_defined (ws_tl w) -> event_at (ws_tl w) r = Some e -> op e = SAMPLE_EVENT ->
  event_at (ws_tl w) sref = Some prev -> op prev = SAMPLE_EVENT ->
  let tl' := modify_event (ws_tl w) sref (set_sample_next r) in
  timeline_defined tl' /\
  (exists e', event_at tl' r = Some e' /\ op e' = SAMPLE_EVENT).
Proof.
  intros Hd He Hop Hp Hpop tl'. split.
  - intros r' so'. unfold tl'. rewrite modify_event_slot. case_decide; [subst|apply Hd].
    rewrite (event_at_Some_slot _ _ _ Hp). cbn. intros [= <-].
    eexists; split; [done|]. unfold set_sample_next. cbn. rewrite Hpop. done.
  - unfold tl'. rewrite event_at_modify_event. case_decide; [subst|eauto].
    rewrite Hp. cbn. eexists; split; [done|]. done.
Qed.

Lemma event_step_defined freq w r :
  timeline_defined (ws_tl w) -> samples_ok w -> is_Some (slot (ws_tl w) r) ->
  exists w', event_step freq w r = Some w' /\
    timeline_defined (ws_tl w') /\ samples_ok w' /\ same_slots (ws_tl w) (ws_tl w').
Proof.
  intros Hd Hsm [so Hso]. destruct (Hd r so Hso) as (e & -> & He).
  assert (Hat : event_at (ws_tl w) r = Some e) by (rewrite event_at_slot, Hso; done).
  unfold event_step. rewrite Hso. cbn [mbind option_bind id].
  destruct (op e) eqn:Hop; cbn in He |- *;
    try (destruct (He eq_refl) as [rec ->]; cbn);
    try (destruct (bit_test _ _));
    try (eexists; split; [reflexivity|];
         apply walk_keep; try done; apply scope_case_steps).
  destruct (ws_samples w) as [sref|] eqn:Hs.
  - destruct (Hsm sref Hs) as (prev & Hp & Hpop). rewrite Hp. cbn.
    eexists; split; [reflexivity|]. cbn [ws_tl ws_samples].
    destruct (sample_link_defined w r e sref prev) as [Hd' He']; try done.
    split_and!; [done| |apply modify_event_same_slots]. intros ? [= <-]. done.
  - eexists; split; [reflexivity|]. cbn. split_and!; [done| |reflexivity].
    intros ? [= <-]. eauto.
Qed.

Lemma events_walk_defined freq refs w :
  timeline_defined (ws_tl w) -> samples_ok w ->
  Forall (fun r => is_Some (slot (ws_tl w) r)) refs ->
  is_Some (events_walk freq refs w).
Proof.
  revert w. induction refs as [|r refs IH]; intros w Hd Hsm Hall; cbn; [done|].
  apply Forall_cons in Hall as [Hr Hall].
  destruct (event_step_defined freq w r) as (w' & -> & Hd' & Hsm' & Hss); try done.
  cbn. apply IH; try done. eapply Forall_impl; [exact Hall|]. intros x Hx. by apply Hss.
Qed.

Lemma table_events_some R tl :
  timeline_defined tl -> exists R' tl', traceevent_table_events R tl = Some (R', tl').
Proof.
  intros Hd. unfold traceevent_table_events.
  set (tl2 := if bit_test _ _ then _ else _).
  assert (Hd2 : timeline_defined tl2).
  { unfold tl2. apply timeline_adjust_defined in Hd.
    case_match; [apply timeline_compress_defined|]; done. }
  destruct (events_walk_defined counter_frequency (all_refs tl2) (mkWalk R tl2 None 0)) as [w ->];
    cbn; eauto.
  - intros ? [=].
  - apply Forall_forall. intros r. apply elem_of_all_refs.
Qed.

(** C17: Table reports with LMPROF_OPT_TRACE_ABOUT_TRACING: traceevent_report
    creates the traceEvents table but leaves [R->t.table_index] on the
    records table, so every event, from the first metadata event on, is
    appended to the array part of records and traceEvents stays an empty
    table beside the metadata object. *)
Theorem traceevent_report_about_table hi names R tl :
  tr_type R = lTable -> bit_test (te_conf E) LMPROF_OPT_TRACE_ABOUT_TRACING = true ->
  timeline_defined tl ->
  exists hdr recs tl',
    traceevent_report hi names R tl =
      TOTable hdr recs [("traceEvents", JObj []);
                        ("metadata", JObj (metaAbout_fields E LMPROF (te_lua_version E)))] tl' /\
    recs !! tr_count R =
      Some (metaProcess_table (mkProcess (pid (te_main E)) Stack.LMPROF_THREAD_BROWSER)
              CHROME_META_PROCESS (Some CHROME_NAME_BROWSER)).
Proof.
  intros Ht Ha Hd. unfold traceevent_report. rewrite Ht, Ha.
  set (R0 := tr_set_table R (tr_count R) ∅).
  destruct (table_events_some (tracevent_table_header names R0) tl Hd) as (R1 & tl' & Hev).
  rewrite Hev. do 3 eexists. split; [reflexivity|].
  pose proof (steps_table_ext _ _ (transitivity (R := rtc app_step) (header_steps_from names R0)
                                     (table_events_steps _ _ _ _ Hev))) as (_ & _ & Hk).
  unfold __metaProcess in Hk. rewrite report_append_table in Hk by done.
  cbn in Hk. rewrite Hk by lia. apply lookup_insert_eq.
Qed.

(** C16: A file report without LMPROF_OPT_TRACE_ABOUT_TRACING, of a timeline
    whose events are all defined, returns LUA_OK and writes one JSON
    array: the opening bracket, the formatted events separated by
    JSON_DELIM and a newline (REPORT_ENSURE_DELIM never writes a leading
    or trailing delimiter), and the closing bracket. *)
Theorem traceevent_report_file_array hi names R tl :
  LMPROF_FILE_API = true -> tr_type R = lFile -> tr_delim R = false ->
  bit_test (te_conf E) LMPROF_OPT_TRACE_ABOUT_TRACING = false -> timeline_defined tl ->
  exists R' tl' vs,
    traceevent_report hi names R tl = TOFile LUA_OK R' tl' /\
    tr_out R' = tr_out R ++ [TText ("[" +:+ JSON_NEWLINE)] ++ json_array_body vs ++
                [TText (JSON_NEWLINE +:+ "]" +:+ JSON_NEWLINE)].
Proof.
  intros HF Ht Hdl Ha Hd. unfold traceevent_report. rewrite Ht, Ha, HF.
  set (R1 := tr_write R _).
  destruct (table_events_some (tracevent_table_header names R1) tl Hd) as (R2 & tl' & Hev).
  rewrite Hev.
  destruct (steps_file_array (tr_out R1) R1 R2) as (_ & vs & Hout & _); try done.
  - etrans; [apply header_steps|exact (table_events_steps _ _ _ _ Hev)].
  - exists []. split; [by cbn [json_array_body]; rewrite app_nil_r|]. unfold R1, tr_write. cbn [tr_delim].
    rewrite Hdl. naive_solver.
  - eexists _, tl', vs. split; [reflexivity|]. unfold tr_write at 1. cbn [tr_out].
    rewrite Hout. unfold R1. cbn. rewrite <- !app_assoc. done.
Qed.

(** ** Samples *)

Lemma app_step_count R R' : app_step R R' -> tr_type R = lTable -> tr_count R' = tr_count R + 1.
Proof. intros (noio & tab & v & ->) Ht. rewrite report_append_table by done. done. Qed.

Lemma all_samples_at tl r :
  all_samples tl -> is_Some (slot tl r) -> exists e, event_at tl r = Some e /\ op e = SAMPLE_EVENT.
Proof.
  intros H [so Hso]. destruct (H r so Hso) as (e & -> & He).
  exists e. rewrite event_at_slot, Hso. done.
Qed.

Lemma all_samples_link tl sref r :
  all_samples tl -> all_samples (modify_event tl sref (set_sample_next r)).
Proof.
  intros H r' so. rewrite modify_event_slot. case_decide; [subst|apply H].
  destruct (slot tl sref) as [so0|] eqn:Hs; cbn; [|done]. intros [= <-].
  destruct (H _ _ Hs) as (e & -> & He). eexists; split; [done|]. done.
Qed.

Lemma all_samples_adjust tl : all_samples tl -> all_samples (timeline_adjust tl).
Proof.
  intros H r so. rewrite slot_timeline_adjust. destruct (slot tl r) as [so0|] eqn:Hs; cbn; [|done].
  intros [= <-]. destruct (H r so0 Hs) as (e & -> & He). eexists; split; [done|].
  rewrite (proj1 (adjust_event_op_data _ _)). done.
Qed.

Lemma compress_all_samples o tl : all_samples tl -> timeline_compress hp o tl = tl.
Proof.
  intros H. unfold timeline_compress. cbv zeta. generalize (length (all_refs tl)) as fuel.
  intros fuel. induction (all_refs tl) as [|r refs IH]; cbn; [done|].
  assert (Hs : compress_step fuel hp o tl r = tl).
  { unfold compress_step. rewrite event_at_slot.
    destruct (slot tl r) as [so|] eqn:Hso; cbn; [|done].
    destruct (H r so Hso) as (e & -> & He). cbn. rewrite He. by case_match. }
  rewrite Hs. exact IH.
Qed.

Lemma imap_map {A B C} (f : nat -> B -> C) (g : A -> B) (l : list A) :
  imap f (map g l) = imap (fun i x => f i (g x)) l.
Proof. revert f. induction l as [|x l IH]; intros f; cbn; [done|]. f_equal. apply IH. Qed.

Lemma all_refs_adjust tl : all_refs (timeline_adjust tl) = all_refs tl.
Proof.
  unfold all_refs, timeline_adjust, set_pages. cbn [pages]. rewrite imap_map.
  f_equal. apply imap_ext. intros i pg _. rewrite imap_map. done.
Qed.

Lemma sample_step freq w r :
  tr_type (ws_R w) = lTable -> all_samples (ws_tl w) -> samples_ok w -> is_Some (slot (ws_tl w) r) ->
  exists w', event_step freq w r = Some w' /\ tr_type (ws_R w') = lTable /\
    all_samples (ws_tl w') /\ ws_samples w' = Some r /\ same_slots (ws_tl w) (ws_tl w') /\
    tr_count (ws_R w') = tr_count (ws_R w) + (if ws_samples w is Some _ then 1 else 0).
Proof.
  intros Ht Ha Hsm Hr. destruct (all_samples_at _ _ Ha Hr) as (e & He & Hop).
  unfold event_step. rewrite <- event_at_slot, He. cbn [mbind option_bind]. rewrite Hop.
  destruct (ws_samples w) as [sref|] eqn:Hs.
  - destruct (Hsm sref Hs) as (prev & Hp & _). rewrite Hp. cbn.
    assert (Hst : app_step (ws_R w)
      (REPORT_TABLE_APPEND (__eventSampleInstance LMPROF_FILE_API E (ws_R w) prev e)))
      by (eexists _, _, _; reflexivity).
    eexists; split; [reflexivity|]. cbn [ws_R ws_tl ws_samples].
    split_and!; [|apply all_samples_link, Ha|done|apply modify_event_same_slots|];
      [destruct (app_step_table_ext _ _ Hst) as [H1 _]; congruence|].
    exact (app_step_count _ _ Hst Ht).
  - eexists; split; [reflexivity|]. cbn. split_and!; done || reflexivity || lia.
Qed.

Lemma samples_walk_count freq refs w :
  tr_type (ws_R w) = lTable -> all_samples (ws_tl w) -> samples_ok w -> is_Some (ws_samples w) ->
  Forall (fun r => is_Some (slot (ws_tl w) r)) refs ->
  exists w', events_walk freq refs w = Some w' /\
    tr_count (ws_R w') = tr_count (ws_R w) + Z.of_nat (length refs).
Proof.
  revert w. induction refs as [|r refs IH]; intros w Ht Ha Hsm Hs Hall; cbn.
  { eexists; split; [done|lia]. }
  apply Forall_cons in Hall as [Hr Hall].
  destruct (sample_step freq w r) as (w1 & -> & Ht1 & Ha1 & Hs1 & Hss & Hc); try done.
  assert (Hall1 : Forall (fun r => is_Some (slot (ws_tl w1) r)) refs)
    by (eapply Forall_impl; [exact Hall|]; intros x Hx; by apply Hss).
  assert (Hsm1 : samples_ok w1).
  { intros sref. rewrite Hs1. intros [= <-]. apply all_samples_at; [done|by apply Hss]. }
  destruct (IH w1) as (w' & Hw' & Hc'); [done|done|done|by rewrite Hs1|done|].
  exists w'. split; [done|]. rewrite Hc', Hc. destruct Hs as [? ->]. lia.
Qed.

(** C18: Each SAMPLE_EVENT is formatted only when the next one is reached
    (its duration is the time to the next sample), so a table report of
    [k >= 1] samples appends [k - 1] EvaluateScript events: the last
    sample of the profile is never reported. *)
Theorem traceevent_table_events_samples R tl :
  tr_type R = lTable -> all_samples tl -> all_refs tl <> [] ->
  exists R' tl', traceevent_table_events R tl = Some (R', tl') /\
    tr_count R' = tr_count R + Z.of_nat (length (all_refs tl)) - 1.
Proof.
  intros Ht Ha Hne. apply all_samples_adjust in Ha as Ha1.
  unfold traceevent_table_events.
  replace (if bit_test _ _ then _ else _) with (timeline_adjust tl)
    by (case_match; [symmetry; apply compress_all_samples|]; done).
  pose proof (elem_of_all_refs (timeline_adjust tl)) as Hin.
  rewrite all_refs_adjust in Hin |- *.
  destruct (all_refs tl) as [|r refs]; [done|]. cbn [events_walk length].
  assert (Hsm0 : samples_ok (mkWalk R (timeline_adjust tl) None 0)) by (intros ? [=]).
  destruct (sample_step counter_frequency (mkWalk R (timeline_adjust tl) None 0) r)
    as (w1 & -> & Ht1 & Ha2 & Hs1 & Hss & Hc); [done|done|done|apply Hin; constructor|].
  assert (Hsm1 : samples_ok w1).
  { intros sref. rewrite Hs1. intros [= <-]. apply all_samples_at; [done|apply Hss, Hin; constructor]. }
  assert (Hall : Forall (fun x => is_Some (slot (ws_tl w1) x)) refs).
  { apply Forall_forall. intros x Hx. apply Hss, Hin. by constructor. }
  cbn [mbind option_bind].
  destruct (samples_walk_count counter_frequency refs w1) as (w' & -> & Hc');
    [done|done|done|by rewrite Hs1|done|].
  cbn. do 2 eexists; split; [reflexivity|]. rewrite Hc', Hc. cbn. lia.
Qed.

End Report.

(** ** The counter of memory events *)

Lemma counter_run_S memory freq n c :
  counter_run memory freq (S n) c =
    let '(b, c1) := counter_tick memory freq c in
    let '(k, c2) := counter_run memory freq n c1 in (if b then S k else k, c2).
Proof. reflexivity. Qed.

(** C29: In memory mode the ENTER_SCOPE and EXIT_SCOPE cases emit
    UpdateCounters on every [freq]-th scope event: from a counter [c]
    below [freq], [n] scope events emit [(c + n) / freq] counters and
    leave the counter at [(c + n) mod freq]. *)
Theorem counter_run_spec freq n c :
  1 <= freq -> 0 <= c < freq ->
  Z.of_nat (counter_run true freq n c).1 = (c + Z.of_nat n) / freq /\
  (counter_run true freq n c).2 = (c + Z.of_nat n) mod freq.
Proof.
  revert c. induction n as [|n IH]; intros c Hf Hc.
  { cbn. rewrite Z.add_0_r, Z.div_small, Z.mod_small by lia. done. }
  rewrite counter_run_S. unfold counter_tick.
  replace (c + Z.of_nat (S n)) with ((c + 1) + Z.of_nat n) by lia.
  destruct (Z.eqb_spec freq 1) as [->|Hf1].
  - assert (c = 0) as -> by lia. destruct (IH 0) as [H1 H2]; [lia|lia|].
    destruct (counter_run _ _ _ _) as [k c2]. cbn in *.
    rewrite !Z.div_1_r, !Z.mod_1_r in *. lia.
  - cbv zeta.
    destruct (Z.eqb_spec (c + 1) freq) as [Heq|Hne].
    + replace ((c + 1) mod freq) with 0 by (rewrite Heq, Z.mod_same; lia). cbn [Z.eqb].
      destruct (IH 0) as [H1 H2]; [lia|lia|].
      destruct (counter_run _ _ _ _) as [k c2]. cbn in *. rewrite Heq.
      replace (freq + Z.of_nat n) with (Z.of_nat n + 1 * freq) by lia.
      rewrite Z.div_add, Z.mod_add by lia.
      rewrite Z.add_0_l in H1, H2. lia.
    + replace ((c + 1) mod freq) with (c + 1) by (rewrite Z.mod_small; lia).
      destruct (Z.eqb_spec (c + 1) 0); [lia|].
      destruct (IH (c + 1)) as [H1 H2]; [lia|lia|].
      destruct (counter_run _ _ _ _) as [k c2]. cbn in *. lia.
Qed.

(** ** Page usage *)

(** The range of the exhaustive checks below: a page budget of up to 2^20
    pages (32 GiB of 32 KiB pages) and a page of up to 2^16 events
    (TRACE_EVENT_SIZE_ARRAY is below the page size in bytes). *)
Definition MAX_PAGE_LIMIT : Z := 1048576.
Definition MAX_PAGE_EVENTS : Z := 65536.

(** One rounding unit below and above 1 in binary64. *)
Definition one_below : float := 0x1.fffffffffffffp-1%float.
Definition one_above : float := 0x1.0000000000001p0%float.

(** timeline_usage of an exhausted budget of [L] pages whose last page is
    full, the fill [count / TRACE_EVENT_SIZE_ARRAY] being 1. *)
Definition full_usage (L : Z) : float :=
  let uniform := (1 / double_of_Z L)%float in
  (uniform * (double_of_Z L - 1) + uniform * 1)%float.

Definition near_one (x : float) : bool := (one_below <=? x)%float && (x <=? one_above)%float.

(** [f] holds at [z], [z - 1], ..., [z - n + 1]. *)
Fixpoint check_down (f : Z -> bool) (n : nat) (z : Z) : bool :=
  match n with O => true | S k => f z && check_down f k (z - 1) end.

Lemma check_down_spec f n z k : check_down f n z = true -> z - Z.of_nat n < k <= z -> f k = true.
Proof.
  revert z. induction n as [|n IH]; intros z; cbn; [lia|]. intros [Hz Hr]%andb_prop Hk.
  destruct (decide (k = z)) as [->|]; [done|]. apply (IH (z - 1)); [done|lia].
Qed.

Lemma check_down_range f lo hi :
  check_down f (Z.to_nat (hi - lo + 1)) hi = true -> forall k, lo <= k <= hi -> f k = true.
Proof. intros Hc k Hk. apply (check_down_spec f _ hi k Hc). lia. Qed.

(** A page count divided by itself is exactly 1. *)
Lemma double_div_self c :
  1 <= c <= MAX_PAGE_EVENTS -> (double_of_Z c / double_of_Z c)%float = 1%float.
Proof.
  intros Hc. apply FloatAxioms.Leibniz.eqb_spec.
  revert c Hc. apply (check_down_range (fun c => PrimFloat.Leibniz.eqb (double_of_Z c / double_of_Z c) 1)).
  vm_compute. reflexivity.
Qed.

Lemma full_usage_near_one L : 1 <= L <= MAX_PAGE_LIMIT -> near_one (full_usage L) = true.
Proof. revert L. apply (check_down_range (fun L => near_one (full_usage L))). vm_compute. reflexivity. Qed.

(** An exhausted budget whose last page is full reports [full_usage]. *)
Lemma timeline_usage_exhausted cap tl :
  (0 < Z.of_nat cap <= MAX_PAGE_EVENTS) -> 1 <= pageLimit tl ->
  pageCount tl = pageLimit tl -> cur_len tl = cap ->
  timeline_usage cap tl = full_usage (pageLimit tl).
Proof.
  intros Hcap HL Hc Hl. unfold timeline_usage, full_usage.
  rewrite Hc, Hl, double_div_self by lia.
  replace ((pageLimit tl =? 0) || (pageLimit tl =? 0)) with false by (symmetry; apply orb_false_iff; lia).
  done.
Qed.

(** C30: When the page budget is exhausted and the last page is full, the
    pageusage statistic (computed in C doubles) is within one rounding
    unit of 1: between 1 - 2^-53 and 1 + 2^-52, for every budget of up
    to 2^20 pages and every page of up to 2^16 events. *)
Theorem timeline_usage_full cap tl :
  (0 < Z.of_nat cap <= MAX_PAGE_EVENTS) -> 1 <= pageLimit tl <= MAX_PAGE_LIMIT ->
  pageCount tl = pageLimit tl -> cur_len tl = cap ->
  (one_below <=? timeline_usage cap tl)%float = true /\ (timeline_usage cap tl <=? one_above)%float = true.
Proof.
  intros Hcap HL Hc Hl. rewrite (timeline_usage_exhausted cap tl) by (done || lia).
  apply andb_prop, full_usage_near_one. done.
Qed.

(** C31: The pageusage of an exhausted budget is not always 1.0: with a
    budget of 93 pages, the last one full, the double computation of
    timeline_usage rounds to 1 + 2^-52, above 1. *)
Theorem timeline_usage_full_above_one cap tl :
  (0 < Z.of_nat cap <= MAX_PAGE_EVENTS) -> pageLimit tl = 93 ->
  pageCount tl = pageLimit tl -> cur_len tl = cap ->
  timeline_usage cap tl = one_above /\ (1 <? timeline_usage cap tl)%float = true.
Proof.
  intros Hcap HL Hc Hl. rewrite (timeline_usage_exhausted cap tl) by (done || lia).
  rewrite HL. split; vm_compute; reflexivity.
Qed.

(** ** Examples *)

Definition ex_main : EventProcess := mkProcess 1 1.
Definition ex_env (conf : Z) : TraceEnv := mkEnv LMPROF_MODE_MEMORY conf ex_main None None 0 0 "Lua 5.4".
Definition ex_thread_name (tid : Z) (opt : string) : string := opt.
Definition ex_hp : heap := {[ 0%nat := record_blank 1 0 1 ]}.
Definition ex_ev (o : TraceEventType) (t : Z) (d : TraceEventData) : TraceEvent :=
  mkEvent o (mkMeasurement ex_main (mkUnit t 0 0) 0) d.
(** A call of the record at pointer 0, from time 5 to time 9. *)
Definition ex_scope_tl : TraceEventTimeline :=
  mkTimeline 0 0 1 0 [[Some (ex_ev ENTER_SCOPE 5 (DEvent (Some 0%nat) (Some (0%nat, 1%nat)) None 0));
                       Some (ex_ev EXIT_SCOPE 9 (DEvent (Some 0%nat) None None 0))]] 0.
(** Three instruction samples. *)
Definition ex_sample_tl : TraceEventTimeline :=
  mkTimeline 0 0 1 0 [[Some (ex_ev SAMPLE_EVENT 1 (DSample None));
                       Some (ex_ev SAMPLE_EVENT 4 (DSample None));
                       Some (ex_ev SAMPLE_EVENT 6 (DSample None))]] 0.
Definition ex_table : TReport := mkTR lTable 1 ∅ false [].
Definition ex_file : TReport := mkTR lFile 0 ∅ false [].
Definition ex_hi : HeaderInfo := mkHeaderInfo 0 0 0 0.

Lemma traceevent_report_about_table_witness :
  exists hdr recs tl',
    traceevent_report true (ex_env LMPROF_OPT_TRACE_ABOUT_TRACING) 2 64 ex_thread_name ex_hp ex_hi []
      ex_table ex_scope_tl =
      TOTable hdr recs
        [("traceEvents", JObj []);
         ("metadata", JObj (metaAbout_fields (ex_env LMPROF_OPT_TRACE_ABOUT_TRACING) LMPROF "Lua 5.4"))] tl' /\
    recs !! 1 = Some (metaProcess_table (mkProcess 1 Stack.LMPROF_THREAD_BROWSER)
                        CHROME_META_PROCESS (Some CHROME_NAME_BROWSER)).
Proof.
  apply (traceevent_report_about_table true (ex_env LMPROF_OPT_TRACE_ABOUT_TRACING) 2 64 ex_thread_name
           ex_hp ex_hi [] ex_table ex_scope_tl);
    [reflexivity|reflexivity|apply timeline_definedb_spec; vm_compute; reflexivity].
Defined.

Lemma traceevent_report_file_array_witness :
  exists R' tl' vs,
    traceevent_report true (ex_env 0) 2 64 ex_thread_name ex_hp ex_hi [] ex_file ex_scope_tl =
      TOFile LUA_OK R' tl' /\
    tr_out R' = [TText ("[" +:+ JSON_NEWLINE)] ++ json_array_body vs ++
                [TText (JSON_NEWLINE +:+ "]" +:+ JSON_NEWLINE)].
Proof.
  apply (traceevent_report_file_array true (ex_env 0) 2 64 ex_thread_name ex_hp ex_hi [] ex_file ex_scope_tl);
    [reflexivity|reflexivity|reflexivity|reflexivity|apply timeline_definedb_spec; vm_compute; reflexivity].
Defined.

Lemma traceevent_table_events_samples_witness :
  exists R' tl', traceevent_table_events true (ex_env 0) ex_thread_name ex_hp ex_table ex_sample_tl = Some (R', tl') /\
    tr_count R' = 1 + 3 - 1.
Proof.
  apply (traceevent_table_events_samples true (ex_env 0) ex_thread_name ex_hp ex_table ex_sample_tl);
    [reflexivity|apply all_samplesb_spec; vm_compute; reflexivity|vm_compute; discriminate].
Defined.

Lemma counter_run_spec_witness :
  Z.of_nat (counter_run true 20 45 0).1 = 2 /\ (counter_run true 20 45 0).2 = 5.
Proof.
  destruct (counter_run_spec 20 45 0) as [H1 H2]; [lia|lia|].
  rewrite H1, H2. split; reflexivity.
Defined.

(** A budget of 93 pages of two events, all written. *)
Definition ex_full_tl : TraceEventTimeline :=
  mkTimeline 93 93 1 0 (replicate 93 [Some (ex_ev SAMPLE_EVENT 1 (DSample None));
                                      Some (ex_ev SAMPLE_EVENT 2 (DSample None))]) 92.

Lemma timeline_usage_full_witness :
  (one_below <=? timeline_usage 2 ex_full_tl)%float = true /\
  (timeline_usage 2 ex_full_tl <=? one_above)%float = true.
Proof. apply (timeline_usage_full 2 ex_full_tl); [unfold MAX_PAGE_EVENTS; cbn; lia|unfold MAX_PAGE_LIMIT; cbn; lia|reflexivity|reflexivity]. Defined.

Lemma timeline_usage_full_above_one_witness :
  timeline_usage 2 ex_full_tl = one_above /\ (1 <? timeline_usage 2 ex_full_tl)%float = true.
Proof. apply (timeline_usage_full_above_one 2 ex_full_tl); [unfold MAX_PAGE_EVENTS; cbn; lia|reflexivity|reflexivity|reflexivity]. Defined.

End TraceReport.
