(* ===== verification/Lifecycle.v ===== *)
(** * Stopping a profile

    When a graph profile stops, lmprof_lib.c first unwinds every thread's
    stack (pop_remaining_stacks), charging each frame still open to its
    record with lmprof_stack_measured_pop, then chooses the report format
    (report_type) and builds the report (lmprof_report, see Report.v).
    This file models the unwinding with the frames' pointers and the
    record heap of Stack.v, and the choice of format. *)

From Stdlib Require Import String.
From stdpp Require Import strings.
From S2P Require Import Common Unit Record Stack Config StateApi Report.
Import Unit Record Config Report.

Module Lifecycle.

(** ** Unwinding *)

(** The outcome of the inner loop of pop_remaining_stacks on one stack:
    the stack is empty, or a frame had no record (the C code dereferences
    it), or the fuel ran out. *)
Inductive PopOutcome :=
  | PopDone (s : Stack.lmprof_Stack) (hp : heap)
  | PopFault
  | PopFuel.

(** [while (stack != NULL && stack->head > 0)
       lmprof_stack_measured_pop(stack, &st->thread.r.s);]
    Each iteration lowers [head] by one, so fuel [S (head s)] is enough
    (see the termination theorem below). *)
Fixpoint pop_stack (fuel : nat) (s : Stack.lmprof_Stack) (hp : heap) (u : EventUnit)
    : PopOutcome :=
  match fuel with
  | O => PopFuel
  | S f =>
      match Stack.head s with
      | O => PopDone s hp
      | S _ =>
          match Stack.lmprof_stack_measured_pop s hp u with
          | Some (_, s', hp') => pop_stack f s' hp' u
          | None => PopFault
          end
      end
  end.

(** The loop over the LMPROF_TAB_THREAD_STACKS table, in lua_next order;
    [None] when some stack faults. *)
Fixpoint pop_stacks (stacks : list Stack.lmprof_Stack) (hp : heap) (u : EventUnit)
    : option (list Stack.lmprof_Stack * heap) :=
  match stacks with
  | [] => Some ([], hp)
  | s :: rest =>
      match pop_stack (S (Stack.head s)) s hp u with
      | PopDone s' hp' =>
          '(rest', hp'') ← pop_stacks rest hp' u; Some (s' :: rest', hp'')
      | _ => None
      end
  end.

(** pop_remaining_stacks: only graph profiles unwind; the clock reading
    [now] becomes the time of the thread measurement [u] first. *)
Definition pop_remaining_stacks (mode now : Z) (stacks : list Stack.lmprof_Stack) (hp : heap)
    (u : EventUnit) : option (list Stack.lmprof_Stack * heap) :=
  if bit_test mode LMPROF_MODE_TIME then Some (stacks, hp)
  else if bit_test mode LMPROF_CALLBACK_MASK then Some (stacks, hp)
  else if bit_test mode (Z.lor LMPROF_MODE_INSTRUMENT (Z.lor LMPROF_MODE_MEMORY LMPROF_MODE_SAMPLE))
  then pop_stacks stacks hp (mkUnit now (allocated u) (deallocated u))
  else Some (stacks, hp).

(** ** The report format *)

(** report_type: a string argument at [file_idx] asks for a file, the
    LMPROF_OPT_REPORT_STRING option for a string buffer, otherwise a
    table. *)
Definition report_type (file_idx : Z) (file : LuaVal) (conf : Z) : ReportType * option string :=
  match file with
  | LStr s => if negb (file_idx =? 0) then (lFile, Some s)
              else if bit_test conf StateApi.LMPROF_OPT_REPORT_STRING then (lBuffer, None)
              else (lTable, None)
  | _ => if bit_test conf StateApi.LMPROF_OPT_REPORT_STRING then (lBuffer, None)
         else (lTable, None)
  end.

(** ** Specification *)

(** Every live frame of a stack points to a record of the heap. *)
Definition frames_live (s : Stack.lmprof_Stack) (hp : heap) : Prop :=
  forall k, (k < Stack.head s)%nat ->
    exists inst p, Stack.stack s !! k = Some inst /\ Stack.record inst = Some p /\
                   is_Some (hp !! p).

(** ** Lemmas *)

(** A measured pop keeps every pointer of the heap live and the frames
    below the head live. *)
Lemma measured_pop_live s hp u :
  frames_live s hp -> (0 < Stack.head s)%nat ->
  exists s' hp', Stack.lmprof_stack_measured_pop s hp u = Some (pred (Stack.head s), s', hp') /\
    Stack.head s' = pred (Stack.head s) /\ Stack.size s' = Stack.size s /\
    frames_live s' hp' /\ (forall q, is_Some (hp !! q) -> is_Some (hp' !! q)).
Proof.
  intros Hlive Hpos. destruct (Stack.head s) as [|h] eqn:Hh; [lia|].
  destruct (Hlive h) as (inst & p & Hi & Hp & [r Hr]); [lia|].
  destruct (Stack.lmprof_stack_measured_pop_Some s hp u h inst p r Hh Hi Hp Hr)
    as (s' & -> & Hh' & Hsz & _ & Hk).
  eexists s', _. split_and!; [reflexivity|done|done| |].
  - intros k Hlt. rewrite Hh' in Hlt. rewrite (Hk k Hlt).
    destruct (Hlive k) as (i & q & Hik & Hq & Hl); [lia|].
    rewrite Hik. exists (if decide (S k = h) then Stack.parent_fold inst
                           (unit_sub u (Stack.g_node inst)) i else i), q.
    split; [by case_decide|]. split; [by case_decide|].
    destruct (decide (p = q)) as [->|Hne]; [rewrite lookup_insert_eq; by eexists|].
    by rewrite lookup_insert_ne.
  - intros q Hq. destruct (decide (p = q)) as [->|Hne];
      [rewrite lookup_insert_eq; by eexists | by rewrite lookup_insert_ne].
Qed.

Lemma frames_live_mono s hp hp' :
  frames_live s hp -> (forall q, is_Some (hp !! q) -> is_Some (hp' !! q)) -> frames_live s hp'.
Proof.
  intros Hlive Hmono k Hk. destruct (Hlive k Hk) as (i & q & ? & ? & ?).
  exists i, q. auto.
Qed.

(** Fuel beyond the head gives an empty stack, keeps every live pointer of
    the heap, and more fuel gives the same result. *)
Lemma pop_stack_done fuel s hp u :
  frames_live s hp -> (Stack.head s < fuel)%nat ->
  exists s' hp', pop_stack fuel s hp u = PopDone s' hp' /\ Stack.head s' = O /\
    Stack.size s' = Stack.size s /\ (forall q, is_Some (hp !! q) -> is_Some (hp' !! q)).
Proof.
  revert s hp. induction fuel as [|f IH]; intros s hp Hlive Hlt; [lia|]. cbn [pop_stack].
  destruct (Stack.head s) as [|h] eqn:Hh.
  - by exists s, hp.
  - destruct (measured_pop_live s hp u Hlive) as (s1 & hp1 & -> & Hh1 & Hsz1 & Hlive1 & Hm1);
      [lia|].
    destruct (IH s1 hp1) as (s2 & hp2 & -> & Hh2 & Hsz2 & Hm2); [done|lia|].
    exists s2, hp2. split_and!; [done|done|congruence|auto].
Qed.

Lemma pop_stack_fuel_indep f1 f2 s hp u :
  frames_live s hp -> (Stack.head s < f1)%nat -> (Stack.head s < f2)%nat ->
  pop_stack f1 s hp u = pop_stack f2 s hp u.
Proof.
  revert f2 s hp. induction f1 as [|f1 IH]; intros [|f2] s hp Hlive H1 H2; try lia.
  cbn [pop_stack]. destruct (Stack.head s) as [|h] eqn:Hh; [done|].
  destruct (measured_pop_live s hp u Hlive) as (s1 & hp1 & -> & Hh1 & _ & Hlive1 & _); [lia|].
  apply IH; [done|lia|lia].
Qed.

Lemma pop_stacks_live stacks hp u :
  Forall (fun s => frames_live s hp) stacks ->
  exists stacks' hp', pop_stacks stacks hp u = Some (stacks', hp') /\
    Forall2 (fun s s' => Stack.head s' = O /\ Stack.size s' = Stack.size s) stacks stacks' /\
    (forall q, is_Some (hp !! q) -> is_Some (hp' !! q)).
Proof.
  revert hp. induction stacks as [|s rest IH]; intros hp Hall; [by exists [], hp|].
  apply Forall_cons in Hall as [Hs Hrest]. cbn [pop_stacks].
  destruct (pop_stack_done (S (Stack.head s)) s hp u Hs) as (s' & hp1 & -> & Hh & Hsz & Hm1);
    [lia|].
  destruct (IH hp1) as (rest' & hp2 & -> & Hf & Hm2).
  { eapply Forall_impl; [exact Hrest|]. intros t Ht. exact (frames_live_mono t hp hp1 Ht Hm1). }
  exists (s' :: rest'), hp2. split_and!; [done| by constructor | auto].
Qed.

(** ** Theorems *)

(** Termination of the unwinding loop: on a stack whose live frames
    point to records, [head + 1] iterations of lmprof_stack_measured_pop
    empty the stack without a fault, and any more fuel gives the same
    stack and heap. *)
Theorem pop_stack_fuel s hp u fuel :
  frames_live s hp -> (Stack.head s < fuel)%nat ->
  exists s' hp', pop_stack (S (Stack.head s)) s hp u = PopDone s' hp' /\
    pop_stack fuel s hp u = PopDone s' hp' /\ Stack.head s' = O.
Proof.
  intros Hlive Hf.
  destruct (pop_stack_done (S (Stack.head s)) s hp u Hlive) as (s' & hp' & E & Hh & _); [lia|].
  exists s', hp'. rewrite <-E. split_and!; [done| |done].
  apply pop_stack_fuel_indep; [done|lia|lia].
Qed.

(** C15: Liveness of pop_remaining_stacks: in a graph mode, when the frames
    of every thread stack point to records, every stack ends empty, with
    its size kept, and no record of the heap disappears. *)
Theorem pop_remaining_stacks_empties mode now stacks hp u :
  graph_mode mode = true -> Forall (fun s => frames_live s hp) stacks ->
  exists stacks' hp',
    pop_remaining_stacks mode now stacks hp u = Some (stacks', hp') /\
    Forall2 (fun s s' => Stack.head s' = O /\ Stack.size s' = Stack.size s) stacks stacks' /\
    (forall q, is_Some (hp !! q) -> is_Some (hp' !! q)).
Proof.
  intros Hg Hall. destruct (graph_mode_spec _ Hg) as (Ht & _ & _ & Hgr & Hcb).
  unfold pop_remaining_stacks. rewrite Ht, Hcb, Hgr.
  by apply pop_stacks_live.
Qed.

(** * Witnesses *)

Lemma ex_stack1_live : frames_live Stack.ex_stack1 Stack.ex_stack_heap.
Proof.
  intros k Hk. assert (k = 0%nat) as -> by (vm_compute in Hk; lia).
  exists (Stack.graph_init 0 (Stack.ex_u 5) Stack.blank_inst), 0%nat.
  split_and!; [reflexivity|reflexivity|by eexists].
Qed.

Lemma pop_stack_fuel_witness :
  frames_live Stack.ex_stack1 Stack.ex_stack_heap /\ (Stack.head Stack.ex_stack1 < 5)%nat /\
  exists s' hp',
    pop_stack (S (Stack.head Stack.ex_stack1)) Stack.ex_stack1 Stack.ex_stack_heap (Stack.ex_u 9)
      = PopDone s' hp' /\
    pop_stack 5 Stack.ex_stack1 Stack.ex_stack_heap (Stack.ex_u 9) = PopDone s' hp' /\
    Stack.head s' = O.
Proof.
  assert ((Stack.head Stack.ex_stack1 < 5)%nat) as Hf by (vm_compute; lia).
  split; [exact ex_stack1_live|]. split; [exact Hf|].
  apply pop_stack_fuel; [exact ex_stack1_live | exact Hf].
Defined.

Lemma pop_remaining_stacks_empties_witness :
  graph_mode LMPROF_MODE_INSTRUMENT = true /\
  Forall (fun s => frames_live s Stack.ex_stack_heap) [Stack.ex_stack1] /\
  exists stacks' hp',
    pop_remaining_stacks LMPROF_MODE_INSTRUMENT 9 [Stack.ex_stack1] Stack.ex_stack_heap
      (Stack.ex_u 0) = Some (stacks', hp') /\
    Forall2 (fun s s' => Stack.head s' = O /\ Stack.size s' = Stack.size s)
      [Stack.ex_stack1] stacks' /\
    (forall q, is_Some (Stack.ex_stack_heap !! q) -> is_Some (hp' !! q)).
Proof.
  assert (Forall (fun s => frames_live s Stack.ex_stack_heap) [Stack.ex_stack1]) as Hall
    by (constructor; [exact ex_stack1_live | constructor]).
  split; [reflexivity|]. split; [exact Hall|].
  apply pop_remaining_stacks_empties; [reflexivity | exact Hall].
Defined.

End Lifecycle.
