(* ===== verification/Session.v ===== *)
(** * Starting and stopping a profile (lmprof_lib.c)

    lmprof_initialize_profiler checks the profiler's state, registers it
    as the singleton, marks it running, stops the garbage collector when
    asked, computes the hook mask from the mode and installs the hook on
    the main thread and on every thread the profiler knows, and installs
    the profiler's allocator in memory mode.  lmprof_finalize_profiler
    undoes these changes.  The model keeps the part of the Lua state the
    two functions change ([LuaEnv]: the collector's state, whose allocator
    is installed, the singleton slot and the debug hooks of the threads)
    beside the profiler's own fields ([StateApi.PState] and the hook it
    installs, [SessionHook]).  Clock initialisation, the unwinding of the
    stacks (Lifecycle.v) and the stack preallocation of
    lmprof_initialize_thread are not part of this model. *)

From Stdlib Require Import Btauto.
From S2P Require Import Common Config StateApi.
Import Config StateApi.

Module Session.

(** Hook masks (lua.h) and the codes of lmprof_state.h. *)
Definition LUA_MASKCALL : Z := 1.
Definition LUA_MASKRET : Z := 2.
Definition LUA_MASKLINE : Z := 4.
Definition LUA_MASKCOUNT : Z := 8.

Definition LMPROF_STATE_SETTING_UP : Z := 2.

Definition LMPROF_STARTUP_OK : Z := 0.
Definition LMPROF_STARTUP_ERROR : Z := 1.
Definition LMPROF_STARTUP_ERROR_RUNNING : Z := 2.
Definition LMPROF_STARTUP_ERROR_SINGLETON : Z := 4.

(** BITFIELD_SET and BITFIELD_CLEAR *)
Definition BITFIELD_SET (x m : Z) : Z := Z.lor x m.
Definition BITFIELD_CLEAR (x m : Z) : Z := Z.land x (Z.lnot m).

(** A thread's debug hook: whether it is the profiler's hook function
    ([lua_gethook(L) == st->hook.l_hook]), its mask and count. *)
Record Hook := mkHook { hk_ours : bool; hk_mask : Z; hk_count : Z }.

(** A coroutine: whether luaL_verify_thread accepts it, and its hook. *)
Record LThread := mkThread { th_valid : bool; th_hook : option Hook }.

(** The part of the Lua state the session changes: whether the collector
    runs, whether the installed allocator is the profiler's (lua_getallocf
    returns [st]), whether a profiler is registered as the singleton, the
    main thread, and the threads of LMPROF_TAB_THREAD_IDS in lua_next
    order. *)
Record LuaEnv := mkLuaEnv {
  le_gc_running : bool;
  le_alloc_ours : bool;
  le_singleton : bool;
  le_main : LThread;
  le_known : list LThread;
}.

(** st->hook: whether a hook function is given, its mask and count. *)
Record SessionHook := mkSH { sh_installed : bool; sh_flags : Z; sh_line_count : Z }.

Definition set_state (st : PState) (s : Z) : PState :=
  mkP s (p_mode st) (p_conf st) (p_mask_count st) (p_hash_size st) (p_pid st) (p_url st)
      (p_name st) (p_pageLimit st) (p_counterFrequency st) (p_event_threshold st).

(** The hook mask and count of lmprof_initialize_profiler; [has_sampler]
    is [st->i.trace.sample != NULL]. *)
Definition hook_mask (mode mask_count : Z) (has_sampler : bool) : Z * Z :=
  let flags := if bit_test mode (Z.lor LMPROF_MODE_INSTRUMENT LMPROF_MODE_MEMORY)
               then Z.lor LUA_MASKCALL LUA_MASKRET else 0 in
  let flags := if bit_test mode LMPROF_MODE_LINE then Z.lor flags LUA_MASKLINE else flags in
  if bit_test mode LMPROF_MODE_SAMPLE then
    let valid := (0 <? mask_count) &&
                 (if bit_test mode LMPROF_CALLBACK_MASK
                  then has_sampler && bit_test mode LMPROF_MODE_SINGLE_THREAD else true) in
    if valid then (Z.lor flags LUA_MASKCOUNT, mask_count) else (flags, 0)
  else (flags, 0).

(** lmprof_initialize_thread with [ignore] another thread: install the
    profiler's hook unless the thread already has it. *)
Definition lmprof_initialize_thread (h : SessionHook) (th : LThread) : LThread :=
  if th_valid th && negb (from_option hk_ours false (th_hook th))
  then mkThread (th_valid th) (Some (mkHook true (sh_flags h) (sh_line_count h)))
  else th.

(** lmprof_clear_thread: remove the profiler's hook. *)
Definition lmprof_clear_thread (th : LThread) : LThread :=
  if from_option hk_ours false (th_hook th) then mkThread (th_valid th) None else th.

(** The main thread, then EACH_THREAD unless single-threaded. *)
Definition each_thread (mode : Z) (f : LThread -> LThread) (env : LuaEnv) : LuaEnv :=
  mkLuaEnv (le_gc_running env) (le_alloc_ours env) (le_singleton env) (f (le_main env))
           (if bit_test mode LMPROF_MODE_SINGLE_THREAD then le_known env else map f (le_known env)).

Definition set_gc (env : LuaEnv) (b : bool) : LuaEnv :=
  mkLuaEnv b (le_alloc_ours env) (le_singleton env) (le_main env) (le_known env).
Definition set_alloc (env : LuaEnv) (b : bool) : LuaEnv :=
  mkLuaEnv (le_gc_running env) b (le_singleton env) (le_main env) (le_known env).
Definition set_singleton (env : LuaEnv) (b : bool) : LuaEnv :=
  mkLuaEnv (le_gc_running env) (le_alloc_ours env) b (le_main env) (le_known env).

(** lmprof_initialize_profiler: [fhook] is whether a hook function is
    given, [has_sampler] whether a sampler callback is registered. *)
Definition lmprof_initialize_profiler (env : LuaEnv) (st : PState) (fhook has_sampler : bool)
    : Z * PState * SessionHook * LuaEnv :=
  let no_hook := mkSH false 0 0 in
  if bit_test (p_state st) LMPROF_STATE_RUNNING then (LMPROF_STARTUP_ERROR_RUNNING, st, no_hook, env)
  else if bit_test (p_state st) LMPROF_STATE_ERROR then (LMPROF_STARTUP_ERROR_RUNNING, st, no_hook, env)
  else if le_singleton env then (LMPROF_STARTUP_ERROR_SINGLETON, st, no_hook, env)
  else
    let env1 := set_singleton env true in
    let s1 := BITFIELD_CLEAR (p_state st)
                (Z.lor LMPROF_STATE_GC_WAS_RUNNING (Z.lor LMPROF_STATE_IGNORE_ALLOC LMPROF_STATE_IGNORE_CALL)) in
    let s2 := BITFIELD_SET s1 (Z.lor LMPROF_STATE_RUNNING LMPROF_STATE_SETTING_UP) in
    let conf := if bit_test (p_conf st) LMPROF_OPT_CLOCK_INIT
                then BITFIELD_CLEAR (p_conf st) LMPROF_OPT_CLOCK_INIT else p_conf st in
    let '(s3, env2) := if bit_test conf LMPROF_OPT_GC_DISABLE && le_gc_running env1
                       then (BITFIELD_SET s2 LMPROF_STATE_GC_WAS_RUNNING, set_gc env1 false)
                       else (s2, env1) in
    let '(h, env3) :=
      if fhook then
        let '(flags, line_count) := hook_mask (p_mode st) (p_mask_count st) has_sampler in
        let h := mkSH true flags line_count in
        (h, each_thread (p_mode st) (lmprof_initialize_thread h) env2)
      else (no_hook, env2) in
    let env4 := if bit_test (p_mode st) LMPROF_MODE_MEMORY then set_alloc env3 true else env3 in
    let s4 := BITFIELD_CLEAR s3 LMPROF_STATE_SETTING_UP in
    (LMPROF_STARTUP_OK, set_state (set_conf st conf) s4, h, env4).

(** lmprof_finalize_profiler, after the stacks have been unwound; the
    allocator saved when the profiler was created is put back. *)
Definition lmprof_finalize_profiler (env : LuaEnv) (st : PState) (h : SessionHook) : PState * LuaEnv :=
  if bit_test (p_state st) LMPROF_STATE_RUNNING then
    let env1 := if le_alloc_ours env && bit_test (p_mode st) LMPROF_MODE_MEMORY
                then set_alloc env false else env in
    let env2 := if bit_test (p_state st) LMPROF_STATE_GC_WAS_RUNNING then set_gc env1 true else env1 in
    let s1 := BITFIELD_CLEAR (p_state st)
                (Z.lor LMPROF_STATE_RUNNING (Z.lor LMPROF_STATE_SETTING_UP LMPROF_STATE_GC_WAS_RUNNING)) in
    let env3 := if sh_installed h then each_thread (p_mode st) lmprof_clear_thread env2 else env2 in
    (set_state st s1, env3)
  else (st, env).

(** A thread with its hook removed, as a session leaves every thread it
    hooked. *)
Definition drop_hook (th : LThread) : LThread :=
  if th_valid th then mkThread true None else th.

(** No thread carries the profiler's hook. *)
Definition hooks_free (env : LuaEnv) : Prop :=
  Forall (fun th => from_option hk_ours false (th_hook th) = false) (le_main env :: le_known env).

(** The state flags a session clears. *)
Definition SESSION_FLAGS : Z :=
  Z.lor (Z.lor LMPROF_STATE_GC_WAS_RUNNING (Z.lor LMPROF_STATE_IGNORE_ALLOC LMPROF_STATE_IGNORE_CALL))
        (Z.lor LMPROF_STATE_RUNNING LMPROF_STATE_SETTING_UP).

(** ** Bits *)

Lemma bit_test_testbit x k : 0 <= k -> bit_test x (2 ^ k) = Z.testbit x k.
Proof.
  intros Hk. unfold bit_test. destruct (Z.testbit x k) eqn:Hb.
  - apply negb_true_iff, Z.eqb_neq. intros H0.
    assert (Z.testbit (Z.land x (2 ^ k)) k = false) by (rewrite H0; apply Z.bits_0).
    rewrite Z.land_spec, Z.pow2_bits_true, Hb in H by lia. discriminate.
  - apply negb_false_iff, Z.eqb_eq. apply Z.bits_inj'. intros n Hn.
    rewrite Z.land_spec, Z.pow2_bits_eqb, Z.bits_0 by lia.
    destruct (Z.eqb_spec k n) as [->|]; [by rewrite Hb|apply andb_false_r].
Qed.

Lemma bit_test_single x c k : c = 2 ^ k /\ 0 <= k -> bit_test x c = Z.testbit x k.
Proof. intros [-> Hk]. by apply bit_test_testbit. Qed.

(** Rewrite single-bit tests of flag expressions into test bits of the
    operands. *)
Ltac bits :=
  unfold BITFIELD_SET, BITFIELD_CLEAR, SESSION_FLAGS, LMPROF_STATE_RUNNING, LMPROF_STATE_SETTING_UP,
    LMPROF_STATE_GC_WAS_RUNNING, LMPROF_STATE_IGNORE_ALLOC, LMPROF_STATE_IGNORE_CALL in *;
  repeat match goal with
  | |- context [bit_test ?x ?c] =>
      let k := eval vm_compute in (Z.log2 c) in
      rewrite (bit_test_single x c k) by (split; [reflexivity|lia])
  end;
  repeat first [rewrite Z.land_spec | rewrite Z.lor_spec | rewrite Z.lnot_spec by lia];
  repeat match goal with
  | |- context [Z.testbit (Z.pos ?p) ?k] =>
      let b := eval vm_compute in (Z.testbit (Z.pos p) k) in change (Z.testbit (Z.pos p) k) with b
  end;
  cbn [negb andb orb].

Lemma initialize_thread_drop h th :
  from_option hk_ours false (th_hook th) = false ->
  lmprof_clear_thread (lmprof_initialize_thread h th) = drop_hook th.
Proof.
  unfold lmprof_clear_thread, lmprof_initialize_thread, drop_hook.
  destruct th as [v [[o m c]|]]; cbn; intros Ho; [subst o|]; destruct v; reflexivity.
Qed.

Lemma session_state_bits s (g : bool) :
  let s2 := BITFIELD_SET (BITFIELD_CLEAR s (Z.lor LMPROF_STATE_GC_WAS_RUNNING
              (Z.lor LMPROF_STATE_IGNORE_ALLOC LMPROF_STATE_IGNORE_CALL)))
              (Z.lor LMPROF_STATE_RUNNING LMPROF_STATE_SETTING_UP) in
  let s4 := BITFIELD_CLEAR (if g then BITFIELD_SET s2 LMPROF_STATE_GC_WAS_RUNNING else s2)
              LMPROF_STATE_SETTING_UP in
  bit_test s4 LMPROF_STATE_RUNNING = true /\ bit_test s4 LMPROF_STATE_GC_WAS_RUNNING = g /\
  BITFIELD_CLEAR s4 (Z.lor LMPROF_STATE_RUNNING (Z.lor LMPROF_STATE_SETTING_UP LMPROF_STATE_GC_WAS_RUNNING)) =
    BITFIELD_CLEAR s SESSION_FLAGS.
Proof.
  intros s2 s4. unfold s4, s2. split_and!.
  - destruct g; bits; btauto.
  - destruct g; bits; btauto.
  - apply Z.bits_inj'. intros n Hn. unfold BITFIELD_SET, BITFIELD_CLEAR, SESSION_FLAGS.
    destruct g; repeat first [rewrite Z.land_spec | rewrite Z.lor_spec | rewrite Z.lnot_spec by lia];
      btauto.
Qed.

Lemma each_thread_compose mode f g env :
  each_thread mode g (each_thread mode f env) = each_thread mode (fun th => g (f th)) env.
Proof. unfold each_thread. cbn. f_equal. case_match; [done|]. apply map_map. Qed.

Lemma bitfield_clear_unset c m : bit_test c m = false -> BITFIELD_CLEAR c m = c.
Proof.
  unfold bit_test, BITFIELD_CLEAR. intros H. apply negb_false_iff, Z.eqb_eq in H.
  apply Z.bits_inj'. intros n Hn. rewrite Z.land_spec, Z.lnot_spec by lia.
  assert (Hb : Z.testbit (Z.land c m) n = false) by (rewrite H; apply Z.bits_0).
  rewrite Z.land_spec in Hb. destruct (Z.testbit c n), (Z.testbit m n); done.
Qed.

Lemma hooks_free_threads mode h env :
  hooks_free env ->
  each_thread mode lmprof_clear_thread (each_thread mode (lmprof_initialize_thread h) env) =
    each_thread mode drop_hook env.
Proof.
  intros Hf. rewrite each_thread_compose. apply Forall_cons in Hf as [Hm Hk].
  unfold each_thread. f_equal; [by apply initialize_thread_drop|].
  case_match; [done|]. apply map_ext_in. intros th Hin.
  apply initialize_thread_drop. rewrite List.Forall_forall in Hk. by apply Hk.
Qed.

(** C38: A session started and stopped on a profiler that is neither running
    nor in error, with no profiler registered, the host's allocator
    installed and no thread carrying the profiler's hook, leaves the
    collector as it found it, the host's allocator installed, the
    profiler registered as the singleton (until lmprof_shutdown_profiler),
    the session flags and the one-shot clock option cleared, and, when a
    hook was given, every valid thread it visited without any hook: a
    hook the host had set on such a thread is lost. *)
Theorem session_roundtrip env st fhook has_sampler :
  bit_test (p_state st) LMPROF_STATE_RUNNING = false ->
  bit_test (p_state st) LMPROF_STATE_ERROR = false ->
  le_singleton env = false -> le_alloc_ours env = false -> hooks_free env ->
  exists st1 h env1,
    lmprof_initialize_profiler env st fhook has_sampler = (LMPROF_STARTUP_OK, st1, h, env1) /\
    lmprof_finalize_profiler env1 st1 h =
      (set_state (set_conf st (BITFIELD_CLEAR (p_conf st) LMPROF_OPT_CLOCK_INIT))
                 (BITFIELD_CLEAR (p_state st) SESSION_FLAGS),
       if fhook then each_thread (p_mode st) drop_hook (set_singleton env true)
       else set_singleton env true).
Proof.
  intros HR HE HS HA Hf. unfold lmprof_initialize_profiler. rewrite HR, HE, HS.
  set (conf := if bit_test (p_conf st) LMPROF_OPT_CLOCK_INIT then _ else _).
  assert (Hc : conf = BITFIELD_CLEAR (p_conf st) LMPROF_OPT_CLOCK_INIT)
    by (unfold conf; case_match; [done|by rewrite bitfield_clear_unset]).
  destruct (bit_test conf LMPROF_OPT_GC_DISABLE && le_gc_running (set_singleton env true)) eqn:Hg;
  [pose proof (session_state_bits (p_state st) true) as (H1 & H2 & H3)
  |pose proof (session_state_bits (p_state st) false) as (H1 & H2 & H3)];
  cbv zeta iota beta in H1, H2, H3;
  destruct fhook; [destruct (hook_mask _ _ _) as [fl lc]| |destruct (hook_mask _ _ _) as [fl lc]|];
  (eexists _, _, _; split; [reflexivity|]);
  unfold lmprof_finalize_profiler, set_state, set_conf; cbn [p_state p_mode sh_installed];
  rewrite H1, H2, H3, <- Hc;
  destruct env as [gc al sg mn kn]; cbn in HA, HS, Hg |- *; subst al;
  destruct (bit_test (p_mode st) LMPROF_MODE_MEMORY); cbn.
  all: unfold set_gc, set_alloc, set_singleton, each_thread; cbn;
    apply Forall_cons in Hf as [Hm Hk]; cbn in Hm, Hk.
  all: try (apply andb_prop in Hg as [_ ->]).
  all: rewrite ?initialize_thread_drop by done; try reflexivity.
  all: case_match; try reflexivity; rewrite map_map, (map_ext_in _ drop_hook kn); [reflexivity|]; intros th Hin;
       apply initialize_thread_drop; rewrite List.Forall_forall in Hk; by apply Hk.
Qed.

(** C39: lmprof_initialize_profiler installs the call and return hooks
    exactly in instrument or memory mode, the line hook exactly in line
    mode, and the count hook, with the instruction count, exactly in
    sample mode with a positive count and, for trace and callback modes,
    a sampler callback and a single-threaded profile; otherwise a sampling
    profile gets no count hook and records nothing. *)
Theorem hook_mask_spec mode n has_sampler :
  let counting := bit_test mode LMPROF_MODE_SAMPLE && (0 <? n) &&
                  (negb (bit_test mode LMPROF_CALLBACK_MASK) ||
                   has_sampler && bit_test mode LMPROF_MODE_SINGLE_THREAD) in
  bit_test (hook_mask mode n has_sampler).1 LUA_MASKCALL =
    bit_test mode (Z.lor LMPROF_MODE_INSTRUMENT LMPROF_MODE_MEMORY) /\
  bit_test (hook_mask mode n has_sampler).1 LUA_MASKRET =
    bit_test mode (Z.lor LMPROF_MODE_INSTRUMENT LMPROF_MODE_MEMORY) /\
  bit_test (hook_mask mode n has_sampler).1 LUA_MASKLINE = bit_test mode LMPROF_MODE_LINE /\
  bit_test (hook_mask mode n has_sampler).1 LUA_MASKCOUNT = counting /\
  (hook_mask mode n has_sampler).2 = (if counting then n else 0).
Proof.
  unfold hook_mask.
  destruct (bit_test mode (Z.lor LMPROF_MODE_INSTRUMENT LMPROF_MODE_MEMORY)),
    (bit_test mode LMPROF_MODE_LINE), (bit_test mode LMPROF_MODE_SAMPLE), (0 <? n),
    (bit_test mode LMPROF_CALLBACK_MASK), has_sampler, (bit_test mode LMPROF_MODE_SINGLE_THREAD);
    vm_compute; auto.
Qed.

(** A profiler in the error state is refused with the code of a running
    profiler, LMPROF_STARTUP_ERROR_RUNNING, and nothing changes. *)
Lemma initialize_error_state env st fhook has_sampler :
  bit_test (p_state st) LMPROF_STATE_ERROR = true ->
  lmprof_initialize_profiler env st fhook has_sampler =
    (LMPROF_STARTUP_ERROR_RUNNING, st, mkSH false 0 0, env).
Proof. intros HE. unfold lmprof_initialize_profiler. rewrite HE. by case_match. Qed.

(** ** Examples *)

Definition ex_st : PState :=
  mkP LMPROF_STATE_PERSISTENT (Z.lor LMPROF_MODE_INSTRUMENT LMPROF_MODE_MEMORY)
      (Z.lor LMPROF_OPT_GC_DISABLE LMPROF_OPT_CLOCK_INIT) 0 0 1 None None 0 0 0.
Definition ex_env : LuaEnv :=
  mkLuaEnv true false false (mkThread true None)
           [mkThread true (Some (mkHook false 1 0)); mkThread false None].

Lemma session_roundtrip_witness :
  exists st1 h env1,
    lmprof_initialize_profiler ex_env ex_st true false = (LMPROF_STARTUP_OK, st1, h, env1) /\
    lmprof_finalize_profiler env1 st1 h =
      (set_state (set_conf ex_st (BITFIELD_CLEAR (p_conf ex_st) LMPROF_OPT_CLOCK_INIT))
                 (BITFIELD_CLEAR (p_state ex_st) SESSION_FLAGS),
       each_thread (p_mode ex_st) drop_hook (set_singleton ex_env true)).
Proof.
  apply (session_roundtrip ex_env ex_st true false); try reflexivity.
  repeat constructor.
Defined.

End Session.
